(* ===== verification/_CoqProject ===== *)
-Q . S2P
Prelude.v
GoLib.v
GoStrings.v
Decimal.v
Model.v
CircuitBreaker.v
RateLimit.v
ProviderState.v
Strategies.v
MultiRouter.v
MemCache.v
MemStore.v
Registry.v
Validator.v
GoJSON.v
Ports.v
World.v
Demo.v
RouterExamples.v
Exchange.v
Exchanges.v
Aggregators.v
Single.v
Providers.v
Catalog.v
Alerts.v
Poller.v
Hub.v
BatchBuffer.v
Sql.v
Postgres.v
ClickHouse.v
StorageExamples.v
Redis.v
Binance.v
Admin.v
Config.v
Telemetry.v
Implementations.v
Adapters.v
Consensus.v
PriceService.v
Asked.v
Provenance.v
Interleave.v
Causality.v
Http.v
Middleware.v
Static.v
Main.v
Wiring.v
System.v
