(* ===== verification/Prelude.v ===== *)
(** * Crypto price aggregator: a verification development

    The program is a Go server that serves cryptocurrency prices.  A request
    goes through the HTTP router and its middlewares to a handler; the price
    service looks in a cache, asks one provider or several for a consensus,
    validates the answer, caches and stores it, and tells the listeners (the
    WebSocket hub and the alerts).  A router chooses the provider to ask by a
    strategy, under rate limits and circuit breakers.  Pollers refresh the
    pairs subscribed to, a Binance stream feeds the cache, and the stores keep
    the history.

    ** Files

    Foundations.
    - [Prelude]: the state monad [M], panics ([PM], the triple [runs_unless] and
      its total-correctness case [runs]), calls that wait for goroutines
      ([called]), framing ([keeps]), invariants with a result ([maintains]), the
      tactics and the list lemmas.
    - [GoLib]: int64 with its wrap-around, [time.Time] as nanoseconds since
      the zero time, [time.Duration], the clock, float64 (SpecFloat, rounding to
      nearest), [sort.Slice] and the order of a range over a map (classes
      constrained only by Go's documentation), number and time formatting and
      parsing.  [GoStrings]: UTF-8, [strings], the Unicode tables.  [GoJSON]:
      decoding of a JSON value into a Go value.
    - [Decimal]: shopspring/decimal as the class [DecimalOps] with the laws
      [DecimalLaws]; a division is exact up to [div_ulp].
    - [Model]: internal/domain/model.  [Ports]: internal/domain/port and the
      clock, each interface a class over a world [W] holding the state of the
      adapters.  [World]: the adapters of this program put behind those
      interfaces.  [Demo]: concrete instances for the witnesses.

    Routing (internal/router).
    - [CircuitBreaker] (circuitbreaker.go): refinement of a specification that
      only looks at the history of calls.  [RateLimit] (ratelimit.go): the
      bound on any interval.  [ProviderState] and [Strategies] (strategy.go,
      priority.go, roundrobin.go, smart.go): provider states live in a heap, as
      the Go pointers do; [StrategyOps]/[StrategyLaws] are what the router uses
      of a strategy, and each strategy discharges them.  [MultiRouter]
      (multi.go, single.go).  [RouterExamples]: their witnesses.

    Storage.
    - [MemCache], [MemStore] (storage/memory), [Redis] (storage/redis/cache.go,
      over an abstract client with the laws of a key-value store),
      [Registry] (internal/registry/registry.go) and [Catalog]
      (registry/coingecko.go, its catalogue over HTTP).
    - [Sql]: a connection ([SqlConn]), the loop that scans its rows, and the
      meaning of a SELECT as a relation between a table and the answers.
      [Postgres] (storage/postgres), [BatchBuffer] (clickhouse/buffer.go) and
      [ClickHouse] (clickhouse/store.go, schema.go, analytics.go): the
      operations with the texts they send; [PgLaws] and [ChLaws] say what the
      servers promise.  [StorageExamples]: two servers that keep these laws,
      and the witnesses on them.

    Services (internal/app, internal/scheduler).
    - [Validator] (validator.go, outlier.go), [Consensus] (consensus.go),
      [PriceService] (price_service*.go), [Asked] (which providers a request
      asks), [Alerts] (alert_service.go), [Poller] (poller.go, subscription_service.go), [Admin] (admin_service.go,
      analytics_service.go, reloader.go).

    Edges.
    - [Hub] (transport/ws), [Http] (the handlers), [Middleware] (middleware.go
      and the route table of router.go), [Static] (dashboard.go, swagger.go),
      [Binance] (stream/binance).
    - The forty HTTP adapters: [Exchange] is what they share (the request, the
      decoding, the recorded health), [Exchanges] the twenty exchanges and
      [Aggregators] the nine aggregators that ask coin by coin, each an
      instance of [Exchange]; [Single] the six that answer one coin a request;
      [Providers] those that ask for a batch, and the two token providers;
      [Implementations] has a record for each of the forty packages, its
      configuration, name, status and client; [Adapters] puts them behind the
      port.
    - [Config] (config.go), [Telemetry] (telemetry/otel.go), [Main] (the life
      of the process: cmd/server/main.go, setupLogger and runMigrations), and
      [Wiring] (wiring.go and the construction of the services in main.go),
      whose [live] world runs the service over the adapters.

    The whole program.
    - [Provenance]: the price service keeps an invariant of its ports, proved
      once against the class [Traceable].  [Interleave]: requests that run at
      the same time, call by call; a [view] gives each call of a request the
      world that the others have left it.  [Causality]: the next call of a
      request is determined by the worlds it has found.  [System]: the goroutines
      of main.go together, over the adapters, the in-memory cache and store and
      the registry of the [live] world, with the stream, the hub and the alerts.

    ** How code and model correspond

    A method that changes its receiver is a function to the new state, or a
    computation of [M]; a mutex makes a method one step.  Where several
    goroutines run, the state holds what is in flight and the theorems quantify
    over the interleavings: the reachable states of [Alerts], [Poller], [Hub],
    [Binance] and [System], the events of [BatchBuffer] and [ClickHouse], the
    scheduler and the steps of [Consensus].
    Objects shared through pointers (provider states, alerts, limiters,
    channels) are cells of a heap.  An error is a value of [error], and
    [errors_Is] follows the wrapping.

    A Go panic is [None] of [PM].  A provider's call may panic, and one of the
    forty does ([Adapters.may_panic]: coincodex, on a figure that
    [strconv.ParseFloat] reads as NaN or an infinity); nothing hides it on its way
    through the price service, where a panic of the request's own goroutine is
    for chi's Recoverer, and one of a goroutine of the consensus ends the
    process: [Consensus.Compute] is then [Gone], and the service's state says
    [crashed].  Where the model runs on after that it only has more states than
    the program.  The pool of a consensus has the program's [WaitGroup] counter and
    mutex: a goroutine waits for the mutex while another holds it, and the caller
    goes on when the counter is zero; were none able to step, it would wait for ever,
    which is [Gone] as well.

    A few steps are taken whole that the program takes in two: [getLimiter] and
    [Allow] of one request, [Select] beside the reports of other requests (which
    take only the provider's lock), an attempt of a ClickHouse flush from
    [PrepareBatch] to [Send].  [time.Now()] reads
    an arbitrary clock; the theorems that need it monotone say so.

    ** What the theorems show

    - In every state that the goroutines of the program reach, in any order of
      their steps, the prices cached, stored, pushed to WebSocket clients and
      sent to webhooks come from enabled adapters and were let pass by the
      validator, from a consensus of their answers, or from the stream; a
      request finished among others has an error, or such a price of the pair
      asked for, and panics only where coincodex can ([System]).
    - Where a returned price can come from, that the service answers unless a
      provider panics, and what a conversion, a batch, a contract address and the
      configured service answer ([PriceService], [Wiring]); which providers a
      request asks, and how often ([Asked]).
    - The consensus price cannot be moved by a minority; the computation is
      sound under every schedule, and its goroutines never wait for each other for
      ever ([Consensus]).
    - Breakers, limits, strategies and router: refinement, bounds, fairness,
      maximality, admissibility, invariants.
    - Alerts fire once; the hub never sends on a closed channel and delivers to
      exactly the interested clients; a pair has one poller; one stream is read
      at a time; no price is lost between the buffer and the attempts to write it.
    - The stores and caches return what was stored; candles aggregate what they
      say; contract maps agree, through any number of refreshes.
    - PostgreSQL's batches are atomic, its history refines the in-memory
      store's, and its candles cover whole intervals; whatever fails and
      interleaves, ClickHouse's table has a whole copy of each batch counted as
      written, and otherwise only parts, by month, of attempts that failed.
    - The process closes what it opened, the stores after it has asked the parts
      that write to them to stop (it does not wait for all of them).
    - The routes' statuses; administration requires the key; rate limits do not
      leak between addresses; validated coin IDs keep cache keys apart.
    - The adapters answer with the coin, currency and name they should, and
      report their health.
    - Behaviour that is wrong is proved too: a provider of invalid prices never
      opens its breaker; the single router does not recover; the request ID is
      never sent; sixteen adapters price in dollars whatever the currency, and
      upbit in won; coincodex panics on a capitalisation that is not a number;
      cryptocompare hides a refused key; the catalogue grows at each refresh;
      colons make cache keys collide; 0.0.0.0 passes the webhook check; a zero
      polling interval passes the configuration's; ClickHouse's statistics
      panic on a pair without prices, and its reports by provider never
      succeed on data; PostgreSQL loses the capitalisation, the volume and the
      change; traces go to the standard output whatever is configured; with
      both databases enabled PostgreSQL is not used; overlapping subscriptions
      of the Binance stream leave a connection that Close does not close, and a
      subscription that is dialing when Close comes goes on; a batch of two months
      that is sent again after a failure may be in the table in part twice; a
      contract priced by a token provider is registered under its address and not
      found the next time.
    - docs/openapi.yaml differs from the routes in ways the theorems on them show:
      it has a 403 for a wrong key, which is a 401 ([Middleware]), a 502 when every
      provider fails, which is a 503 or a 500, a check of the currency, of which
      there is none, and other bodies ([Http]).

    ** Fuel and bounds

    [runes_fuel] decodes at least a byte per step, so the length of the string
    is enough.  [Consensus.wait_all] runs with [pool_steps], the number of
    steps its goroutines have left, each turn consuming one; it is [None] when the
    fuel runs out, as when nothing can step, and the soundness theorem shows that
    neither happens.  The retry loop of the price service
    is structural on [maxRetries], the webhook loop on its three attempts.
    Loops without an end (the poller, the hub, the refresh, the read loop of
    the stream, the ticker of the buffer) are given as their turn, and run on
    the sequence of their events.

    ** Parameters

    Third-party code appears as classes: [DecimalOps], [RedisClient] and
    [RedisConn], [SqlConn], [PgTx], [PgPool] with [PgLaws], [ChClient] and
    [ChAggregates] with [ChLaws], [HTTPClient], the OpenTelemetry SDK
    ([Otel]), viper ([Viper]), chi and its middlewares ([Chi]), x/time/rate
    ([RateLimiter]), the embedded files ([EmbedFS]); what the process's
    environment answers is [Process].  Of the standard library, parsers and
    printers whose text does not matter here are classes as well ([GoFmt],
    [GoParse], [GoJSON], [NetParse], [PriceCodec], [SplitHostPort]), and the
    Unicode tables ([Unicode], fixed on ASCII).  Each class with laws has an
    instance in the development on which the witnesses run.  The laws state what
    the documentation does: chi answers 405 to a method it does not know before it
    looks at a mount, a key of Redis may be gone after it was set, and ClickHouse
    inserts a batch atomically in each partition only.

    ** Not modelled

    The WebSocket and Redis protocols, contexts (no service reads a value from
    one; cancellation of the consensus is left to the providers' own errors),
    logging, a configuration of [System] with Redis or a database in the place of
    the in-memory cache and store (these have theorems of their own), what the
    query of the anomalies means (its text, arguments and
    rows are modelled), the content type net/http sniffs for a page without
    one, and the mocks and test helpers. *)
From stdpp Require Export base tactics list option.
From Stdlib Require Export ZArith Lia.

#[export] Set Default Goal Selector "!".
#[global] Open Scope Z_scope.

(** ** State passing

    [M S A] is a computation over a state [S] that returns an [A].  Go methods
    with a pointer receiver, and the operations of an interface whose state is
    not visible, are computations of this type. *)
Definition M (S A : Type) : Type := S -> A * S.

Definition ret {S A} (a : A) : M S A := fun s => (a, s).
Definition bind {S A B} (m : M S A) (k : A -> M S B) : M S B :=
  fun s => let '(a, s') := m s in k a s'.
Definition run_state {S A} (m : M S A) (s : S) : S := snd (m s).
Definition run_value {S A} (m : M S A) (s : S) : A := fst (m s).

Declare Scope go_scope.
Delimit Scope go_scope with go.
Notation "x <- m ;; k" := (bind m (fun x => k))
  (at level 100, m at next level, right associativity) : go_scope.
Notation "m ;;; k" := (bind m (fun _ => k))
  (at level 100, right associativity) : go_scope.
Open Scope go_scope.

Lemma bind_ret_l {S A B} (a : A) (k : A -> M S B) s : bind (ret a) k s = k a s.
Proof. reflexivity. Qed.

Lemma bind_unfold {S A B} (m : M S A) (k : A -> M S B) s :
  bind m k s = k (fst (m s)) (snd (m s)).
Proof. unfold bind. by destruct (m s). Qed.

Lemma bind_assoc {S A B C} (m : M S A) (k : A -> M S B) (h : B -> M S C) s :
  bind (bind m k) h s = bind m (fun a => bind (k a) h) s.
Proof. unfold bind. by destruct (m s). Qed.

(** *** Panics

    A computation that may panic returns an option, [None] for the panic. *)
Notation PM S A := (M S (option A)).
Definition retp {S A} (a : A) : PM S A := ret (Some a).
Definition liftp {S A} (m : M S A) : PM S A := a <- m ;; retp a.
Definition of_option {S A} (o : option A) : PM S A := ret o.
Definition bindp {S A B} (m : PM S A) (k : A -> PM S B) : PM S B :=
  o <- m ;; match o with Some a => k a | None => ret None end.
Notation "x <~ m ;; k" := (bindp m (fun x => k))
  (at level 100, m at next level, right associativity) : go_scope.

(** [runs_unless E m s Q]: from [s] the computation does not panic unless [E],
    and [Q] holds of its value and final state; [runs] when it never panics. *)
Definition runs_unless {S A} (E : Prop) (m : PM S A) (s : S) (Q : A -> S -> Prop) : Prop :=
  match m s with (Some a, s') => Q a s' | (None, _) => E end.
Notation runs := (runs_unless False).

Lemma runs_retp {S A E} (a : A) (s : S) (Q : A -> S -> Prop) : Q a s -> runs_unless E (retp a) s Q.
Proof. done. Qed.

Lemma runs_bind {S A B E} (m : M S A) (k : A -> PM S B) s Q :
  runs_unless E (k (fst (m s))) (snd (m s)) Q -> runs_unless E (bind m k) s Q.
Proof. unfold runs_unless. by rewrite bind_unfold. Qed.

Lemma runs_bindp {S A B E} (m : PM S A) (k : A -> PM S B) s Q :
  runs_unless E m s (fun a s' => runs_unless E (k a) s' Q) -> runs_unless E (bindp m k) s Q.
Proof. unfold runs_unless, bindp, bind. by destruct (m s) as [[a|] s']. Qed.

Lemma runs_mono {S A E} (m : PM S A) s (Q Q' : A -> S -> Prop) :
  (forall a s', Q a s' -> Q' a s') -> runs_unless E m s Q -> runs_unless E m s Q'.
Proof. unfold runs_unless. destruct (m s) as [[a|] s']; auto. Qed.

Lemma runs_weaken {S A} (E E' : Prop) (m : PM S A) s (Q : A -> S -> Prop) :
  (E -> E') -> runs_unless E m s Q -> runs_unless E' m s Q.
Proof. unfold runs_unless. destruct (m s) as [[a|] s']; auto. Qed.

Lemma runs_elim {S A} (m : PM S A) s Q :
  runs m s Q -> exists a s', m s = (Some a, s') /\ Q a s'.
Proof. unfold runs_unless. destruct (m s) as [[a|] s']; [eauto|done]. Qed.

Lemma runs_value {S A E} (m : PM S A) s Q a s' : runs_unless E m s Q -> m s = (Some a, s') -> Q a s'.
Proof. unfold runs_unless. intros Hr Hm. by rewrite Hm in Hr. Qed.

(** *** Goroutines that panic

    A call that waits for goroutines it has started has a third outcome: a
    goroutine that panics ends the process, one that never finishes leaves the
    caller waiting.  Either way the caller never goes on: [Gone]. *)
Inductive called (A : Type) := Returns (a : A) | Panics | Gone.
Arguments Returns {A} _.
Arguments Panics {A}.
Arguments Gone {A}.
Definition retc {S A} (a : A) : M S (called A) := ret (Returns a).
Definition bindc {S A B} (m : M S (called A)) (k : A -> M S (called B)) : M S (called B) :=
  o <- m ;; match o with Returns a => k a | Panics => ret Panics | Gone => ret Gone end.
Notation "x <! m ;; k" := (bindc m (fun x => k))
  (at level 100, m at next level, right associativity) : go_scope.
(** Inside a goroutine, where nobody recovers; and in the caller. *)
Definition in_goroutine {S A} (m : PM S A) : M S (called A) :=
  o <- m ;; ret (match o with Some a => Returns a | None => Gone end).
Definition in_caller {S A} (m : PM S A) : M S (called A) :=
  o <- m ;; ret (match o with Some a => Returns a | None => Panics end).

(** *** Framing

    A computation that only moves the state along a preorder [R].  Proofs that
    an operation leaves part of the state alone go through the lemmas below,
    one per constructor of the monad. *)
Definition keeps {S A} (R : S -> S -> Prop) (m : M S A) : Prop :=
  forall s, R s (snd (m s)).

Create HintDb keeps.
Section keeps.
Context {S : Type} (R : S -> S -> Prop) `{!PreOrder R}.

Lemma keeps_ret {A} (a : A) : keeps R (ret a).
Proof. intros s. reflexivity. Qed.

Lemma keeps_bind {A B} (m : M S A) (k : A -> M S B) :
  keeps R m -> (forall a, keeps R (k a)) -> keeps R (bind m k).
Proof.
  intros Hm Hk s. rewrite bind_unfold. etrans; [apply Hm|apply Hk].
Qed.

Lemma keeps_if {A} (b : bool) (m1 m2 : M S A) :
  keeps R m1 -> keeps R m2 -> keeps R (if b then m1 else m2).
Proof. by destruct b. Qed.

Lemma keeps_run {A} (m : M S A) s a s' : keeps R m -> m s = (a, s') -> R s s'.
Proof. intros Hm Hs. specialize (Hm s). by rewrite Hs in Hm. Qed.
End keeps.
#[export] Hint Resolve keeps_ret keeps_bind keeps_if : keeps.

(** *** Invariants with a result

    [maintains I m Q]: run from a state that satisfies [I], the computation
    ends in one, with a value that satisfies [Q].  For a computation that may
    panic, [or_panic E Q] asks it of the values, and [E] of a panic. *)
Definition maintains {S A} (I : S -> Prop) (m : M S A) (Q : A -> Prop) : Prop :=
  forall s, I s -> I (snd (m s)) /\ Q (fst (m s)).
Definition or_panic {A} (E : Prop) (Q : A -> Prop) (o : option A) : Prop :=
  match o with Some a => Q a | None => E end.
Notation unless_panic := (or_panic True).
Definition any {A} : A -> Prop := fun _ => True.

Create HintDb maintains.
Section maintains.
Context {S : Type} (I : S -> Prop).

Lemma maintains_ret {A} (a : A) (Q : A -> Prop) : Q a -> maintains I (ret a) Q.
Proof. by intros HQ s Hs. Qed.
Lemma maintains_bind {A B} (m : M S A) (k : A -> M S B) R Q :
  maintains I m R -> (forall a, R a -> maintains I (k a) Q) -> maintains I (bind m k) Q.
Proof. intros Hm Hk s Hs. rewrite bind_unfold. apply Hm in Hs as [Hs Ha]. by apply Hk. Qed.
Lemma maintains_mono {A} (m : M S A) (R Q : A -> Prop) :
  maintains I m R -> (forall a, R a -> Q a) -> maintains I m Q.
Proof. intros Hm HQ s Hs. apply Hm in Hs as [? ?]. auto. Qed.
Lemma maintains_any {A} (m : M S A) (Q : A -> Prop) : maintains I m Q -> maintains I m any.
Proof. intros Hm. by eapply maintains_mono. Qed.

(** What holds of every value can be added to what is asked of it. *)
Lemma maintains_and {A} (m : M S A) (R Q : A -> Prop) :
  maintains I m R -> (forall s, I s -> Q (fst (m s))) -> maintains I m (fun a => R a /\ Q a).
Proof. intros Hm HQ s Hs. destruct (Hm s Hs) as [? ?]. auto. Qed.

Lemma maintains_retp {A} {E : Prop} (a : A) (Q : A -> Prop) : Q a -> maintains I (retp a) (or_panic E Q).
Proof. by intros HQ s Hs. Qed.
Lemma maintains_panic {A} {E : Prop} (Q : A -> Prop) : E -> maintains I (ret None) (or_panic E Q).
Proof. by intros HE s Hs. Qed.
Lemma maintains_of_option {A} {E : Prop} (o : option A) (Q : A -> Prop) :
  or_panic E Q o -> maintains I (of_option o) (or_panic E Q).
Proof. by intros HQ s Hs. Qed.
Lemma maintains_bindp {A B} {E : Prop} (m : PM S A) (k : A -> PM S B) R Q :
  maintains I m (or_panic E R) -> (forall a, R a -> maintains I (k a) (or_panic E Q)) ->
  maintains I (bindp m k) (or_panic E Q).
Proof.
  intros Hm Hk. eapply maintains_bind; [exact Hm|]. intros [a|] Ha; [by apply Hk|by apply maintains_panic].
Qed.
Lemma maintains_liftp {A} {E : Prop} (m : M S A) Q : maintains I m Q -> maintains I (liftp m) (or_panic E Q).
Proof. intros Hm. eapply maintains_bind; [exact Hm|]. intros a. apply maintains_retp. Qed.

(** Of a call that waits for goroutines: [Ep] of a panic, [Eg] when it is gone. *)
Definition or_gone {A} (Ep Eg : Prop) (Q : A -> Prop) (o : called A) : Prop :=
  match o with Returns a => Q a | Panics => Ep | Gone => Eg end.
Lemma maintains_retc {A} Ep Eg (a : A) (Q : A -> Prop) : Q a -> maintains I (retc a) (or_gone Ep Eg Q).
Proof. by intros HQ s Hs. Qed.
Lemma maintains_bindc {A B} Ep Eg (m : M S (called A)) (k : A -> M S (called B)) R Q :
  maintains I m (or_gone Ep Eg R) -> (forall a, R a -> maintains I (k a) (or_gone Ep Eg Q)) ->
  maintains I (bindc m k) (or_gone Ep Eg Q).
Proof.
  intros Hm Hk. eapply maintains_bind; [exact Hm|]. by intros [a| |] Ha; [apply Hk|intros s Hs..].
Qed.
Lemma maintains_in_goroutine {A} (Ep Eg : Prop) (m : PM S A) Q :
  maintains I m (or_panic Eg Q) -> maintains I (in_goroutine m) (or_gone Ep Eg Q).
Proof. intros Hm. eapply maintains_bind; [exact Hm|]. by intros [a|] Ha s Hs. Qed.
Lemma maintains_in_caller {A} (Ep Eg : Prop) (m : PM S A) Q :
  maintains I m (or_panic Ep Q) -> maintains I (in_caller m) (or_gone Ep Eg Q).
Proof. intros Hm. eapply maintains_bind; [exact Hm|]. by intros [a|] Ha s Hs. Qed.

Lemma maintains_panics {A} (E E' : Prop) (m : PM S A) Q :
  (E -> E') -> maintains I m (or_panic E Q) -> maintains I m (or_panic E' Q).
Proof. intros HE Hm. eapply maintains_mono; [exact Hm|]. intros [a|]; simpl; auto. Qed.
End maintains.

(** ** Tactics *)

(** Case analysis on every [match]/[if] scrutinee of the goal or of a
    hypothesis, keeping the equations. *)
Ltac case_goal :=
  match goal with
  | |- context [match ?x with _ => _ end] => destruct x eqn:?
  end.
Ltac case_hyp H :=
  match type of H with
  | context [match ?x with _ => _ end] => destruct x eqn:?
  end.
Ltac case_hyps H := repeat (case_hyp H; simplify_eq/=).

(** Boolean tests of the code, turned into propositions. *)
Ltac to_prop :=
  repeat match goal with
  | H : _ && _ = true |- _ => apply andb_true_iff in H; destruct H
  | H : _ || _ = false |- _ => apply orb_false_iff in H; destruct H
  | H : negb _ = true |- _ => apply negb_true_iff in H
  | H : negb _ = false |- _ => apply negb_false_iff in H
  | H : (_ <? _) = true |- _ => apply Z.ltb_lt in H
  | H : (_ <? _) = false |- _ => apply Z.ltb_ge in H
  | H : (_ <=? _) = true |- _ => apply Z.leb_le in H
  | H : (_ <=? _) = false |- _ => apply Z.leb_gt in H
  | H : (_ >? _) = true |- _ => rewrite Z.gtb_ltb in H; apply Z.ltb_lt in H
  | H : (_ >? _) = false |- _ => rewrite Z.gtb_ltb in H; apply Z.ltb_ge in H
  | H : (_ >=? _) = true |- _ => rewrite Z.geb_leb in H; apply Z.leb_le in H
  | H : (_ >=? _) = false |- _ => rewrite Z.geb_leb in H; apply Z.leb_gt in H
  | H : (_ =? _) = true |- _ => apply Z.eqb_eq in H
  | H : (_ =? _) = false |- _ => apply Z.eqb_neq in H
  end.

(** ** Lists *)

Section lists.
Context {A : Type}.
Implicit Types l : list A.

Lemma Forall_snoc (P : A -> Prop) l x : Forall P (l ++ [x]) <-> Forall P l /\ P x.
Proof. rewrite Forall_app, Forall_singleton. done. Qed.

Lemma length_snoc l x : length (l ++ [x]) = S (length l).
Proof. rewrite length_app. simpl. lia. Qed.

(** A left fold keeps an invariant every step keeps. *)
Lemma fold_left_ind {B} (P : B -> Prop) (f : B -> A -> B) l b :
  P b -> (forall b x, x ∈ l -> P b -> P (f b x)) -> P (fold_left f l b).
Proof.
  revert b. induction l as [|x l IH]; intros b Hb Hf; simpl; [done|].
  apply IH; [|intros; apply Hf; [by apply elem_of_cons; right|done]].
  apply Hf; [apply elem_of_cons; by left|done].
Qed.

(** Boolean filtering, as a Go loop with [append] does it. *)
Definition bfilter (f : A -> bool) l : list A := List.filter f l.

Lemma elem_of_bfilter (f : A -> bool) l x : x ∈ bfilter f l <-> f x = true /\ x ∈ l.
Proof. unfold bfilter. rewrite !list_elem_of_In, filter_In. tauto. Qed.

Lemma bfilter_nonempty (f : A -> bool) l : length (bfilter f l) <> 0%nat <-> exists x, x ∈ l /\ f x = true.
Proof.
  split.
  - intros Hn. destruct (bfilter f l) as [|x k] eqn:E; [done|]. exists x.
    assert (x ∈ bfilter f l) as [? ?]%elem_of_bfilter by (rewrite E; apply list_elem_of_here). done.
  - intros (x & Hx & Hf) Hn. assert (x ∈ bfilter f l) as Hin by (by apply elem_of_bfilter).
    apply nil_length_inv in Hn. rewrite Hn in Hin. by apply not_elem_of_nil in Hin.
Qed.

Lemma bfilter_partition (f : A -> bool) l :
  bfilter f l ++ bfilter (fun x => negb (f x)) l ≡ₚ l.
Proof.
  unfold bfilter. induction l as [|x l IH]; simpl; [done|].
  destruct (f x); simpl; [by constructor|].
  rewrite <- Permutation_middle. by constructor.
Qed.
End lists.

(** Elements related pointwise stay so when one of the lists is permuted. *)
Lemma Forall2_perm_r {A B} (R : A -> B -> Prop) l k k' : Forall2 R l k -> k ≡ₚ k' ->
  exists l', l' ≡ₚ l /\ Forall2 R l' k'.
Proof.
  intros Hl Hk. revert l Hl. induction Hk as [|b k k' _ IH|b c k|k1 k2 k3 _ IH1 _ IH2]; intros l Hl.
  - exists l. done.
  - inversion Hl as [|a ? l0 ? Ha Hl0]; subst. destruct (IH _ Hl0) as (l' & Hp & Hl').
    exists (a :: l'). split; [by rewrite Hp|by constructor].
  - inversion Hl as [|a ? l0 ? Ha Hl0]; subst. inversion Hl0 as [|a' ? l1 ? Ha' Hl1]; subst.
    exists (a' :: a :: l1). split; [constructor|by repeat constructor].
  - destruct (IH1 _ Hl) as (l' & Hp & Hl'). destruct (IH2 _ Hl') as (l'' & Hp' & Hl'').
    exists l''. split; [by rewrite Hp'|done].
Qed.

(** ** Hint databases

    [go] collects the facts on machine integers and clocks, [agg] the
    invariants of the components. *)
Create HintDb go.
Create HintDb agg.
#[export] Hint Resolve Z.le_refl Z.lt_le_incl : go.
