(* ===== verification/GoLib.v ===== *)
(** * The parts of Go and of its standard library the program uses

    64-bit integers, [time.Time]/[time.Duration], the clock, [float64],
    [sort.Slice], [strings], UTF-8 decoding. *)
From S2P Require Import Prelude.
From stdpp Require Export strings sorting gmap pretty.
From Stdlib Require Export SpecFloat.
From Stdlib Require Import Ascii String.
Open Scope Z_scope.

(** ** int, int64 *)
Definition min_int64 : Z := - 2 ^ 63.
Definition max_int64 : Z := 2 ^ 63 - 1.
Definition wrap64 (z : Z) : Z := (z + 2 ^ 63) mod 2 ^ 64 - 2 ^ 63.
Definition int64_ok (z : Z) : Prop := min_int64 <= z <= max_int64.
Definition clamp64 (z : Z) : Z := Z.max min_int64 (Z.min max_int64 z).

Lemma wrap64_id z : int64_ok z -> wrap64 z = z.
Proof.
  unfold int64_ok, min_int64, max_int64, wrap64. intros.
  rewrite Z.mod_small by lia. lia.
Qed.

Lemma wrap64_range z : int64_ok (wrap64 z).
Proof.
  unfold int64_ok, min_int64, max_int64, wrap64.
  pose proof (Z.mod_pos_bound (z + 2 ^ 63) (2 ^ 64)). lia.
Qed.

Lemma clamp64_range z : int64_ok (clamp64 z).
Proof. unfold int64_ok, clamp64, min_int64, max_int64. lia. Qed.
#[export] Hint Resolve wrap64_range clamp64_range : go.

(** ** time

    A [time.Time] is the number of nanoseconds since the zero time (January 1,
    year 1, UTC); a [time.Duration] is an int64 of nanoseconds. *)
Notation Time := Z (only parsing).
Notation Duration := Z (only parsing).

Definition Millisecond : Duration := 1000000.
Definition Second : Duration := 1000 * Millisecond.
Definition Minute : Duration := 60 * Second.
Definition Hour : Duration := 60 * Minute.

Definition time_IsZero (t : Time) : bool := t =? 0.
Definition time_After (t u : Time) : bool := t >? u.
Definition time_Before (t u : Time) : bool := t <? u.
Definition time_Add (t : Time) (d : Duration) : Time := t + d.
(** [Sub] saturates at the ends of the int64 range. *)
Definition time_Sub (t u : Time) : Duration := clamp64 (t - u).
(** [time.Since(t)] at the clock reading [now]. *)
Definition time_Since (now t : Time) : Duration := time_Sub now t.
(** [Truncate] rounds down to a multiple of [d] since the zero time. *)
Definition time_Truncate (t : Time) (d : Duration) : Time :=
  if d <=? 0 then t else t - t mod d.
Definition Duration_Milliseconds (d : Duration) : Z := Z.quot d Millisecond.

(** The Unix epoch on this scale; [t.UnixMilli()] rounds down. *)
Definition unix_epoch : Time := 62135596800 * Second.
Definition time_UnixMilli (t : Time) : Z := wrap64 ((t - unix_epoch) / Millisecond).
Definition from_UnixMilli (ms : Z) : Time := unix_epoch + ms * Millisecond.

Lemma UnixMilli_roundtrip t : int64_ok ((t - unix_epoch) / Millisecond) ->
  t - Millisecond < from_UnixMilli (time_UnixMilli t) <= t.
Proof.
  intros Ht. unfold from_UnixMilli, time_UnixMilli. rewrite wrap64_id by done.
  pose proof (Z.div_mod (t - unix_epoch) Millisecond ltac:(discriminate)).
  pose proof (Z.mod_pos_bound (t - unix_epoch) Millisecond ltac:(reflexivity)). lia.
Qed.

Lemma time_Truncate_le t d : time_Truncate t d <= t.
Proof.
  unfold time_Truncate. destruct (d <=? 0) eqn:E; to_prop; [lia|].
  pose proof (Z.mod_pos_bound t d). lia.
Qed.

Lemma time_Truncate_gt t d : 0 < d -> t < time_Truncate t d + d.
Proof.
  intros Hd. unfold time_Truncate. rewrite (proj2 (Z.leb_gt d 0)) by lia.
  pose proof (Z.mod_pos_bound t d). lia.
Qed.

Lemma time_Truncate_mult t d : 0 < d -> (d | time_Truncate t d).
Proof.
  intros Hd. unfold time_Truncate. rewrite (proj2 (Z.leb_gt d 0)) by lia.
  exists (t / d). pose proof (Z.div_mod t d). lia.
Qed.

(** The elapsed time exceeds a duration exactly when the instants say so: the
    saturation of [Sub] cannot change the comparison with an int64. *)
Lemma time_Since_gt now t d :
  int64_ok d -> d < max_int64 -> (time_Since now t >? d) = (now - t >? d).
Proof.
  unfold time_Since, time_Sub, clamp64, int64_ok, min_int64, max_int64. intros.
  rewrite !Z.gtb_ltb.
  destruct (d <? now - t) eqn:E; to_prop; [apply Z.ltb_lt|apply Z.ltb_ge]; lia.
Qed.

Lemma time_Since_gt_mono now now' t d :
  now <= now' -> (time_Since now t >? d) = true -> (time_Since now' t >? d) = true.
Proof.
  unfold time_Since, time_Sub, clamp64, min_int64, max_int64.
  rewrite !Z.gtb_ltb. intros. to_prop. apply Z.ltb_lt. lia.
Qed.

(** *** The clock

    [time.Now()] returns the readings of a clock in order.  A reading that the
    code skips on some branch is still consumed by the model: the readings are
    arbitrary, so this loses no execution. *)
Record Clock := mkClock { ck_read : nat -> Time; ck_pos : nat }.
Definition tick (c : Clock) : Time * Clock :=
  (ck_read c (ck_pos c), mkClock (ck_read c) (S (ck_pos c))).
(** The clock never runs backwards (Go's monotonic reading). *)
Definition clock_mono (c : Clock) : Prop :=
  forall i j, (i <= j)%nat -> ck_read c i <= ck_read c j.
Definition const_clock (t : Time) : Clock := mkClock (fun _ => t) 0.

(** ** float64

    IEEE 754 binary64 with rounding to nearest even, on the Standard Library's
    executable specification. *)
Notation float64 := spec_float (only parsing).
Definition fprec : Z := 53.
Definition femax : Z := 1024.
Definition f_of_int (z : Z) : float64 := binary_normalize fprec femax z 0 false.
Definition fadd (x y : float64) : float64 := SFadd fprec femax x y.
Definition fsub (x y : float64) : float64 := SFsub fprec femax x y.
Definition fmul (x y : float64) : float64 := SFmul fprec femax x y.
Definition fdiv (x y : float64) : float64 := SFdiv fprec femax x y.
Definition fneg (x : float64) : float64 := SFopp x.
Definition fltb (x y : float64) : bool := SFltb x y.
Definition fgtb (x y : float64) : bool := SFltb y x.
Definition fleb (x y : float64) : bool := SFleb x y.
Definition feqb (x y : float64) : bool := SFeqb x y.
(** A decimal literal [n/d] of the source with [n] and [d] exact: the quotient
    of two exact floats is rounded once, as the literal is. *)
Definition f_lit (n d : Z) : float64 := fdiv (f_of_int n) (f_of_int d).
Definition fzero : float64 := S754_zero false.
Definition fone : float64 := f_of_int 1.
Definition fneginf : float64 := S754_infinity true.
(** Conversion of a float64 to an integer type: truncation towards zero. *)
Definition f_to_int (f : float64) : Z :=
  match f with
  | S754_finite s m e =>
      let v := if 0 <=? e then Z.pos m * 2 ^ e else Z.pos m / 2 ^ (- e) in
      wrap64 (if s then - v else v)
  | _ => 0
  end.

(** [d.Seconds()], whole seconds and a fraction, each a float. *)
Definition Duration_Seconds (d : Duration) : float64 :=
  fadd (f_of_int (Z.quot d Second)) (fdiv (f_of_int (Z.rem d Second)) (f_of_int Second)).

(** [<] on floats is the lexicographic order of a sign-and-magnitude key. *)
Definition fkey (f : float64) : option (Z * Z * Z) :=
  match f with
  | S754_nan => None
  | S754_zero _ => Some (0, 0, 0)
  | S754_infinity s => Some (if s then -2 else 2, 0, 0)
  | S754_finite false m e => Some (1, e, Z.pos m)
  | S754_finite true m e => Some (-1, - e, - Z.pos m)
  end.
Definition klt (a b : Z * Z * Z) : Prop :=
  a.1.1 < b.1.1 \/ (a.1.1 = b.1.1 /\ (a.1.2 < b.1.2 \/ (a.1.2 = b.1.2 /\ a.2 < b.2))).

Lemma fltb_key x y :
  fltb x y = true <-> exists a b, fkey x = Some a /\ fkey y = Some b /\ klt a b.
Proof.
  unfold fltb, SFltb, klt. split.
  - destruct x as [sx|[]| |[] mx ex], y as [sy|[]| |[] my ey]; simpl;
      try discriminate; intros H; do 2 eexists; split_and!; eauto; simpl; try lia.
    + destruct (Z.compare_spec ex ey); try discriminate; [|lia].
      change (Pos.compare_cont Eq mx my) with (Pos.compare mx my) in H.
      destruct (Pos.compare_spec mx my); simpl in H; try discriminate; lia.
    + destruct (Z.compare_spec ex ey); try discriminate; [|lia].
      change (Pos.compare_cont Eq mx my) with (Pos.compare mx my) in H.
      destruct (Pos.compare_spec mx my); simpl in H; try discriminate; lia.
  - intros (a & b & Ha & Hb & Hlt).
    destruct x as [sx|[]| |[] mx ex], y as [sy|[]| |[] my ey]; simplify_eq/=;
      try lia; try reflexivity.
    all: change (Pos.compare_cont Eq mx my) with (Pos.compare mx my).
    all: destruct (Z.compare_spec ex ey); try lia; try reflexivity.
    all: destruct (Pos.compare_spec mx my); try lia; reflexivity.
Qed.

Lemma fltb_trans x y z : fltb x y = true -> fltb y z = true -> fltb x z = true.
Proof.
  rewrite !fltb_key. intros (a & b & Ha & Hb & Hab) (b' & c & Hb' & Hc & Hbc).
  assert (b' = b) as -> by congruence.
  exists a, c. split_and!; auto. unfold klt in *. lia.
Qed.

Lemma fltb_irrefl x : fltb x x = false.
Proof.
  apply not_true_is_false. rewrite fltb_key. intros (a & b & Ha & Hb & H).
  assert (b = a) as -> by congruence. unfold klt in H. lia.
Qed.

Lemma fltb_not_nan x y : fltb x y = true -> fkey x <> None /\ fkey y <> None.
Proof. rewrite fltb_key. naive_solver. Qed.

(** The order is total away from NaN. *)
Lemma fltb_neg_trans a b c :
  fkey b <> None -> fltb b c = false -> fltb a c = true -> fltb a b = true.
Proof.
  destruct (fkey b) as [kb|] eqn:Eb; [intros _|done].
  rewrite <- not_true_iff_false, !fltb_key. intros Hbc (ka & kc & Ha & Hc & Hac).
  exists ka, kb. split_and!; auto. destruct ka as [[? ?] ?], kb as [[b1 b2] b3], kc as [[c1 c2] c3].
  assert (~ klt (b1, b2, b3) (c1, c2, c3)) by naive_solver.
  unfold klt in *. simpl in *. lia.
Qed.

(** ** sort.Slice

    [sort.Slice] is not stable and its algorithm is not fixed by its
    documentation: an implementation is anything that permutes the slice and
    orders it when [less] is a strict weak order. *)
Record strict_weak {A} (less : A -> A -> bool) : Prop := {
  sw_irrefl : forall x, less x x = false;
  sw_trans : forall x y z, less x y = true -> less y z = true -> less x z = true;
  sw_incomp : forall x y z, less x y = true -> less x z = true \/ less z y = true }.

Class SortSlice := {
  sort_slice : forall {A : Type}, (A -> A -> bool) -> list A -> list A;
  sort_slice_perm : forall {A} (less : A -> A -> bool) l, sort_slice less l ≡ₚ l;
  sort_slice_sorted : forall {A} (less : A -> A -> bool) l, strict_weak less ->
    StronglySorted (fun x y => less y x = false) (sort_slice less l) }.

(** Insertion sort, which Go runs on short slices, implements it. *)
Fixpoint insert_by {A} (less : A -> A -> bool) (x : A) (l : list A) : list A :=
  match l with
  | [] => [x]
  | y :: l' => if less x y then x :: l else y :: insert_by less x l'
  end.
Fixpoint insertion_sort_aux {A} (less : A -> A -> bool) (l acc : list A) : list A :=
  match l with
  | [] => acc
  | x :: l' => insertion_sort_aux less l' (insert_by less x acc)
  end.
Definition insertion_sort {A} (less : A -> A -> bool) (l : list A) : list A :=
  insertion_sort_aux less l [].

Lemma insert_by_perm {A} (less : A -> A -> bool) x l : insert_by less x l ≡ₚ x :: l.
Proof.
  induction l as [|y l IH]; simpl; [done|].
  destruct (less x y); [done|]. rewrite IH. constructor.
Qed.

Lemma insertion_sort_perm {A} (less : A -> A -> bool) l : insertion_sort less l ≡ₚ l.
Proof.
  enough (forall acc, insertion_sort_aux less l acc ≡ₚ l ++ acc) as H.
  { unfold insertion_sort. rewrite H. by rewrite app_nil_r. }
  induction l as [|x l IH]; intros acc; simpl; [done|].
  rewrite IH, insert_by_perm. by rewrite <- Permutation_middle.
Qed.

Lemma insert_by_sorted {A} (less : A -> A -> bool) x l : strict_weak less ->
  StronglySorted (fun x y => less y x = false) l ->
  StronglySorted (fun x y => less y x = false) (insert_by less x l).
Proof.
  intros [Hirr Htr Hin]. induction 1 as [|y l Hl IH Hy]; simpl; [repeat constructor|].
  destruct (less x y) eqn:E.
  - constructor; [by constructor|]. constructor.
    { apply not_true_is_false. intros E'. pose proof (Htr _ _ _ E E').
      rewrite Hirr in H. done. }
    eapply Forall_impl; [exact Hy|]. simpl. intros z Hz.
    apply not_true_is_false. intros Ez. pose proof (Htr _ _ _ Ez E). congruence.
  - constructor; [done|]. rewrite insert_by_perm. by constructor.
Qed.

Lemma insertion_sort_sorted {A} (less : A -> A -> bool) l : strict_weak less ->
  StronglySorted (fun x y => less y x = false) (insertion_sort less l).
Proof.
  intros Hw. enough (forall acc, StronglySorted (fun x y => less y x = false) acc ->
    StronglySorted (fun x y => less y x = false) (insertion_sort_aux less l acc)) as H.
  { apply H. constructor. }
  induction l as [|x l IH]; intros acc Ha; simpl; [done|].
  apply IH. by apply insert_by_sorted.
Qed.

Definition insertion_SortSlice : SortSlice := {|
  sort_slice := @insertion_sort;
  sort_slice_perm := @insertion_sort_perm;
  sort_slice_sorted := @insertion_sort_sorted |}.

Lemma StronglySorted_bfilter {A} (R : relation A) (f : A -> bool) l :
  StronglySorted R l -> StronglySorted R (bfilter f l).
Proof.
  unfold bfilter. induction 1 as [|a l _ IH Ha]; simpl; [constructor|].
  destruct (f a); [|done]. constructor; [done|].
  rewrite Forall_forall in Ha |- *. intros x. rewrite list_elem_of_In, filter_In, <- list_elem_of_In. intros []. by apply Ha.
Qed.

Lemma StronglySorted_key {A} (key : A -> Z) l :
  StronglySorted Z.lt (key <$> l) -> StronglySorted (fun a b => key a < key b) l.
Proof.
  induction l as [|x l IH]; [constructor|]. rewrite fmap_cons. inversion 1 as [|?? Hl Hx]; subst.
  constructor; [by apply IH|by rewrite Forall_fmap in Hx].
Qed.

(** The order of a key in [Z] is a strict weak order. *)
Lemma strict_weak_key {A} (key : A -> Z) : strict_weak (fun x y => key x <? key y).
Proof.
  split.
  - intros. apply Z.ltb_irrefl.
  - intros ???. rewrite !Z.ltb_lt. lia.
  - intros ???. rewrite !Z.ltb_lt. lia.
Qed.
#[export] Hint Resolve strict_weak_key : go.

(** ** Maps

    A Go [range] over a map visits its entries in an unspecified order. *)
Class MapRange := {
  map_range : forall {K A} `{Countable K}, gmap K A -> list (K * A);
  map_range_perm : forall {K A} `{Countable K} (m : gmap K A), map_range m ≡ₚ map_to_list m }.
Definition sorted_MapRange : MapRange :=
  {| map_range := fun _ _ _ _ m => map_to_list m; map_range_perm := fun _ _ _ _ _ => reflexivity _ |}.

Lemma elem_of_map_range `{MapRange} {K A} `{Countable K} (m : gmap K A) k v :
  (k, v) ∈ map_range m <-> m !! k = Some v.
Proof. rewrite map_range_perm. apply elem_of_map_to_list. Qed.

Lemma NoDup_map_range_fst `{MapRange} {K A} `{Countable K} (m : gmap K A) :
  NoDup (map_range m).*1.
Proof. rewrite map_range_perm. apply NoDup_fst_map_to_list. Qed.

(** ** fmt

    The renderings of numbers and instants the program puts in messages. *)
Class GoFmt := {
  fmt_2f : float64 -> string;
  fmt_RFC3339 : Time -> string;
  fmt_wsTime : Time -> string;
  fmt_d : Z -> string }.
Definition plain_GoFmt : GoFmt :=
  {| fmt_2f := fun f => pretty (f_to_int f); fmt_RFC3339 := fun t => pretty t;
     fmt_wsTime := fun t => pretty t; fmt_d := fun z => pretty z |}.

(** The parsers of packages time and strconv. *)
Class GoParse := {
  time_ParseRFC3339 : string -> option Time;
  time_ParseDuration : string -> option Duration;
  strconv_ParseFloat : string -> option float64 }.
