(* ===== verification/GoStrings.v ===== *)
(** * Package strings, unicode/utf8 and unicode

    Go strings are byte strings, here [string]; ranging over one, and the case
    conversions, decode it as UTF-8 with U+FFFD for every invalid byte.  The
    Unicode tables are a class, fixed on ASCII by its laws. *)
From S2P Require Import Prelude GoLib.
From Stdlib Require Import Ascii String.
Open Scope Z_scope.

Definition byte_of (c : ascii) : Z := Z.of_nat (nat_of_ascii c).
Definition of_byte (z : Z) : ascii := ascii_of_nat (Z.to_nat z).
Definition RuneError : Z := 65533.

Definition in_rng (lo hi : Z) (c : ascii) : bool := (lo <=? byte_of c) && (byte_of c <=? hi).
(** The payload of a continuation byte. *)
Definition cont (c : ascii) : Z := Z.land (byte_of c) 63.

(** [utf8.DecodeRuneInString] of a non-empty string: the rune and what follows
    it.  An invalid first byte is one [RuneError]. *)
Definition decode_rune (c0 : ascii) (s : string) : Z * string :=
  let b0 := byte_of c0 in
  let bad := (RuneError, s) in
  if b0 <? 128 then (b0, s)
  else if b0 <? 194 then bad
  else if b0 <? 224 then
    match s with
    | String c1 s1 =>
        if in_rng 128 191 c1 then (Z.lor (Z.shiftl (Z.land b0 31) 6) (cont c1), s1) else bad
    | _ => bad
    end
  else if b0 <? 240 then
    match s with
    | String c1 (String c2 s2) =>
        if in_rng (if b0 =? 224 then 160 else 128) (if b0 =? 237 then 159 else 191) c1 &&
           in_rng 128 191 c2
        then (Z.lor (Z.shiftl (Z.land b0 15) 12) (Z.lor (Z.shiftl (cont c1) 6) (cont c2)), s2)
        else bad
    | _ => bad
    end
  else if b0 <? 245 then
    match s with
    | String c1 (String c2 (String c3 s3)) =>
        if in_rng (if b0 =? 240 then 144 else 128) (if b0 =? 244 then 143 else 191) c1 &&
           in_rng 128 191 c2 && in_rng 128 191 c3
        then (Z.lor (Z.shiftl (Z.land b0 7) 18) (Z.lor (Z.shiftl (cont c1) 12)
               (Z.lor (Z.shiftl (cont c2) 6) (cont c3))), s3)
        else bad
    | _ => bad
    end
  else bad.

(** [for _, c := range s]; every rune takes at least a byte, so the length of
    the string is fuel enough. *)
Fixpoint runes_fuel (fuel : nat) (s : string) : list Z :=
  match fuel, s with
  | S fuel, String c s' => let '(r, s') := decode_rune c s' in r :: runes_fuel fuel s'
  | _, _ => []
  end.
Definition runes (s : string) : list Z := runes_fuel (String.length s) s.

Definition encode_rune (r : Z) : string :=
  let three r :=
    String (of_byte (Z.lor 224 (Z.shiftr r 12)))
      (String (of_byte (Z.lor 128 (Z.land (Z.shiftr r 6) 63)))
        (String (of_byte (Z.lor 128 (Z.land r 63))) EmptyString)) in
  if (r <? 0) || (1114111 <? r) || ((55296 <=? r) && (r <=? 57343)) then three RuneError
  else if r <? 128 then String (of_byte r) EmptyString
  else if r <? 2048 then
    String (of_byte (Z.lor 192 (Z.shiftr r 6))) (String (of_byte (Z.lor 128 (Z.land r 63))) EmptyString)
  else if r <? 65536 then three r
  else String (of_byte (Z.lor 240 (Z.shiftr r 18)))
    (String (of_byte (Z.lor 128 (Z.land (Z.shiftr r 12) 63)))
      (String (of_byte (Z.lor 128 (Z.land (Z.shiftr r 6) 63)))
        (String (of_byte (Z.lor 128 (Z.land r 63))) EmptyString))).
Definition encode_runes (l : list Z) : string := String.concat "" (encode_rune <$> l).

Definition rng (lo hi r : Z) : bool := (lo <=? r) && (r <=? hi).
Definition ascii_lower (r : Z) : Z := if rng 65 90 r then r + 32 else r.
Definition ascii_upper (r : Z) : Z := if rng 97 122 r then r - 32 else r.
Definition ascii_letter (r : Z) : bool := rng 65 90 r || rng 97 122 r.
Definition ascii_digit (r : Z) : bool := rng 48 57 r.

Class Unicode := {
  u_ToLower : Z -> Z;
  u_ToUpper : Z -> Z;
  u_IsLetter : Z -> bool;
  u_IsDigit : Z -> bool;
  u_ToLower_ascii : forall r, rng 0 127 r = true -> u_ToLower r = ascii_lower r;
  u_ToUpper_ascii : forall r, rng 0 127 r = true -> u_ToUpper r = ascii_upper r;
  u_IsLetter_ascii : forall r, rng 0 127 r = true -> u_IsLetter r = ascii_letter r;
  u_IsDigit_ascii : forall r, rng 0 127 r = true -> u_IsDigit r = ascii_digit r }.

(** The tables cut down to ASCII. *)
Definition ascii_Unicode : Unicode := {|
  u_ToLower := ascii_lower; u_ToUpper := ascii_upper;
  u_IsLetter := ascii_letter; u_IsDigit := ascii_digit;
  u_ToLower_ascii _ _ := eq_refl; u_ToUpper_ascii _ _ := eq_refl;
  u_IsLetter_ascii _ _ := eq_refl; u_IsDigit_ascii _ _ := eq_refl |}.

Section strings.
Context `{Unicode}.
Definition ToLower (s : string) : string := encode_runes (u_ToLower <$> runes s).
Definition ToUpper (s : string) : string := encode_runes (u_ToUpper <$> runes s).
End strings.

(** [strings.Split(s, sep)] for a one-byte separator. *)
Fixpoint split_byte (sep : ascii) (s : string) : list string :=
  match s with
  | EmptyString => [EmptyString]
  | String c s' =>
      if bool_decide (c = sep) then EmptyString :: split_byte sep s'
      else match split_byte sep s' with
           | [] => [String c EmptyString]
           | w :: ws => String c w :: ws
           end
  end.

(** [strings.Contains] *)
Fixpoint contains (s sub : string) : bool :=
  String.prefix sub s ||
  match s with EmptyString => false | String _ s' => contains s' sub end.

(** [unicode.IsSpace], and [strings.TrimSpace] of a string. *)
Definition IsSpace (r : Z) : bool :=
  rng 9 13 r || (r =? 32) || (r =? 133) || (r =? 160) || (r =? 5760) ||
  rng 8192 8202 r || (r =? 8232) || (r =? 8233) || (r =? 8239) || (r =? 8287) || (r =? 12288).

(** The runes of a string with the bytes each one came from. *)
Fixpoint rune_bytes_fuel (fuel : nat) (s : string) : list (Z * string) :=
  match fuel, s with
  | S fuel, String c s' =>
      let '(r, rest) := decode_rune c s' in
      (r, String.substring 0 (String.length s - String.length rest) s) :: rune_bytes_fuel fuel rest
  | _, _ => []
  end.
Fixpoint drop_spaces (l : list (Z * string)) : list (Z * string) :=
  match l with
  | (r, b) :: l' => if IsSpace r then drop_spaces l' else l
  | [] => []
  end.
Definition TrimSpace (s : string) : string :=
  let l := drop_spaces (rune_bytes_fuel (String.length s) s) in
  String.concat "" (rev (drop_spaces (rev l))).*2.

(** [strings.TrimSuffix] *)
Definition TrimSuffix (s suffix : string) : string :=
  let n := (String.length s - String.length suffix)%nat in
  if bool_decide (String.substring n (String.length suffix) s = suffix) then String.substring 0 n s else s.
(** [strings.TrimRight(s, "/")] *)
Fixpoint trim_slashes (s : string) : string :=
  match s with
  | EmptyString => EmptyString
  | String c s' =>
      match trim_slashes s' with
      | EmptyString => if bool_decide (c = "/"%char) then EmptyString else String c EmptyString
      | t => String c t
      end
  end.

(** ** ASCII strings *)
Fixpoint is_ascii (s : string) : bool :=
  match s with EmptyString => true | String c s' => (byte_of c <? 128) && is_ascii s' end.
Fixpoint map_bytes (f : Z -> Z) (s : string) : string :=
  match s with EmptyString => EmptyString | String c s' => String (of_byte (f (byte_of c))) (map_bytes f s') end.
Fixpoint bytes_of (s : string) : list Z :=
  match s with EmptyString => [] | String c s' => byte_of c :: bytes_of s' end.

Lemma runes_ascii s : is_ascii s = true -> runes s = bytes_of s.
Proof.
  unfold runes. induction s as [|c s IH]; simpl; [done|]. rewrite andb_true_iff. intros [Hc Hs].
  unfold decode_rune. rewrite Hc. f_equal. by apply IH.
Qed.

Lemma byte_of_range c : 0 <= byte_of c < 256.
Proof. unfold byte_of. pose proof (nat_ascii_bounded c). lia. Qed.

Lemma encode_rune_ascii r : 0 <= r < 128 -> encode_rune r = String (of_byte r) EmptyString.
Proof.
  intros Hr. unfold encode_rune.
  rewrite (proj2 (Z.ltb_ge r 0)), (proj2 (Z.ltb_ge 1114111 r)), (proj2 (Z.leb_gt 55296 r)),
    (proj2 (Z.ltb_lt r 128)) by lia. done.
Qed.

Lemma append_nil_r s : (s +:+ "")%string = s.
Proof. induction s as [|c s IH]; [done|]. change (String c (s +:+ "") = String c s)%string. by rewrite IH. Qed.

Lemma encode_runes_cons r l : encode_runes (r :: l) = (encode_rune r +:+ encode_runes l)%string.
Proof.
  unfold encode_runes. rewrite fmap_cons. simpl. destruct (encode_rune <$> l); simpl; [|done].
  by rewrite append_nil_r.
Qed.

Lemma ToLower_ascii `{Unicode} s : is_ascii s = true -> ToLower s = map_bytes ascii_lower s.
Proof.
  intros Hs. unfold ToLower. rewrite runes_ascii by done.
  induction s as [|c s IH]; [done|]. simpl in Hs. to_prop.
  cbn [bytes_of fmap list_fmap map_bytes]. rewrite encode_runes_cons.
  pose proof (byte_of_range c).
  assert (rng 0 127 (byte_of c) = true) as Hb.
  { unfold rng. apply andb_true_iff. rewrite !Z.leb_le. lia. }
  rewrite u_ToLower_ascii by done.
  rewrite encode_rune_ascii.
  - simpl. f_equal. by apply IH.
  - unfold ascii_lower, rng. case_match; to_prop; lia.
Qed.
