(* ===== verification/Decimal.v ===== *)
(** * shopspring/decimal, as an interface

    Prices are values of the third-party package [shopspring/decimal].  The
    model takes the operations the program calls as a class, and what it relies
    on as the laws of a second class, stated through the rational number a
    decimal denotes.  [Div] and [NewFromFloat] panic on a zero divisor and on a
    NaN or an infinity: they return [None] there. *)
From S2P Require Import Prelude GoLib.
From Stdlib Require Import QArith Qabs Lqa Ascii String.
From stdpp Require Import strings pretty.
Open Scope Z_scope.

Class DecimalOps := {
  decimal : Type;
  dec_Zero : decimal;
  dec_IsZero : decimal -> bool;
  dec_IsNegative : decimal -> bool;
  dec_LessThan : decimal -> decimal -> bool;
  dec_LessThanOrEqual : decimal -> decimal -> bool;
  dec_GreaterThan : decimal -> decimal -> bool;
  dec_GreaterThanOrEqual : decimal -> decimal -> bool;
  dec_Add : decimal -> decimal -> decimal;
  dec_Sub : decimal -> decimal -> decimal;
  dec_Mul : decimal -> decimal -> decimal;
  dec_Abs : decimal -> decimal;
  dec_Div : decimal -> decimal -> option decimal;
  dec_NewFromInt : Z -> decimal;
  dec_NewFromFloat : float64 -> option decimal;
  dec_NewFromString : string -> option decimal;
  dec_String : decimal -> string;
  dec_StringFixed : decimal -> Z -> string;
  dec_InexactFloat64 : decimal -> float64 }.

(** [DivisionPrecision] is 16: a quotient is off by at most one unit there. *)
Definition div_ulp : Q := 1 # 10000000000000000.
Lemma div_ulp_pos : (0 < div_ulp)%Q.
Proof. reflexivity. Qed.

Definition float_finite (f : float64) : bool :=
  match f with S754_nan | S754_infinity _ => false | _ => true end.

Class DecimalLaws (O : DecimalOps) := {
  dval : decimal -> Q;
  dval_Zero : dval dec_Zero == 0;
  dec_IsZero_spec : forall a, dec_IsZero a = true <-> dval a == 0;
  dec_IsNegative_spec : forall a, dec_IsNegative a = true <-> (dval a < 0)%Q;
  dec_LessThan_spec : forall a b, dec_LessThan a b = true <-> (dval a < dval b)%Q;
  dec_LessThanOrEqual_spec :
    forall a b, dec_LessThanOrEqual a b = true <-> (dval a <= dval b)%Q;
  dec_GreaterThan_spec : forall a b, dec_GreaterThan a b = true <-> (dval b < dval a)%Q;
  dec_GreaterThanOrEqual_spec :
    forall a b, dec_GreaterThanOrEqual a b = true <-> (dval b <= dval a)%Q;
  dval_Add : forall a b, dval (dec_Add a b) == dval a + dval b;
  dval_Sub : forall a b, dval (dec_Sub a b) == dval a - dval b;
  dval_Mul : forall a b, dval (dec_Mul a b) == dval a * dval b;
  dval_Abs : forall a, dval (dec_Abs a) == Qabs (dval a);
  dval_NewFromInt : forall z, dval (dec_NewFromInt z) == inject_Z z;
  dec_Div_panics : forall a b, dec_Div a b = None <-> dval b == 0;
  dec_Div_spec : forall a b q, dec_Div a b = Some q ->
    (Qabs (dval q - dval a / dval b) <= div_ulp)%Q;
  dec_NewFromFloat_panics : forall f, dec_NewFromFloat f = None <-> float_finite f = false;
  dec_NewFromFloat_zero : forall f d, dec_NewFromFloat f = Some d -> (dval d == 0 <-> feqb f fzero = true) }.

Section laws.
Context {O : DecimalOps} {L : DecimalLaws O}.

Lemma dec_Div_defined a b : dec_IsZero b = false -> exists q, dec_Div a b = Some q.
Proof.
  intros Hb. destruct (dec_Div a b) eqn:E; [eauto|].
  apply dec_Div_panics, dec_IsZero_spec in E. congruence.
Qed.

Lemma dec_IsZero_false a : dec_IsZero a = false <-> ~ dval a == 0.
Proof. rewrite <- dec_IsZero_spec. destruct (dec_IsZero a); naive_solver. Qed.

Lemma dec_LessThan_false a b : dec_LessThan a b = false <-> (dval b <= dval a)%Q.
Proof.
  rewrite <- not_true_iff_false, dec_LessThan_spec. split; intros; lra.
Qed.

Lemma dec_GreaterThan_false a b : dec_GreaterThan a b = false <-> (dval a <= dval b)%Q.
Proof.
  rewrite <- not_true_iff_false, dec_GreaterThan_spec. split; intros; lra.
Qed.

Lemma dec_positive a : dec_IsZero a || dec_IsNegative a = false <-> (0 < dval a)%Q.
Proof.
  rewrite orb_false_iff, <- !not_true_iff_false, dec_IsZero_spec, dec_IsNegative_spec.
  split; [intros [H1 H2]|intros; split; lra].
  destruct (Qlt_le_dec 0 (dval a)); [done|]. exfalso. apply H1.
  apply Qle_antisym; [done|by apply Qnot_lt_le].
Qed.

(** Ordering a slice by a decimal field meets the contract of [sort.Slice]. *)
Lemma strict_weak_dec {A} (f : A -> decimal) :
  strict_weak (fun x y => dec_LessThan (f x) (f y)).
Proof.
  split.
  - intros x. apply dec_LessThan_false. lra.
  - intros x y z. rewrite !dec_LessThan_spec. lra.
  - intros x y z. rewrite !dec_LessThan_spec. intros.
    destruct (Qlt_le_dec (dval (f x)) (dval (f z))); [by left|right; lra].
Qed.

(** The percentage deviation [|a - b| / b * 100] the program computes, when
    [b] is positive, is the exact one up to 100 units of division. *)
Lemma deviation_bound (a b q : decimal) : (0 < dval b)%Q ->
  dec_Div (dec_Abs (dec_Sub a b)) b = Some q ->
  (Qabs (dval (dec_Mul q (dec_NewFromInt 100)) -
     Qabs (dval a - dval b) / dval b * 100) <= 100 * div_ulp)%Q.
Proof.
  intros Hb Hq. apply dec_Div_spec in Hq.
  rewrite dval_Mul, dval_NewFromInt, dval_Abs, dval_Sub in *.
  set (e := (Qabs (dval a - dval b) / dval b)%Q) in *. clearbody e.
  change (inject_Z 100) with 100%Q. revert Hq. rewrite !Qabs_Qle_condition. lra.
Qed.
End laws.
#[export] Hint Resolve strict_weak_dec : go.

(** ** A concrete implementation

    Rationals with exact division satisfy the laws: the witnesses of the
    theorems that assume them run on this instance. *)
Module QDec.
Definition Qltb (a b : Q) : bool := Qle_bool a b && negb (Qeq_bool a b).
Definition of_float (f : float64) : option Q :=
  match f with
  | S754_nan | S754_infinity _ => None
  | S754_zero _ => Some 0%Q
  | S754_finite s m e =>
      let m := if s then Z.neg m else Z.pos m in
      Some (if 0 <=? e then inject_Z (m * 2 ^ e)
            else Qred (Qmake m (Z.to_pos (2 ^ (- e)))))
  end.

(** Decimal literals: an optional sign, digits, an optional fraction. *)
Fixpoint digits (s : string) (acc : Z) (k : positive) (frac : bool) : option Q :=
  match s with
  | EmptyString => Some (Qred (Qmake acc k))
  | String c s' =>
      let n := Z.of_nat (Ascii.nat_of_ascii c) - 48 in
      if (n =? -2) && negb frac then digits s' acc k true
      else if (0 <=? n) && (n <=? 9)
      then digits s' (10 * acc + n) (if frac then 10 * k else k)%positive frac
      else None
  end.
Definition of_string (s : string) : option Q :=
  match s with
  | EmptyString => None
  | String "-"%char s' => Qopp <$> digits s' 0 1 false
  | _ => digits s 0 1 false
  end.
Definition to_string (q : Q) : string :=
  (pretty (Qnum q) +:+ if Pos.eqb (Qden q) 1 then "" else "/" +:+ pretty (Zpos (Qden q)))%string.

Definition ops : DecimalOps := {|
  decimal := Q; dec_Zero := 0%Q;
  dec_IsZero a := Qeq_bool a 0; dec_IsNegative a := Qltb a 0;
  dec_LessThan := Qltb; dec_LessThanOrEqual := Qle_bool;
  dec_GreaterThan a b := Qltb b a; dec_GreaterThanOrEqual a b := Qle_bool b a;
  dec_Add a b := Qred (a + b); dec_Sub a b := Qred (a - b); dec_Mul a b := Qred (a * b);
  dec_Abs := Qabs;
  dec_Div a b := if Qeq_bool b 0 then None else Some (Qred (a / b));
  dec_NewFromInt := inject_Z; dec_NewFromFloat := of_float;
  dec_NewFromString := of_string; dec_String := to_string;
  dec_StringFixed q _ := to_string q;
  dec_InexactFloat64 q := fdiv (f_of_int (Qnum q)) (f_of_int (Zpos (Qden q))) |}.

Lemma Qltb_spec a b : Qltb a b = true <-> (a < b)%Q.
Proof.
  unfold Qltb. rewrite andb_true_iff, negb_true_iff, Qle_bool_iff.
  rewrite <- not_true_iff_false, Qeq_bool_iff. split; [intros []|]; intros.
  - destruct (Qle_lt_or_eq a b); tauto.
  - split; lra.
Qed.

Lemma inject_Z_nonzero z : z <> 0 -> ~ inject_Z z == 0.
Proof. unfold Qeq. simpl. lia. Qed.
Lemma of_float_zero f q : of_float f = Some q -> (q == 0 <-> feqb f fzero = true).
Proof.
  destruct f as [s|s| |s m e]; simpl; try done; [intros [= <-]; by split; destruct s|].
  intros [= <-]. split; [intros Hq; exfalso; revert Hq|by destruct s].
  destruct (0 <=? e) eqn:E; [apply inject_Z_nonzero|rewrite Qred_correct; unfold Qeq; simpl; destruct s; lia].
  apply Z.leb_le in E. pose proof (Z.pow_pos_nonneg 2 e eq_refl E). destruct s; lia.
Qed.

Lemma Qred_close (q : Q) : (Qabs (Qred q - q) <= div_ulp)%Q.
Proof. rewrite Qred_correct, Qabs_Qle_condition. unfold div_ulp. lra. Qed.

Definition laws : DecimalLaws ops.
Proof.
  refine {| dval := (fun q => q) : @decimal ops -> Q |}; simpl; intros.
  - reflexivity.
  - apply Qeq_bool_iff.
  - apply Qltb_spec.
  - apply Qltb_spec.
  - apply Qle_bool_iff.
  - apply Qltb_spec.
  - apply Qle_bool_iff.
  - apply Qred_correct.
  - apply Qred_correct.
  - apply Qred_correct.
  - reflexivity.
  - reflexivity.
  - rewrite <- Qeq_bool_iff. destruct (Qeq_bool b 0); naive_solver.
  - destruct (Qeq_bool b 0); simplify_eq. apply Qred_close.
  - destruct f; simpl; naive_solver.
  - by apply of_float_zero.
Defined.
End QDec.
