(* ===== verification/Model.v ===== *)
(** * internal/domain/model: prices, OHLC candles, alerts, provider statuses, errors *)
From S2P Require Import Prelude GoLib Decimal.
From stdpp Require Export strings gmap.
Open Scope Z_scope.

(** ** Errors (errors.go)

    The sentinel errors are compared by identity; [fmt.Errorf] with [%w] wraps
    one, without [%w] it makes an error equal to nothing else. *)
Inductive sentinel :=
  | SRateLimited | SProviderDown | SCoinNotFound | SUnauthorized
  | SNoHealthyProvider | SBudgetExhausted | SStoreUnavailable
  | SInvalidPrice | SPriceTooLow | SPriceTooHigh | SPriceStale | SPriceZero.
#[export] Instance sentinel_eq_dec : EqDecision sentinel.
Proof. solve_decision. Defined.

Definition sentinel_msg (s : sentinel) : string :=
  match s with
  | SRateLimited => "rate limit exceeded"
  | SProviderDown => "provider unavailable"
  | SCoinNotFound => "coin not found"
  | SUnauthorized => "invalid api key"
  | SNoHealthyProvider => "no healthy provider available"
  | SBudgetExhausted => "monthly paid budget exhausted"
  | SStoreUnavailable => "storage unavailable"
  | SInvalidPrice => "invalid price"
  | SPriceTooLow => "price below minimum threshold"
  | SPriceTooHigh => "price above maximum threshold"
  | SPriceStale => "price is stale"
  | SPriceZero => "price is zero or negative"
  end.

Inductive error :=
  | ErrVar (s : sentinel)
  | Errorf (msg : string)
  | Wrapf (pre : string) (e : error) (post : string).
#[export] Instance error_eq_dec : EqDecision error.
Proof. solve_decision. Defined.

Notation ErrRateLimited := (ErrVar SRateLimited).
Notation ErrProviderDown := (ErrVar SProviderDown).
Notation ErrCoinNotFound := (ErrVar SCoinNotFound).
Notation ErrUnauthorized := (ErrVar SUnauthorized).
Notation ErrNoHealthyProvider := (ErrVar SNoHealthyProvider).
Notation ErrBudgetExhausted := (ErrVar SBudgetExhausted).
Notation ErrStoreUnavailable := (ErrVar SStoreUnavailable).
Notation ErrInvalidPrice := (ErrVar SInvalidPrice).
Notation ErrPriceStale := (ErrVar SPriceStale).
Notation ErrPriceZero := (ErrVar SPriceZero).

Fixpoint error_Error (e : error) : string :=
  match e with
  | ErrVar s => sentinel_msg s
  | Errorf msg => msg
  | Wrapf pre e post => pre +:+ error_Error e +:+ post
  end.

(** [errors.Is(err, target)] for a sentinel target. *)
Fixpoint errors_Is (e : error) (s : sentinel) : bool :=
  match e with
  | ErrVar s' => bool_decide (s' = s)
  | Errorf _ => false
  | Wrapf _ e _ => errors_Is e s
  end.

(** A Go result pair [(value, error)], with the nil of either side visible. *)
Definition result (A : Type) : Type := option A * option error.
Definition ok {A} (a : A) : result A := (Some a, None).
Definition err {A} (e : error) : result A := (None, Some e).

(** ** ProviderTier, AlertCondition *)
Inductive ProviderTier := TierFree | TierPaid.
Inductive AlertCondition := ConditionAbove | ConditionBelow | ConditionOther (n : Z).
#[export] Instance ProviderTier_eq_dec : EqDecision ProviderTier.
Proof. solve_decision. Defined.
#[export] Instance AlertCondition_eq_dec : EqDecision AlertCondition.
Proof. solve_decision. Defined.

Definition AlertCondition_String (c : AlertCondition) : string :=
  match c with
  | ConditionAbove => "above"
  | ConditionBelow => "below"
  | ConditionOther _ => "unknown"
  end.

Section model.
Context {O : DecimalOps}.

(** ** Price (price.go) *)
Record Price := mkPrice {
  CoinID : string;
  Currency : string;
  Value : decimal;
  PProvider : string;
  Timestamp : Time;
  ReceivedAt : Time;
  MarketCap : decimal;
  Volume24h : decimal;
  Change24h : float64 }.

Definition Price_IsStale (now : Time) (p : Price) (ttl : Duration) : bool :=
  time_Since now (ReceivedAt p) >? ttl.
Definition Price_Age (now : Time) (p : Price) : Duration := time_Since now (ReceivedAt p).

(** A price with the fields a provider fills; the others keep their zero value. *)
Definition basicPrice (coin cur : string) (v : decimal) (prov : string) (ts ra : Time) : Price :=
  mkPrice coin cur v prov ts ra dec_Zero dec_Zero fzero.

(** ** OHLC (ohlc.go) *)
Record OHLC := mkOHLC {
  OTime : Time; OOpen : decimal; OHigh : decimal; OLow : decimal; OClose : decimal }.

(** ** Alert (alert.go) *)
Record Alert := mkAlert {
  AID : string;
  ACoinID : string;
  ACurrency : string;
  ACondition : AlertCondition;
  AThreshold : decimal;
  AWebhookURL : string;
  AActive : bool;
  ACreatedAt : Time;
  ATriggeredAt : option Time }.

(** ** Analytics rows (analytics.go) *)
Record ProviderAccuracyReport := mkAccuracy {
  AccProvider : string; AccTotal : Z; AccAccurate : Z; AccRate : float64 }.
Record PriceAnomaly := mkAnomaly {
  AnReceivedAt : Time; AnProvider : string; AnCoinID : string; AnCurrency : string;
  AnValue : decimal; AnMedian : decimal; AnDeviation : float64 }.
Record ProviderVolume := mkVolume {
  VolProvider : string; VolCount : Z; VolPercentage : float64 }.
Record PriceStatsSummary := mkStats {
  StCoin : string; StCurrency : string; StMin : decimal; StMax : decimal;
  StAvg : decimal; StStddev : float64; StPoints : Z }.
End model.

(** ** ProviderStatus (provider.go) *)
Record ProviderStatus := mkStatus {
  SName : string;
  SHealthy : bool;
  SRemainingRate : Z;
  SResetAt : Time;
  SAvgLatency : Duration;
  STier : ProviderTier;
  SLastError : option error;
  SLastSuccessAt : Time }.
