(* ===== verification/CircuitBreaker.v ===== *)
(** * internal/router/circuitbreaker.go

    The three-state breaker, one call at a time (every method holds the mutex),
    and its specification by the history of the calls. *)
From S2P Require Import Prelude GoLib.
Open Scope Z_scope.

Inductive CBState := StateClosed | StateOpen | StateHalfOpen.
#[export] Instance CBState_eq_dec : EqDecision CBState.
Proof. solve_decision. Defined.

Record CircuitBreaker := mkCB {
  cb_state : CBState;
  cb_failCount : Z;
  cb_failureThreshold : Z;
  cb_recoveryTimeout : Duration;
  cb_lastFailAt : Time }.

Definition NewCircuitBreaker (failureThreshold : Z) (recoveryTimeout : Duration) : CircuitBreaker :=
  mkCB StateClosed 0 failureThreshold recoveryTimeout 0.

Definition set_cb_state (st : CBState) (cb : CircuitBreaker) : CircuitBreaker :=
  mkCB st (cb_failCount cb) (cb_failureThreshold cb) (cb_recoveryTimeout cb) (cb_lastFailAt cb).

Definition cb_elapsed (now : Time) (cb : CircuitBreaker) : bool :=
  time_Since now (cb_lastFailAt cb) >? cb_recoveryTimeout cb.

Definition AllowRequest (now : Time) (cb : CircuitBreaker) : bool * CircuitBreaker :=
  match cb_state cb with
  | StateClosed => (true, cb)
  | StateOpen =>
      if cb_elapsed now cb then (true, set_cb_state StateHalfOpen cb) else (false, cb)
  | StateHalfOpen => (true, cb)
  end.

Definition RecordSuccess (cb : CircuitBreaker) : CircuitBreaker :=
  mkCB StateClosed 0 (cb_failureThreshold cb) (cb_recoveryTimeout cb) (cb_lastFailAt cb).

Definition RecordFailure (now : Time) (cb : CircuitBreaker) : CircuitBreaker :=
  let n := wrap64 (cb_failCount cb + 1) in
  let st :=
    if bool_decide (cb_state cb = StateHalfOpen) || (n >=? cb_failureThreshold cb)
    then StateOpen else cb_state cb in
  mkCB st n (cb_failureThreshold cb) (cb_recoveryTimeout cb) now.

Definition State (now : Time) (cb : CircuitBreaker) : CBState * CircuitBreaker :=
  let cb' := if bool_decide (cb_state cb = StateOpen) && cb_elapsed now cb
             then set_cb_state StateHalfOpen cb else cb in
  (cb_state cb', cb').

(** ** Histories

    The calls made on a breaker, with the clock reading each one takes. *)
Inductive cb_event := EvAllow (now : Time) | EvSuccess (now : Time)
  | EvFailure (now : Time) | EvState (now : Time).
Definition ev_time (e : cb_event) : Time :=
  match e with EvAllow t | EvSuccess t | EvFailure t | EvState t => t end.
Definition cb_step (cb : CircuitBreaker) (e : cb_event) : CircuitBreaker :=
  match e with
  | EvAllow t => snd (AllowRequest t cb)
  | EvSuccess _ => RecordSuccess cb
  | EvFailure t => RecordFailure t cb
  | EvState t => snd (State t cb)
  end.
Definition cb_run (cb : CircuitBreaker) (es : list cb_event) : CircuitBreaker :=
  fold_left cb_step es cb.

(** What a caller needs to remember of the history: the failures since the
    last success and the instant of the last failure. *)
Definition hist_step (h : Z * Time) (e : cb_event) : Z * Time :=
  match e with
  | EvSuccess _ => (0, h.2)
  | EvFailure t => (h.1 + 1, t)
  | _ => h
  end.
Definition hist (es : list cb_event) : Z * Time := fold_left hist_step es (0, 0).

(** The instants of a history do not decrease, starting from [t0]. *)
Fixpoint nondecreasing (t0 : Time) (es : list cb_event) : Prop :=
  match es with
  | [] => True
  | e :: es' => t0 <= ev_time e /\ nondecreasing (ev_time e) es'
  end.
Fixpoint last_time (t0 : Time) (es : list cb_event) : Time :=
  match es with [] => t0 | e :: es' => last_time (ev_time e) es' end.

(** The specification, with no state: a request is refused exactly when the
    last [threshold] outcomes are failures and the recovery timeout has not
    elapsed since the last of them. *)
Definition spec_allows (threshold : Z) (timeout : Duration) (es : list cb_event) (now : Time) : bool :=
  let '(n, lastFail) := hist es in
  negb ((threshold <=? n) && negb (time_Since now lastFail >? timeout)).

Record cb_inv (thr : Z) (tmo : Duration) (n : Z) (lf t : Time) (cb : CircuitBreaker) : Prop := {
  ci_thr : cb_failureThreshold cb = thr;
  ci_tmo : cb_recoveryTimeout cb = tmo;
  ci_cnt : cb_failCount cb = n;
  ci_pos : 0 <= n;
  ci_last : 0 < n -> cb_lastFailAt cb = lf;
  ci_closed : cb_state cb = StateClosed <-> n < thr;
  ci_half : cb_state cb = StateHalfOpen -> (time_Since t lf >? tmo) = true }.
#[export] Hint Constructors cb_inv : agg.

Lemma cb_inv_new thr tmo t : 1 <= thr -> cb_inv thr tmo 0 0 t (NewCircuitBreaker thr tmo).
Proof. split; simpl; try done; intuition lia. Qed.

Lemma cb_inv_step thr tmo n lf t cb e :
  1 <= thr -> n < max_int64 -> t <= ev_time e ->
  cb_inv thr tmo n lf t cb ->
  cb_inv thr tmo (hist_step (n, lf) e).1 (hist_step (n, lf) e).2 (ev_time e) (cb_step cb e).
Proof.
  intros Hthr Hn Ht [H1 H2 H3 H4 H5 H6 H7].
  destruct cb as [st c th tm l]; simpl in *; subst.
  assert (st <> StateClosed -> 0 < n) as Hpos by (intros; destruct (decide (n < thr)); intuition lia).
  assert (st = StateHalfOpen -> (time_Since (ev_time e) lf >? tmo) = true) as Hhalf
    by eauto using time_Since_gt_mono.
  destruct e as [t'|t'|t'|t']; simpl in *.
  - unfold AllowRequest, cb_elapsed; simpl. destruct st; simpl; [by split|..|by split].
    rewrite H5 by auto. clear H7. case_goal; simpl; split; simpl; intuition congruence.
  - split; simpl; try done; intuition lia.
  - unfold RecordFailure. simpl.
    rewrite wrap64_id by (unfold int64_ok, min_int64, max_int64 in *; lia).
    destruct st; simpl; try (destruct (n + 1 >=? thr) eqn:E; to_prop); split; simpl;
      try done; try lia; intuition (try discriminate; try lia); try (assert (n < thr) by lia; intuition congruence).
  - unfold State, cb_elapsed; simpl. destruct st; simpl; [by split|..|by split].
    rewrite H5 by auto. clear H7. case_goal; simpl; split; simpl; intuition congruence.
Qed.

Lemma cb_inv_run thr tmo es : 1 <= thr -> forall n lf t cb,
  n + Z.of_nat (length es) <= max_int64 -> nondecreasing t es ->
  cb_inv thr tmo n lf t cb ->
  cb_inv thr tmo (fold_left hist_step es (n, lf)).1 (fold_left hist_step es (n, lf)).2
    (last_time t es) (cb_run cb es).
Proof.
  intros Hthr. induction es as [|e es IH]; intros n lf t cb Hn Hmono Hinv; simpl in *; [done|].
  destruct Hmono as [Ht Hmono].
  pose proof (cb_inv_step thr tmo n lf t cb e Hthr ltac:(lia) Ht Hinv) as Hinv'.
  destruct (hist_step (n, lf) e) as [n' lf'] eqn:E. apply IH; try done.
  assert (n' <= n + 1) by (pose proof (ci_pos _ _ _ _ _ _ Hinv);
    destruct e; simplify_eq/=; lia). lia.
Qed.

Lemma AllowRequest_inv thr tmo n lf t now cb :
  1 <= thr -> t <= now -> cb_inv thr tmo n lf t cb ->
  fst (AllowRequest now cb) = negb ((thr <=? n) && negb (time_Since now lf >? tmo)).
Proof.
  intros Hthr Ht [H1 H2 H3 H4 H5 H6 H7]. unfold AllowRequest, cb_elapsed.
  destruct (cb_state cb) eqn:Es.
  - rewrite (proj2 (Z.leb_gt thr n)) by (by apply H6). done.
  - assert (~ n < thr) by (rewrite <- H6; congruence).
    assert (thr <=? n = true) as -> by (apply Z.leb_le; lia).
    rewrite H5, H2 by lia. case_goal; done.
  - rewrite (time_Since_gt_mono t now) by auto. by rewrite andb_false_r.
Qed.

(** C7. The breaker refines its stateless specification: after any history of
    calls whose instants do not decrease, a request is refused exactly when the
    failures since the last success reach the threshold and the recovery
    timeout has not elapsed since the last of them. *)
Theorem breaker_refines_spec thr tmo es t0 now :
  1 <= thr -> Z.of_nat (length es) <= max_int64 ->
  nondecreasing t0 es -> last_time t0 es <= now ->
  fst (AllowRequest now (cb_run (NewCircuitBreaker thr tmo) es)) = spec_allows thr tmo es now.
Proof.
  intros Hthr Hlen Hmono Hnow.
  pose proof (cb_inv_run thr tmo es Hthr 0 0 t0 (NewCircuitBreaker thr tmo)
    ltac:(lia) Hmono (cb_inv_new thr tmo t0 Hthr)) as Hinv.
  unfold spec_allows, hist. destruct (fold_left hist_step es (0, 0)) as [n lf].
  eapply AllowRequest_inv; eauto.
Qed.

Lemma breaker_refines_spec_witness :
  fst (AllowRequest 70 (cb_run (NewCircuitBreaker 2 60) [EvFailure 1; EvFailure 5; EvAllow 9]))
    = spec_allows 2 60 [EvFailure 1; EvFailure 5; EvAllow 9] 70.
Proof. apply (breaker_refines_spec 2 60 _ 0 70); vm_compute; intuition congruence. Defined.

(** One round of a provider whose answers never pass validation: the service
    reports the call as a success, then the invalid price as a failure. *)
Definition invalid_round (cb : CircuitBreaker) (now : Time) : CircuitBreaker :=
  RecordFailure now (RecordSuccess cb).

(** A provider that always answers with an invalid price never opens its
    breaker when the threshold is at least 2, whatever the number of rounds. *)
Theorem invalid_prices_never_open thr tmo nows :
  2 <= thr -> cb_state (fold_left invalid_round nows (NewCircuitBreaker thr tmo)) = StateClosed.
Proof.
  intros Hthr.
  enough (forall cb, cb_failureThreshold cb = thr -> cb_state cb = StateClosed ->
    cb_state (fold_left invalid_round nows cb) = StateClosed) as H by (by apply H).
  induction nows as [|t nows IH]; intros cb H1 H2; simpl; [done|].
  apply IH; simpl; [done|]. rewrite H1. change (wrap64 (0 + 1)) with 1.
  by rewrite Z.geb_leb, (proj2 (Z.leb_gt thr 1)) by lia.
Qed.

Lemma invalid_prices_never_open_witness :
  cb_state (fold_left invalid_round [1; 2; 3; 4; 5; 6; 7] (NewCircuitBreaker 5 60)) = StateClosed.
Proof. apply (invalid_prices_never_open 5 60). lia. Defined.
