(* ===== verification/RateLimit.v ===== *)
(** * internal/router/ratelimit.go

    The fixed-window token counter.  Every method takes the mutex and starts
    with [checkReset], which reads the clock once for the comparison and once
    for the new deadline: [now1] and [now2]. *)
From S2P Require Import Prelude GoLib.
Open Scope Z_scope.

Record RateLimitTracker := mkRL {
  rl_limit : Z;
  rl_remaining : Z;
  rl_window : Duration;
  rl_resetAt : Time }.

Definition NewRateLimitTracker (now : Time) (limit : Z) (window : Duration) : RateLimitTracker :=
  mkRL limit limit window (time_Add now window).

Definition checkReset (now1 now2 : Time) (r : RateLimitTracker) : RateLimitTracker :=
  if time_After now1 (rl_resetAt r)
  then mkRL (rl_limit r) (rl_limit r) (rl_window r) (time_Add now2 (rl_window r))
  else r.

Definition Consume (now1 now2 : Time) (r : RateLimitTracker) : RateLimitTracker :=
  let r := checkReset now1 now2 r in
  if rl_remaining r >? 0
  then mkRL (rl_limit r) (rl_remaining r - 1) (rl_window r) (rl_resetAt r)
  else r.

Definition Remaining (now1 now2 : Time) (r : RateLimitTracker) : Z * RateLimitTracker :=
  let r := checkReset now1 now2 r in (rl_remaining r, r).

Definition IsExhausted (now1 now2 : Time) (r : RateLimitTracker) : bool * RateLimitTracker :=
  let '(n, r) := Remaining now1 now2 r in (n <=? 0, r).

Definition RemainingRatio (now1 now2 : Time) (r : RateLimitTracker) : float64 * RateLimitTracker :=
  let r := checkReset now1 now2 r in
  if rl_limit r =? 0 then (fzero, r)
  else (fdiv (f_of_int (rl_remaining r)) (f_of_int (rl_limit r)), r).

(** Well-formedness: the counter never exceeds the limit, nor falls below zero
    when the limit is not negative. *)
Definition rl_wf (r : RateLimitTracker) : Prop :=
  rl_remaining r <= rl_limit r /\ (0 <= rl_limit r -> 0 <= rl_remaining r).

Lemma rl_wf_new now limit window : rl_wf (NewRateLimitTracker now limit window).
Proof. split; simpl; lia. Qed.

Lemma rl_wf_checkReset n1 n2 r : rl_wf r -> rl_wf (checkReset n1 n2 r).
Proof. unfold checkReset, rl_wf. intros []. case_goal; simpl; lia. Qed.

Lemma rl_wf_Consume n1 n2 r : rl_wf r -> rl_wf (Consume n1 n2 r).
Proof.
  intros H%(rl_wf_checkReset n1 n2). unfold Consume.
  destruct (checkReset n1 n2 r) as [l rem w ra]. unfold rl_wf in *. simpl in *.
  case_goal; to_prop; simpl; lia.
Qed.
#[export] Hint Resolve rl_wf_new rl_wf_checkReset rl_wf_Consume : agg.

Lemma checkReset_limit n1 n2 r : rl_limit (checkReset n1 n2 r) = rl_limit r.
Proof. unfold checkReset. by case_goal. Qed.

Lemma checkReset_pos n1 n2 r : rl_wf r -> 0 < rl_remaining r -> 0 < rl_remaining (checkReset n1 n2 r).
Proof. unfold checkReset, rl_wf. intros []. case_goal; simpl; lia. Qed.

(** ** Histories *)
Inductive rl_event := RlPeek (now1 now2 : Time) | RlConsume (now1 now2 : Time).
Definition rl_times (e : rl_event) : Time * Time :=
  match e with RlPeek a b | RlConsume a b => (a, b) end.

(** A call of [Consume] hands out a token when the counter, once reset if due,
    is positive; [rl_run] collects the instants at which one was handed out. *)
Definition rl_grants (r : RateLimitTracker) (e : rl_event) : list Time :=
  match e with
  | RlPeek _ _ => []
  | RlConsume a b => if rl_remaining (checkReset a b r) >? 0 then [a] else []
  end.
Definition rl_step (r : RateLimitTracker) (e : rl_event) : RateLimitTracker :=
  match e with RlPeek a b => checkReset a b r | RlConsume a b => Consume a b r end.
Fixpoint rl_run (r : RateLimitTracker) (es : list rl_event) : list Time :=
  match es with
  | [] => []
  | e :: es' => rl_grants r e ++ rl_run (rl_step r e) es'
  end.
Fixpoint rl_mono (t : Time) (es : list rl_event) : Prop :=
  match es with
  | [] => True
  | e :: es' => t <= (rl_times e).1 <= (rl_times e).2 /\ rl_mono (rl_times e).2 es'
  end.

Section window.
Context (limit : Z) (w : Duration) (a : Time).
Context (Hlimit : 0 <= limit) (Hw : 0 <= w).

Definition in_window (t : Time) : bool := (a <=? t) && (t <=? a + w).
Definition count_in_window (g : list Time) : Z := Z.of_nat (length (bfilter in_window g)).

Lemma count_in_window_cons t g :
  count_in_window (t :: g) = (if in_window t then 1 else 0) + count_in_window g.
Proof. unfold count_in_window, bfilter. simpl. destruct (in_window t); simpl; lia. Qed.

(** [P] tokens of the window were handed out before the current deadline was
    set, [E] since; in the second case the window is over. *)
Record win_inv (P E : Z) (t : Time) (r : RateLimitTracker) : Prop := {
  wi_limit : rl_limit r = limit;
  wi_window : rl_window r = w;
  wi_P : 0 <= P <= limit;
  wi_E : 0 <= E;
  wi_cases :
    (E + rl_remaining r <= limit /\ 0 <= rl_remaining r /\
     (0 < P -> a + w <= rl_resetAt r) /\ (0 < E -> a <= t)) \/
    (E <= limit /\ a + w < t) }.

Lemma win_inv_reset P E t n1 n2 r : t <= n1 <= n2 -> win_inv P E t r ->
  exists P' E', P' + E' = P + E /\ win_inv P' E' n1 (checkReset n1 n2 r).
Proof.
  intros Ht [H1 H2 H3 H4 H5]. unfold checkReset, time_After, time_Add.
  destruct (n1 >? rl_resetAt r) eqn:Er; to_prop.
  - destruct H5 as [(H5 & H6 & H7 & H8)|[H5 H6]].
    + destruct (decide (0 < P)).
      * exists P, E. split; [done|]. split; simpl; lia.
      * exists E, 0. split; [lia|]. split; simpl; lia.
    + exists P, E. split; [done|]. split; simpl; lia.
  - exists P, E. split; [done|]. split; try done. lia.
Qed.

Lemma rl_run_window es : forall P E t r, rl_mono t es -> win_inv P E t r ->
  P + E + count_in_window (rl_run r es) <= 2 * limit.
Proof.
  induction es as [|e es IH]; intros P E t r Hmono Hinv; simpl.
  - destruct Hinv as [? ? ? ? Hc]. change (count_in_window []) with 0. lia.
  - destruct Hmono as [Ht Hmono].
    destruct (win_inv_reset P E t (rl_times e).1 (rl_times e).2 r Ht Hinv) as (P' & E' & Heq & Hinv').
    destruct e as [n1 n2|n1 n2]; simpl in *.
    + rewrite <- Heq. apply (IH _ _ n2); [done|].
      destruct Hinv' as [? ? ? ? Hc]. split; try done. lia.
    + unfold Consume. destruct Hinv' as [H1 H2 H3 H4 H5].
      destruct (rl_remaining (checkReset n1 n2 r) >? 0) eqn:Ep; to_prop; simpl.
      * rewrite count_in_window_cons. unfold in_window.
        destruct ((a <=? n1) && (n1 <=? a + w)) eqn:Ew; to_prop.
        -- match goal with |- context [rl_run ?s es] =>
             enough (win_inv P' (E' + 1) n2 s) by (pose proof (IH P' (E' + 1) n2 s Hmono ltac:(assumption)); lia)
           end.
           split; simpl; lia.
        -- rewrite <- Heq. apply (IH _ _ n2); [done|]. split; simpl; try done. lia.
      * rewrite <- Heq. apply (IH _ _ n2); [done|]. split; try done. lia.
Qed.
End window.

(** C8. The fixed-window limiter never hands out more than twice its limit in
    any interval as long as its window, whatever the calls and their instants. *)
Theorem rate_limit_window limit w a now es :
  0 <= limit -> 0 <= w -> rl_mono now es ->
  count_in_window w a (rl_run (NewRateLimitTracker now limit w) es) <= 2 * limit.
Proof.
  intros Hl Hw Hm.
  pose proof (rl_run_window limit w a Hl Hw es 0 0 now (NewRateLimitTracker now limit w) Hm) as H.
  simpl in H. apply H. split; simpl; try done; lia.
Qed.

Lemma rate_limit_window_witness :
  count_in_window 60 50 (rl_run (NewRateLimitTracker 0 1 60)
    [RlConsume 55 55; RlConsume 58 58; RlPeek 61 61; RlConsume 62 62; RlConsume 63 63]) <= 2 * 1.
Proof. apply (rate_limit_window 1 60 50 0); vm_compute; intuition congruence. Defined.
