(* ===== verification/ProviderState.v ===== *)
(** * internal/router/strategy.go

    What the router keeps of a provider: breaker, rate limit, latency average,
    accuracy counters; and [IsAvailable], the admission test of every strategy. *)
From S2P Require Import Prelude GoLib Decimal Model CircuitBreaker RateLimit.
Open Scope Z_scope.

Record LatencyTracker := mkLT { lt_avg : float64; lt_alpha : float64; lt_count : Z }.
Definition NewLatencyTracker : LatencyTracker := mkLT fzero (f_lit 3 10) 0.
(** [lt.alpha*ms + (1-lt.alpha)*lt.avg], with no fused multiply-add. *)
Definition LatencyTracker_Record (ms : float64) (lt : LatencyTracker) : LatencyTracker :=
  let avg := if lt_count lt =? 0 then ms
             else fadd (fmul (lt_alpha lt) ms) (fmul (fsub fone (lt_alpha lt)) (lt_avg lt)) in
  mkLT avg (lt_alpha lt) (wrap64 (lt_count lt + 1)).
Definition Average (lt : LatencyTracker) : float64 := lt_avg lt.
Definition averageUnsafe (lt : LatencyTracker) : float64 := lt_avg lt.

Section state.
Context {O : DecimalOps} {P : Type}.

Record ProviderState := mkPS {
  ps_Provider : P;
  ps_Tier : ProviderTier;
  ps_Priority : Z;
  ps_RateLimit : RateLimitTracker;
  ps_CircuitBreaker : CircuitBreaker;
  ps_AvgLatency : LatencyTracker;
  ps_CostPerCall : decimal;
  ps_Enabled : bool;
  ps_AccuracyScore : float64;
  ps_OutlierCount : Z;
  ps_TotalResponses : Z;
  ps_AccurateCount : Z }.

Definition set_rl (rl : RateLimitTracker) (ps : ProviderState) : ProviderState :=
  mkPS (ps_Provider ps) (ps_Tier ps) (ps_Priority ps) rl (ps_CircuitBreaker ps)
    (ps_AvgLatency ps) (ps_CostPerCall ps) (ps_Enabled ps) (ps_AccuracyScore ps)
    (ps_OutlierCount ps) (ps_TotalResponses ps) (ps_AccurateCount ps).
Definition set_cb (cb : CircuitBreaker) (ps : ProviderState) : ProviderState :=
  mkPS (ps_Provider ps) (ps_Tier ps) (ps_Priority ps) (ps_RateLimit ps) cb
    (ps_AvgLatency ps) (ps_CostPerCall ps) (ps_Enabled ps) (ps_AccuracyScore ps)
    (ps_OutlierCount ps) (ps_TotalResponses ps) (ps_AccurateCount ps).
Definition set_lt (lt : LatencyTracker) (ps : ProviderState) : ProviderState :=
  mkPS (ps_Provider ps) (ps_Tier ps) (ps_Priority ps) (ps_RateLimit ps) (ps_CircuitBreaker ps)
    lt (ps_CostPerCall ps) (ps_Enabled ps) (ps_AccuracyScore ps)
    (ps_OutlierCount ps) (ps_TotalResponses ps) (ps_AccurateCount ps).
Definition set_acc (score : float64) (outliers total accurate : Z) (ps : ProviderState) : ProviderState :=
  mkPS (ps_Provider ps) (ps_Tier ps) (ps_Priority ps) (ps_RateLimit ps) (ps_CircuitBreaker ps)
    (ps_AvgLatency ps) (ps_CostPerCall ps) (ps_Enabled ps) score outliers total accurate.

(** The operations run on one provider state and the clock. *)
Notation PM := (M (ProviderState * Clock)).
Definition ps_now : PM Time := fun '(ps, c) => let '(t, c) := tick c in (t, (ps, c)).
Definition ps_get {A} (f : ProviderState -> A) : PM A := fun '(ps, c) => (f ps, (ps, c)).
Definition ps_cb {A} (f : CircuitBreaker -> A * CircuitBreaker) : PM A :=
  fun '(ps, c) => let '(a, cb) := f (ps_CircuitBreaker ps) in (a, (set_cb cb ps, c)).
Definition ps_rl {A} (f : RateLimitTracker -> A * RateLimitTracker) : PM A :=
  fun '(ps, c) => let '(a, rl) := f (ps_RateLimit ps) in (a, (set_rl rl ps, c)).

Definition maxOutliers : Z := 5.

Definition IsAvailable (allowPaid : bool) : PM bool :=
  enabled <- ps_get ps_Enabled ;;
  if negb enabled then ret false else
  tier <- ps_get ps_Tier ;;
  if negb allowPaid && bool_decide (tier = TierPaid) then ret false else
  now <- ps_now ;;
  allowed <- ps_cb (AllowRequest now) ;;
  if negb allowed then ret false else
  now1 <- ps_now ;;
  now2 <- ps_now ;;
  exhausted <- ps_rl (IsExhausted now1 now2) ;;
  if (exhausted : bool) then ret false else
  outlierCount <- ps_get ps_OutlierCount ;;
  ret (outlierCount <? maxOutliers).

Definition RecordAccurate (ps : ProviderState) : ProviderState :=
  let total := wrap64 (ps_TotalResponses ps + 1) in
  let accurate := wrap64 (ps_AccurateCount ps + 1) in
  set_acc (fdiv (f_of_int accurate) (f_of_int total)) 0 total accurate ps.

Definition RecordOutlier (ps : ProviderState) : ProviderState :=
  let total := wrap64 (ps_TotalResponses ps + 1) in
  set_acc (fdiv (f_of_int (ps_AccurateCount ps)) (f_of_int total))
    (wrap64 (ps_OutlierCount ps + 1)) total (ps_AccurateCount ps) ps.

Record ProviderSnapshot := mkSnap {
  snap_AccuracyScore : float64;
  snap_TotalResponses : Z;
  snap_AvgLatencyMs : float64;
  snap_RemainingRatio : float64;
  snap_CostPerCall : float64 }.

Definition Snapshot : PM ProviderSnapshot :=
  acc <- ps_get ps_AccuracyScore ;;
  total <- ps_get ps_TotalResponses ;;
  avg <- ps_get (fun ps => averageUnsafe (ps_AvgLatency ps)) ;;
  now1 <- ps_now ;;
  now2 <- ps_now ;;
  ratio <- ps_rl (RemainingRatio now1 now2) ;;
  cost <- ps_get (fun ps => dec_InexactFloat64 (ps_CostPerCall ps)) ;;
  ret (mkSnap acc total avg ratio cost).

(** ** Availability as a predicate of the state

    [IsAvailable] may move the breaker to half-open and reset the counter:
    its answer is this predicate of the state it leaves. *)
Definition ready (allowPaid : bool) (ps : ProviderState) : bool :=
  ps_Enabled ps && (allowPaid || negb (bool_decide (ps_Tier ps = TierPaid))) &&
  negb (bool_decide (cb_state (ps_CircuitBreaker ps) = StateOpen)) &&
  (0 <? rl_remaining (ps_RateLimit ps)) && (ps_OutlierCount ps <? maxOutliers).

Definition ps_wf (ps : ProviderState) : Prop := rl_wf (ps_RateLimit ps).

Lemma AllowRequest_open now cb :
  fst (AllowRequest now cb) = negb (bool_decide (cb_state (snd (AllowRequest now cb)) = StateOpen)).
Proof.
  unfold AllowRequest, cb_elapsed.
  destruct (cb_state cb) eqn:E; [|destruct (time_Since _ _ >? _)|]; simpl; by rewrite ?E.
Qed.

(** What an availability check may change: only the breaker, the counter. *)
Definition same_static (ps ps' : ProviderState) : Prop :=
  ps_Provider ps' = ps_Provider ps /\ ps_Tier ps' = ps_Tier ps /\
  ps_Priority ps' = ps_Priority ps /\ ps_Enabled ps' = ps_Enabled ps /\
  ps_OutlierCount ps' = ps_OutlierCount ps /\ ps_AvgLatency ps' = ps_AvgLatency ps /\
  ps_CostPerCall ps' = ps_CostPerCall ps /\ ps_AccuracyScore ps' = ps_AccuracyScore ps /\
  ps_TotalResponses ps' = ps_TotalResponses ps /\ ps_AccurateCount ps' = ps_AccurateCount ps.

#[export] Instance same_static_preorder : PreOrder same_static.
Proof. split; red; unfold same_static; intuition congruence. Qed.

Lemma IsAvailable_ready allowPaid ps c b ps' c' :
  IsAvailable allowPaid (ps, c) = (b, (ps', c')) -> b = ready allowPaid ps'.
Proof.
  unfold IsAvailable, bind, ps_get, ps_now, ps_cb, ps_rl, ret, ready. simpl. intros H.
  destruct (ps_Enabled ps) eqn:Ee; simpl in H; [|by simplify_eq; rewrite Ee].
  destruct (negb allowPaid && _) eqn:Et; simpl in H.
  { simplify_eq. to_prop. subst. rewrite H0. by rewrite !andb_false_r. }
  destruct (AllowRequest _ _) as [ok cb] eqn:Ea.
  pose proof (AllowRequest_open (ck_read c (ck_pos c)) (ps_CircuitBreaker ps)) as Ho.
  rewrite Ea in Ho. simpl in Ho. destruct ok; simpl in H.
  - unfold IsExhausted, Remaining in H.
    destruct (rl_remaining (checkReset _ _ _) <=? 0) eqn:Er; simpl in H; simplify_eq; simpl;
      rewrite <- Ho, Ee; simpl; to_prop.
    + match type of Er with ?x <= _ =>
        assert ((0 <? x) = false) as -> by (apply Z.ltb_ge; lia) end.
      by rewrite andb_false_r.
    + match type of Er with _ < ?x =>
        assert ((0 <? x) = true) as -> by (apply Z.ltb_lt; lia) end.
      by destruct allowPaid, (bool_decide (ps_Tier ps = TierPaid)).
  - simplify_eq. simpl. rewrite <- Ho. by rewrite andb_false_r.
Qed.

(** The preorder every operation of this file moves a provider state along. *)
Definition ps_frame (s s' : ProviderState * Clock) : Prop :=
  same_static s.1 s'.1 /\ (ps_wf s.1 -> ps_wf s'.1) /\ ck_read s'.2 = ck_read s.2.
#[export] Instance ps_frame_preorder : PreOrder ps_frame.
Proof.
  split; red; unfold ps_frame; [done|]. intros ??? (?&?&?) (?&?&?).
  split_and!; [by etrans|auto|congruence].
Qed.

Lemma keeps_ps_get {A} (f : ProviderState -> A) : keeps ps_frame (ps_get f).
Proof. by intros [ps c]. Qed.
Lemma keeps_ps_now : keeps ps_frame ps_now.
Proof. by intros [ps c]. Qed.
Lemma keeps_ps_cb {A} (f : CircuitBreaker -> A * CircuitBreaker) : keeps ps_frame (ps_cb f).
Proof. intros [ps c]. unfold ps_cb. by destruct (f _). Qed.
Lemma keeps_IsExhausted n1 n2 : keeps ps_frame (ps_rl (IsExhausted n1 n2)).
Proof.
  intros [ps c]. split_and!; [done| |done]. apply (rl_wf_checkReset n1 n2).
Qed.
Lemma keeps_RemainingRatio n1 n2 : keeps ps_frame (ps_rl (RemainingRatio n1 n2)).
Proof.
  intros [ps c]. unfold ps_rl, RemainingRatio. pose proof (rl_wf_checkReset n1 n2 (ps_RateLimit ps)).
  by destruct (_ =? 0).
Qed.
#[local] Hint Resolve keeps_ps_get keeps_ps_now keeps_ps_cb keeps_IsExhausted
  keeps_RemainingRatio : keeps.

Lemma IsAvailable_frame allowPaid : keeps ps_frame (IsAvailable allowPaid).
Proof. unfold IsAvailable. eauto 20 with keeps typeclass_instances. Qed.

Lemma Snapshot_frame : keeps ps_frame Snapshot.
Proof. unfold Snapshot. eauto 20 with keeps typeclass_instances. Qed.

(** A snapshot may reset the counter, which keeps a ready provider ready. *)
Lemma Snapshot_ready allowPaid ps c : ps_wf ps ->
  ready allowPaid ps = true -> ready allowPaid (snd (Snapshot (ps, c))).1 = true.
Proof.
  unfold Snapshot, bind, ps_get, ps_now, ps_rl, ret, RemainingRatio. simpl. intros Hwf H.
  destruct (rl_limit _ =? 0); simpl; unfold ready in *; simpl;
    rewrite !andb_true_iff, Z.ltb_lt in *; intuition auto using checkReset_pos.
Qed.
End state.
Arguments ProviderState {_} _.
