(* ===== verification/Strategies.v ===== *)
(** * internal/router: priority.go, roundrobin.go, smart.go

    The strategies pick a provider from a slice of pointers.  The provider
    states live in a heap (a list, a pointer is an index); a strategy runs on
    the heap, the clock and its own state.  [StrategyOps]/[StrategyLaws] is the
    contract of the Go interface [Strategy], which the router is proved against. *)
From S2P Require Import Prelude GoLib Decimal Model CircuitBreaker RateLimit ProviderState.
Open Scope Z_scope.

Section heap.
Context {O : DecimalOps} {P : Type}.
Implicit Types (h : list (ProviderState P)) (c : Clock) (i j : nat).
Notation heap := (list (ProviderState P)).
Notation HM := (M (heap * Clock)).

(** Run an operation on the state behind a pointer. *)
Definition at_ptr {A} (i : nat) (d : A) (m : M (ProviderState P * Clock) A) : HM A :=
  fun '(h, c) =>
    match h !! i with
    | Some ps => let '(a, (ps', c')) := m (ps, c) in (a, (<[i := ps']> h, c'))
    | None => (d, (h, c))
    end.

Definition available (allowPaid : bool) (i : nat) : HM bool :=
  at_ptr i false (IsAvailable allowPaid).

Definition is_ready (allowPaid : bool) h i : bool :=
  match h !! i with Some ps => ready allowPaid ps | None => false end.

Definition heap_wf h : Prop := Forall ps_wf h.

(** What a selection may do to the heap: nothing but what availability
    checks and snapshots do to each state. *)
Definition heap_frame (s s' : heap * Clock) : Prop :=
  Forall2 (fun ps ps' => same_static ps ps' /\ (ps_wf ps -> ps_wf ps')) s.1 s'.1 /\
  ck_read s'.2 = ck_read s.2.

#[export] Instance heap_frame_preorder : PreOrder heap_frame.
Proof.
  split; red; unfold heap_frame.
  - intros [h c]. split; [|done]. simpl. apply Forall2_same_length_lookup_2; [done|].
    intros. simplify_eq. done.
  - intros x y z [H1 ?] [H2 ?]. split; [|congruence].
    revert H2. generalize (z.1). induction H1 as [|??? ? [] ? IH]; intros l3 Hl3;
      inversion Hl3 as [|??? ? []]; subst; constructor; [split; [by etrans|auto]|].
    by apply IH.
Qed.

Lemma heap_frame_wf s s' : heap_frame s s' -> heap_wf s.1 -> heap_wf s'.1.
Proof.
  intros [H _] Hwf. unfold heap_wf in *. revert Hwf.
  induction H as [|??? ? [? ?] ? IH]; [done|]. rewrite !Forall_cons. intros []. auto.
Qed.

Lemma heap_frame_length s s' : heap_frame s s' -> length s'.1 = length s.1.
Proof. intros [H _]. symmetry. by eapply Forall2_length. Qed.

Lemma at_ptr_frame {A} i (d : A) m : keeps ps_frame m -> keeps heap_frame (at_ptr i d m).
Proof.
  intros Hm [h c]. unfold at_ptr. destruct (h !! i) as [ps|] eqn:E; [|reflexivity].
  specialize (Hm (ps, c)). destruct (m (ps, c)) as [a [ps' c']]. destruct Hm as (H1 & H2 & H3).
  simpl in *. split; [|done]. simpl. apply Forall2_same_length_lookup_2; [by rewrite length_insert|].
  intros k x y Hx. destruct (decide (k = i)) as [->|Hne].
  - rewrite list_lookup_insert_eq by by eapply lookup_lt_Some. intros. by simplify_eq.
  - rewrite list_lookup_insert_ne by done. intros. by simplify_eq.
Qed.

Lemma at_ptr_other {A} i j (d : A) m s :
  i <> j -> (snd (at_ptr i d m s)).1 !! j = s.1 !! j.
Proof.
  intros Hij. destruct s as [h c]. unfold at_ptr. destruct (h !! i) eqn:E; [|done].
  destruct (m _) as [a [ps' c']]. simpl. by apply list_lookup_insert_ne.
Qed.

Lemma available_frame allowPaid i : keeps heap_frame (available allowPaid i).
Proof. apply at_ptr_frame, IsAvailable_frame. Qed.

Lemma available_ready allowPaid i s b s' :
  available allowPaid i s = (b, s') -> b = is_ready allowPaid s'.1 i.
Proof.
  destruct s as [h c]. unfold available, at_ptr, is_ready.
  destruct (h !! i) as [ps|] eqn:E; [|intros; simplify_eq/=; by rewrite E].
  destruct (IsAvailable _ _) as [a [ps' c']] eqn:Ei. intros. simplify_eq/=.
  rewrite list_lookup_insert_eq by by eapply lookup_lt_Some.
  by eapply IsAvailable_ready.
Qed.

Lemma available_other allowPaid i j s b s' : available allowPaid i s = (b, s') ->
  i <> j -> is_ready allowPaid s'.1 j = is_ready allowPaid s.1 j.
Proof.
  intros H Hij. unfold is_ready.
  pose proof (at_ptr_other i j false (IsAvailable allowPaid) s Hij) as Ho.
  fold (available allowPaid i) in Ho. rewrite H in Ho. simpl in Ho. by rewrite Ho.
Qed.

(** The first available provider of a sequence of pointers, each with a tag. *)
Section first.
Context {T : Type} (ptr : T -> nat).
Implicit Types l : list T.

Fixpoint first_available (allowPaid : bool) l : HM (option T) :=
  match l with
  | [] => ret None
  | x :: l' =>
      a <- available allowPaid (ptr x) ;;
      if (a : bool) then ret (Some x) else first_available allowPaid l'
  end.

Lemma first_available_frame allowPaid l : keeps heap_frame (first_available allowPaid l).
Proof.
  induction l as [|i l IH]; simpl; [apply keeps_ret, _|].
  apply keeps_bind; [apply _|apply available_frame|]. intros []; [apply keeps_ret, _|done].
Qed.

(** The provider returned is ready; those tried before it, or all of them
    when none is returned, are not; the others are as before. *)
Definition first_spec (allowPaid : bool) l (r : option T) (h h' : heap) : Prop :=
  exists pre post, l = pre ++ post /\
    match r with
    | Some x => (exists post', post = x :: post') /\ is_ready allowPaid h' (ptr x) = true
    | None => post = []
    end /\
    (forall y, y ∈ pre -> ptr <$> r = Some (ptr y) \/ is_ready allowPaid h' (ptr y) = false) /\
    (forall j, j ∉ ptr <$> pre -> ptr <$> r <> Some j ->
       is_ready allowPaid h' j = is_ready allowPaid h j).

Lemma first_available_spec allowPaid l : forall s r s',
  first_available allowPaid l s = (r, s') -> first_spec allowPaid l r s.1 s'.1.
Proof.
  induction l as [|x l IH]; intros s r s' H; simpl in H.
  { unfold ret in H. simplify_eq. exists [], []. split_and!; try done. set_solver. }
  unfold bind in H. destruct (available allowPaid (ptr x) s) as [a s1] eqn:Ea.
  pose proof (available_ready _ _ _ _ _ Ea) as Hr.
  pose proof (fun j => available_other _ _ j _ _ _ Ea) as Ho. destruct a.
  { unfold ret in H. simplify_eq. exists [], (x :: l). split_and!; eauto.
    - set_solver.
    - intros j _ Hj. apply Ho. simpl in Hj. congruence. }
  destruct (IH _ _ _ H) as (pre & post & -> & Hres & Hpre & Hoth).
  exists (x :: pre), post. split_and!; [done|done|..].
  - intros y [->|Hy]%elem_of_cons; [|by apply Hpre].
    destruct (decide (ptr x ∈ ptr <$> pre)) as [Hin|Hni].
    { apply list_elem_of_fmap in Hin as (z & Hz & Hin). rewrite Hz. by apply Hpre. }
    destruct (decide (ptr <$> r = Some (ptr x))); [by left|right]. by rewrite Hoth.
  - intros j Hj Hrj. rewrite fmap_cons in Hj. rewrite Hoth, Ho by set_solver. done.
Qed.

Lemma first_spec_elem allowPaid l x h h' :
  first_spec allowPaid l (Some x) h h' -> x ∈ l /\ is_ready allowPaid h' (ptr x) = true.
Proof. intros (pre & post & -> & [[post' ->] ?] & _). split; [set_solver|done]. Qed.

Lemma first_spec_none allowPaid l h h' : first_spec allowPaid l None h h' ->
  forall y, y ∈ l -> is_ready allowPaid h' (ptr y) = false.
Proof.
  intros (pre & post & -> & -> & Hpre & _) y Hy. rewrite app_nil_r in Hy.
  by destruct (Hpre y Hy).
Qed.
End first.

Definition found {A} (r : option A) : result A :=
  match r with Some a => ok a | None => err ErrNoHealthyProvider end.

(** ** The interface *)
Class StrategyOps (S : Type) := {
  strat_Select : list nat -> M (S * (heap * Clock)) (result nat);
  strat_allowPaid : S -> bool }.

Definition strat_frame_rel {S} `{StrategyOps S} (s s' : S * (heap * Clock)) : Prop :=
  strat_allowPaid s'.1 = strat_allowPaid s.1 /\ heap_frame s.2 s'.2.

(** What a strategy promises: a provider of the slice that the state it
    leaves shows ready, or the error; and nothing but checks on the states. *)
Class StrategyLaws S `{StrategyOps S} := {
  strat_frame : forall l, keeps strat_frame_rel (strat_Select l);
  strat_sound : forall l s i s', NoDup l -> heap_wf s.2.1 -> strat_Select l s = (ok i, s') ->
    i ∈ l /\ is_ready (strat_allowPaid s.1) s'.2.1 i = true;
  strat_error : forall l s r s', strat_Select l s = (r, s') ->
    (exists i, r = ok i) \/ r = err ErrNoHealthyProvider }.

Lemma found_cases {A} (r : option A) :
  (exists x, found r = ok x) \/ found r = err ErrNoHealthyProvider.
Proof. destruct r; simpl; eauto. Qed.

(** ** priority.go *)
Definition prio_of h i : Z := match h !! i with Some ps => ps_Priority ps | None => 0 end.

Record PriorityStrategy := NewPriorityStrategy { pr_allowPaid : bool }.

Definition Priority_Select `{SortSlice} (l : list nat) :
    M (PriorityStrategy * (heap * Clock)) (result nat) :=
  fun '(st, s) =>
    let sorted := sort_slice (fun i j => prio_of s.1 i <? prio_of s.1 j) l in
    let '(r, s') := first_available id (pr_allowPaid st) sorted s in
    (found r, (st, s')).

#[export] Instance Priority_ops `{SortSlice} : StrategyOps PriorityStrategy :=
  {| strat_Select := Priority_Select; strat_allowPaid := pr_allowPaid |}.

#[export] Instance Priority_laws `{SortSlice} : StrategyLaws PriorityStrategy.
Proof.
  split; unfold strat_Select, Priority_ops, Priority_Select.
  - intros l [st s]. pose proof (fun l' => first_available_frame id (pr_allowPaid st) l' s) as Hf.
    specialize (Hf (sort_slice (fun i j => prio_of s.1 i <? prio_of s.1 j) l)).
    destruct (first_available _ _ _ s). done.
  - intros l [st s] i s' _ _ Hs. destruct (first_available _ _ _ s) as [r s1] eqn:E.
    apply first_available_spec in E. destruct r; simplify_eq/=.
    apply first_spec_elem in E as [Hin ?]. by rewrite sort_slice_perm in Hin.
  - intros l [st s] r s' Hs. destruct (first_available _ _ _ s) as [r1 s1].
    simplify_eq. apply found_cases.
Qed.

(** ** roundrobin.go *)
Record RoundRobinStrategy := mkRR { rr_index : nat; rr_allowPaid : bool }.
Definition NewRoundRobinStrategy (allowPaid : bool) : RoundRobinStrategy := mkRR 0 allowPaid.

(** The slots the loop visits, with the pointers they hold. *)
Definition rr_visit (index : nat) (l : list nat) : list (nat * nat) :=
  omap (fun i => let idx := ((index + i) mod length l)%nat in (fun p => (idx, p)) <$> l !! idx)
    (seq 0 (length l)).

Definition RoundRobin_Select (l : list nat) :
    M (RoundRobinStrategy * (heap * Clock)) (result nat) :=
  fun '(st, s) =>
    if decide (length l = 0%nat) then (err ErrNoHealthyProvider, (st, s)) else
    let '(r, s') := first_available snd (rr_allowPaid st) (rr_visit (rr_index st) l) s in
    match r with
    | Some (idx, p) => (ok p, (mkRR ((idx + 1) mod length l) (rr_allowPaid st), s'))
    | None => (err ErrNoHealthyProvider, (st, s'))
    end.

#[export] Instance RoundRobin_ops : StrategyOps RoundRobinStrategy :=
  {| strat_Select := RoundRobin_Select; strat_allowPaid := rr_allowPaid |}.

Lemma elem_of_rr_visit index l idx p : (idx, p) ∈ rr_visit index l -> l !! idx = Some p.
Proof.
  unfold rr_visit. rewrite list_elem_of_omap. intros (i & _ & Hi). simpl in Hi.
  destruct (l !! _) eqn:E; simplify_eq/=. done.
Qed.

#[export] Instance RoundRobin_laws : StrategyLaws RoundRobinStrategy.
Proof.
  split; unfold strat_Select, RoundRobin_ops, RoundRobin_Select.
  - intros l [st s]. destruct (decide _); [done|].
    pose proof (first_available_frame snd (rr_allowPaid st) (rr_visit (rr_index st) l) s) as Hf.
    destruct (first_available _ _ _ s) as [[[]|] ?]; done.
  - intros l [st s] i s' _ _ Hs. destruct (decide _); [done|].
    destruct (first_available _ _ _ s) as [r s1] eqn:E.
    apply first_available_spec in E. destruct r as [[idx p]|]; simplify_eq/=.
    apply first_spec_elem in E as [Hin ?]. split; [|done].
    apply elem_of_rr_visit in Hin. by eapply list_elem_of_lookup_2.
  - intros l [st s] r s' Hs. destruct (decide _); [naive_solver|].
    destruct (first_available _ _ _ s) as [[[]|] s1]; naive_solver.
Qed.
(** ** smart.go *)
Record SmartWeights := mkWeights {
  w_RateRemaining : float64; w_Latency : float64; w_Cost : float64 }.
Record SmartStrategy := NewSmartStrategy { sm_weights : SmartWeights; sm_allowPaid : bool }.

Definition score (w : SmartWeights) (snap : ProviderSnapshot) : float64 :=
  let rateScore := snap_RemainingRatio snap in
  let latencyScore :=
    if fgtb (snap_AvgLatencyMs snap) fzero then fdiv fone (snap_AvgLatencyMs snap) else fone in
  let costScore := fneg (snap_CostPerCall snap) in
  let baseScore := fadd (fadd (fmul (w_RateRemaining w) rateScore)
      (fmul (w_Latency w) latencyScore)) (fmul (w_Cost w) costScore) in
  let accuracy := if snap_TotalResponses snap =? 0 then fone else snap_AccuracyScore snap in
  fmul baseScore accuracy.

Definition noSnapshot : ProviderSnapshot := mkSnap fzero 0 fzero fzero fzero.

Fixpoint smart_loop (w : SmartWeights) (allowPaid : bool) (l : list nat)
    (best : option nat) (bestScore : float64) : HM (option nat) :=
  match l with
  | [] => ret best
  | i :: l' =>
      a <- available allowPaid i ;;
      if negb a then smart_loop w allowPaid l' best bestScore else
      snap <- at_ptr i noSnapshot Snapshot ;;
      let sc := score w snap in
      if fgtb sc bestScore then smart_loop w allowPaid l' (Some i) sc
      else smart_loop w allowPaid l' best bestScore
  end.

Definition Smart_Select (l : list nat) : M (SmartStrategy * (heap * Clock)) (result nat) :=
  fun '(st, s) =>
    let '(r, s') := smart_loop (sm_weights st) (sm_allowPaid st) l None fneginf s in
    (found r, (st, s')).

#[export] Instance Smart_ops : StrategyOps SmartStrategy :=
  {| strat_Select := Smart_Select; strat_allowPaid := sm_allowPaid |}.

(** The score of a provider as its state stands, with no reset of its counter. *)
Definition static_snapshot (ps : ProviderState P) : ProviderSnapshot :=
  let rl := ps_RateLimit ps in
  mkSnap (ps_AccuracyScore ps) (ps_TotalResponses ps) (averageUnsafe (ps_AvgLatency ps))
    (if rl_limit rl =? 0 then fzero
     else fdiv (f_of_int (rl_remaining rl)) (f_of_int (rl_limit rl)))
    (dec_InexactFloat64 (ps_CostPerCall ps)).
Definition score_at (w : SmartWeights) h i : float64 :=
  match h !! i with Some ps => score w (static_snapshot ps) | None => fneginf end.

Lemma Snapshot_static ps c snap s' : Snapshot (ps, c) = (snap, s') -> snap = static_snapshot s'.1.
Proof.
  unfold Snapshot, bind, ps_get, ps_now, ps_rl, ret, RemainingRatio, static_snapshot. simpl.
  destruct (rl_limit _ =? 0) eqn:E; intros; simplify_eq/=; by rewrite E.
Qed.

Lemma smart_snapshot w allowPaid i s snap s' :
  at_ptr i noSnapshot Snapshot s = (snap, s') -> heap_wf s.1 ->
  is_ready allowPaid s.1 i = true ->
  is_ready allowPaid s'.1 i = true /\ score w snap = score_at w s'.1 i.
Proof.
  destruct s as [h c]. unfold at_ptr, is_ready, score_at. simpl.
  destruct (h !! i) as [ps|] eqn:E; [|done]. intros H Hwf Hr.
  pose proof (Snapshot_ready allowPaid ps c) as Hrd.
  destruct (Snapshot (ps, c)) as [sn [ps' c']] eqn:Es. simplify_eq/=.
  rewrite list_lookup_insert_eq by by eapply lookup_lt_Some.
  split; [|by apply Snapshot_static in Es; subst].
  apply Hrd; [|done]. by eapply Forall_lookup_1.
Qed.

Lemma smart_loop_frame w allowPaid l : forall best bs, keeps heap_frame (smart_loop w allowPaid l best bs).
Proof.
  induction l as [|i l IH]; intros best bs; simpl; [apply keeps_ret, _|].
  apply keeps_bind; [apply _|apply available_frame|]. intros []; simpl; [|apply IH].
  apply keeps_bind; [apply _|apply at_ptr_frame, Snapshot_frame|]. intros snap.
  by destruct (fgtb _ _).
Qed.

(** The loop returns a ready provider of the best score, among those whose
    score beats the initial one. *)
Record smart_spec (w : SmartWeights) (allowPaid : bool) (l : list nat) (best : option nat)
    (bs : float64) (r : option nat) (s s' : heap * Clock) (fs : float64) : Prop := {
  ss_choice : (r = best /\ fs = bs) \/
    (exists i, i ∈ l /\ r = Some i /\ is_ready allowPaid s'.1 i = true /\
       fs = score_at w s'.1 i /\ fltb bs fs = true);
  ss_max : forall j, j ∈ l -> is_ready allowPaid s'.1 j = true ->
    fltb fs (score_at w s'.1 j) = false;
  ss_other : forall j, j ∉ l -> s'.1 !! j = s.1 !! j }.

(** One provider more in front of a loop that satisfies its specification: it
    was not available, it was no better, it was the best so far. *)
Section smart_step.
Context (w : SmartWeights) (allowPaid : bool) (i : nat) (l : list nat) (Hi : i ∉ l) (r : option nat).
Notation spec := (smart_spec w allowPaid).

Lemma smart_spec_skip best bs s s1 s' fs : is_ready allowPaid s1.1 i = false ->
  (forall j, i <> j -> s1.1 !! j = s.1 !! j) ->
  spec l best bs r s1 s' fs -> spec (i :: l) best bs r s s' fs.
Proof.
  intros Hr Ho [Hc Hm Hoth]. split.
  - destruct Hc as [?|(k & Hk & ?)]; [by left|right]. exists k. set_solver.
  - intros j [->|Hj]%elem_of_cons Hrj; [|by apply Hm]. unfold is_ready in *. rewrite Hoth in Hrj by done. congruence.
  - intros j Hj. rewrite Hoth, Ho by set_solver. done.
Qed.

Context (bs : float64) (s s2 s' : heap * Clock) (sc : float64).
Context (Hr : is_ready allowPaid s2.1 i = true) (Hsc : sc = score_at w s2.1 i)
  (Ho : forall j, i <> j -> s2.1 !! j = s.1 !! j).

Lemma smart_spec_kept best' bs' fs : spec l best' bs' r s2 s' fs ->
  is_ready allowPaid s'.1 i = true /\ score_at w s'.1 i = sc /\ forall j, j ∉ i :: l -> s'.1 !! j = s.1 !! j.
Proof.
  intros [_ _ Hoth]. unfold is_ready, score_at in *. rewrite Hoth, <- Hsc by done. split_and!; [done..|].
  intros j Hj. rewrite Hoth, Ho by set_solver. done.
Qed.

Lemma smart_spec_take best fs : fltb bs sc = true ->
  spec l (Some i) sc r s2 s' fs -> spec (i :: l) best bs r s s' fs.
Proof.
  intros Eb Hss. destruct (smart_spec_kept _ _ _ Hss) as (Hri & Hsi & Hoth).
  destruct Hss as [Hc Hm _]. split; [..|done].
  - right. destruct Hc as [[-> ->]|(k & Hk & -> & Hrk & -> & Hlt)].
    + exists i. split_and!; auto; set_solver.
    + exists k. split_and!; auto; [set_solver|]. by eapply fltb_trans.
  - intros j [->|Hj]%elem_of_cons Hrj; [|by apply Hm]. rewrite Hsi.
    destruct Hc as [[-> ->]|(k & Hk & -> & Hrk & -> & Hlt)]; [apply fltb_irrefl|].
    apply not_true_is_false. intros Hgt. pose proof (fltb_trans _ _ _ Hlt Hgt) as Hx. by rewrite fltb_irrefl in Hx.
Qed.

Lemma smart_spec_pass best fs : fkey bs <> None -> fltb bs sc = false ->
  spec l best bs r s2 s' fs -> spec (i :: l) best bs r s s' fs.
Proof.
  intros Hbs Eb Hss. destruct (smart_spec_kept _ _ _ Hss) as (Hri & Hsi & Hoth).
  destruct Hss as [Hc Hm _]. split; [..|done].
  - destruct Hc as [?|(k & Hk & ?)]; [by left|right]. exists k. set_solver.
  - intros j [->|Hj]%elem_of_cons Hrj; [|by apply Hm]. rewrite Hsi.
    apply not_true_is_false. intros Hgt. pose proof (fltb_neg_trans _ _ _ Hbs Eb Hgt) as Hx.
    destruct Hc as [[-> ->]|(k & Hk & -> & Hrk & -> & Hlt)]; [by rewrite fltb_irrefl in Hx|].
    pose proof (fltb_trans _ _ _ Hlt Hx) as Hx'. by rewrite fltb_irrefl in Hx'.
Qed.
End smart_step.

Lemma smart_loop_spec w allowPaid l : NoDup l -> forall best bs s r s',
  heap_wf s.1 -> fkey bs <> None ->
  smart_loop w allowPaid l best bs s = (r, s') ->
  exists fs, smart_spec w allowPaid l best bs r s s' fs.
Proof.
  induction 1 as [|i l Hi Hl IH]; intros best bs s r s' Hwf Hbs H; simpl in H.
  { unfold ret in H. simplify_eq. exists bs. split; [by left|set_solver|done]. }
  unfold bind in H. destruct (available allowPaid i s) as [a s1] eqn:Ea.
  pose proof (available_ready _ _ _ _ _ Ea) as Hr.
  pose proof (heap_frame_wf _ _ (keeps_run _ _ _ _ _ (available_frame _ _) Ea) Hwf) as Hwf1.
  assert (forall j, i <> j -> s1.1 !! j = s.1 !! j) as Ho1.
  { intros j Hj. pose proof (at_ptr_other i j false (IsAvailable allowPaid) s Hj) as Ho.
    fold (available allowPaid i) in Ho. by rewrite Ea in Ho. }
  destruct a; simpl in H.
  - destruct (at_ptr i noSnapshot Snapshot s1) as [snap s2] eqn:Es.
    pose proof (heap_frame_wf _ _ (keeps_run _ _ _ _ _ (at_ptr_frame i noSnapshot _ Snapshot_frame) Es) Hwf1) as Hwf2.
    destruct (smart_snapshot w allowPaid i s1 snap s2 Es Hwf1 (eq_sym Hr)) as [Hr2 Hsc].
    assert (forall j, i <> j -> s2.1 !! j = s.1 !! j) as Ho2.
    { intros j Hj. pose proof (at_ptr_other i j noSnapshot Snapshot s1 Hj) as Ho.
      rewrite Es in Ho. simpl in Ho. rewrite Ho. auto. }
    change (fgtb (score w snap) bs) with (fltb bs (score w snap)) in H.
    destruct (fltb bs (score w snap)) eqn:Eb.
    + destruct (IH _ _ _ _ _ Hwf2 (proj2 (fltb_not_nan _ _ Eb)) H) as [fs Hss].
      exists fs. by eapply (smart_spec_take w allowPaid i l Hi r bs s s2 s').
    + destruct (IH _ _ _ _ _ Hwf2 Hbs H) as [fs Hss].
      exists fs. by eapply (smart_spec_pass w allowPaid i l Hi r bs s s2 s').
  - destruct (IH _ _ _ _ _ Hwf1 Hbs H) as [fs Hss]. exists fs. by eapply (smart_spec_skip w allowPaid i l Hi).
Qed.

#[export] Instance Smart_laws : StrategyLaws SmartStrategy.
Proof.
  split; unfold strat_Select, Smart_ops, Smart_Select.
  - intros l [st s].
    pose proof (smart_loop_frame (sm_weights st) (sm_allowPaid st) l None fneginf s) as Hf.
    destruct (smart_loop _ _ _ _ _ s). done.
  - intros l [st s] i s' Hnd Hwf Hs. destruct (smart_loop _ _ _ _ _ s) as [r s1] eqn:E.
    assert (fkey fneginf <> None) as Hinf by discriminate.
    destruct (smart_loop_spec _ _ _ Hnd _ _ _ _ _ Hwf Hinf E)
      as [fs [[[-> _]|(k & Hk & -> & Hr & _)] _ _]]; by simplify_eq/=.
  - intros l [st s] r s' Hs. destruct (smart_loop _ _ _ _ _ s) as [r1 s1].
    simplify_eq. apply found_cases.
Qed.
End heap.

(** ** What each strategy optimises *)
Section properties.
Context {O : DecimalOps} {P : Type}.
Notation heap := (list (ProviderState P)).

(** The priority strategy returns a ready provider, and no provider of a
    strictly smaller priority number is ready in the state it leaves; it
    fails only when no provider is ready. *)
Theorem priority_select_minimal `{SortSlice} st l (s : heap * Clock) r st' s' :
  Priority_Select l (st, s) = (r, (st', s')) ->
  match r with
  | (Some i, None) => i ∈ l /\ is_ready (pr_allowPaid st) s'.1 i = true /\
      forall j, j ∈ l -> prio_of s.1 j < prio_of s.1 i ->
        is_ready (pr_allowPaid st) s'.1 j = false
  | (None, Some e) => e = ErrNoHealthyProvider /\
      forall j, j ∈ l -> is_ready (pr_allowPaid st) s'.1 j = false
  | _ => False
  end.
Proof.
  unfold Priority_Select. destruct (first_available _ _ _ s) as [r1 s1] eqn:E. intros; simplify_eq.
  apply first_available_spec in E.
  pose proof (sort_slice_perm (fun i j => prio_of s.1 i <? prio_of s.1 j) l) as Hp.
  pose proof (sort_slice_sorted (fun i j => prio_of s.1 i <? prio_of s.1 j) l
    (strict_weak_key _)) as Hs.
  set (sl := sort_slice _ l) in *. destruct r1 as [i|]; simpl.
  - pose proof E as (Hin & Hr)%first_spec_elem. split_and!; [by rewrite <- Hp|done|].
    intros j Hj Hlt. destruct E as (pre & post & Hsl & [[post' ->] _] & Hpre & _).
    rewrite <- Hp, Hsl, elem_of_app, elem_of_cons in Hj. simpl in *.
    destruct Hj as [Hj|[->|Hj]]; [|lia|].
    + destruct (Hpre j Hj); [simplify_eq; lia|done].
    + rewrite Hsl in Hs. apply StronglySorted_app_1_r in Hs as Hs'.
      inversion Hs' as [|?? _ Hall]; subst. eapply Forall_forall in Hall; [|exact Hj].
      simpl in Hall. to_prop. lia.
  - split; [done|]. intros j Hj. rewrite <- Hp in Hj.
    by apply (first_spec_none id _ _ _ _ E).
Qed.

(** C18. The smart strategy returns a ready provider whose score no ready
    provider of the slice beats, in the state it leaves; it fails only when
    no ready provider has a score above minus infinity. *)
Theorem smart_select_argmax st l (s : heap * Clock) r st' s' :
  NoDup l -> heap_wf s.1 ->
  Smart_Select l (st, s) = (r, (st', s')) ->
  match r with
  | (Some i, None) => i ∈ l /\ is_ready (sm_allowPaid st) s'.1 i = true /\
      forall j, j ∈ l -> is_ready (sm_allowPaid st) s'.1 j = true ->
        fltb (score_at (sm_weights st) s'.1 i) (score_at (sm_weights st) s'.1 j) = false
  | (None, Some e) => e = ErrNoHealthyProvider /\
      forall j, j ∈ l -> is_ready (sm_allowPaid st) s'.1 j = true ->
        fltb fneginf (score_at (sm_weights st) s'.1 j) = false
  | _ => False
  end.
Proof.
  intros Hnd Hwf. unfold Smart_Select. destruct (smart_loop _ _ _ _ _ s) as [r1 s1] eqn:E.
  intros; simplify_eq. assert (fkey fneginf <> None) as Hinf by discriminate.
  destruct (smart_loop_spec _ _ _ Hnd _ _ _ _ _ Hwf Hinf E)
    as [fs [[[-> ->]|(i & Hi & -> & Hr & -> & _)] Hmax _]]; simpl; naive_solver.
Qed.

(** *** Round robin is fair *)

(** Provider [p] passes the availability check whenever it is made. *)
Definition can_serve (allowPaid : bool) (h : heap) (p : nat) : Prop :=
  exists ps, h !! p = Some ps /\ forall c, fst (IsAvailable allowPaid (ps, c)) = true.

Lemma can_serve_other allowPaid i p (s : heap * Clock) b s' :
  available allowPaid i s = (b, s') -> i <> p -> can_serve allowPaid s.1 p -> can_serve allowPaid s'.1 p.
Proof.
  intros H Hip (ps & Hps & Hc). exists ps. split; [|done].
  pose proof (at_ptr_other i p false (IsAvailable allowPaid) s Hip) as Ho.
  unfold available in H. rewrite H in Ho. simpl in Ho. congruence.
Qed.

Lemma can_serve_available allowPaid p (s : heap * Clock) :
  can_serve allowPaid s.1 p -> fst (available allowPaid p s) = true.
Proof.
  destruct s as [h c]. intros (ps & Hps & Hc). unfold available, at_ptr. simpl in *.
  rewrite Hps. specialize (Hc c). by destruct (IsAvailable _ _) as [a [ps' c']].
Qed.

Lemma first_available_bound {T} (ptr : T -> nat) allowPaid pre y post : forall s : heap * Clock,
  can_serve allowPaid s.1 (ptr y) -> Forall (fun x => ptr x <> ptr y) pre ->
  exists x, fst (first_available ptr allowPaid (pre ++ y :: post) s) = Some x /\ x ∈ pre ++ [y].
Proof.
  induction pre as [|x pre IH]; intros s Hs Hpre; simpl.
  - pose proof (can_serve_available _ _ _ Hs) as Ha. unfold bind.
    destruct (available _ _ s) as [a s1]. simpl in Ha. subst. exists y. set_solver.
  - apply Forall_cons in Hpre as [Hx Hpre]. unfold bind.
    destruct (available allowPaid (ptr x) s) as [a s1] eqn:E.
    destruct a; [exists x; set_solver|].
    destruct (IH s1) as (z & Hz & Hin); [by eapply can_serve_other|done|].
    exists z. split; [done|set_solver].
Qed.

Lemma mod_wrap (a n : nat) : (a < 2 * n)%nat ->
  (a mod n = if decide (a < n)%nat then a else a - n)%nat.
Proof.
  intros Ha. case_decide; [by apply Nat.mod_small|].
  replace a with ((a - n) + 1 * n)%nat at 1 by lia.
  rewrite Nat.Div0.mod_add. apply Nat.mod_small. lia.
Qed.

Lemma rr_visit_eq index l : (0 < length l)%nat -> rr_visit index l =
  (fun i => ((index + i) mod length l, default 0 (l !! ((index + i) mod length l)))%nat)
    <$> seq 0 (length l).
Proof.
  intros Hn. unfold rr_visit. generalize (seq 0 (length l)). intros js.
  induction js as [|i js IH]; [done|]. simpl.
  destruct (lookup_lt_is_Some_2 l ((index + i) mod length l)) as [p Hp];
    [by apply Nat.mod_upper_bound; lia|].
  rewrite Hp. simpl. f_equal. exact IH.
Qed.

(** The selections of a round robin over a sequence of router states. *)
Fixpoint rr_serve (st : RoundRobinStrategy) (l : list nat) (ws : list (heap * Clock)) :
    list (result nat) :=
  match ws with
  | [] => []
  | w :: ws' => let '(r, (st', _)) := RoundRobin_Select l (st, w) in r :: rr_serve st' l ws'
  end.

(** How far round the slice the slot [d] is from the next slot to try. *)
Definition rr_offset (index d n : nat) : nat :=
  if decide (index <= d)%nat then (d - index)%nat else (d + n - index)%nat.

Lemma RoundRobin_Select_bound st l (w : heap * Clock) d p :
  NoDup l -> l !! d = Some p -> (rr_index st < length l)%nat ->
  can_serve (rr_allowPaid st) w.1 p ->
  exists o w', (o <= rr_offset (rr_index st) d (length l))%nat /\
    let idx := ((rr_index st + o) mod length l)%nat in
    exists q, l !! idx = Some q /\
    RoundRobin_Select l (st, w) = (ok q, (mkRR ((idx + 1) mod length l) (rr_allowPaid st), w')).
Proof.
  intros Hnd Hd Hidx Hserve. pose proof (lookup_lt_Some _ _ _ Hd) as Hlt.
  set (n := length l) in *. set (off := rr_offset (rr_index st) d n).
  assert (off < n /\ (rr_index st + off) mod n = d)%nat as [Hoff Hmod].
  { unfold off, rr_offset. case_decide; rewrite mod_wrap by lia; case_decide; lia. }
  unfold RoundRobin_Select. fold n. rewrite decide_False by lia.
  set (f := fun i => ((rr_index st + i) mod n, default 0 (l !! ((rr_index st + i) mod n)))%nat).
  assert (rr_visit (rr_index st) l =
    (f <$> seq 0 off) ++ (d, p) :: (f <$> seq (S off) (n - S off))) as Hv.
  { rewrite rr_visit_eq by lia. fold n f.
    replace n with (off + S (n - S off))%nat at 1 by lia.
    rewrite seq_app, fmap_app. simpl. f_equal. f_equal. unfold f.
    by rewrite Hmod, Hd. }
  destruct (first_available_bound snd (rr_allowPaid st) (f <$> seq 0 off) (d, p)
    (f <$> seq (S off) (n - S off)) w Hserve) as (x & Hx & Hin).
  { apply Forall_fmap, Forall_forall. intros i Hi%elem_of_seq Heq. unfold f in Heq. simpl in Heq.
    destruct (lookup_lt_is_Some_2 l ((rr_index st + i) mod n)) as [q Hq];
      [apply Nat.mod_upper_bound; lia|].
    rewrite Hq in Heq. simpl in Heq. subst q.
    pose proof (NoDup_lookup _ _ _ _ Hnd Hq Hd) as Hid. unfold off, rr_offset in *.
    rewrite <- Hmod, !mod_wrap in Hid by lia. repeat case_decide; lia. }
  rewrite Hv. destruct (first_available _ _ _ w) as [r w'] eqn:E. simpl in Hx. subst r.
  assert (exists o, (o <= off)%nat /\ x = f o) as (o & Ho & ->).
  { apply elem_of_app in Hin as [(i & -> & Hi%elem_of_seq)%list_elem_of_fmap|Hin].
    - exists i. split; [lia|done].
    - apply list_elem_of_singleton in Hin. subst x. exists off. split; [lia|].
      unfold f. by rewrite Hmod, Hd. }
  exists o, w'. split; [done|]. simpl.
  destruct (lookup_lt_is_Some_2 l ((rr_index st + o) mod n)) as [q Hq];
    [apply Nat.mod_upper_bound; lia|].
  exists q. split; [done|]. unfold f. by rewrite Hq.
Qed.

Lemma rr_serve_within st l d p : NoDup l -> l !! d = Some p -> forall ws,
  (rr_index st < length l)%nat ->
  (rr_offset (rr_index st) d (length l) < length ws)%nat ->
  Forall (fun w : heap * Clock => can_serve (rr_allowPaid st) w.1 p) ws ->
  ok p ∈ rr_serve st l ws.
Proof.
  intros Hnd Hd ws. revert st.
  induction ws as [|w ws IH]; intros st Hidx Hoff Hall; [simpl in *; lia|].
  cbn [rr_serve length] in *.
  apply Forall_cons in Hall as [Hw Hall].
  destruct (RoundRobin_Select_bound st l w d p Hnd Hd Hidx Hw) as (o & w' & Ho & q & Hq & ->).
  pose proof (lookup_lt_Some _ _ _ Hd) as Hlt.
  destruct (decide ((rr_index st + o) mod length l = d)%nat) as [Heq|Hne].
  { rewrite Heq, Hd in Hq. simplify_eq. apply elem_of_cons. by left. }
  apply elem_of_cons. right. apply IH; simpl; [apply Nat.mod_upper_bound; lia| |done].
  set (n := length l) in *. set (x := ((rr_index st + o) mod n)%nat) in *.
  assert (x < n)%nat by (apply Nat.mod_upper_bound; lia).
  assert (x = (if decide (rr_index st + o < n) then rr_index st + o else rr_index st + o - n))%nat
    as Hx by (apply mod_wrap; unfold rr_offset in *; case_decide; lia).
  pose proof (mod_wrap (x + 1) n ltac:(lia)) as Hx1.
  rewrite Hx1. unfold rr_offset in *. clearbody x. repeat case_decide; lia.
Qed.

(** C17. Round robin serves every provider that stays available within one
    round: among as many consecutive selections as there are providers,
    whatever happens to the router in between, one returns it. *)
Theorem round_robin_fair st l p (ws : list (heap * Clock)) :
  NoDup l -> p ∈ l -> (rr_index st < length l)%nat -> length ws = length l ->
  Forall (fun w : heap * Clock => can_serve (rr_allowPaid st) w.1 p) ws ->
  ok p ∈ rr_serve st l ws.
Proof.
  intros Hnd [d Hd]%list_elem_of_lookup Hidx Hlen Hall.
  pose proof (lookup_lt_Some _ _ _ Hd). eapply rr_serve_within; eauto.
  unfold rr_offset. case_decide; lia.
Qed.
End properties.
