(* ===== verification/MultiRouter.v ===== *)
(** * internal/router: multi.go, single.go

    The router over a strategy, generic in it: the theorems use the contract
    [StrategyLaws] only. *)
From S2P Require Import Prelude GoLib Decimal Model CircuitBreaker RateLimit ProviderState.
From S2P Require Import Strategies.
Open Scope Z_scope.

Section multi.
Context {O : DecimalOps} {P : Type} (Name : P -> string) (Status : P -> ProviderStatus).
Context {St : Type} `{HS : !StrategyOps (P := P) St} `{HL : !StrategyLaws (P := P) St}.

Record ProviderRegistration := mkReg {
  reg_Provider : P;
  reg_Tier : ProviderTier;
  reg_Priority : Z;
  reg_RateLimit : Z;
  reg_RateWindow : Duration;
  reg_CBThreshold : Z;
  reg_CBTimeout : Duration;
  reg_CostPerCall : decimal }.

(** The provider states are the objects [mr_heap]; the map and the slice of
    the Go struct hold pointers to them. *)
Record MultiRouter := mkMR {
  mr_strategy : St;
  mr_providers : gmap string nat;
  mr_ordered : list nat;
  mr_heap : list (ProviderState P) }.

Notation RM := (M (MultiRouter * Clock)).

Definition register (now : Time) (reg : ProviderRegistration) : ProviderState P :=
  mkPS (reg_Provider reg) (reg_Tier reg) (reg_Priority reg)
    (NewRateLimitTracker now (reg_RateLimit reg) (reg_RateWindow reg))
    (NewCircuitBreaker (reg_CBThreshold reg) (reg_CBTimeout reg))
    NewLatencyTracker (reg_CostPerCall reg) true fzero 0 0 0.

Fixpoint register_all (r : MultiRouter) (regs : list ProviderRegistration) (c : Clock) :
    MultiRouter * Clock :=
  match regs with
  | [] => (r, c)
  | reg :: regs' =>
      let '(now, c) := tick c in
      let i := length (mr_heap r) in
      register_all (mkMR (mr_strategy r) (<[Name (reg_Provider reg) := i]> (mr_providers r))
        (mr_ordered r ++ [i]) (mr_heap r ++ [register now reg])) regs' c
  end.
Definition NewMultiRouter (strategy : St) (regs : list ProviderRegistration) (c : Clock) :
    MultiRouter * Clock := register_all (mkMR strategy ∅ [] []) regs c.

Definition set_heap (h : list (ProviderState P)) (r : MultiRouter) : MultiRouter :=
  mkMR (mr_strategy r) (mr_providers r) (mr_ordered r) h.

(** One step.  It holds the router's lock, which the reports below do not take:
    a report of a concurrent request may fall between its checks of the
    providers, and counts here as before or after it. *)
Definition Select : RM (result P) := fun '(r, c) =>
  let '(res, (st, (h, c))) := strat_Select (mr_ordered r) (mr_strategy r, (mr_heap r, c)) in
  let r := mkMR st (mr_providers r) (mr_ordered r) h in
  match res with
  | (Some i, None) =>
      let '(now1, c) := tick c in
      let '(now2, c) := tick c in
      match h !! i with
      | Some ps =>
          (ok (ps_Provider ps),
           (set_heap (<[i := set_rl (Consume now1 now2 (ps_RateLimit ps)) ps]> h) r, c))
      | None => (err ErrNoHealthyProvider, (r, c)) (* a dangling pointer: unreachable *)
      end
  | (_, Some e) => (err e, (r, c))
  | (None, None) => ((None, None), (r, c))
  end.

(** Apply a function to the state registered under a name, if there is one. *)
Definition with_provider (name : string) (f : ProviderState P -> ProviderState P)
    (r : MultiRouter) : MultiRouter :=
  match mr_providers r !! name with
  | Some i => set_heap (alter f i (mr_heap r)) r
  | None => r
  end.

Definition ReportSuccess (name : string) (latency : Duration) : RM unit := fun '(r, c) =>
  (tt, (with_provider name (fun ps =>
    let ps := set_cb (RecordSuccess (ps_CircuitBreaker ps)) ps in
    set_lt (LatencyTracker_Record (f_of_int (Duration_Milliseconds latency)) (ps_AvgLatency ps)) ps)
    r, c)).

Definition ReportFailure (name : string) (e : error) : RM unit := fun '(r, c) =>
  let '(now, c) := tick c in
  (tt, (with_provider name (fun ps => set_cb (RecordFailure now (ps_CircuitBreaker ps)) ps) r, c)).

Definition ReportAccurate (name : string) : RM unit := fun '(r, c) =>
  (tt, (with_provider name RecordAccurate r, c)).
Definition ReportOutlier (name : string) : RM unit := fun '(r, c) =>
  (tt, (with_provider name RecordOutlier r, c)).

(** [ProviderStatuses]: the provider's own status, with the router's counter
    and latency. *)
Fixpoint statuses_loop (l : list nat) (h : list (ProviderState P)) (c : Clock) :
    list ProviderStatus * (list (ProviderState P) * Clock) :=
  match l with
  | [] => ([], (h, c))
  | i :: l' =>
      match h !! i with
      | None => statuses_loop l' h c
      | Some ps =>
          let s := Status (ps_Provider ps) in
          let '(now1, c) := tick c in
          let '(now2, c) := tick c in
          let '(rem, rl) := Remaining now1 now2 (ps_RateLimit ps) in
          let lat := wrap64 (f_to_int (Average (ps_AvgLatency ps)) * Millisecond) in
          let s := mkStatus (SName s) (SHealthy s) rem (SResetAt s) lat (STier s)
                     (SLastError s) (SLastSuccessAt s) in
          let '(ss, hc) := statuses_loop l' (<[i := set_rl rl ps]> h) c in
          (s :: ss, hc)
      end
  end.
Definition ProviderStatuses : RM (list ProviderStatus) := fun '(r, c) =>
  let '(ss, (h, c)) := statuses_loop (mr_ordered r) (mr_heap r) c in (ss, (set_heap h r, c)).

(** ** The router's invariant *)
Record mr_wf (r : MultiRouter) : Prop := {
  mw_heap : heap_wf (mr_heap r);
  mw_ordered : mr_ordered r = seq 0 (length (mr_heap r));
  mw_providers : forall name i, mr_providers r !! name = Some i ->
    exists ps, mr_heap r !! i = Some ps /\ Name (ps_Provider ps) = name }.

Lemma mr_wf_nodup r : mr_wf r -> NoDup (mr_ordered r).
Proof. intros [_ -> _]. apply NoDup_seq. Qed.

Lemma register_all_wf regs : forall r c, mr_wf r -> mr_wf (fst (register_all r regs c)).
Proof.
  induction regs as [|reg regs IH]; intros r c [H1 H2 H3]; simpl; [done|].
  apply IH. split; simpl.
  - apply Forall_snoc. split; [done|]. apply rl_wf_new.
  - rewrite length_snoc, H2. by rewrite seq_S.
  - intros name i. rewrite lookup_insert. case_decide as Hn.
    + intros. simplify_eq. exists (register (ck_read c (ck_pos c)) reg).
      split; [|done]. rewrite lookup_app_r by lia. by rewrite Nat.sub_diag.
    + intros (ps & Hps & Hnm)%H3. exists ps. split; [|done]. by apply lookup_app_l_Some.
Qed.

Lemma NewMultiRouter_wf strategy regs c : mr_wf (fst (NewMultiRouter strategy regs c)).
Proof. apply register_all_wf. by split; [constructor| |]. Qed.

(** A change of the heap that keeps the providers and the counters keeps the
    invariant. *)
Lemma mr_wf_heap st r h' :
  Forall2 (fun ps ps' => ps_Provider ps' = ps_Provider ps /\ (ps_wf ps -> ps_wf ps')) (mr_heap r) h' ->
  mr_wf r -> mr_wf (mkMR st (mr_providers r) (mr_ordered r) h').
Proof.
  intros Hh [H1 H2 H3]. split; simpl.
  - unfold heap_wf in *. revert H1. clear -Hh.
    induction Hh as [|??? ? [] ? IH]; [done|]. rewrite !Forall_cons. intros []. auto.
  - by rewrite <- (Forall2_length _ _ _ Hh).
  - intros name i (ps & Hps & Hn)%H3.
    destruct (Forall2_lookup_l _ _ _ _ _ Hh Hps) as (ps' & Hps' & Hp & _).
    exists ps'. split; [done|]. congruence.
Qed.

Lemma Forall2_alter (Q : ProviderState P -> ProviderState P -> Prop) f i h :
  (forall ps, Q ps ps) -> (forall ps, Q ps (f ps)) -> Forall2 Q h (alter f i h).
Proof.
  intros Hr Hf. apply Forall2_same_length_lookup_2; [by rewrite length_alter|].
  intros j x y Hx. rewrite list_lookup_alter. case_decide; simplify_eq; rewrite Hx; intros; by simplify_eq/=.
Qed.

Lemma with_provider_wf name f r :
  (forall ps, ps_Provider (f ps) = ps_Provider ps /\ ps_RateLimit (f ps) = ps_RateLimit ps) ->
  mr_wf r -> mr_wf (with_provider name f r).
Proof.
  intros Hf Hr. unfold with_provider. case_goal; [|done].
  apply mr_wf_heap; [|done]. apply Forall2_alter; [done|].
  intros ps. destruct (Hf ps) as [-> Hrl]. unfold ps_wf. by rewrite Hrl.
Qed.

Lemma heap_frame_static s s' : heap_frame s s' ->
  Forall2 (fun ps ps' : ProviderState P => ps_Provider ps' = ps_Provider ps /\ (ps_wf ps -> ps_wf ps'))
    s.1 s'.1.
Proof. intros [H _]. eapply Forall2_impl; [exact H|]. intros ?? [(?&_) ?]. done. Qed.

Lemma Forall2_insert_self (Q : ProviderState P -> ProviderState P -> Prop) h i ps ps' :
  (forall ps, Q ps ps) -> h !! i = Some ps -> Q ps ps' -> Forall2 Q h (<[i := ps']> h).
Proof.
  intros Hr Hi Hq. apply Forall2_same_length_lookup_2; [by rewrite length_insert|].
  intros j x y Hx. rewrite list_lookup_insert. case_decide.
  - intros. by destruct_and?; simplify_eq.
  - intros. by simplify_eq.
Qed.

Lemma Select_wf r c : mr_wf r -> mr_wf (snd (Select (r, c))).1.
Proof.
  intros Hr. unfold Select.
  pose proof (strat_frame (mr_ordered r) (mr_strategy r, (mr_heap r, c))) as [_ Hf].
  destruct (strat_Select _ _) as [res [st [h c']]]. simpl in *.
  assert (mr_wf (mkMR st (mr_providers r) (mr_ordered r) h)) as Hr'.
  { apply mr_wf_heap; [|done]. by apply (heap_frame_static _ _ Hf). }
  destruct res as [[i|] [e|]]; simpl; try done.
  destruct (h !! i) as [ps|] eqn:E; simpl; [|done].
  apply (mr_wf_heap st (mkMR st (mr_providers r) (mr_ordered r) h)); [|done].
  apply (Forall2_insert_self _ h i ps); [done|done|]. split; [done|apply rl_wf_Consume].
Qed.

(** The providers are the registered ones, and a selected one is among them. *)
Definition router_from (Q : P -> Prop) (r : MultiRouter) : Prop := Forall (fun ps => Q (ps_Provider ps)) (mr_heap r).
Lemma heap_from (Q : P -> Prop) h h' :
  Forall2 (fun ps ps' : ProviderState P => ps_Provider ps' = ps_Provider ps /\ (ps_wf ps -> ps_wf ps')) h h' ->
  Forall (fun ps => Q (ps_Provider ps)) h -> Forall (fun ps => Q (ps_Provider ps)) h'.
Proof. induction 1 as [|ps ps' h h' [Hp _] _ IH]; [done|]. rewrite !Forall_cons, Hp. intros []. auto. Qed.
Lemma Select_from (Q : P -> Prop) r c : router_from Q r ->
  router_from Q (snd (Select (r, c))).1 /\ forall p, (fst (Select (r, c))).1 = Some p -> Q p.
Proof.
  intros Hr. unfold Select.
  pose proof (strat_frame (mr_ordered r) (mr_strategy r, (mr_heap r, c))) as [_ Hf].
  destruct (strat_Select _ _) as [res [st [h c']]]. apply heap_frame_static, (heap_from Q) in Hf; [|exact Hr]. cbn in Hf.
  destruct res as [[i|] [e|]]; try by split. cbn. destruct (h !! i) as [ps|] eqn:E; [|by split].
  assert (Q (ps_Provider ps)) by (eapply Forall_lookup_1 in Hf; done).
  split; [|by intros p [= <-]]. apply Forall_insert; done.
Qed.
Lemma with_provider_from (Q : P -> Prop) name f r : (forall ps, ps_Provider (f ps) = ps_Provider ps) ->
  router_from Q r -> router_from Q (with_provider name f r).
Proof.
  intros Hf Hr. unfold with_provider. case_goal; [|done]. apply Forall_alter; [done|].
  intros ps _ Hp. by rewrite Hf.
Qed.
Lemma register_all_from (Q : P -> Prop) regs : Forall (fun reg => Q (reg_Provider reg)) regs -> forall r c,
  router_from Q r -> router_from Q (fst (register_all r regs c)).
Proof.
  induction 1 as [|reg regs Hreg _ IH]; intros r c Hr; [done|]. apply IH. unfold router_from. simpl.
  by apply Forall_snoc.
Qed.

(** C13. A provider the router selects was admissible: enabled, of an allowed
    tier, with a breaker that is not open, a token left and fewer than five
    consecutive outliers; exactly one of its tokens is consumed. *)
Theorem select_admissible r c p r' c' :
  mr_wf r -> Select (r, c) = (ok p, (r', c')) ->
  exists i ps now1 now2,
    ps_Provider ps = p /\
    ready (strat_allowPaid (mr_strategy r)) ps = true /\
    (exists ps0, mr_heap r !! i = Some ps0 /\ same_static ps0 ps) /\
    mr_heap r' !! i = Some (set_rl (Consume now1 now2 (ps_RateLimit ps)) ps) /\
    rl_remaining (Consume now1 now2 (ps_RateLimit ps)) =
      rl_remaining (checkReset now1 now2 (ps_RateLimit ps)) - 1 /\
    0 <= rl_remaining (Consume now1 now2 (ps_RateLimit ps)).
Proof.
  intros Hr. unfold Select.
  pose proof (strat_frame (mr_ordered r) (mr_strategy r, (mr_heap r, c))) as [_ Hf].
  destruct (strat_Select _ _) as [res [st [h c1]]] eqn:Es. simpl in Hf.
  destruct res as [[i|] [e|]]; try (intros; by simplify_eq/=).
  apply strat_sound in Es as [_ Hready]; [|by apply mr_wf_nodup|apply Hr].
  unfold is_ready in Hready. simpl in *. destruct (h !! i) as [ps|] eqn:Ei; [|done].
  intros; simplify_eq/=.
  exists i, ps, (ck_read c1 (ck_pos c1)), (ck_read c1 (S (ck_pos c1))).
  destruct (Forall2_lookup_r _ _ _ _ _ (proj1 Hf) Ei) as (ps0 & Hps0 & Hst & _).
  pose proof (mw_heap _ Hr) as Hwf. apply (heap_frame_wf _ _ Hf) in Hwf. simpl in Hwf.
  assert (ps_wf ps) as Hps by by eapply Forall_lookup_1.
  assert (0 < rl_remaining (checkReset (ck_read c1 (ck_pos c1)) (ck_read c1 (S (ck_pos c1)))
    (ps_RateLimit ps))) as Hpos.
  { apply checkReset_pos; [done|]. unfold ready in Hready.
    rewrite !andb_true_iff, Z.ltb_lt in Hready. lia. }
  split_and!; eauto.
  - by rewrite list_lookup_insert_eq by by eapply lookup_lt_Some.
  - unfold Consume. rewrite Z.gtb_ltb, (proj2 (Z.ltb_lt _ _)) by done. done.
  - unfold Consume. rewrite Z.gtb_ltb, (proj2 (Z.ltb_lt _ _)) by done. simpl. lia.
Qed.

(** Every operation of the router keeps its invariant: the slice and the
    map point to the registered providers under their names, and no counter
    leaves the range between zero and its limit. *)
Theorem router_invariant r c :
  mr_wf r ->
  mr_wf (snd (Select (r, c))).1 /\
  (forall n d, mr_wf (snd (ReportSuccess n d (r, c))).1) /\
  (forall n e, mr_wf (snd (ReportFailure n e (r, c))).1) /\
  (forall n, mr_wf (snd (ReportAccurate n (r, c))).1) /\
  (forall n, mr_wf (snd (ReportOutlier n (r, c))).1).
Proof.
  intros Hr. split_and!; [by apply Select_wf|intros; by apply with_provider_wf..].
Qed.

Lemma Select_error r c res s' : Select (r, c) = (res, s') ->
  (exists p, res = ok p) \/ res = err ErrNoHealthyProvider.
Proof.
  unfold Select. destruct (strat_Select _ _) as [q [st [h c1]]] eqn:Es.
  apply strat_error in Es as [[i ->]| ->]; simpl; [|naive_solver].
  destruct (h !! i); naive_solver.
Qed.
End multi.

(** ** single.go *)
Section single.
Context {P : Type}.
Record SingleRouter := mkSR { sr_provider : P; sr_failCount : Z; sr_failureThreshold : Z }.
Definition defaultFailureThreshold : Z := 5.
Definition NewSingleRouter (p : P) : SingleRouter := mkSR p 0 defaultFailureThreshold.
Definition Single_Select : M SingleRouter (result P) := fun r =>
  if sr_failCount r >=? sr_failureThreshold r then (err ErrNoHealthyProvider, r)
  else (ok (sr_provider r), r).
Definition Single_ReportSuccess : M SingleRouter unit := fun r =>
  (tt, mkSR (sr_provider r) 0 (sr_failureThreshold r)).
Definition Single_ReportFailure : M SingleRouter unit := fun r =>
  (tt, mkSR (sr_provider r) (wrap64 (sr_failCount r + 1)) (sr_failureThreshold r)).

(** A client that reports an outcome only for a provider it was given. *)
Definition single_call (r : SingleRouter) (success : bool) : result P * SingleRouter :=
  let '(res, r) := Single_Select r in
  match res with
  | (Some _, None) => (res, snd ((if success then Single_ReportSuccess else Single_ReportFailure) r))
  | _ => (res, r)
  end.
Definition single_calls (r : SingleRouter) (outcomes : list bool) : SingleRouter :=
  fold_left (fun r b => snd (single_call r b)) outcomes r.
End single.
Arguments SingleRouter : clear implicits.

(** The single router has no way back: once five consecutive calls have
    failed, every later selection is refused, since a client only reports the
    outcome of a provider it was given. *)
Theorem single_router_never_recovers {P} (p : P) (outcomes : list bool) :
  let r := single_calls (NewSingleRouter p) [false; false; false; false; false] in
  fst (Single_Select (single_calls r outcomes)) = err ErrNoHealthyProvider.
Proof.
  intros r. assert (forall r : SingleRouter P, sr_failCount r = 5 -> sr_failureThreshold r = 5 ->
    fst (Single_Select (single_calls r outcomes)) = err ErrNoHealthyProvider) as H; [|apply H; reflexivity].
  clear r.
  induction outcomes as [|b os IH]; intros [q f t] Hf Ht; simpl in *; subst; [done|].
  by apply IH.
Qed.
