(* ===== verification/MemCache.v ===== *)
(** * internal/adapter/storage/memory/cache.go

    The in-memory cache, its expiry, and when two keys can collide. *)
From S2P Require Import Prelude GoLib Decimal Model.
From Stdlib Require Import Ascii String.
Open Scope Z_scope.

Definition cacheKey (coinID currency : string) : string := coinID +:+ ":" +:+ currency.

Section cache.
Context {O : DecimalOps}.

Record cacheEntry := mkEntry { ce_price : Price; ce_expiresAt : Time }.
Record Cache := mkCache { entries : gmap string cacheEntry }.
Definition NewCache : Cache := mkCache ∅.

(** [Get] at the clock reading [now]. *)
Definition Cache_Get (now : Time) (coinID currency : string) (c : Cache) : result Price :=
  match entries c !! cacheKey coinID currency with
  | None => (None, None)
  | Some entry =>
      if time_After now (ce_expiresAt entry) then (None, None) else (Some (ce_price entry), None)
  end.

Definition Cache_Set (now : Time) (price : Price) (ttl : Duration) (c : Cache) : Cache :=
  mkCache (<[cacheKey (CoinID price) (Currency price) :=
    mkEntry price (time_Add now ttl)]> (entries c)).

Definition Cache_Delete (coinID currency : string) (c : Cache) : Cache :=
  mkCache (delete (cacheKey coinID currency) (entries c)).

End cache.

(** The strings with no [':'], which every coin ID the HTTP handlers validate is. *)
Fixpoint no_colon (s : string) : bool :=
  match s with
  | EmptyString => true
  | String c s' => negb (bool_decide (c = ":"%char)) && no_colon s'
  end.

Lemma cacheKey_inj coin coin' cur cur' :
  no_colon coin = true -> no_colon coin' = true ->
  cacheKey coin cur = cacheKey coin' cur' -> coin = coin' /\ cur = cur'.
Proof.
  unfold cacheKey. revert coin'.
  induction coin as [|c s IH]; intros [|c' s'] Hs Hs' Heq; simpl in *; to_prop;
    rewrite ?bool_decide_eq_false in *; simplify_eq; [done|].
  destruct (IH s') as [-> ->]; done.
Qed.

(** A key made of two strings without a colon can be read in one way only. *)
Lemma no_colon_app s s' : no_colon (s +:+ ":" +:+ s') = false.
Proof.
  induction s as [|c s IH]; [reflexivity|]. change (no_colon (String c (s +:+ ":" +:+ s')) = false).
  cbn [no_colon]. rewrite IH. apply andb_false_r.
Qed.
Lemma cacheKey_unique coin coin' cur cur' : no_colon coin = true -> no_colon cur = true ->
  cacheKey coin' cur' = cacheKey coin cur -> coin' = coin /\ cur' = cur.
Proof.
  intros Hc Hu Heq. destruct (no_colon coin') eqn:Hc'; [by apply cacheKey_inj|]. exfalso.
  unfold cacheKey in Heq. revert coin Hc Heq Hc'. induction coin' as [|c s IH]; intros [|d t] Ht Heq Hs; try done.
  - change (String c (s +:+ ":" +:+ cur') = String ":" cur) in Heq. injection Heq as -> Heq.
    rewrite <- Heq, no_colon_app in Hu. done.
  - change (String c (s +:+ ":" +:+ cur') = String d (t +:+ ":" +:+ cur)) in Heq. injection Heq as -> Heq.
    cbn [no_colon] in *. apply andb_true_iff in Ht as [Hd Ht]. rewrite Hd in Hs. by apply (IH t).
Qed.

Section properties.
Context {O : DecimalOps}.

(** A price read back from the cache is the last one set for its coin and
    currency, until its time to live has passed and not after; setting it leaves
    the entries of every other key alone, and keys cannot collide between coin
    IDs that contain no colon. *)
Theorem cache_set_get (c : Cache) (p : Price) now ttl now' coin cur :
  no_colon coin = true -> no_colon (CoinID p) = true ->
  Cache_Get now' coin cur (Cache_Set now p ttl c) =
    if bool_decide (coin = CoinID p /\ cur = Currency p)
    then (if now' >? now + ttl then (None, None) else ok p)
    else Cache_Get now' coin cur c.
Proof.
  intros H1 H2. unfold Cache_Get, Cache_Set. simpl. rewrite lookup_insert.
  case_bool_decide as Hc; case_decide as Hk; try done.
  - destruct Hc as [-> ->]. done.
  - apply cacheKey_inj in Hk as [??]; naive_solver.
Qed.

Lemma Cache_Get_expired (c : Cache) now now' coin cur :
  now <= now' -> Cache_Get now coin cur c = (None, None) -> Cache_Get now' coin cur c = (None, None).
Proof.
  unfold Cache_Get, time_After. destruct (entries c !! _) as [e|]; [|done].
  intros Hle. destruct (now >? _) eqn:E; [intros _|done]. to_prop.
  destruct (now' >? _) eqn:E'; to_prop; [done|lia].
Qed.
End properties.

Definition sample_price : Price (O := QDec.ops) :=
  basicPrice "bitcoin" "usd" (dec_NewFromInt 67432) "kraken" 0 0.

Lemma cache_set_get_witness :
  Cache_Get 5 "bitcoin" "usd" (Cache_Set 0 sample_price 30 NewCache) = ok sample_price.
Proof.
  rewrite (cache_set_get (O := QDec.ops) NewCache sample_price 0 30 5 "bitcoin" "usd"
    eq_refl eq_refl). reflexivity.
Defined.

(** A colon in a coin ID makes two different pairs share one entry: the
    unvalidated routes can read the price of one pair as another's. *)
Theorem cache_keys_collide :
  exists coin cur coin' cur', (coin, cur) <> (coin', cur') /\ cacheKey coin cur = cacheKey coin' cur'.
Proof. exists "a:b"%string, "c"%string, "a"%string, "b:c"%string. done. Qed.
