(* ===== verification/MemStore.v ===== *)
(** * internal/adapter/storage/memory/store.go

    The in-memory price history: latest price, history, OHLC candles. *)
From S2P Require Import Prelude GoLib Decimal Model.
From Stdlib Require Import QArith Lqa.
Open Scope Z_scope.

Definition storeKey (coinID currency : string) : string := coinID +:+ ":" +:+ currency.

Section store.
Context {O : DecimalOps} `{SortSlice} `{MapRange}.

Record Store := mkStore { prices : gmap string (list Price) }.
Definition NewStore : Store := mkStore ∅.

Definition store_entries (coinID currency : string) (s : Store) : list Price :=
  default [] (prices s !! storeKey coinID currency).

Definition Save (price : Price) (s : Store) : Store :=
  let key := storeKey (CoinID price) (Currency price) in
  mkStore (<[key := default [] (prices s !! key) ++ [price]]> (prices s)).

Definition SaveBatch (ps : list Price) (s : Store) : Store :=
  fold_left (fun s p => Save p s) ps s.

Definition later_price (latest e : Price) : Price :=
  if time_After (ReceivedAt e) (ReceivedAt latest) then e else latest.

Definition GetLatest (coinID currency : string) (s : Store) : option Price :=
  match store_entries coinID currency s with
  | [] => None
  | e :: es => Some (fold_left later_price es e)
  end.

Definition in_range (from to : Time) (e : Price) : bool :=
  negb (time_Before (ReceivedAt e) from) && time_Before (ReceivedAt e) to.

Definition sort_received (l : list Price) : list Price :=
  sort_slice (fun a b => time_Before (ReceivedAt a) (ReceivedAt b)) l.

Definition GetHistory (coinID currency : string) (from to : Time) (s : Store) : list Price :=
  sort_received (bfilter (in_range from to) (store_entries coinID currency s)).

(** One step of the loops that build the buckets and a candle.  The keys of the
    map are instants: a Go map of [time.Time] also tells locations apart, but the
    prices that are saved were all received at a [time.Now()] of the process. *)
Definition add_bucket (interval : Duration) (b : gmap Z (list Price)) (p : Price) : gmap Z (list Price) :=
  let t := time_Truncate (ReceivedAt p) interval in
  <[t := default [] (b !! t) ++ [p]]> b.

Definition high_low (hl : decimal * decimal) (p : Price) : decimal * decimal :=
  (if dec_GreaterThan (Value p) hl.1 then Value p else hl.1,
   if dec_LessThan (Value p) hl.2 then Value p else hl.2).

(** A bucket is never empty: the code indexes its first and last entry. *)
Definition candle (t : Time) (ps : list Price) : option OHLC :=
  match ps with
  | [] => None
  | p :: _ =>
      let '(h, l) := fold_left high_low ps (Value p, Value p) in
      Some (mkOHLC t (Value p) h l (Value (List.last ps p)))
  end.

Definition GetOHLC (coinID currency : string) (from to : Time) (interval : Duration) (s : Store) :
    list OHLC :=
  let filtered := bfilter (in_range from to) (store_entries coinID currency s) in
  match filtered with
  | [] => []
  | _ =>
      let buckets := fold_left (add_bucket interval) (sort_received filtered) ∅ in
      let result := omap (fun '(t, ps) => candle t ps) (map_range buckets) in
      sort_slice (fun a b => time_Before (OTime a) (OTime b)) result
  end.

(** ** The buckets *)
Definition bucket_of (interval : Duration) (t : Time) (l : list Price) : list Price :=
  bfilter (fun p => time_Truncate (ReceivedAt p) interval =? t) l.

Lemma add_bucket_lookup interval l : forall b t,
  fold_left (add_bucket interval) l b !! t =
    match bucket_of interval t l with
    | [] => b !! t
    | ps => Some (default [] (b !! t) ++ ps)
    end.
Proof.
  unfold bucket_of, bfilter. induction l as [|p l IH]; intros b t; simpl; [done|].
  rewrite IH. unfold add_bucket. rewrite lookup_insert.
  destruct (time_Truncate (ReceivedAt p) interval =? t) eqn:E; to_prop.
  - rewrite decide_True by done. rewrite E. destruct (List.filter _ l); simpl; [done|].
    by rewrite <- app_assoc.
  - rewrite decide_False by done. done.
Qed.

Lemma buckets_spec interval l t ps :
  fold_left (add_bucket interval) l ∅ !! t = Some ps <->
  ps = bucket_of interval t l /\ ps <> [].
Proof.
  rewrite add_bucket_lookup, lookup_empty. simpl.
  destruct (bucket_of interval t l); naive_solver.
Qed.

Lemma sort_received_perm l : sort_received l ≡ₚ l.
Proof. apply sort_slice_perm. Qed.

Lemma sort_received_sorted l :
  StronglySorted (fun a b => ReceivedAt a <= ReceivedAt b) (sort_received l).
Proof.
  assert (strict_weak (fun a b : Price => time_Before (ReceivedAt a) (ReceivedAt b))) as Hw
    by apply (strict_weak_key ReceivedAt).
  pose proof (sort_slice_sorted _ l Hw) as Hs.
  unfold sort_received. induction Hs as [|a l' _ IH Hall]; constructor; [done|].
  eapply Forall_impl; [exact Hall|]. unfold time_Before. simpl. intros. by to_prop.
Qed.

Lemma bucket_of_sorted interval t l :
  StronglySorted (fun a b => ReceivedAt a <= ReceivedAt b) l ->
  StronglySorted (fun a b => ReceivedAt a <= ReceivedAt b) (bucket_of interval t l).
Proof. apply StronglySorted_bfilter. Qed.

Lemma bucket_of_perm interval t l l' : l ≡ₚ l' -> bucket_of interval t l ≡ₚ bucket_of interval t l'.
Proof.
  unfold bucket_of, bfilter. induction 1; simpl; repeat case_match; try done.
  - by constructor.
  - by constructor.
  - by etrans.
Qed.

(** ** Candles *)
Context {L : DecimalLaws O}.

Record candle_of (B : list Price) (o : OHLC) : Prop := {
  co_open : exists p, p ∈ B /\ OOpen o = Value p /\
    forall q, q ∈ B -> ReceivedAt p <= ReceivedAt q;
  co_close : exists p, p ∈ B /\ OClose o = Value p /\
    forall q, q ∈ B -> ReceivedAt q <= ReceivedAt p;
  co_high : (exists p, p ∈ B /\ OHigh o = Value p) /\
    forall q, q ∈ B -> (dval (Value q) <= dval (OHigh o))%Q;
  co_low : (exists p, p ∈ B /\ OLow o = Value p) /\
    forall q, q ∈ B -> (dval (OLow o) <= dval (Value q))%Q }.

Lemma high_low_spec l : forall h lo,
  let hl := fold_left high_low l (h, lo) in
  (hl.1 = h \/ exists p, p ∈ l /\ hl.1 = Value p) /\
  (hl.2 = lo \/ exists p, p ∈ l /\ hl.2 = Value p) /\
  (dval h <= dval hl.1)%Q /\ (dval hl.2 <= dval lo)%Q /\
  forall q, q ∈ l -> (dval (Value q) <= dval hl.1)%Q /\ (dval hl.2 <= dval (Value q))%Q.
Proof.
  induction l as [|p l IH]; intros h lo; simpl.
  { split_and!; try (by left); try apply Qle_refl. set_solver. }
  set (h' := if dec_GreaterThan (Value p) h then Value p else h).
  set (l' := if dec_LessThan (Value p) lo then Value p else lo).
  change (high_low (h, lo) p) with (h', l').
  assert ((h' = h \/ h' = Value p) /\ (dval h <= dval h')%Q /\ (dval (Value p) <= dval h')%Q) as (Hh & Hh1 & Hh2).
  { unfold h'. destruct (dec_GreaterThan (Value p) h) eqn:E.
    - apply dec_GreaterThan_spec in E. split_and!; [by right|lra|lra].
    - apply dec_GreaterThan_false in E. split_and!; [by left|lra|lra]. }
  assert ((l' = lo \/ l' = Value p) /\ (dval l' <= dval lo)%Q /\ (dval l' <= dval (Value p))%Q) as (Hl & Hl1 & Hl2).
  { unfold l'. destruct (dec_LessThan (Value p) lo) eqn:E.
    - apply dec_LessThan_spec in E. split_and!; [by right|lra|lra].
    - apply dec_LessThan_false in E. split_and!; [by left|lra|lra]. }
  clearbody h' l'. destruct (IH h' l') as (H1 & H2 & H3 & H4 & H5). clear IH.
  split_and!.
  - destruct H1 as [->|(q & Hq & ->)]; [|right; exists q; set_solver].
    destruct Hh as [->| ->]; [by left|right; exists p; set_solver].
  - destruct H2 as [->|(q & Hq & ->)]; [|right; exists q; set_solver].
    destruct Hl as [->| ->]; [by left|right; exists p; set_solver].
  - lra.
  - lra.
  - intros q [->|Hq]%elem_of_cons; [split; lra|by apply H5].
Qed.

Lemma last_sorted (p : Price) l :
  StronglySorted (fun a b => ReceivedAt a <= ReceivedAt b) (p :: l) ->
  List.last (p :: l) p ∈ p :: l /\
  forall q, q ∈ p :: l -> ReceivedAt q <= ReceivedAt (List.last (p :: l) p).
Proof.
  intros Hs. destruct (exists_last (l := p :: l) ltac:(done)) as (l1 & x & Heq).
  rewrite Heq, List.last_last in *. split; [set_solver|].
  intros q Hq. apply elem_of_app in Hq as [Hq|Hq]; [|apply list_elem_of_singleton in Hq as ->; lia].
  by eapply (StronglySorted_app_1_elem_of (fun a b => ReceivedAt a <= ReceivedAt b) l1 [x] q x Hs Hq), list_elem_of_singleton.
Qed.

Lemma candle_spec t B o :
  StronglySorted (fun a b => ReceivedAt a <= ReceivedAt b) B ->
  candle t B = Some o -> OTime o = t /\ candle_of B o.
Proof.
  destruct B as [|p B]; [done|]. intros Hs. unfold candle.
  pose proof (high_low_spec (p :: B) (Value p) (Value p)) as Hhl.
  destruct (fold_left high_low (p :: B) _) as [h lo]. simpl in Hhl.
  destruct Hhl as (Hh & Hl & _ & _ & Hb). intros. simplify_eq. split; [done|].
  destruct (last_sorted _ _ Hs) as [Hlast1 Hlast2].
  inversion Hs as [|?? _ Hall]; subst.
  split; cbn [OOpen OClose OHigh OLow].
  - exists p. split_and!; [set_solver|done|]. intros q [->|Hq]%elem_of_cons; [lia|].
    by eapply Forall_forall in Hall.
  - eexists. split_and!; [exact Hlast1|done|exact Hlast2].
  - split; [|intros; by apply Hb]. destruct Hh as [->|?]; [exists p; set_solver|done].
  - split; [|intros; by apply Hb]. destruct Hl as [->|?]; [exists p; set_solver|done].
Qed.

Lemma candle_of_perm B B' o : B ≡ₚ B' -> candle_of B o -> candle_of B' o.
Proof. intros Hp [H1 H2 H3 H4]. split; by setoid_rewrite <- Hp. Qed.
End store.

Section properties.
Context {O : DecimalOps} {L : DecimalLaws O} `{SortSlice} `{MapRange}.

Lemma candles_nodup (l : list (Z * list Price)) :
  NoDup l.*1 ->
  (forall t ps o, (t, ps) ∈ l -> candle t ps = Some o -> OTime o = t) ->
  NoDup (OTime <$> omap (fun '(t, ps) => candle t ps) l).
Proof.
  induction l as [|[t ps] l IH]; intros Hnd Ht; [constructor|].
  rewrite fmap_cons in Hnd. apply NoDup_cons in Hnd as [Hni Hnd].
  assert (NoDup (OTime <$> omap (fun '(t, ps) => candle t ps) l)) as IH'.
  { apply IH; [done|]. intros. eapply Ht; [|done]. set_solver. }
  simpl. destruct (candle t ps) as [o|] eqn:Eo; [|done].
  rewrite fmap_cons. apply NoDup_cons. split; [|done].
  rewrite (Ht t ps o) by (done || set_solver).
  intros (o' & Ho' & ([t2 ps2] & Hin & Ho2)%list_elem_of_omap)%list_elem_of_fmap.
  apply Hni, list_elem_of_fmap. exists (t2, ps2). split; [|done]. simpl.
  rewrite Ho'. eapply Ht; [|done]. set_solver.
Qed.

Lemma sorted_strict (l : list OHLC) :
  StronglySorted (fun a b => time_Before (OTime b) (OTime a) = false) l -> NoDup (OTime <$> l) ->
  StronglySorted (fun a b => OTime a < OTime b) l.
Proof.
  induction 1 as [|o l Hl IH Ho]; intros Hnd; [constructor|].
  rewrite fmap_cons in Hnd. apply NoDup_cons in Hnd as [Hni Hnd]. constructor; [by apply IH|].
  apply Forall_forall. intros x Hx. eapply Forall_forall in Ho; [|exact Hx].
  unfold time_Before in Ho. to_prop.
  assert (OTime o <> OTime x); [|lia]. intros Heq. apply Hni, list_elem_of_fmap. eauto.
Qed.

(** C23. The candles of a query are strictly ordered by time; each holds the
    first and last prices received in its interval, and the highest and lowest;
    and every price received in the range falls in the interval of a candle.
    This holds for every order in which the map of buckets may be visited and
    every sorting algorithm. *)
Theorem GetOHLC_candles coin cur from to interval (s : Store) :
  let F := bfilter (in_range from to) (store_entries coin cur s) in
  let os := GetOHLC coin cur from to interval s in
  StronglySorted (fun a b => OTime a < OTime b) os /\
  (forall o, o ∈ os -> candle_of (bucket_of interval (OTime o) F) o) /\
  (forall p, p ∈ F -> exists o, o ∈ os /\ OTime o = time_Truncate (ReceivedAt p) interval).
Proof.
  intros F os. unfold os, GetOHLC. fold F. destruct F as [|p0 F0] eqn:EF.
  { split_and!; [constructor|set_solver..]. }
  rewrite <- EF. clear EF p0 F0 os.
  set (b := fold_left (add_bucket interval) (sort_received F) ∅).
  set (res := omap (fun '(t, ps) => candle t ps) (map_range b)).
  assert (forall t ps, (t, ps) ∈ map_range b <->
    ps = bucket_of interval t (sort_received F) /\ ps <> []) as Hb.
  { intros. unfold b. by rewrite elem_of_map_range, buckets_spec. }
  assert (forall t ps o, (t, ps) ∈ map_range b -> candle t ps = Some o ->
    OTime o = t /\ candle_of ps o) as Ht.
  { intros t ps o [-> _]%Hb. apply candle_spec, bucket_of_sorted, sort_received_sorted. }
  assert (NoDup (OTime <$> res)) as Hnd.
  { apply candles_nodup; [apply NoDup_map_range_fst|]. intros. by eapply Ht. }
  split_and!.
  - apply sorted_strict; [|by rewrite sort_slice_perm].
    apply sort_slice_sorted, (strict_weak_key OTime).
  - intros o. rewrite sort_slice_perm. unfold res.
    intros ([t ps] & Hin & Ho)%list_elem_of_omap. destruct (Ht _ _ _ Hin Ho) as [-> Hc].
    apply Hb in Hin as [-> _]. eapply candle_of_perm; [|exact Hc].
    apply bucket_of_perm, sort_received_perm.
  - intros p Hp. set (t := time_Truncate (ReceivedAt p) interval).
    assert (p ∈ bucket_of interval t (sort_received F)) as Hin.
    { unfold bucket_of. rewrite elem_of_bfilter, sort_received_perm. split; [|done].
      by apply Z.eqb_eq. }
    destruct (bucket_of interval t (sort_received F)) as [|q ps] eqn:EB; [set_solver|].
    destruct (candle t (q :: ps)) as [o|] eqn:Eo.
    2:{ unfold candle in Eo. by destruct (fold_left high_low (q :: ps) _). }
    assert ((t, q :: ps) ∈ map_range b) as Hm by (apply Hb; rewrite EB; done).
    exists o. split; [|by eapply Ht]. rewrite sort_slice_perm. unfold res.
    apply list_elem_of_omap. by exists (t, q :: ps).
Qed.

Lemma later_price_spec es : forall e,
  let r := fold_left later_price es e in
  r ∈ e :: es /\ forall q, q ∈ e :: es -> ReceivedAt q <= ReceivedAt r.
Proof.
  induction es as [|x es IH]; intros e; simpl.
  { split; [set_solver|]. intros q ->%list_elem_of_singleton. lia. }
  destruct (IH (later_price e x)) as [Hin Hmax]. split.
  - assert (later_price e x = e \/ later_price e x = x) as [Heq|Heq]
      by (unfold later_price; case_goal; tauto); rewrite Heq in Hin |- *; set_solver.
  - pose proof (Hmax (later_price e x) ltac:(set_solver)) as Hm.
    assert (ReceivedAt e <= ReceivedAt (later_price e x) /\
      ReceivedAt x <= ReceivedAt (later_price e x)) as [].
    { unfold later_price, time_After. case_goal; to_prop; lia. }
    intros q [->|[->|Hq]%elem_of_cons]%elem_of_cons; [lia|lia|].
    apply Hmax. set_solver.
Qed.

(** The latest price of a pair is one of those saved for it, and none of
    them was received later; it is missing exactly when none was saved. *)
Theorem GetLatest_spec coin cur (s : Store) :
  match GetLatest coin cur s with
  | None => store_entries coin cur s = []
  | Some p => p ∈ store_entries coin cur s /\
      forall q, q ∈ store_entries coin cur s -> ReceivedAt q <= ReceivedAt p
  end.
Proof.
  unfold GetLatest. destruct (store_entries coin cur s) as [|e es]; [done|].
  apply later_price_spec.
Qed.

(** The history of a pair is exactly its prices received in the half-open
    range, in order of reception. *)
Theorem GetHistory_spec coin cur from to (s : Store) :
  StronglySorted (fun a b => ReceivedAt a <= ReceivedAt b) (GetHistory coin cur from to s) /\
  forall p, p ∈ GetHistory coin cur from to s <->
    p ∈ store_entries coin cur s /\ from <= ReceivedAt p < to.
Proof.
  split; [apply sort_received_sorted|]. intros p. unfold GetHistory.
  rewrite sort_received_perm, elem_of_bfilter. unfold in_range, time_Before.
  rewrite andb_true_iff, negb_true_iff, Z.ltb_ge, Z.ltb_lt. tauto.
Qed.

(** Saving a batch is saving its prices one by one: it appends to each
    pair's entries the batch's prices for that pair, in order, and touches no
    other pair. *)
Theorem SaveBatch_entries (ps : list Price) coin cur (s : Store) :
  store_entries coin cur (SaveBatch ps s) = store_entries coin cur s ++
    bfilter (fun p => bool_decide (storeKey (CoinID p) (Currency p) = storeKey coin cur)) ps.
Proof.
  unfold SaveBatch, bfilter, store_entries. revert s.
  induction ps as [|p ps IH]; intros s; simpl; [by rewrite app_nil_r|].
  rewrite IH. simpl. rewrite lookup_insert. case_decide as Hk.
  - rewrite Hk, bool_decide_eq_true_2 by done. simpl. by rewrite <- app_assoc.
  - by rewrite bool_decide_eq_false_2.
Qed.
End properties.
