(* ===== verification/Registry.v ===== *)
(** * internal/registry: registry.go and the refresh loop of coingecko.go

    The map from token contracts to coin IDs, filled from a catalog and by the
    price service. *)
From S2P Require Import Prelude GoLib GoStrings MemCache.
Open Scope Z_scope.

Record ContractInfo := mkContract { Chain : string; Address : string }.
Record CoinEntry := mkCoinEntry { ID : string; Symbol : string; Platforms : gmap string string }.
Record TokenRegistry := mkRegistry {
  byAddr : gmap string string;
  byCoinID : gmap string (list ContractInfo) }.
Definition New : TokenRegistry := mkRegistry ∅ ∅.

Section registry.
Context `{Unicode} `{MapRange}.

Definition addrKey (chain address : string) : string :=
  ToLower chain +:+ ":" +:+ ToLower address.

Definition Resolve (chain address : string) (r : TokenRegistry) : option string :=
  byAddr r !! addrKey chain address.

Definition Contracts (coinID : string) (r : TokenRegistry) : list ContractInfo :=
  default [] (byCoinID r !! coinID).

(** Both maps gain the contract. *)
Definition put_contract (chain address coinID : string) (r : TokenRegistry) : TokenRegistry :=
  mkRegistry (<[addrKey chain address := coinID]> (byAddr r))
    (<[coinID := Contracts coinID r ++ [mkContract (ToLower chain) (ToLower address)]]> (byCoinID r)).

Definition Add (chain address coinID : string) (r : TokenRegistry) : TokenRegistry :=
  match byAddr r !! addrKey chain address with
  | Some _ => r
  | None => put_contract chain address coinID r
  end.

(** The guard of the inner loop of [LoadCatalog]; a chain missing from the map
    reads as [false]. *)
Definition accepted (allowedChains : gmap string bool) (ca : string * string) : bool :=
  negb (bool_decide (ca.2 = ""%string) || negb (default false (allowedChains !! ca.1))).
Definition load_one (allowedChains : gmap string bool) (id : string) (r : TokenRegistry)
    (ca : string * string) : TokenRegistry :=
  if accepted allowedChains ca then put_contract ca.1 ca.2 id r else r.
Definition load_entry (allowedChains : gmap string bool) (r : TokenRegistry) (e : CoinEntry) :
    TokenRegistry :=
  fold_left (load_one allowedChains (ID e)) (map_range (Platforms e)) r.
Definition LoadCatalog (entries : list CoinEntry) (allowedChains : gmap string bool)
    (r : TokenRegistry) : TokenRegistry := fold_left (load_entry allowedChains) entries r.

Definition Count (r : TokenRegistry) : nat := size (byAddr r).

(** One tick of [StartRefresh]: [fetched] is what the catalog request returned. *)
Definition refresh_tick {E} (fetched : list CoinEntry + E) (allowedChains : gmap string bool)
    (r : TokenRegistry) : TokenRegistry :=
  match fetched with inl entries => LoadCatalog entries allowedChains r | inr _ => r end.

(** ** Invariant: every resolvable contract is listed under its coin *)
Definition key_of (c : ContractInfo) : string := Chain c +:+ ":" +:+ Address c.
Record registry_wf (r : TokenRegistry) : Prop := {
  rw_listed : forall k coin, byAddr r !! k = Some coin ->
    exists c, c ∈ Contracts coin r /\ key_of c = k;
  rw_known : forall coin c, c ∈ Contracts coin r -> is_Some (byAddr r !! key_of c) }.

Lemma Contracts_put chain address coinID r coin :
  Contracts coin (put_contract chain address coinID r) = Contracts coin r ++
    (if bool_decide (coin = coinID) then [mkContract (ToLower chain) (ToLower address)] else []).
Proof.
  unfold Contracts, put_contract. simpl. rewrite lookup_insert.
  case_decide; [subst; by rewrite bool_decide_eq_true_2|].
  rewrite bool_decide_eq_false_2 by congruence. by rewrite app_nil_r.
Qed.

Lemma New_wf : registry_wf New.
Proof. split; simpl; [done|]. intros coin c. unfold Contracts. simpl. rewrite lookup_empty. set_solver. Qed.

Lemma put_contract_wf chain address coinID r :
  registry_wf r -> registry_wf (put_contract chain address coinID r).
Proof.
  intros [H1 H2]. split.
  - intros k coin. simpl. rewrite lookup_insert. setoid_rewrite Contracts_put.
    case_decide as Hk; intros; simplify_eq.
    + rewrite bool_decide_eq_true_2 by done.
      exists (mkContract (ToLower chain) (ToLower address)). split; [set_solver|done].
    + edestruct H1 as (c & Hc & Hkc); [done|]. exists c. split; [set_solver|done].
  - intros coin c. rewrite Contracts_put. simpl. rewrite lookup_insert.
    intros Hc. destruct (decide (addrKey chain address = key_of c)); [by eexists|]. apply elem_of_app in Hc as [Hc|Hc]; [eauto|].
    case_bool_decide; [|set_solver]. apply list_elem_of_singleton in Hc as ->. done.
Qed.

Lemma LoadCatalog_ind (Q : TokenRegistry -> Prop) entries allowed r :
  Q r ->
  (forall e ca r, e ∈ entries -> ca ∈ map_range (Platforms e) -> accepted allowed ca = true ->
     Q r -> Q (put_contract ca.1 ca.2 (ID e) r)) ->
  Q (LoadCatalog entries allowed r).
Proof.
  intros Hr Hstep. unfold LoadCatalog. apply fold_left_ind; [done|]. intros r1 e He H1.
  unfold load_entry. apply fold_left_ind; [done|]. intros r2 ca Hca H2. unfold load_one.
  destruct (accepted _ _) eqn:E; [|done]. by apply Hstep.
Qed.

(** Adding a contract registers it unless its key is known: the first
    coin wins, every other key resolves as before, and case does not matter. *)
Theorem registry_add_first_wins (r : TokenRegistry) chain address coinID chain' address' :
  Resolve chain' address' (Add chain address coinID r) =
    match Resolve chain' address' r with
    | Some coin => Some coin
    | None => if bool_decide (addrKey chain' address' = addrKey chain address)
              then Some coinID else None
    end.
Proof.
  unfold Resolve, Add. destruct (byAddr r !! addrKey chain address) eqn:E; simpl.
  - case_bool_decide as Hk; [by rewrite Hk, E|]. by destruct (byAddr r !! addrKey chain' address').
  - rewrite lookup_insert. destruct (decide (addrKey chain address = _)) as [Hk|Hk].
    + rewrite bool_decide_eq_true_2 by done. by rewrite <- Hk, E.
    + rewrite bool_decide_eq_false_2 by congruence. by destruct (byAddr r !! addrKey chain' address').
Qed.

(** The two maps of a registry built from additions and catalogs agree:
    every contract that resolves is listed under its coin, and every contract
    listed resolves. *)
Theorem registry_wf_kept (r : TokenRegistry) :
  registry_wf New /\
  (registry_wf r -> forall chain address coinID, registry_wf (Add chain address coinID r)) /\
  (registry_wf r -> forall entries allowed, registry_wf (LoadCatalog entries allowed r)).
Proof.
  split_and!.
  - apply New_wf.
  - intros Hr chain address coinID. unfold Add. case_goal; [done|]. by apply put_contract_wf.
  - intros Hr entries allowed. apply LoadCatalog_ind; [done|]. intros. by apply put_contract_wf.
Qed.

(** The contracts a catalog lists for a coin. *)
Definition catalog_contracts (entries : list CoinEntry) (allowed : gmap string bool) (coin : string) : nat :=
  sum_list_with (fun e => if bool_decide (ID e = coin)
    then length (bfilter (accepted allowed) (map_range (Platforms e))) else 0%nat) entries.

Lemma load_entry_length allowed e r coin :
  length (Contracts coin (load_entry allowed r e)) = (length (Contracts coin r) +
    if bool_decide (ID e = coin) then length (bfilter (accepted allowed) (map_range (Platforms e)))
    else 0)%nat.
Proof.
  unfold load_entry, bfilter. revert r.
  induction (map_range (Platforms e)) as [|ca l IH]; intros r; simpl; [case_match; lia|].
  rewrite IH. unfold load_one. destruct (accepted allowed ca); simpl; [|done].
  rewrite Contracts_put, length_app.
  case_bool_decide; case_bool_decide; simplify_eq; simpl; lia.
Qed.

(** Loading a catalog appends a contract to its coin's list every time: a
    refresh that fetches the same catalog makes the lists grow without bound,
    though it resolves nothing new. *)
Theorem reload_appends entries allowed (r : TokenRegistry) coin (n : nat) :
  length (Contracts coin (Nat.iter n (LoadCatalog entries allowed) r)) =
    (length (Contracts coin r) + n * catalog_contracts entries allowed coin)%nat.
Proof.
  assert (forall r, length (Contracts coin (LoadCatalog entries allowed r)) =
    (length (Contracts coin r) + catalog_contracts entries allowed coin)%nat) as Hl.
  { unfold LoadCatalog. induction entries as [|e es IH]; intros r'; simpl; [lia|].
    rewrite IH, load_entry_length. unfold catalog_contracts. simpl. lia. }
  induction n as [|n IH]; [simpl; lia|]. rewrite Nat.iter_succ, Hl, IH. lia.
Qed.
End registry.
