(* ===== verification/Validator.v ===== *)
(** * internal/app: validator.go, outlier.go

    The checks on a single price.  [None] is a panic of the decimal package. *)
From S2P Require Import Prelude GoLib Decimal Model.
From Stdlib Require Import QArith Qabs Lqa.
Open Scope Z_scope.

Record PriceValidatorConfig := mkPVConfig {
  pv_Enabled : bool;
  pv_MaxStaleness : Duration;
  pv_MaxDeviationFromCache : float64;
  pv_StablecoinDeviation : float64;
  pv_MajorCoinDeviation : float64;
  pv_AltcoinDeviation : float64 }.

Definition stablecoins : gset string :=
  list_to_set ["tether"; "usd-coin"; "dai"; "binance-usd"; "trueusd"; "frax"; "usdd"]%string.
Definition majorCoins : gset string :=
  list_to_set ["bitcoin"; "ethereum"; "binancecoin"; "solana"; "cardano"; "ripple"; "polkadot";
    "avalanche-2"]%string.

Record PriceValidator := NewPriceValidator { pv_cfg : PriceValidatorConfig }.

Definition maxDeviationForCoin (v : PriceValidator) (coinID : string) : float64 :=
  let cfg := pv_cfg v in
  if fgtb (pv_StablecoinDeviation cfg) fzero && bool_decide (coinID ∈ stablecoins)
  then pv_StablecoinDeviation cfg
  else if fgtb (pv_MajorCoinDeviation cfg) fzero && bool_decide (coinID ∈ majorCoins)
  then pv_MajorCoinDeviation cfg
  else if fgtb (pv_AltcoinDeviation cfg) fzero then pv_AltcoinDeviation cfg
  else pv_MaxDeviationFromCache cfg.

Section validator.
Context {O : DecimalOps} `{GoFmt}.

(** [Validate] at the clock reading [now]; [None] is the nil error. *)
Definition Validate (now : Time) (v : PriceValidator) (price : Price) : option error :=
  let cfg := pv_cfg v in
  if negb (pv_Enabled cfg) then None else
  if dec_IsZero (Value price) || dec_IsNegative (Value price) then Some ErrPriceZero else
  if (pv_MaxStaleness cfg >? 0) && negb (time_IsZero (Timestamp price)) &&
     (time_Since now (Timestamp price) >? pv_MaxStaleness cfg)
  then Some ErrPriceStale
  else None.

(** The percentage [|a - b| / b * 100], as the three files compute it. *)
Definition deviation_pct (a b : decimal) : option decimal :=
  q ← dec_Div (dec_Abs (dec_Sub a b)) b;
  Some (dec_Mul q (dec_NewFromInt 100)).

Definition deviation_error (dev : decimal) (maxDev : float64) : error :=
  Wrapf "" ErrInvalidPrice (": deviation " +:+ fmt_2f (dec_InexactFloat64 dev) +:+
    "% exceeds max " +:+ fmt_2f maxDev +:+ "%").

Definition ValidateAgainstReference (now : Time) (v : PriceValidator)
    (price : Price) (reference : option Price) : option (option error) :=
  let cfg := pv_cfg v in
  if negb (pv_Enabled cfg) then Some None else
  match reference with
  | None => Some None
  | Some ref =>
      if fleb (pv_MaxDeviationFromCache cfg) fzero then Some None else
      if dec_IsZero (Value ref) then Some None else
      if (pv_MaxStaleness cfg >? 0) && negb (time_IsZero (ReceivedAt ref)) &&
         (time_Since now (ReceivedAt ref) >? wrap64 (pv_MaxStaleness cfg * 2))
      then Some None else
      deviation ← deviation_pct (Value price) (Value ref);
      let maxDevFloat := maxDeviationForCoin v (CoinID price) in
      maxDev ← dec_NewFromFloat maxDevFloat;
      if dec_GreaterThan deviation maxDev
      then Some (Some (deviation_error deviation maxDevFloat))
      else Some None
  end.

(** ** outlier.go *)
Record OutlierDetector := NewOutlierDetector { maxDeviationPercent : float64 }.

Definition IsOutlier (d : OutlierDetector) (price : Price) (consensus : decimal) : option bool :=
  if dec_IsZero consensus then Some false else
  deviation ← deviation_pct (Value price) consensus;
  maxDev ← dec_NewFromFloat (maxDeviationPercent d);
  Some (dec_GreaterThan deviation maxDev).

Definition Deviation (price : Price) (consensus : decimal) : option float64 :=
  if dec_IsZero consensus then Some fzero else
  deviation ← deviation_pct (Value price) consensus;
  Some (dec_InexactFloat64 deviation).

(** The thresholds of a configuration are numbers. *)
Definition finite_config (cfg : PriceValidatorConfig) : Prop :=
  float_finite (pv_MaxDeviationFromCache cfg) = true /\
  float_finite (pv_StablecoinDeviation cfg) = true /\
  float_finite (pv_MajorCoinDeviation cfg) = true /\
  float_finite (pv_AltcoinDeviation cfg) = true.
End validator.

Section properties.
Context {O : DecimalOps} {L : DecimalLaws O} `{GoFmt}.

Lemma NewFromFloat_finite f : float_finite f = true -> exists d, dec_NewFromFloat f = Some d.
Proof.
  intros Hf. destruct (dec_NewFromFloat f) eqn:E; [eauto|].
  apply dec_NewFromFloat_panics in E. congruence.
Qed.

Lemma deviation_pct_defined a b : dec_IsZero b = false -> exists d, deviation_pct a b = Some d.
Proof.
  intros Hb. unfold deviation_pct.
  destruct (dec_Div_defined (dec_Abs (dec_Sub a b)) b Hb) as [q ->]. simpl. eauto.
Qed.

Lemma maxDeviationForCoin_finite v coin :
  finite_config (pv_cfg v) -> float_finite (maxDeviationForCoin v coin) = true.
Proof. unfold maxDeviationForCoin. intros (?&?&?&?). by repeat case_match. Qed.

Lemma ValidateAgainstReference_defined now v p ref :
  finite_config (pv_cfg v) -> exists r, ValidateAgainstReference now v p ref = Some r.
Proof.
  intros Hf. unfold ValidateAgainstReference.
  destruct (negb _); [eauto|]. destruct ref as [ref|]; [|eauto].
  destruct (fleb _ _); [eauto|]. destruct (dec_IsZero (Value ref)) eqn:Ez; [eauto|].
  case_goal; [eauto|].
  destruct (deviation_pct_defined (Value p) (Value ref) Ez) as [d ->]. simpl.
  destruct (NewFromFloat_finite _ (maxDeviationForCoin_finite v (CoinID p) Hf)) as [m ->]. simpl.
  case_goal; eauto.
Qed.

(** A price passes validation exactly when validation is disabled, or its
    value is positive and its timestamp, when staleness is checked and the
    timestamp is set, is not older than the limit. *)
Theorem Validate_spec now v (p : Price) :
  0 <= pv_MaxStaleness (pv_cfg v) < max_int64 ->
  Validate now v p = None <->
  pv_Enabled (pv_cfg v) = false \/
  ((0 < dval (Value p))%Q /\
   (0 < pv_MaxStaleness (pv_cfg v) -> Timestamp p <> 0 ->
    now - Timestamp p <= pv_MaxStaleness (pv_cfg v))).
Proof.
  intros Hms. unfold Validate, time_IsZero.
  destruct (pv_Enabled (pv_cfg v)); simpl; [|tauto].
  pose proof (dec_positive (Value p)) as Hpos.
  destruct (_ || _) eqn:Ez.
  { split; [done|]. intros [?|[Hv _]]; [done|]. apply Hpos in Hv. congruence. }
  rewrite time_Since_gt by (unfold int64_ok, min_int64, max_int64 in *; lia).
  assert (0 < dval (Value p))%Q by tauto.
  destruct (pv_MaxStaleness (pv_cfg v) >? 0) eqn:E1; simpl; to_prop; [|split; [right; split; [done|lia]|done]].
  destruct (Timestamp p =? 0) eqn:E2; simpl; to_prop; [split; [right; split; [done|lia]|done]|].
  destruct (now - Timestamp p >? pv_MaxStaleness (pv_cfg v)) eqn:E3; to_prop; split; try done.
  - intros [?|[_ Hst]]; [done|]. specialize (Hst E1 E2). lia.
  - right. split; [done|lia].
Qed.

(** Against a positive reference, the outlier test never panics, flags
    every price whose exact deviation exceeds the limit by more than a hundred
    units of division, and no price below it by as much. *)
Theorem IsOutlier_spec d (p : Price) ref maxDev :
  (0 < dval ref)%Q -> dec_NewFromFloat (maxDeviationPercent d) = Some maxDev ->
  exists b, IsOutlier d p ref = Some b /\
  let exact := (Qabs (dval (Value p) - dval ref) / dval ref * 100)%Q in
  ((dval maxDev + 100 * div_ulp < exact)%Q -> b = true) /\
  ((exact < dval maxDev - 100 * div_ulp)%Q -> b = false).
Proof.
  intros Hpos Hm. unfold IsOutlier, deviation_pct.
  destruct (dec_IsZero ref) eqn:Ez; [apply dec_IsZero_spec in Ez; lra|].
  destruct (dec_Div_defined (dec_Abs (dec_Sub (Value p) ref)) ref Ez) as [q Hq].
  pose proof (deviation_bound _ _ _ Hpos Hq) as Hb. rewrite Hq, Hm. cbn [mbind option_bind].
  eexists. split; [done|]. cbv zeta. apply Qabs_Qle_condition in Hb as [Hb1 Hb2].
  set (e := (Qabs (dval (Value p) - dval ref) / dval ref * 100)%Q) in *. clearbody e.
  set (x := dval (dec_Mul q (dec_NewFromInt 100))) in *.
  split; intros; [apply dec_GreaterThan_spec|apply dec_GreaterThan_false]; fold x; lra.
Qed.
End properties.
