(* ===== verification/GoJSON.v ===== *)
(** * encoding/json: decoding into Go values

    A document is its value tree, [None] when the text is not one.  A decoder
    updates the Go value it is given, as [Decode] updates its target: a null
    leaves it alone, an unknown key is skipped, a value of another type is an
    error.  Matching a key with a field and reading a number are parameters. *)
From S2P Require Import Prelude GoLib Decimal Model.
Open Scope Z_scope.

Inductive jvalue :=
  | VNull | VBool (b : bool) | VNum (lit : string) | VStr (s : string)
  | VArr (l : list jvalue) | VObj (kvs : list (string * jvalue)).

Class GoJSON := {
  json_key_eq : string -> string -> bool; (* field name, key *)
  json_float : string -> option float64;
  json_int : string -> option Z;
  json_valid_number : string -> bool;
  json_error : option jvalue -> error;
  (** An exact key matches; a number literal is never a NaN or an infinity;
      the decoder's errors wrap none of the program's. *)
  json_key_refl : forall k, json_key_eq k k = true;
  json_float_finite : forall l f, json_float l = Some f -> float_finite f = true;
  json_error_own : forall j s, errors_Is (json_error j) s = false }.

Section decoders.
Context `{GoJSON}.

Definition dec (A : Type) : Type := A -> jvalue -> option A.
Definition dec_string : dec string := fun cur v =>
  match v with VNull => Some cur | VStr s => Some s | _ => None end.
Definition dec_bool : dec bool := fun cur v =>
  match v with VNull => Some cur | VBool b => Some b | _ => None end.
Definition dec_float : dec float64 := fun cur v =>
  match v with VNull => Some cur | VNum l => json_float l | _ => None end.
Definition dec_int64 : dec Z := fun cur v =>
  match v with VNull => Some cur | VNum l => json_int l | _ => None end.
Definition dec_slice {A} (zero : A) (d : dec A) : dec (list A) := fun _ v =>
  match v with VNull => Some [] | VArr l => mapM (d zero) l | _ => None end.
Definition dec_map {A} (zero : A) (d : dec A) : dec (gmap string A) := fun cur v =>
  match v with
  | VNull => Some cur
  | VObj kvs => foldl (fun acc kv => m ← acc; x ← d zero kv.2; Some (<[kv.1 := x]> m)) (Some cur) kvs
  | _ => None
  end.

(** An [interface{}] takes any value whose numbers are floats. *)
Fixpoint json_any (v : jvalue) : bool :=
  match v with
  | VNum l => match json_float l with Some _ => true | None => false end
  | VArr l => forallb json_any l
  | VObj kvs => forallb (fun kv => json_any kv.2) kvs
  | _ => true
  end.
Definition dec_interface : dec jvalue := fun _ v => if json_any v then Some v else None.
(** A [json.RawMessage] keeps the value undecoded; a [json.Number] is a number's
    literal, or a string that holds one. *)
Definition dec_raw : dec jvalue := fun _ v => Some v.
Definition dec_Number : dec string := fun cur v =>
  match v with
  | VNull => Some cur
  | VNum l => Some l
  | VStr s => if json_valid_number s then Some s else None
  | _ => None
  end.

(** A field of a struct: its name and how its value updates the struct. *)
Definition field (A : Type) : Type := string * dec A.
Definition fld {A F} (name : string) (d : dec F) (get : A -> F) (set : F -> A -> A) : field A :=
  (name, fun a v => x ← d (get a) v; Some (set x a)).
Fixpoint set_field {A} (fields : list (field A)) (k : string) (v : jvalue) (a : A) : option A :=
  match fields with
  | [] => Some a
  | (name, d) :: fields => if json_key_eq name k then d a v else set_field fields k v a
  end.
Definition dec_struct {A} (fields : list (field A)) : dec A := fun cur v =>
  match v with
  | VNull => Some cur
  | VObj kvs => foldl (fun acc kv => a ← acc; set_field fields kv.1 kv.2 a) (Some cur) kvs
  | _ => None
  end.

(** [json.NewDecoder(body).Decode(&v)] and [json.Unmarshal]; [None] is a body
    that is not a JSON text. *)
Definition decode {A} (zero : A) (d : dec A) (body : option jvalue) : A + error :=
  match body with
  | Some j => match d zero j with Some a => inl a | None => inr (json_error body) end
  | None => inr (json_error body)
  end.

(** ** What decoding keeps *)
Definition dec_keeps {A} (P : A -> Prop) (d : dec A) : Prop :=
  forall cur v a, P cur -> d cur v = Some a -> P a.

Lemma dec_float_finite : dec_keeps (fun f => float_finite f = true) dec_float.
Proof. intros cur [] a ?; simpl; intros; simplify_eq; try done. by eapply json_float_finite. Qed.
Lemma dec_any {A} (d : dec A) : dec_keeps (fun _ => True) d.
Proof. done. Qed.

Lemma dec_slice_keeps {A} (P : A -> Prop) zero d : P zero -> dec_keeps P d ->
  dec_keeps (Forall P) (dec_slice zero d).
Proof.
  intros Hz Hd cur [] a _ Ha; simpl in Ha; simplify_eq; try done.
  revert a Ha. induction l as [|v l IH]; intros a Ha; simpl in Ha; simplify_option_eq; [done|].
  constructor; eauto.
Qed.

Lemma dec_map_keeps {A} (P : A -> Prop) zero d : P zero -> dec_keeps P d ->
  dec_keeps (map_Forall (fun _ => P)) (dec_map zero d).
Proof.
  intros Hz Hd cur [] a Hc Ha; simpl in Ha; simplify_eq; try done.
  revert cur Hc Ha. induction kvs as [|[k v] kvs IH]; intros cur Hc Ha; simpl in Ha; simplify_eq; [done|].
  destruct (d zero v) as [x|] eqn:E; simpl in Ha.
  - eapply IH; [|exact Ha]. apply map_Forall_insert_2; eauto.
  - exfalso. clear IH. induction kvs; [done|auto].
Qed.

Lemma fld_keeps {A F} (P : A -> Prop) (Q : F -> Prop) name d (get : A -> F) set :
  dec_keeps Q d -> (forall a, P a -> Q (get a)) -> (forall a x, P a -> Q x -> P (set x a)) ->
  dec_keeps P (fld name d get set).2.
Proof. intros Hd Hg Hs a v a' Ha. simpl. intros; simplify_option_eq. eauto. Qed.

Lemma dec_struct_keeps {A} (P : A -> Prop) (fields : list (field A)) :
  Forall (fun f => dec_keeps P f.2) fields -> dec_keeps P (dec_struct fields).
Proof.
  intros Hf cur [] a Hc; simpl; intros Hd; simplify_eq; try done.
  revert cur Hc Hd. induction kvs as [|[k v] kvs IH]; intros cur Hc Hd; simpl in Hd; simplify_eq; [done|].
  destruct (set_field fields k v cur) as [a'|] eqn:E.
  - eapply IH; [|exact Hd]. clear Hd IH. induction Hf as [|[n d] fs Hd _ IH]; simpl in E; simplify_eq; [done|].
    destruct (json_key_eq n k); eauto.
  - exfalso. clear IH. induction kvs; [done|auto].
Qed.
End decoders.

(** Keys matched exactly, numbers that are integers. *)
Definition plain_digits (s : string) : option Z :=
  match QDec.of_string s with Some q => Some (QArith_base.Qnum q) | None => None end.
Definition plain_GoJSON : GoJSON.
Proof.
  refine {| json_key_eq k k' := bool_decide (k = k');
    json_float l := z ← plain_digits l;
      let f := f_of_int z in if float_finite f then Some f else None;
    json_int := plain_digits; json_valid_number l := bool_decide (is_Some (plain_digits l)); json_error _ := Errorf "invalid JSON" |}; try done.
  - intros k. by apply bool_decide_eq_true_2.
  - intros l f. destruct (plain_digits l); simpl; [|done]. case_match; naive_solver.
Defined.
