(* ===== verification/Ports.v ===== *)
(** * internal/domain/port/ports.go, internal/common/clock.go

    The interfaces the services are written against, each a class of
    operations over a world [W] that holds the state of every adapter.  A
    provider is a handle of type [P].  Contexts carry no data the services
    read and are left out. *)
From S2P Require Import Prelude GoLib Decimal Model.
Open Scope Z_scope.

Section ports.
Context {O : DecimalOps}.

(** PriceProvider: a call that returns returns a price or an error, never both
    nor neither, which every adapter of the program keeps to; it may panic. *)
Class PriceProvider (W P : Type) := {
  pp_Name : P -> string;
  pp_GetPrice : P -> string -> string -> PM W (Price + error) }.

Class PriceStore (W : Type) := {
  ps_Save : Price -> M W (option error);
  ps_SaveBatch : list Price -> M W (option error);
  ps_GetLatest : string -> string -> M W (result Price);
  ps_GetHistory : string -> string -> Time -> Time -> M W (list Price * option error);
  ps_GetOHLC : string -> string -> Time -> Time -> Duration -> M W (list OHLC * option error) }.

Class CacheOps (W : Type) := {
  cache_Get : string -> string -> M W (result Price);
  cache_Set : Price -> Duration -> M W (option error);
  cache_Delete : string -> string -> M W (option error) }.

Class ProviderRouter (W P : Type) := {
  rt_Select : string -> M W (result P);
  rt_ReportSuccess : string -> Duration -> M W unit;
  rt_ReportFailure : string -> error -> M W unit }.

Class TokenPriceProvider (W T : Type) := {
  tp_SupportsChain : T -> string -> bool;
  tp_GetPriceByAddress : T -> string -> string -> string -> PM W (Price + error) }.

Class AnalyticsStore (W : Type) := {
  as_ProviderAccuracy : Time -> Time -> M W (list ProviderAccuracyReport * option error);
  as_PriceAnomalies : string -> string -> float64 -> Time -> Time ->
    M W (list PriceAnomaly * option error);
  as_VolumeByProvider : Time -> Time -> M W (list ProviderVolume * option error);
  as_PriceStats : string -> string -> Time -> Time -> M W (result PriceStatsSummary) }.

(** ProviderStatusGetter (admin_service.go) *)
Class ProviderStatusGetter (W : Type) := { sg_ProviderStatuses : M W (list ProviderStatus) }.

(** The token registry the price service consults. *)
Class RegistryOps (W : Type) := {
  rg_Resolve : string -> string -> M W (option string);
  rg_Add : string -> string -> string -> M W unit }.

(** Clock (RealClock): [time.Now()]. *)
Class ClockOps (W : Type) := { w_Now : M W Time }.

(** The goroutine scheduler: asked with [n] goroutines runnable besides the
    current one, it lets one of them run ([Some k]) or the current one ([None]). *)
Class Scheduler (W : Type) := { sch_pick : nat -> M W (option nat) }.

(** What a router promises: no other error than [ErrNoHealthyProvider]. *)
Class RouterLaws (W P : Type) `{ProviderRouter W P} := {
  rt_Select_shape : forall coin w, (exists p, fst (rt_Select coin w) = ok p) \/
    fst (rt_Select coin w) = err ErrNoHealthyProvider }.
End ports.
