(* ===== verification/World.v ===== *)
(** * The wiring of cmd/server/main.go: the adapters behind the interfaces

    A world of the interfaces of [Ports], made of the [MultiRouter] over any
    strategy, the in-memory cache and store, the token registry and a clock,
    the way [main.go] passes them to the services.  The providers are given by
    what they answer, or that they panic; the scheduler by the choices it makes. *)
From S2P Require Import Prelude GoLib GoStrings Decimal Model ProviderState Strategies MultiRouter.
From S2P Require Import MemCache MemStore Registry Ports.
Open Scope Z_scope.

Section world.
Context {O : DecimalOps} `{!SortSlice} `{!MapRange} `{!Unicode}.
Context {P : Type} (Name : P -> string) (fetch : P -> string -> string -> Time -> option (Price + error)).
Context {St : Type} `{HS : !StrategyOps (P := P) St} `{HL : !StrategyLaws (P := P) St}.

Record world := mkWorld {
  w_router : MultiRouter (P := P) (St := St);
  w_clock : Clock;
  w_cache : Cache;
  w_store : Store;
  w_registry : TokenRegistry;
  w_sched : list (option nat) }.

Definition w_tick : M world Time := fun w =>
  let '(t, c) := tick (w_clock w) in
  (t, mkWorld (w_router w) c (w_cache w) (w_store w) (w_registry w) (w_sched w)).
Definition on_router {A} (m : M (MultiRouter (P := P) (St := St) * Clock) A) : M world A := fun w =>
  let '(a, (r, c)) := m (w_router w, w_clock w) in
  (a, mkWorld r c (w_cache w) (w_store w) (w_registry w) (w_sched w)).
Definition on_cache (f : Cache -> Cache) : M world (option error) := fun w =>
  (None, mkWorld (w_router w) (w_clock w) (f (w_cache w)) (w_store w) (w_registry w) (w_sched w)).
Definition on_store (f : Store -> Store) : M world (option error) := fun w =>
  (None, mkWorld (w_router w) (w_clock w) (w_cache w) (f (w_store w)) (w_registry w) (w_sched w)).

#[export] Instance world_clock : ClockOps world := { w_Now := w_tick }.

#[export] Instance world_sched : Scheduler world := {
  sch_pick _ w := match w_sched w with
    | [] => (None, w)
    | o :: os => (o, mkWorld (w_router w) (w_clock w) (w_cache w) (w_store w) (w_registry w) os)
    end }.

#[export] Instance world_provider : PriceProvider world P := {
  pp_Name := Name;
  pp_GetPrice p coin cur := t <- w_tick ;; ret (fetch p coin cur t) }.

#[export] Instance world_router : ProviderRouter world P := {
  rt_Select _ := on_router Select;
  rt_ReportSuccess name latency := on_router (ReportSuccess name latency);
  rt_ReportFailure name e := on_router (ReportFailure name e) }.

#[export] Instance world_cache : CacheOps world := {
  cache_Get coin cur := t <- w_tick ;; fun w => (Cache_Get t coin cur (w_cache w), w);
  cache_Set p ttl := t <- w_tick ;; on_cache (Cache_Set t p ttl);
  cache_Delete coin cur := on_cache (Cache_Delete coin cur) }.

#[export] Instance world_store : PriceStore world := {
  ps_Save p := on_store (Save p);
  ps_SaveBatch ps := on_store (SaveBatch ps);
  ps_GetLatest coin cur := fun w => ((GetLatest coin cur (w_store w), None), w);
  ps_GetHistory coin cur from to := fun w => ((GetHistory coin cur from to (w_store w), None), w);
  ps_GetOHLC coin cur from to i := fun w => ((GetOHLC coin cur from to i (w_store w), None), w) }.

#[export] Instance world_registry : RegistryOps world := {
  rg_Resolve chain addr := fun w => (Resolve chain addr (w_registry w), w);
  rg_Add chain addr coin := fun w => (tt, mkWorld (w_router w) (w_clock w) (w_cache w) (w_store w)
    (Add chain addr coin (w_registry w)) (w_sched w)) }.

Definition world_statuses (Status : P -> ProviderStatus) : ProviderStatusGetter world :=
  {| sg_ProviderStatuses := on_router (ProviderStatuses Status) |}.

(** The [MultiRouter] keeps the promise the services rely on. *)
#[export] Instance world_router_laws : RouterLaws world P.
Proof.
  split. intros coin w. simpl. unfold on_router.
  destruct (Select (w_router w, w_clock w)) as [res [r c]] eqn:E. simpl.
  by eapply Select_error.
Qed.
End world.
Arguments world {_} _ _.
