(* ===== verification/Demo.v ===== *)
(** * Sample instances

    Concrete values for the parameters of the development, on which the
    witnesses of its theorems run: rational decimals, insertion sort, ASCII
    tables, and a world with three providers behind a round-robin router. *)
From S2P Require Import Prelude GoLib GoStrings Decimal Model CircuitBreaker RateLimit.
From S2P Require Import ProviderState Strategies MultiRouter MemCache MemStore Registry Ports World.
From Stdlib Require Import QArith.
Open Scope Z_scope.

#[export] Existing Instance QDec.ops.
#[export] Existing Instance QDec.laws.
#[export] Existing Instance insertion_SortSlice.
#[export] Existing Instance sorted_MapRange.
#[export] Existing Instance ascii_Unicode.
#[export] Existing Instance plain_GoFmt.

(** Three providers: two agree on a price, one is far off or, for a coin other
    than bitcoin, fails. *)
Inductive provider := kraken | bybit | gemini.
Definition provider_Name (p : provider) : string :=
  match p with kraken => "kraken" | bybit => "bybit" | gemini => "gemini" end.
Definition provider_value (p : provider) : Z :=
  match p with kraken => 100 | bybit => 101 | gemini => 5000 end.
Definition demo_fetch (p : provider) (coin cur : string) (now : Time) : option (Price + error) :=
  Some (match p with
  | gemini => if bool_decide (coin = "bitcoin"%string)
              then inl (basicPrice coin cur (dec_NewFromInt 5000) "gemini" now now)
              else inr ErrCoinNotFound
  | _ => inl (basicPrice coin cur (dec_NewFromInt (provider_value p)) (provider_Name p) now now)
  end).

Definition demo_reg (p : provider) : ProviderRegistration (P := provider) :=
  mkReg p TierFree 1 100 Minute 5 (30 * Second) dec_Zero.
Definition demo_clock : Clock := mkClock (fun n => 1000 * Z.of_nat n) 1.
Definition demo_router : MultiRouter (P := provider) (St := RoundRobinStrategy) :=
  fst (NewMultiRouter provider_Name (NewRoundRobinStrategy false)
    [demo_reg kraken; demo_reg bybit; demo_reg gemini] demo_clock).
Definition demo_world : world provider RoundRobinStrategy :=
  mkWorld demo_router demo_clock NewCache NewStore New [None; Some 1%nat; Some 0%nat; Some 2%nat].

#[export] Instance demo_provider : PriceProvider (world provider RoundRobinStrategy) provider :=
  world_provider provider_Name demo_fetch.

Lemma demo_answers p coin cur (w : world provider RoundRobinStrategy) pr w' :
  pp_GetPrice p coin cur w = (Some (inl pr), w') -> CoinID pr = coin /\ (0 < Value pr)%Q.
Proof.
  unfold pp_GetPrice, demo_provider, world_provider, bind, ret.
  destruct (w_tick w) as [t w1]. unfold demo_fetch.
  destruct p; [| |case_bool_decide]; intros; simplify_eq; split; reflexivity.
Qed.

Lemma demo_no_panic p coin cur (w : world provider RoundRobinStrategy) w' :
  pp_GetPrice p coin cur w <> (None, w').
Proof.
  unfold pp_GetPrice, demo_provider, world_provider, bind, ret. by destruct (w_tick w).
Qed.

(** A token provider that knows one chain. *)
#[export] Instance demo_token : TokenPriceProvider (world provider RoundRobinStrategy) unit := {
  tp_SupportsChain _ chain := bool_decide (chain = "ethereum"%string);
  tp_GetPriceByAddress _ chain address cur :=
    retp (inl (basicPrice address cur (dec_NewFromInt 1) "dexscreener" 0 0)) }.
