(* ===== verification/RouterExamples.v ===== *)
(** * Witnesses of the theorems on the router and on the validator

    Each applies its theorem to the sample router of [Demo]: three providers
    registered with a limit of a hundred calls a minute. *)
From S2P Require Import Prelude GoLib GoStrings Decimal Model CircuitBreaker RateLimit.
From S2P Require Import ProviderState Strategies MultiRouter MemCache MemStore Registry Ports.
From S2P Require Import Validator World Demo.
From Stdlib Require Import QArith.
Open Scope Z_scope.

Definition demo_heap : list (ProviderState provider) := mr_heap demo_router.

Lemma demo_router_wf : mr_wf provider_Name demo_router.
Proof. apply NewMultiRouter_wf. Qed.

Lemma demo_heap_wf : heap_wf demo_heap.
Proof. apply demo_router_wf. Qed.

Lemma demo_heap_lookup p : p ∈ seq 0 3 -> exists pr,
  demo_heap !! p = Some (register (1000 * Z.of_nat (S p)) (demo_reg pr)).
Proof. intros Hp. repeat (apply elem_of_cons in Hp as [->|Hp]; [eexists; reflexivity|]). by apply elem_of_nil in Hp. Qed.

(** A fresh provider is available at every reading of the clock. *)
Lemma demo_can_serve p : p ∈ seq 0 3 -> can_serve false demo_heap p.
Proof.
  intros Hp. destruct (demo_heap_lookup p Hp) as [pr Hpr].
  eexists. split; [exact Hpr|]. intros c.
  unfold IsAvailable, bind, ps_get, ps_now, ps_cb, ps_rl, ret, IsExhausted, Remaining, checkReset. simpl.
  by repeat case_match.
Qed.

Lemma priority_select_minimal_witness : exists i s',
  Priority_Select (seq 0 3) (NewPriorityStrategy false, (demo_heap, demo_clock)) =
    (ok i, (NewPriorityStrategy false, s')) /\ i ∈ seq 0 3.
Proof.
  destruct (Priority_Select (seq 0 3) (NewPriorityStrategy false, (demo_heap, demo_clock)))
    as [r [[b] s']] eqn:E.
  pose proof (priority_select_minimal _ _ _ _ _ _ E) as Hr.
  apply (f_equal (fun x => match x with ((Some _, None), (NewPriorityStrategy false, _)) => true | _ => false end)) in E as Hok.
  destruct r as [[i|] [e|]], b; try (vm_compute in Hok; discriminate Hok).
  exists i, s'. split; [reflexivity|apply Hr].
Defined.

Lemma smart_select_argmax_witness : exists r st' s',
  Smart_Select (seq 0 3) (NewSmartStrategy (mkWeights fone fone fone) false, (demo_heap, demo_clock)) =
    (r, (st', s')) /\
  match r with (Some i, None) => i ∈ seq 0 3 | (None, Some e) => e = ErrNoHealthyProvider | _ => False end.
Proof.
  destruct (Smart_Select _ _) as [r [st' s']] eqn:E. exists r, st', s'. split; [reflexivity|].
  pose proof (smart_select_argmax _ (seq 0 3) (demo_heap, demo_clock) r st' s' (NoDup_seq 0 3) demo_heap_wf E) as Hr.
  destruct r as [[i|] [e|]]; apply Hr.
Defined.

Lemma round_robin_fair_witness :
  ok 1%nat ∈ rr_serve (NewRoundRobinStrategy false) (seq 0 3)
    [(demo_heap, demo_clock); (demo_heap, demo_clock); (demo_heap, demo_clock)].
Proof.
  apply (round_robin_fair (NewRoundRobinStrategy false) (seq 0 3) 1%nat).
  - apply NoDup_seq.
  - apply elem_of_seq. lia.
  - simpl. lia.
  - reflexivity.
  - repeat constructor; apply demo_can_serve, elem_of_seq; lia.
Defined.

Lemma select_admissible_witness : exists p s' i ps,
  Select (demo_router, demo_clock) = (ok p, s') /\ mr_heap s'.1 !! i = Some ps /\ ps_Provider ps = p.
Proof.
  destruct (Select (demo_router, demo_clock)) as [r [r' c']] eqn:E.
  apply (f_equal (fun x => match x.1 with (Some _, None) => true | _ => false end)) in E as Hok.
  destruct r as [[p|] [e|]]; try (vm_compute in Hok; discriminate Hok).
  destruct (select_admissible provider_Name demo_router demo_clock p r' c' demo_router_wf E)
    as (i & ps & n1 & n2 & Hp & _ & _ & Hh & _).
  exists p, (r', c'), i, (set_rl (Consume n1 n2 (ps_RateLimit ps)) ps).
  split; [reflexivity|split; [exact Hh|exact Hp]].
Defined.

Lemma router_invariant_witness : mr_wf provider_Name (snd (Select (demo_router, demo_clock))).1.
Proof. apply (router_invariant provider_Name demo_router demo_clock demo_router_wf). Defined.

Definition sample_validator : PriceValidator :=
  NewPriceValidator (mkPVConfig true Minute (f_of_int 10) (f_of_int 1) (f_of_int 10) (f_of_int 50)).

Lemma Validate_spec_witness : Validate 7 sample_validator sample_price = None.
Proof.
  apply (Validate_spec 7 sample_validator sample_price).
  - vm_compute. split; [discriminate|reflexivity].
  - right. split; [reflexivity|]. intros _ Hts. exfalso. apply Hts. reflexivity.
Defined.

Lemma IsOutlier_spec_witness : exists b,
  IsOutlier (NewOutlierDetector (f_of_int 5)) sample_price (dec_NewFromInt 67000) = Some b.
Proof.
  assert (0 < dval (dec_NewFromInt 67000))%Q as Hpos by (vm_compute; reflexivity).
  destruct (IsOutlier_spec (NewOutlierDetector (f_of_int 5)) sample_price (dec_NewFromInt 67000)
    (inject_Z 5) Hpos eq_refl) as (b & Hb & _).
  exists b. exact Hb.
Defined.
