(* ===== verification/Exchange.v ===== *)
(** * internal/adapter/provider: what the HTTP adapters share

    common/base.go, and the adapter the exchanges follow: a map of symbols, one
    request per coin, a switch over the status, a decoded ticker, a price.
    [Exchanges] instantiates it. *)
From S2P Require Import Prelude GoLib GoStrings Decimal Model GoJSON Ports.
Open Scope Z_scope.

(** ** The HTTP client (net/http)

    A request has a method, a URL, headers and, for a POST, a JSON document: it
    cannot be made, the call fails, or there is a response with a status and a
    body. *)
Record request := mkRequest {
  rq_method : string; rq_url : string; rq_headers : list (string * string); rq_json : option jvalue }.
Definition GET (url : string) : request := mkRequest "GET" url [] None.
Inductive http_result :=
  | HBadRequest (e : error) | HFailed | HResponse (status : Z) (body : option jvalue).
Class HTTPClient (W : Type) := { http_Do : request -> M W http_result }.

(** The configuration of an adapter; those without a key leave it empty. *)
Record Config := mkConfig { cfg_BaseURL : string; cfg_APIKey : string; cfg_RateLimit : Z }.

(** ** The state of an adapter *)
Section provider.
Context {O : DecimalOps} {W : Type} `{!ClockOps W} `{!HTTPClient W} `{!GoFmt}.

Record prov := mkProv {
  pv_world : W; pv_healthy : bool; pv_lastError : option error; pv_lastSuccessAt : Time }.
Definition New (w : W) : prov := mkProv w true None 0.
Definition on_w {A} (m : M W A) : M prov A := fun s =>
  let '(a, w) := m (pv_world s) in (a, mkProv w (pv_healthy s) (pv_lastError s) (pv_lastSuccessAt s)).

Definition Status (name : string) (tier : ProviderTier) (rate : Z) (s : prov) : ProviderStatus :=
  mkStatus name (pv_healthy s) rate 0 0 tier (pv_lastError s) (pv_lastSuccessAt s).
Definition RecordSuccess : M prov unit :=
  now <- on_w w_Now ;;
  fun s => (tt, mkProv (pv_world s) true None now).
Definition RecordError (e : error) : M prov unit := fun s =>
  (tt, mkProv (pv_world s) false (Some e) (pv_lastSuccessAt s)).
(** Record an error and answer with one. *)
Definition fail_with {A} (recorded answered : error) : M prov (A + error) :=
  RecordError recorded ;;; ret (inr answered).

Definition unexpected_status (code : Z) : error := Errorf ("unexpected status: " +:+ fmt_d code).
(** *** common/base.go: DoRequest *)
Definition base_status (code : Z) : option error :=
  if code =? 429 then Some ErrRateLimited
  else if (code =? 401) || (code =? 403) then Some ErrUnauthorized
  else if code =? 404 then Some ErrCoinNotFound
  else if code >=? 500 then Some ErrProviderDown
  else if negb (code =? 200) then Some (unexpected_status code)
  else None.
Definition DoRequest (url : string) (headers : list (string * string)) : M prov (option jvalue + error) :=
  r <- on_w (http_Do (mkRequest "GET" url headers None)) ;;
  match r with
  | HBadRequest e => ret (inr (Wrapf "creating request: " e ""))
  | HFailed => fail_with ErrProviderDown ErrProviderDown
  | HResponse code body =>
      match base_status code with
      | Some e => fail_with e e
      | None => ret (inl body)
      end
  end.

(** *** The adapters' own request: no case for a 404 *)
Definition status_error (code : Z) : option error :=
  if code =? 429 then Some ErrRateLimited
  else if (code =? 401) || (code =? 403) then Some ErrUnauthorized
  else if code >=? 500 then Some ErrProviderDown
  else if negb (code =? 200) then Some (unexpected_status code)
  else None.
Context `{!GoJSON}.
(** A request, the adapter's switch over the status, the decoding. *)
Definition fetch_with {A} (status : Z -> option error) (rq : request) (zero : A) (d : dec A) : M prov (A + error) :=
  r <- on_w (http_Do rq) ;;
  match r with
  | HBadRequest e => ret (inr (Wrapf "creating request: " e ""))
  | HFailed => fail_with ErrProviderDown ErrProviderDown
  | HResponse code body =>
      match status code with
      | Some e => fail_with e e
      | None =>
          match decode zero d body with
          | inr e => fail_with e (Wrapf "decoding response: " e "")
          | inl a => ret (inl a)
          end
      end
  end.
Definition fetch {A} (rq : request) (zero : A) (d : dec A) : M prov (A + error) :=
  fetch_with status_error rq zero d.

(** *** The end of a batch, and the first price of a batch of one *)
Definition finish (coinIDs : list string) (prices : list Price) : PM prov (list Price + error) :=
  if (length prices =? 0)%nat && negb (length coinIDs =? 0)%nat
  then liftp (fail_with ErrCoinNotFound ErrCoinNotFound)
  else RecordSuccess ;;; retp (inl prices).
Definition first_recorded (r : list Price + error) : PM prov (Price + error) :=
  match r with
  | inr e => retp (inr e)
  | inl [] => liftp (fail_with ErrCoinNotFound ErrCoinNotFound)
  | inl (p :: _) => retp (inl p)
  end.

(** ** The adapter of an exchange

    [ex_price] is what the loop body makes of a decoded response: a panic
    ([None]), or an outcome: no price ([continue]), a price, or an error to
    record and one to answer with.  [ex_stamped] tells that the URL carries the
    time of the request. *)
Inductive outcome := Skip | Priced (p : Price) | Failing (recorded answered : error).
Definition found (o : option Price) : outcome := match o with Some p => Priced p | None => Skip end.
Record Exchange := mkExchange {
  ex_name : string;
  ex_lookup : string -> option string; (* the coin's symbol *)
  ex_quote : string -> string;
  ex_stamped : bool;
  ex_request : Config -> string -> string -> Time -> request; (* symbol, quote, time *)
  ex_raw : Type;
  ex_zero : ex_raw;
  ex_dec : dec ex_raw;
  ex_price : string -> string -> string -> Time -> ex_raw -> option outcome }. (* symbol, coin, currency *)

Variables (ex : Exchange) (cfg : Config).

Fixpoint GetPrices_loop (coinIDs : list string) (currency quote : string) (now : Time) (prices : list Price) :
    PM prov (list Price + error) :=
  match coinIDs with
  | [] => retp (inl prices)
  | coinID :: coinIDs =>
      match ex_lookup ex coinID with
      | None => GetPrices_loop coinIDs currency quote now prices
      | Some sym =>
          t <- (if ex_stamped ex then on_w w_Now else ret now) ;;
          r <- fetch (ex_request ex cfg sym quote t) (ex_zero ex) (ex_dec ex) ;;
          match r with
          | inr e => retp (inr e)
          | inl raw =>
              o <~ of_option (ex_price ex sym coinID currency now raw) ;;
              match o with
              | Skip => GetPrices_loop coinIDs currency quote now prices
              | Priced p => GetPrices_loop coinIDs currency quote now (prices ++ [p])
              | Failing recorded answered => liftp (fail_with recorded answered)
              end
          end
      end
  end.
Definition GetPrices (coinIDs : list string) (currency : string) : PM prov (list Price + error) :=
  let quote := ex_quote ex currency in
  now <- on_w w_Now ;;
  r <~ GetPrices_loop coinIDs currency quote now [] ;;
  match r with
  | inr e => retp (inr e)
  | inl prices => finish coinIDs prices
  end.
Definition GetPrice (coinID currency : string) : PM prov (Price + error) :=
  r <~ GetPrices [coinID] currency ;; first_recorded r.
End provider.
Arguments prov : clear implicits.

(** ** What the adapters share *)
Section shared.
Context {O : DecimalOps} `{!GoJSON} `{!Unicode}.

Definition major_symbols : list (string * string) :=
  [("bitcoin", "BTC"); ("ethereum", "ETH"); ("solana", "SOL")]%string.
Definition lower_symbols : list (string * string) :=
  [("bitcoin", "btc"); ("ethereum", "eth"); ("solana", "sol")]%string.
Definition more_symbols : list (string * string) :=
  major_symbols ++ [("cardano", "ADA"); ("ripple", "XRP")]%string.
Definition more_lower_symbols : list (string * string) :=
  lower_symbols ++ [("cardano", "ada"); ("ripple", "xrp")]%string.
(** The map of symbols, looked up by the coin or by its lower case. *)
Definition by_id (symbols : list (string * string)) (coinID : string) : option string :=
  (list_to_map symbols : gmap string string) !! coinID.
Definition by_lower (symbols : list (string * string)) (coinID : string) : option string :=
  by_id symbols (ToLower coinID).
(** The currency's quote; dollars are quoted in USDT. *)
Definition usdt_quote (currency : string) : string :=
  let quote := ToUpper currency in if bool_decide (quote = "USD"%string) then "USDT"%string else quote.
Definition usdt_lower_quote (currency : string) : string :=
  let quote := ToLower currency in if bool_decide (quote = "usd"%string) then "usdt"%string else quote.

(** A price with a volume or a change that was found. *)
Definition with_volume (v : option decimal) (p : Price) : Price :=
  match v with
  | Some v => mkPrice (CoinID p) (Currency p) (Value p) (PProvider p) (Timestamp p) (ReceivedAt p)
                (MarketCap p) v (Change24h p)
  | None => p
  end.
Definition with_change (c : option float64) (p : Price) : Price :=
  match c with
  | Some c => mkPrice (CoinID p) (Currency p) (Value p) (PProvider p) (Timestamp p) (ReceivedAt p)
                (MarketCap p) (Volume24h p) c
  | None => p
  end.
Definition with_cap (m : option decimal) (p : Price) : Price :=
  match m with
  | Some m => mkPrice (CoinID p) (Currency p) (Value p) (PProvider p) (Timestamp p) (ReceivedAt p)
                m (Volume24h p) (Change24h p)
  | None => p
  end.
(** A decimal string that is present and, for some adapters, not zero. *)
Definition nonzero (s : string) : option decimal :=
  v ← dec_NewFromString s; if dec_IsZero v then None else Some v.
(** An error of [decimal.NewFromString]. *)
Definition decimal_error (s : string) : error := Errorf ("can't convert " +:+ s +:+ " to decimal").
End shared.

(** The labels of a price. *)
Definition labelled {O : DecimalOps} (name coin cur : string) (now : Time) (p : Price) : Prop :=
  CoinID p = coin /\ Currency p = cur /\ PProvider p = name /\ Timestamp p = now /\ ReceivedAt p = now.

(** What the loop body of an exchange promises: on a decoded response it does
    not panic, and its price is the coin's, in the currency, under the
    exchange's name, at the time the call read. *)
Definition sound_outcome {O : DecimalOps} (name coin cur : string) (now : Time) (o : outcome) : Prop :=
  match o with Priced p => labelled name coin cur now p | _ => True end.
Definition sound {O : DecimalOps} (name coin cur : string) (now : Time) (r : option outcome) : Prop :=
  exists o, r = Some o /\ sound_outcome name coin cur now o.
Class ExchangeLaws {O : DecimalOps} `{!GoJSON} (ex : Exchange) := {
  ex_sound : forall j raw sym coin cur now, ex_dec ex (ex_zero ex) j = Some raw ->
    sound (ex_name ex) coin cur now (ex_price ex sym coin cur now raw) }.

(** *** Proving it, one lemma per construct of a loop body *)
Create HintDb sound.
Section sound.
Context {O : DecimalOps} {L : DecimalLaws O} (name coin cur : string) (now : Time).
Notation labelled := (labelled name coin cur now).
Notation sound := (sound name coin cur now).

Lemma labelled_basic v : labelled (basicPrice coin cur v name now now).
Proof. done. Qed.
Lemma labelled_mk v mc vol ch : labelled (mkPrice coin cur v name now now mc vol ch).
Proof. done. Qed.
Lemma labelled_volume v p : labelled p -> labelled (with_volume v p).
Proof. by destruct v. Qed.
Lemma labelled_change c p : labelled p -> labelled (with_change c p).
Proof. by destruct c. Qed.
Lemma labelled_cap m p : labelled p -> labelled (with_cap m p).
Proof. by destruct m. Qed.
Lemma sound_priced p : labelled p -> sound (Some (Priced p)).
Proof. by exists (Priced p). Qed.
Lemma sound_skip : sound (Some Skip).
Proof. by exists Skip. Qed.
Lemma sound_failing e e' : sound (Some (Failing e e')).
Proof. by exists (Failing e e'). Qed.
Lemma sound_found o : (forall p, o = Some p -> labelled p) -> sound (Some (found o)).
Proof. intros Ho. exists (found o). split; [done|]. destruct o; [by apply Ho|done]. Qed.
Lemma NewFromFloat_some f : float_finite f = true -> is_Some (dec_NewFromFloat f).
Proof.
  intros Hf. destruct (dec_NewFromFloat f) eqn:E; [done|]. apply dec_NewFromFloat_panics in E. congruence.
Qed.
Lemma sound_float f k : float_finite f = true -> (forall v, sound (k v)) -> sound (dec_NewFromFloat f ≫= k).
Proof. intros Hf Hk. destruct (NewFromFloat_some f Hf) as [v ->]. apply Hk. Qed.
End sound.
#[export] Hint Resolve labelled_basic labelled_mk labelled_volume labelled_change labelled_cap : sound.
#[export] Hint Resolve sound_priced sound_skip sound_failing : sound.

Lemma exchange_laws {O : DecimalOps} `{!GoJSON} (ex : Exchange) (P : ex_raw ex -> Prop) : P (ex_zero ex) ->
  dec_keeps P (ex_dec ex) ->
  (forall raw sym coin cur now, P raw -> sound (ex_name ex) coin cur now (ex_price ex sym coin cur now raw)) ->
  ExchangeLaws ex.
Proof. intros Hz Hd Hs. split. intros j raw sym coin cur now Hj. apply Hs. by eapply Hd. Qed.

(** A body that is a chain of options; a body over floats that are finite. *)
Ltac chain_sound := apply sound_found; intros ? Hp;
  repeat first [ apply bind_Some in Hp as (? & _ & Hp)
               | case_match; try done ];
  cbv zeta in Hp; injection Hp as <-; auto with sound.
Ltac float_sound := repeat first
  [ progress cbv zeta
  | match goal with |- sound _ _ _ _ (match head ?l with _ => _ end) =>
      destruct l; [|match goal with H : Forall _ (_ :: _) |- _ => apply Forall_cons in H as [H _] end]; cbn [head] end
  | match goal with |- sound _ _ _ _ (if ?b then _ else _) => destruct b end
  | apply sound_float; [tauto|intros ?] ]; auto 8 with sound.

(** The floats of a decoded value are finite. *)
Create HintDb finite.
Notation finite f := (float_finite f = true).
Ltac finite_zero := solve [constructor | repeat split | done].
Ltac finite_field :=
  first [ eapply (fld_keeps _ (fun f => finite f)); [apply dec_float_finite|tauto|simpl; tauto]
        | eapply fld_keeps; [solve [eauto with finite]|simpl; tauto|simpl; tauto]
        | eapply (fld_keeps _ (fun _ => True)); [apply dec_any|done|simpl; tauto] ].
Ltac finite_fields := apply dec_struct_keeps; repeat apply Forall_cons_2; [finite_field..|constructor].
#[export] Hint Resolve dec_float_finite : finite.
#[export] Hint Extern 2 (dec_keeps _ (dec_slice _ _)) => eapply dec_slice_keeps; [|solve [eauto with finite]]; finite_zero : finite.
#[export] Hint Extern 2 (dec_keeps _ (dec_map _ _)) => eapply dec_map_keeps; [|solve [eauto with finite]]; finite_zero : finite.

(** ** Behaviour *)
Section behaviour.
Context {O : DecimalOps} {W : Type} `{!ClockOps W} `{!HTTPClient W} `{!GoFmt} `{!GoJSON}.
Variable name : string.
Implicit Types s : prov W.

(** The health an adapter reports after a call that failed with [e]: it is
    down, unless the request could not even be made. *)
Definition same_health s s' : Prop :=
  pv_healthy s' = pv_healthy s /\ pv_lastError s' = pv_lastError s /\ pv_lastSuccessAt s' = pv_lastSuccessAt s.
Definition failed s s' (e : error) : Prop :=
  (pv_healthy s' = false /\ is_Some (pv_lastError s')) \/
  (exists m, e = Wrapf "creating request: " m "" /\ same_health s s').
Definition up s : Prop := pv_healthy s = true /\ pv_lastError s = None.
Definition priced (coin cur : string) (p : Price) : Prop :=
  CoinID p = coin /\ Currency p = cur /\ PProvider p = name /\ Timestamp p = ReceivedAt p.

Lemma on_w_health {A} (m : M W A) s : same_health s (snd (on_w m s)).
Proof. unfold on_w. by destruct (m (pv_world s)). Qed.

Lemma same_health_failed s s1 s2 e : same_health s s1 -> failed s1 s2 e -> failed s s2 e.
Proof.
  intros (H1' & H2' & H3') [Hf|(m & -> & H4' & H5' & H6')]; [by left|right]. exists m. unfold same_health.
  by rewrite H4', H5', H6'.
Qed.

Lemma fetch_with_spec {A} st rq (zero : A) d s :
  match fetch_with st rq zero d s with
  | (inl a, s') => same_health s s' /\ exists j, d zero j = Some a
  | (inr e, s') => failed s s' e
  end.
Proof.
  unfold fetch_with. rewrite bind_unfold. pose proof (on_w_health (http_Do rq) s) as Hh.
  set (s1 := snd (on_w (http_Do rq) s)) in *. clearbody s1.
  destruct (fst (on_w (http_Do rq) s)) as [e| |code body]; simpl.
  - right. by exists e.
  - left. by split.
  - destruct (st code) as [e|]; [left; by split|].
    destruct body as [j|]; simpl; [|left; by split].
    destruct (d zero j) as [a|] eqn:E; simpl; [|left; by split]. eauto.
Qed.

Lemma same_health_trans s s1 s2 : same_health s s1 -> same_health s1 s2 -> same_health s s2.
Proof. unfold same_health. intuition congruence. Qed.

(** What a loop over the coins leaves: the prices so far and new ones, of a
    sublist of the coins. *)
Definition grown (coinIDs : list string) (cur : string) (prices ps : list Price) : Prop :=
  exists new, ps = prices ++ new /\ (CoinID <$> new) `sublist_of` coinIDs /\
    Forall (fun p => priced (CoinID p) cur p) new.
Lemma grown_nil cur prices : grown [] cur prices prices.
Proof. exists []. rewrite app_nil_r. split_and!; [done|constructor|constructor]. Qed.
Lemma grown_skip coin coinIDs cur prices ps : grown coinIDs cur prices ps -> grown (coin :: coinIDs) cur prices ps.
Proof. intros (new & -> & Hs & Hp). exists new. split_and!; [done|by constructor|done]. Qed.
Lemma grown_price coin coinIDs cur prices ps p : priced coin cur p ->
  grown coinIDs cur (prices ++ [p]) ps -> grown (coin :: coinIDs) cur prices ps.
Proof.
  intros (Hc & Hrest) (new & -> & Hs & Hp). exists (p :: new). rewrite <- app_assoc.
  split_and!; [done|rewrite fmap_cons, Hc; by constructor|]. constructor; [by split|done].
Qed.
Lemma grown_app coinIDs coinIDs' cur prices ps ps' : grown coinIDs cur prices ps ->
  grown coinIDs' cur ps ps' -> grown (coinIDs ++ coinIDs') cur prices ps'.
Proof.
  intros (new & -> & Hs & Hp) (new' & -> & Hs' & Hp'). exists (new ++ new'). rewrite <- app_assoc, fmap_app.
  split_and!; [done|by apply sublist_app|by apply Forall_app].
Qed.

Definition batch_answer s s' (coinIDs : list string) (cur : string) (r : list Price + error) : Prop :=
  match r with
  | inl ps => up s' /\ (CoinID <$> ps) `sublist_of` coinIDs /\ (ps = [] -> coinIDs = []) /\
      Forall (fun p => priced (CoinID p) cur p) ps
  | inr e => failed s s' e
  end.
Definition price_answer s s' (coin cur : string) (r : Price + error) : Prop :=
  match r with inl p => priced coin cur p /\ up s' | inr e => failed s s' e end.

Lemma fail_runs {A} (recorded answered : error) s (Q : A + error -> prov W -> Prop) :
  Q (inr answered) (mkProv (pv_world s) false (Some recorded) (pv_lastSuccessAt s)) ->
  runs (liftp (fail_with recorded answered)) s Q.
Proof. intros HQ. unfold liftp. by apply runs_bind, runs_retp. Qed.
Lemma failed_now s recorded answered : failed s (mkProv (pv_world s) false (Some recorded) (pv_lastSuccessAt s)) answered.
Proof. left. by split. Qed.
Lemma RecordSuccess_up s : up (snd (RecordSuccess s)).
Proof. unfold RecordSuccess. by rewrite bind_unfold. Qed.

Lemma finish_runs coinIDs cur ps s0 s : same_health s0 s -> grown coinIDs cur [] ps ->
  runs (finish coinIDs ps) s (fun r s' => batch_answer s0 s' coinIDs cur r).
Proof.
  intros Hh (new & -> & Hs & Hp). unfold finish. cbn [app]. destruct (_ && _) eqn:E.
  - apply fail_runs. eapply same_health_failed; [exact Hh|]. apply failed_now.
  - apply runs_bind, runs_retp. split; [apply RecordSuccess_up|].
    split_and!; [done| |done]. intros ->. simpl in E. apply negb_false_iff, Nat.eqb_eq in E.
    by apply nil_length_inv.
Qed.
Lemma batch_first s s' coin cur ps : batch_answer s s' [coin] cur (inl ps) ->
  exists p ps', ps = p :: ps' /\ price_answer s s' coin cur (inl p).
Proof.
  intros (Hu & Hs & Hn & Hp). destruct ps as [|p ps]; [discriminate (Hn eq_refl)|]. exists p, ps. split; [done|].
  split; [|done]. apply Forall_cons in Hp as [Hp _]. rewrite fmap_cons in Hs.
  apply sublist_cons_r in Hs as [Hs|(l' & Heq & Hs)]; [by apply sublist_nil_r in Hs|]. simplify_eq. congruence.
Qed.
Lemma first_recorded_runs s s' coin cur r : batch_answer s s' [coin] cur r ->
  runs (first_recorded r) s' (fun r s' => price_answer s s' coin cur r).
Proof.
  destruct r as [ps|e]; [|intros; by apply runs_retp].
  intros Hb. apply batch_first in Hb as (p & ps' & -> & Hp). by apply runs_retp.
Qed.
End behaviour.

Section exchange.
Context {O : DecimalOps} {W : Type} `{!ClockOps W} `{!HTTPClient W} `{!GoFmt} `{!GoJSON}.
Variables (ex : Exchange) (cfg : Config).
Context `{XL : !ExchangeLaws ex}.
Implicit Types s : prov W.
Notation priced := (priced (ex_name ex)).
Notation grown := (grown (ex_name ex)).
Notation batch_answer := (batch_answer (ex_name ex)).

Lemma exchange_loop_spec coinIDs cur quote now : forall prices s,
  runs (GetPrices_loop ex cfg coinIDs cur quote now prices) s (fun r s' =>
    match r with inl ps => same_health s s' /\ grown coinIDs cur prices ps | inr e => failed s s' e end).
Proof.
  induction coinIDs as [|coin coinIDs IH]; intros prices s; cbn [GetPrices_loop].
  { apply runs_retp. split; [done|apply grown_nil]. }
  assert (forall s1 prices', same_health s s1 ->
    (forall ps, grown coinIDs cur prices' ps -> grown (coin :: coinIDs) cur prices ps) ->
    runs (GetPrices_loop ex cfg coinIDs cur quote now prices') s1 (fun r s' =>
      match r with inl ps => same_health s s' /\ grown (coin :: coinIDs) cur prices ps | inr e => failed s s' e end))
    as Hnext.
  { intros s1 prices' Hh Hg. eapply runs_mono; [|apply IH]. intros [ps|e] s2; [|by apply same_health_failed].
    intros [Hh2 Hps]. split; [by eapply same_health_trans|by apply Hg]. }
  destruct (ex_lookup ex coin) as [sym|]; [|apply Hnext; [done|intros ?; apply grown_skip]].
  apply runs_bind. set (stamp := if ex_stamped ex then on_w w_Now else ret now).
  assert (same_health s (snd (stamp s))) as Hh0.
  { unfold stamp. destruct (ex_stamped ex); [apply on_w_health|done]. }
  set (t := fst (stamp s)). set (s0 := snd (stamp s)) in *. clearbody t s0.
  apply runs_bind. pose proof (fetch_with_spec status_error (ex_request ex cfg sym quote t) (ex_zero ex) (ex_dec ex) s0) as Hf.
  unfold fetch. destruct (fetch_with _ _ _ _ s0) as [[raw|e] s1]; simpl;
    [|apply runs_retp; by eapply same_health_failed].
  destruct Hf as [Hh [j Hj]]. unfold bindp. apply runs_bind. simpl.
  pose proof (same_health_trans _ _ _ Hh0 Hh) as Hh1.
  destruct (ex_sound (ex := ex) j raw sym coin cur now Hj) as (o & -> & Ho).
  destruct o as [|p|e e']; [apply Hnext; [done|intros ?; apply grown_skip]| |].
  - apply Hnext; [done|]. intros ps. apply grown_price.
    destruct Ho as (Hc & Hcur & Hn & Ht1 & Ht2). by unfold priced; rewrite Ht1, Ht2.
  - apply fail_runs. eapply same_health_failed; [exact Hh1|]. apply failed_now.
Qed.

Lemma exchange_GetPrices_runs coinIDs cur s :
  runs (GetPrices ex cfg coinIDs cur) s (fun r s' => batch_answer s s' coinIDs cur r).
Proof.
  unfold GetPrices. apply runs_bind. pose proof (on_w_health w_Now s) as Hh. set (s1 := snd _) in *. clearbody s1.
  apply runs_bindp. eapply runs_mono; [|apply exchange_loop_spec].
  intros [ps|e] s2; [|intros Hf; apply runs_retp; by eapply same_health_failed].
  intros [Hh2 Hg]. apply finish_runs; [by eapply same_health_trans|done].
Qed.

(** A batch call of any exchange adapter returns: either prices, for a
    sublist of the coins asked for in their order, at least one unless none was
    asked for, each under its own coin, the currency and the exchange's name,
    with the adapter healthy; or an error, with the adapter down, prices already
    fetched discarded. *)
Theorem exchange_GetPrices_spec coinIDs cur s :
  exists r s', GetPrices ex cfg coinIDs cur s = (Some r, s') /\ batch_answer s s' coinIDs cur r.
Proof. by destruct (runs_elim _ _ _ (exchange_GetPrices_runs coinIDs cur s)) as (r & s' & ? & ?); exists r, s'. Qed.

Lemma exchange_GetPrice_runs coin cur s :
  runs (GetPrice ex cfg coin cur) s (fun r s' => price_answer (ex_name ex) s s' coin cur r).
Proof.
  unfold GetPrice. apply runs_bindp. eapply runs_mono; [|apply exchange_GetPrices_runs].
  intros r s' Hb. eapply runs_mono; [|exact (first_recorded_runs _ _ _ _ _ _ Hb)]. by intros r1 s2 Hp.
Qed.
(** A coin the adapter does not know is [ErrCoinNotFound], without a request. *)
Lemma GetPrice_unknown coin cur s : ex_lookup ex coin = None ->
  exists s', GetPrice ex cfg coin cur s = (Some (inr ErrCoinNotFound), s') /\
    pv_world s' = snd (w_Now (pv_world s)).
Proof.
  intros Es. destruct (w_Now (pv_world s)) as [t w] eqn:Et.
  exists (mkProv w false (Some ErrCoinNotFound) (pv_lastSuccessAt s)). split; [|done].
  unfold GetPrice, bindp, GetPrices, bind, on_w. rewrite Et. cbn [GetPrices_loop]. by rewrite Es.
Qed.

(** ** Adapters that do not look at the currency *)
(** The price under another currency's label. *)
Definition relabel (cur : string) (p : Price) : Price :=
  mkPrice (CoinID p) cur (Value p) (PProvider p) (Timestamp p) (ReceivedAt p)
    (MarketCap p) (Volume24h p) (Change24h p).
Definition relabel_answer (cur : string) (r : Price + error) : Price + error :=
  match r with inl p => inl (relabel cur p) | inr e => inr e end.
Definition relabel_outcome (cur : string) (o : outcome) : outcome :=
  match o with Priced p => Priced (relabel cur p) | _ => o end.

Lemma GetPrice_relabel coin cur cur' s : ex_quote ex cur = ex_quote ex cur' ->
  (forall sym now raw, ex_price ex sym coin cur now raw =
     relabel_outcome cur <$> ex_price ex sym coin cur' now raw) ->
  GetPrice ex cfg coin cur s =
    let '(r, s') := GetPrice ex cfg coin cur' s in (relabel_answer cur <$> r, s').
Proof.
  intros Hq Hp. unfold GetPrice, bindp, GetPrices. rewrite !bind_unfold. rewrite Hq.
  cbn [GetPrices_loop]. set (s1 := snd (on_w w_Now s)). set (now := fst (on_w w_Now s)).
  destruct (ex_lookup ex coin) as [sym|]; [|by destruct s1].
  unfold bindp. rewrite !bind_unfold. set (t := fst (_ s1)). set (s2 := snd (_ s1)). clearbody t s2.
  destruct (fetch _ _ _ s2) as [[raw|e] s3]; [|done]. cbn [fst snd]. rewrite !bind_unfold.
  unfold of_option, ret at 1 3 5 7. cbn [fst snd]. rewrite Hp.
  destruct (ex_price ex sym coin cur' now raw) as [[|p|e e']|]; [by destruct s3| |done|done].
  cbn. unfold RecordSuccess, bind. by destruct (on_w w_Now s3).
Qed.
End exchange.
