(* ===== verification/Exchanges.v ===== *)
(** * The exchange adapters

    bybit, okx, mexc, gateio, gemini, htx, upbit, bithumb, coinbase, poloniex,
    cryptodotcom, btse, xtcom, lbank, bingx, woox, phemex, wazirx, bitstamp and
    dydx: each is the loop of [Exchange] with its symbols, quote, request, ticker
    type and loop body. *)
From S2P Require Import Prelude GoLib GoStrings Decimal Model GoJSON Ports Exchange.
Open Scope Z_scope.

Section exchanges.
Context {O : DecimalOps} `{!GoJSON} `{!Unicode} `{!GoParse} `{!GoFmt}.

(** ** bybit *)
Record bybitTicker := mkBybitTicker {
  bb_Symbol : string; bb_LastPrice : string; bb_Turnover24h : string; bb_Price24hPcnt : string }.
Definition bybitTicker_fields : list (field bybitTicker) := [
  fld "symbol" dec_string bb_Symbol (fun x t => mkBybitTicker x (bb_LastPrice t) (bb_Turnover24h t) (bb_Price24hPcnt t));
  fld "lastPrice" dec_string bb_LastPrice (fun x t => mkBybitTicker (bb_Symbol t) x (bb_Turnover24h t) (bb_Price24hPcnt t));
  fld "turnover24h" dec_string bb_Turnover24h (fun x t => mkBybitTicker (bb_Symbol t) (bb_LastPrice t) x (bb_Price24hPcnt t));
  fld "price24hPcnt" dec_string bb_Price24hPcnt (fun x t => mkBybitTicker (bb_Symbol t) (bb_LastPrice t) (bb_Turnover24h t) x)].
Definition bybitTicker_zero : bybitTicker := mkBybitTicker "" "" "" "".
Record bybitResponse := mkBybitResponse { bb_RetCode : Z; bb_List : list bybitTicker }.
Definition bybitResponse_fields : list (field bybitResponse) := [
  fld "retCode" dec_int64 bb_RetCode (fun x r => mkBybitResponse x (bb_List r));
  fld "result" (dec_struct [fld "list" (dec_slice bybitTicker_zero (dec_struct bybitTicker_fields)) id (fun x _ => x)])
    bb_List (fun x r => mkBybitResponse (bb_RetCode r) x)].
Definition bybit : Exchange := {|
  ex_name := "bybit"; ex_lookup := by_lower major_symbols; ex_quote := usdt_quote;
  ex_stamped := false;
  ex_request cfg sym quote _ := GET (cfg_BaseURL cfg +:+ "/v5/market/tickers?category=spot&symbol=" +:+ sym +:+ quote)%string;
  ex_zero := mkBybitResponse 0 []; ex_dec := dec_struct bybitResponse_fields;
  ex_price _ coinID currency now raw := Some (found (
    ticker ← head (bb_List raw);
    val ← dec_NewFromString (bb_LastPrice ticker);
    let pr := basicPrice coinID currency val "bybit" now now in
    let pr := with_volume (dec_NewFromString (bb_Turnover24h ticker)) pr in
    Some (with_change (pct ← strconv_ParseFloat (bb_Price24hPcnt ticker); Some (fmul pct (f_of_int 100))) pr))) |}.

(** ** okx *)
Record okxTicker := mkOkxTicker { ok_InstID : string; ok_Last : string; ok_VolCcy24h : string }.
Definition okxTicker_fields : list (field okxTicker) := [
  fld "instId" dec_string ok_InstID (fun x t => mkOkxTicker x (ok_Last t) (ok_VolCcy24h t));
  fld "last" dec_string ok_Last (fun x t => mkOkxTicker (ok_InstID t) x (ok_VolCcy24h t));
  fld "volCcy24h" dec_string ok_VolCcy24h (fun x t => mkOkxTicker (ok_InstID t) (ok_Last t) x)].
Record okxResponse := mkOkxResponse { ok_Code : string; ok_Data : list okxTicker }.
Definition okxResponse_fields : list (field okxResponse) := [
  fld "code" dec_string ok_Code (fun x r => mkOkxResponse x (ok_Data r));
  fld "data" (dec_slice (mkOkxTicker "" "" "") (dec_struct okxTicker_fields)) ok_Data
    (fun x r => mkOkxResponse (ok_Code r) x)].
Definition okx : Exchange := {|
  ex_name := "okx"; ex_lookup := by_lower major_symbols; ex_quote := usdt_quote;
  ex_stamped := false;
  ex_request cfg sym quote _ := GET (cfg_BaseURL cfg +:+ "/api/v5/market/ticker?instId=" +:+ sym +:+ "-" +:+ quote)%string;
  ex_zero := mkOkxResponse "" []; ex_dec := dec_struct okxResponse_fields;
  ex_price _ coinID currency now raw := Some (found (
    ticker ← head (ok_Data raw);
    val ← dec_NewFromString (ok_Last ticker);
    Some (with_volume (dec_NewFromString (ok_VolCcy24h ticker)) (basicPrice coinID currency val "okx" now now)))) |}.

(** ** mexc *)
Record mexcTicker := mkMexcTicker { mx_Symbol : string; mx_Price : string }.
Definition mexcTicker_fields : list (field mexcTicker) := [
  fld "symbol" dec_string mx_Symbol (fun x t => mkMexcTicker x (mx_Price t));
  fld "price" dec_string mx_Price (fun x t => mkMexcTicker (mx_Symbol t) x)].
Definition mexc : Exchange := {|
  ex_name := "mexc"; ex_lookup := by_lower major_symbols; ex_quote := usdt_quote;
  ex_stamped := false;
  ex_request cfg sym quote _ := GET (cfg_BaseURL cfg +:+ "/api/v3/ticker/price?symbol=" +:+ sym +:+ quote)%string;
  ex_zero := mkMexcTicker "" ""; ex_dec := dec_struct mexcTicker_fields;
  ex_price _ coinID currency now raw := Some (found (
    val ← nonzero (mx_Price raw); Some (basicPrice coinID currency val "mexc" now now))) |}.

(** ** gateio *)
Record gateioTicker := mkGateioTicker {
  gt_CurrencyPair : string; gt_Last : string; gt_BaseVolume : string; gt_QuoteVolume : string;
  gt_ChangePercentage : string }.
Definition gateioTicker_fields : list (field gateioTicker) := [
  fld "currency_pair" dec_string gt_CurrencyPair (fun x t =>
    mkGateioTicker x (gt_Last t) (gt_BaseVolume t) (gt_QuoteVolume t) (gt_ChangePercentage t));
  fld "last" dec_string gt_Last (fun x t =>
    mkGateioTicker (gt_CurrencyPair t) x (gt_BaseVolume t) (gt_QuoteVolume t) (gt_ChangePercentage t));
  fld "base_volume" dec_string gt_BaseVolume (fun x t =>
    mkGateioTicker (gt_CurrencyPair t) (gt_Last t) x (gt_QuoteVolume t) (gt_ChangePercentage t));
  fld "quote_volume" dec_string gt_QuoteVolume (fun x t =>
    mkGateioTicker (gt_CurrencyPair t) (gt_Last t) (gt_BaseVolume t) x (gt_ChangePercentage t));
  fld "change_percentage" dec_string gt_ChangePercentage (fun x t =>
    mkGateioTicker (gt_CurrencyPair t) (gt_Last t) (gt_BaseVolume t) (gt_QuoteVolume t) x)].
Definition gateio : Exchange := {|
  ex_name := "gateio"; ex_lookup := by_lower major_symbols; ex_quote := usdt_quote;
  ex_stamped := false;
  ex_request cfg sym quote _ := GET (cfg_BaseURL cfg +:+ "/api/v4/spot/tickers?currency_pair=" +:+ sym +:+ "_" +:+ quote)%string;
  ex_zero := []; ex_dec := dec_slice (mkGateioTicker "" "" "" "" "") (dec_struct gateioTicker_fields);
  ex_price _ coinID currency now raw := Some (found (
    ticker ← head raw;
    val ← dec_NewFromString (gt_Last ticker);
    Some (with_change (strconv_ParseFloat (gt_ChangePercentage ticker))
      (with_volume (dec_NewFromString (gt_QuoteVolume ticker)) (basicPrice coinID currency val "gateio" now now))))) |}.

(** ** gemini *)
Record geminiTicker := mkGeminiTicker { gm_Symbol : string; gm_Close : string }.
Definition geminiTicker_fields : list (field geminiTicker) := [
  fld "symbol" dec_string gm_Symbol (fun x t => mkGeminiTicker x (gm_Close t));
  fld "close" dec_string gm_Close (fun x t => mkGeminiTicker (gm_Symbol t) x)].
Definition gemini : Exchange := {|
  ex_name := "gemini"; ex_lookup := by_lower lower_symbols; ex_quote := ToLower;
  ex_stamped := false;
  ex_request cfg sym quote _ := GET (cfg_BaseURL cfg +:+ "/v2/ticker/" +:+ sym +:+ quote)%string;
  ex_zero := mkGeminiTicker "" ""; ex_dec := dec_struct geminiTicker_fields;
  ex_price _ coinID currency now raw := Some (found (
    val ← nonzero (gm_Close raw); Some (basicPrice coinID currency val "gemini" now now))) |}.

(** ** htx *)
Record htxTick := mkHtxTick {
  hx_Close : float64; hx_Vol : float64; hx_Amount : float64; hx_High : float64; hx_Low : float64 }.
Definition htxTick_fields : list (field htxTick) := [
  fld "close" dec_float hx_Close (fun x t => mkHtxTick x (hx_Vol t) (hx_Amount t) (hx_High t) (hx_Low t));
  fld "vol" dec_float hx_Vol (fun x t => mkHtxTick (hx_Close t) x (hx_Amount t) (hx_High t) (hx_Low t));
  fld "amount" dec_float hx_Amount (fun x t => mkHtxTick (hx_Close t) (hx_Vol t) x (hx_High t) (hx_Low t));
  fld "high" dec_float hx_High (fun x t => mkHtxTick (hx_Close t) (hx_Vol t) (hx_Amount t) x (hx_Low t));
  fld "low" dec_float hx_Low (fun x t => mkHtxTick (hx_Close t) (hx_Vol t) (hx_Amount t) (hx_High t) x)].
Record htxResponse := mkHtxResponse { hx_Status : string; hx_Tick : htxTick }.
Definition htxResponse_fields : list (field htxResponse) := [
  fld "status" dec_string hx_Status (fun x r => mkHtxResponse x (hx_Tick r));
  fld "tick" (dec_struct htxTick_fields) hx_Tick (fun x r => mkHtxResponse (hx_Status r) x)].
Definition htx : Exchange := {|
  ex_name := "htx"; ex_lookup := by_lower lower_symbols; ex_quote := usdt_lower_quote;
  ex_stamped := false;
  ex_request cfg sym quote _ := GET (cfg_BaseURL cfg +:+ "/market/detail/merged?symbol=" +:+ sym +:+ quote)%string;
  ex_zero := mkHtxResponse "" (mkHtxTick fzero fzero fzero fzero fzero); ex_dec := dec_struct htxResponse_fields;
  ex_price _ coinID currency now raw :=
    let tick := hx_Tick raw in
    if negb (bool_decide (hx_Status raw = "ok"%string)) || feqb (hx_Close tick) fzero then Some Skip else
    val ← dec_NewFromFloat (hx_Close tick);
    let pr := basicPrice coinID currency val "htx" now now in
    if fgtb (hx_Vol tick) fzero
    then vol ← dec_NewFromFloat (hx_Vol tick); Some (Priced (with_volume (Some vol) pr))
    else Some (Priced pr) |}.

(** ** upbit: USDT markets for dollars, KRW markets for everything else *)
Record upbitTicker := mkUpbitTicker {
  ub_Market : string; ub_TradePrice : float64; ub_SignedChangeRate : float64; ub_AccTradeVolume24h : float64;
  ub_HighPrice : float64; ub_LowPrice : float64; ub_Timestamp : Z }.
Definition upbitTicker_fields : list (field upbitTicker) := [
  fld "market" dec_string ub_Market (fun x t => mkUpbitTicker x (ub_TradePrice t) (ub_SignedChangeRate t)
    (ub_AccTradeVolume24h t) (ub_HighPrice t) (ub_LowPrice t) (ub_Timestamp t));
  fld "trade_price" dec_float ub_TradePrice (fun x t => mkUpbitTicker (ub_Market t) x (ub_SignedChangeRate t)
    (ub_AccTradeVolume24h t) (ub_HighPrice t) (ub_LowPrice t) (ub_Timestamp t));
  fld "signed_change_rate" dec_float ub_SignedChangeRate (fun x t => mkUpbitTicker (ub_Market t) (ub_TradePrice t) x
    (ub_AccTradeVolume24h t) (ub_HighPrice t) (ub_LowPrice t) (ub_Timestamp t));
  fld "acc_trade_volume_24h" dec_float ub_AccTradeVolume24h (fun x t => mkUpbitTicker (ub_Market t) (ub_TradePrice t)
    (ub_SignedChangeRate t) x (ub_HighPrice t) (ub_LowPrice t) (ub_Timestamp t));
  fld "high_price" dec_float ub_HighPrice (fun x t => mkUpbitTicker (ub_Market t) (ub_TradePrice t)
    (ub_SignedChangeRate t) (ub_AccTradeVolume24h t) x (ub_LowPrice t) (ub_Timestamp t));
  fld "low_price" dec_float ub_LowPrice (fun x t => mkUpbitTicker (ub_Market t) (ub_TradePrice t)
    (ub_SignedChangeRate t) (ub_AccTradeVolume24h t) (ub_HighPrice t) x (ub_Timestamp t));
  fld "timestamp" dec_int64 ub_Timestamp (fun x t => mkUpbitTicker (ub_Market t) (ub_TradePrice t)
    (ub_SignedChangeRate t) (ub_AccTradeVolume24h t) (ub_HighPrice t) (ub_LowPrice t) x)].
Definition upbitTicker_zero : upbitTicker := mkUpbitTicker "" fzero fzero fzero fzero fzero 0.
Definition upbit_quote (currency : string) : string :=
  if bool_decide (ToUpper currency = "USD"%string) then "USDT"%string else "KRW"%string.
Definition upbit : Exchange := {|
  ex_name := "upbit"; ex_lookup := by_lower more_symbols;
  ex_quote := upbit_quote;
  ex_stamped := false;
  ex_request cfg sym quote _ := GET (cfg_BaseURL cfg +:+ "/v1/ticker?markets=" +:+ quote +:+ "-" +:+ sym)%string;
  ex_zero := []; ex_dec := dec_slice upbitTicker_zero (dec_struct upbitTicker_fields);
  ex_price _ coinID currency now raw :=
    match head raw with
    | None => Some Skip
    | Some ticker =>
        val ← dec_NewFromFloat (ub_TradePrice ticker);
        if dec_IsZero val then Some Skip else
        vol ← dec_NewFromFloat (ub_AccTradeVolume24h ticker);
        Some (Priced (with_change (Some (fmul (ub_SignedChangeRate ticker) (f_of_int 100)))
          (with_volume (Some vol) (basicPrice coinID currency val "upbit" now now))))
    end |}.

(** ** bithumb *)
Record bithumbTicker := mkBithumbTicker {
  bt_Market : string; bt_TradePrice : float64; bt_ChangeRate : float64; bt_AccTradeVolume : float64;
  bt_HighPrice : float64; bt_LowPrice : float64 }.
Definition bithumbTicker_fields : list (field bithumbTicker) := [
  fld "market" dec_string bt_Market (fun x t => mkBithumbTicker x (bt_TradePrice t) (bt_ChangeRate t)
    (bt_AccTradeVolume t) (bt_HighPrice t) (bt_LowPrice t));
  fld "trade_price" dec_float bt_TradePrice (fun x t => mkBithumbTicker (bt_Market t) x (bt_ChangeRate t)
    (bt_AccTradeVolume t) (bt_HighPrice t) (bt_LowPrice t));
  fld "change_rate" dec_float bt_ChangeRate (fun x t => mkBithumbTicker (bt_Market t) (bt_TradePrice t) x
    (bt_AccTradeVolume t) (bt_HighPrice t) (bt_LowPrice t));
  fld "acc_trade_volume_24h" dec_float bt_AccTradeVolume (fun x t => mkBithumbTicker (bt_Market t) (bt_TradePrice t)
    (bt_ChangeRate t) x (bt_HighPrice t) (bt_LowPrice t));
  fld "high_price" dec_float bt_HighPrice (fun x t => mkBithumbTicker (bt_Market t) (bt_TradePrice t)
    (bt_ChangeRate t) (bt_AccTradeVolume t) x (bt_LowPrice t));
  fld "low_price" dec_float bt_LowPrice (fun x t => mkBithumbTicker (bt_Market t) (bt_TradePrice t)
    (bt_ChangeRate t) (bt_AccTradeVolume t) (bt_HighPrice t) x)].
Definition bithumbTicker_zero : bithumbTicker := mkBithumbTicker "" fzero fzero fzero fzero fzero.
Definition bithumb : Exchange := {|
  ex_name := "bithumb"; ex_lookup := by_lower major_symbols; ex_quote := usdt_quote;
  ex_stamped := false;
  ex_request cfg sym quote _ := GET (cfg_BaseURL cfg +:+ "/v1/ticker?markets=" +:+ quote +:+ "-" +:+ sym)%string;
  ex_zero := []; ex_dec := dec_slice bithumbTicker_zero (dec_struct bithumbTicker_fields);
  ex_price _ coinID currency now raw :=
    match head raw with
    | None => Some Skip
    | Some ticker =>
        val ← dec_NewFromFloat (bt_TradePrice ticker);
        vol ← dec_NewFromFloat (bt_AccTradeVolume ticker);
        Some (Priced (with_change (Some (fmul (bt_ChangeRate ticker) (f_of_int 100)))
          (with_volume (Some vol) (basicPrice coinID currency val "bithumb" now now))))
    end |}.

(** ** coinbase *)
Definition currencyMap : gmap string string :=
  list_to_map [("usd", "USD"); ("eur", "EUR"); ("gbp", "GBP"); ("btc", "BTC"); ("eth", "ETH")]%string.
Record coinbaseTicker := mkCoinbaseTicker { cb_Price : string; cb_Volume : string }.
Definition coinbaseTicker_fields : list (field coinbaseTicker) := [
  fld "price" dec_string cb_Price (fun x t => mkCoinbaseTicker x (cb_Volume t));
  fld "volume" dec_string cb_Volume (fun x t => mkCoinbaseTicker (cb_Price t) x)].
Definition coinbase : Exchange := {|
  ex_name := "coinbase"; ex_lookup := by_lower major_symbols;
  ex_quote currency := default (ToUpper currency) (currencyMap !! ToLower currency);
  ex_stamped := false;
  ex_request cfg sym quote _ := GET (cfg_BaseURL cfg +:+ "/products/" +:+ sym +:+ "-" +:+ quote +:+ "/ticker")%string;
  ex_zero := mkCoinbaseTicker "" ""; ex_dec := dec_struct coinbaseTicker_fields;
  ex_price _ coinID currency now raw := Some (found (
    val ← nonzero (cb_Price raw);
    Some (with_volume (if bool_decide (cb_Volume raw = ""%string) then None else dec_NewFromString (cb_Volume raw))
      (basicPrice coinID currency val "coinbase" now now)))) |}.

(** ** poloniex *)
Record poloniexTicker := mkPoloniexTicker { px_Symbol : string; px_Price : string; px_DailyChange : string }.
Definition poloniexTicker_fields : list (field poloniexTicker) := [
  fld "symbol" dec_string px_Symbol (fun x t => mkPoloniexTicker x (px_Price t) (px_DailyChange t));
  fld "price" dec_string px_Price (fun x t => mkPoloniexTicker (px_Symbol t) x (px_DailyChange t));
  fld "dailyChange" dec_string px_DailyChange (fun x t => mkPoloniexTicker (px_Symbol t) (px_Price t) x)].
Definition poloniex : Exchange := {|
  ex_name := "poloniex"; ex_lookup := by_lower major_symbols; ex_quote := usdt_quote;
  ex_stamped := false;
  ex_request cfg sym quote _ := GET (cfg_BaseURL cfg +:+ "/markets/" +:+ sym +:+ "_" +:+ quote +:+ "/price")%string;
  ex_zero := mkPoloniexTicker "" "" ""; ex_dec := dec_struct poloniexTicker_fields;
  ex_price _ coinID currency now raw := Some (found (
    val ← nonzero (px_Price raw);
    Some (with_change
      (if bool_decide (px_DailyChange raw = ""%string) then None else
       change ← dec_NewFromString (px_DailyChange raw);
       Some (dec_InexactFloat64 (dec_Mul change (dec_NewFromInt 100))))
      (basicPrice coinID currency val "poloniex" now now)))) |}.
(** ** cryptodotcom *)
Record cryptodotcomTickerEntry := mkCryptodotcomTickerEntry { cd_Instrument : string; cd_Last : string;
  cd_Volume : string }.
Definition cryptodotcomTickerEntry_zero : cryptodotcomTickerEntry := mkCryptodotcomTickerEntry ""%string ""%string ""%string.
Definition cryptodotcomTickerEntry_fields : list (field cryptodotcomTickerEntry) := [
  fld "i" dec_string cd_Instrument (fun x t => mkCryptodotcomTickerEntry x (cd_Last t) (cd_Volume t));
  fld "a" dec_string cd_Last (fun x t => mkCryptodotcomTickerEntry (cd_Instrument t) x (cd_Volume t));
  fld "v" dec_string cd_Volume (fun x t => mkCryptodotcomTickerEntry (cd_Instrument t) (cd_Last t) x)].
Record cryptodotcomResult := mkCryptodotcomResult { cd_Data : list cryptodotcomTickerEntry }.
Definition cryptodotcomResult_zero : cryptodotcomResult := mkCryptodotcomResult [].
Definition cryptodotcomResult_fields : list (field cryptodotcomResult) := [
  fld "data" (dec_slice cryptodotcomTickerEntry_zero (dec_struct cryptodotcomTickerEntry_fields)) cd_Data
    (fun x t => mkCryptodotcomResult x)].
Record cryptodotcomResponse := mkCryptodotcomResponse { cd_Code : Z; cd_Result : cryptodotcomResult }.
Definition cryptodotcomResponse_zero : cryptodotcomResponse := mkCryptodotcomResponse 0 cryptodotcomResult_zero.
Definition cryptodotcomResponse_fields : list (field cryptodotcomResponse) := [
  fld "code" dec_int64 cd_Code (fun x t => mkCryptodotcomResponse x (cd_Result t));
  fld "result" (dec_struct cryptodotcomResult_fields) cd_Result (fun x t => mkCryptodotcomResponse (cd_Code t) x)].
Definition cryptodotcom : Exchange := {|
  ex_name := "cryptodotcom"; ex_lookup := by_lower major_symbols; ex_quote := ToUpper; ex_stamped := false;
  ex_request cfg sym quote _ :=
    GET (cfg_BaseURL cfg +:+ "/exchange/v1/public/get-tickers?instrument_name=" +:+ sym +:+ "_" +:+ quote)%string;
  ex_zero := cryptodotcomResponse_zero; ex_dec := dec_struct cryptodotcomResponse_fields;
  ex_price _ coinID currency now raw := Some (found (
    entry ← head (cd_Data (cd_Result raw));
    val ← nonzero (cd_Last entry);
    Some (with_volume (if bool_decide (cd_Volume entry = ""%string) then None else dec_NewFromString (cd_Volume entry))
      (basicPrice coinID currency val "cryptodotcom" now now)))) |}.

(** ** btse *)
Record btseTicker := mkBtseTicker { bs_Symbol : string; bs_Last : float64; bs_PercentageChange : float64;
  bs_Volume : float64; bs_High24Hr : float64; bs_Low24Hr : float64 }.
Definition btseTicker_zero : btseTicker := mkBtseTicker ""%string fzero fzero fzero fzero fzero.
Definition btseTicker_fields : list (field btseTicker) := [
  fld "symbol" dec_string bs_Symbol
    (fun x t => mkBtseTicker x (bs_Last t) (bs_PercentageChange t) (bs_Volume t) (bs_High24Hr t) (bs_Low24Hr t));
  fld "last" dec_float bs_Last
    (fun x t => mkBtseTicker (bs_Symbol t) x (bs_PercentageChange t) (bs_Volume t) (bs_High24Hr t) (bs_Low24Hr t));
  fld "percentageChange" dec_float bs_PercentageChange
    (fun x t => mkBtseTicker (bs_Symbol t) (bs_Last t) x (bs_Volume t) (bs_High24Hr t) (bs_Low24Hr t));
  fld "volume" dec_float bs_Volume
    (fun x t => mkBtseTicker (bs_Symbol t) (bs_Last t) (bs_PercentageChange t) x (bs_High24Hr t) (bs_Low24Hr t));
  fld "high24Hr" dec_float bs_High24Hr
    (fun x t => mkBtseTicker (bs_Symbol t) (bs_Last t) (bs_PercentageChange t) (bs_Volume t) x (bs_Low24Hr t));
  fld "low24Hr" dec_float bs_Low24Hr
    (fun x t => mkBtseTicker (bs_Symbol t) (bs_Last t) (bs_PercentageChange t) (bs_Volume t) (bs_High24Hr t) x)].
Definition btse : Exchange := {|
  ex_name := "btse"; ex_lookup := by_lower major_symbols; ex_quote := ToUpper; ex_stamped := false;
  ex_request cfg sym quote _ :=
    GET (cfg_BaseURL cfg +:+ "/spot/api/v3.2/market_summary?symbol=" +:+ sym +:+ "-" +:+ quote)%string;
  ex_zero := []; ex_dec := dec_slice btseTicker_zero (dec_struct btseTicker_fields);
  ex_price _ coinID currency now raw :=
    match head raw with
    | None => Some Skip
    | Some entry =>
        val ← dec_NewFromFloat (bs_Last entry);
        if dec_IsZero val then Some Skip else
        vol ← dec_NewFromFloat (bs_Volume entry);
        Some (Priced (with_change (Some (bs_PercentageChange entry))
          (with_volume (Some vol) (basicPrice coinID currency val "btse" now now))))
    end |}.

(** ** xtcom *)
Record xtcomTickerEntry := mkXtcomTickerEntry { xt_Symbol : string; xt_Time : Z; xt_Price : string }.
Definition xtcomTickerEntry_zero : xtcomTickerEntry := mkXtcomTickerEntry ""%string 0 ""%string.
Definition xtcomTickerEntry_fields : list (field xtcomTickerEntry) := [
  fld "s" dec_string xt_Symbol (fun x t => mkXtcomTickerEntry x (xt_Time t) (xt_Price t));
  fld "t" dec_int64 xt_Time (fun x t => mkXtcomTickerEntry (xt_Symbol t) x (xt_Price t));
  fld "p" dec_string xt_Price (fun x t => mkXtcomTickerEntry (xt_Symbol t) (xt_Time t) x)].
Record xtcomResponse := mkXtcomResponse { xt_RC : Z; xt_MC : string; xt_Result : list xtcomTickerEntry }.
Definition xtcomResponse_zero : xtcomResponse := mkXtcomResponse 0 ""%string [].
Definition xtcomResponse_fields : list (field xtcomResponse) := [
  fld "rc" dec_int64 xt_RC (fun x t => mkXtcomResponse x (xt_MC t) (xt_Result t));
  fld "mc" dec_string xt_MC (fun x t => mkXtcomResponse (xt_RC t) x (xt_Result t));
  fld "result" (dec_slice xtcomTickerEntry_zero (dec_struct xtcomTickerEntry_fields)) xt_Result
    (fun x t => mkXtcomResponse (xt_RC t) (xt_MC t) x)].
Definition xtcom : Exchange := {|
  ex_name := "xtcom"; ex_lookup := by_lower lower_symbols; ex_quote := usdt_lower_quote; ex_stamped := false;
  ex_request cfg sym quote _ :=
    GET (cfg_BaseURL cfg +:+ "/v4/public/ticker/price?symbol=" +:+ sym +:+ "_" +:+ quote)%string;
  ex_zero := xtcomResponse_zero; ex_dec := dec_struct xtcomResponse_fields;
  ex_price _ coinID currency now raw := Some (found (
    entry ← head (xt_Result raw);
    val ← nonzero (xt_Price entry); Some (basicPrice coinID currency val "xtcom" now now))) |}.

(** ** lbank *)
Record lbankTicker := mkLbankTicker { lb_Latest : string; lb_Vol : string; lb_High : string; lb_Low : string;
  lb_Change : string }.
Definition lbankTicker_zero : lbankTicker := mkLbankTicker ""%string ""%string ""%string ""%string ""%string.
Definition lbankTicker_fields : list (field lbankTicker) := [
  fld "latest" dec_string lb_Latest (fun x t => mkLbankTicker x (lb_Vol t) (lb_High t) (lb_Low t) (lb_Change t));
  fld "vol" dec_string lb_Vol (fun x t => mkLbankTicker (lb_Latest t) x (lb_High t) (lb_Low t) (lb_Change t));
  fld "high" dec_string lb_High (fun x t => mkLbankTicker (lb_Latest t) (lb_Vol t) x (lb_Low t) (lb_Change t));
  fld "low" dec_string lb_Low (fun x t => mkLbankTicker (lb_Latest t) (lb_Vol t) (lb_High t) x (lb_Change t));
  fld "change" dec_string lb_Change (fun x t => mkLbankTicker (lb_Latest t) (lb_Vol t) (lb_High t) (lb_Low t) x)].
Record lbankEntry := mkLbankEntry { lb_Symbol : string; lb_Ticker : lbankTicker; lb_Timestamp : Z }.
Definition lbankEntry_zero : lbankEntry := mkLbankEntry ""%string lbankTicker_zero 0.
Definition lbankEntry_fields : list (field lbankEntry) := [
  fld "symbol" dec_string lb_Symbol (fun x t => mkLbankEntry x (lb_Ticker t) (lb_Timestamp t));
  fld "ticker" (dec_struct lbankTicker_fields) lb_Ticker (fun x t => mkLbankEntry (lb_Symbol t) x (lb_Timestamp t));
  fld "timestamp" dec_int64 lb_Timestamp (fun x t => mkLbankEntry (lb_Symbol t) (lb_Ticker t) x)].
Record lbankResponse := mkLbankResponse { lb_Result : string; lb_Data : list lbankEntry }.
Definition lbankResponse_zero : lbankResponse := mkLbankResponse ""%string [].
Definition lbankResponse_fields : list (field lbankResponse) := [
  fld "result" dec_string lb_Result (fun x t => mkLbankResponse x (lb_Data t));
  fld "data" (dec_slice lbankEntry_zero (dec_struct lbankEntry_fields)) lb_Data
    (fun x t => mkLbankResponse (lb_Result t) x)].
Definition lbank : Exchange := {|
  ex_name := "lbank"; ex_lookup := by_lower more_lower_symbols; ex_quote := usdt_lower_quote; ex_stamped := false;
  ex_request cfg sym quote _ := GET (cfg_BaseURL cfg +:+ "/v2/ticker.do?symbol=" +:+ sym +:+ "_" +:+ quote)%string;
  ex_zero := lbankResponse_zero; ex_dec := dec_struct lbankResponse_fields;
  ex_price _ coinID currency now raw := Some (found (
    entry ← head (lb_Data raw);
    val ← nonzero (lb_Latest (lb_Ticker entry));
    Some (with_volume (dec_NewFromString (lb_Vol (lb_Ticker entry))) (basicPrice coinID currency val "lbank" now now)))) |}.

(** ** bingx: the URL carries the time of the request *)
Record bingxTicker := mkBingxTicker { bx_Symbol : string; bx_LastPrice : float64; bx_HighPrice : float64;
  bx_LowPrice : float64; bx_Volume : float64; bx_PriceChangePercent : string }.
Definition bingxTicker_zero : bingxTicker := mkBingxTicker ""%string fzero fzero fzero fzero ""%string.
Definition bingxTicker_fields : list (field bingxTicker) := [
  fld "symbol" dec_string bx_Symbol
    (fun x t => mkBingxTicker x (bx_LastPrice t) (bx_HighPrice t) (bx_LowPrice t) (bx_Volume t) (bx_PriceChangePercent t));
  fld "lastPrice" dec_float bx_LastPrice
    (fun x t => mkBingxTicker (bx_Symbol t) x (bx_HighPrice t) (bx_LowPrice t) (bx_Volume t) (bx_PriceChangePercent t));
  fld "highPrice" dec_float bx_HighPrice
    (fun x t => mkBingxTicker (bx_Symbol t) (bx_LastPrice t) x (bx_LowPrice t) (bx_Volume t) (bx_PriceChangePercent t));
  fld "lowPrice" dec_float bx_LowPrice
    (fun x t => mkBingxTicker (bx_Symbol t) (bx_LastPrice t) (bx_HighPrice t) x (bx_Volume t) (bx_PriceChangePercent t));
  fld "volume" dec_float bx_Volume
    (fun x t => mkBingxTicker (bx_Symbol t) (bx_LastPrice t) (bx_HighPrice t) (bx_LowPrice t) x (bx_PriceChangePercent t));
  fld "priceChangePercent" dec_string bx_PriceChangePercent
    (fun x t => mkBingxTicker (bx_Symbol t) (bx_LastPrice t) (bx_HighPrice t) (bx_LowPrice t) (bx_Volume t) x)].
Record bingxResponse := mkBingxResponse { bx_Code : Z; bx_Data : list bingxTicker }.
Definition bingxResponse_zero : bingxResponse := mkBingxResponse 0 [].
Definition bingxResponse_fields : list (field bingxResponse) := [
  fld "code" dec_int64 bx_Code (fun x t => mkBingxResponse x (bx_Data t));
  fld "data" (dec_slice bingxTicker_zero (dec_struct bingxTicker_fields)) bx_Data
    (fun x t => mkBingxResponse (bx_Code t) x)].
Definition bingx : Exchange := {|
  ex_name := "bingx"; ex_lookup := by_lower more_symbols; ex_quote := usdt_quote; ex_stamped := true;
  ex_request cfg sym quote t := GET (cfg_BaseURL cfg +:+ "/openApi/spot/v1/ticker/24hr?symbol=" +:+
    sym +:+ "-" +:+ quote +:+ "&timestamp=" +:+ fmt_d (time_UnixMilli t))%string;
  ex_zero := bingxResponse_zero; ex_dec := dec_struct bingxResponse_fields;
  ex_price _ coinID currency now raw :=
    match head (bx_Data raw) with
    | None => Some Skip
    | Some ticker =>
        val ← dec_NewFromFloat (bx_LastPrice ticker);
        if dec_IsZero val then Some Skip else
        vol ← dec_NewFromFloat (bx_Volume ticker);
        let pct := dec_NewFromString (TrimSuffix (bx_PriceChangePercent ticker) "%") in
        Some (Priced (with_change (dec_InexactFloat64 <$> pct)
          (with_volume (Some vol) (basicPrice coinID currency val "bingx" now now))))
    end |}.

(** ** woox: the last trade in USDT, whatever the currency *)
Record wooxRow := mkWooxRow { wx_Symbol : string; wx_ExecutedPrice : float64; wx_ExecutedQuantity : float64 }.
Definition wooxRow_zero : wooxRow := mkWooxRow ""%string fzero fzero.
Definition wooxRow_fields : list (field wooxRow) := [
  fld "symbol" dec_string wx_Symbol (fun x t => mkWooxRow x (wx_ExecutedPrice t) (wx_ExecutedQuantity t));
  fld "executed_price" dec_float wx_ExecutedPrice (fun x t => mkWooxRow (wx_Symbol t) x (wx_ExecutedQuantity t));
  fld "executed_quantity" dec_float wx_ExecutedQuantity
    (fun x t => mkWooxRow (wx_Symbol t) (wx_ExecutedPrice t) x)].
Record wooxResponse := mkWooxResponse { wx_Success : bool; wx_Rows : list wooxRow }.
Definition wooxResponse_zero : wooxResponse := mkWooxResponse false [].
Definition wooxResponse_fields : list (field wooxResponse) := [
  fld "success" dec_bool wx_Success (fun x t => mkWooxResponse x (wx_Rows t));
  fld "rows" (dec_slice wooxRow_zero (dec_struct wooxRow_fields)) wx_Rows
    (fun x t => mkWooxResponse (wx_Success t) x)].
Definition woox : Exchange := {|
  ex_name := "woox"; ex_lookup := by_lower major_symbols; ex_quote _ := ""%string; ex_stamped := false;
  ex_request cfg sym _ _ := GET (cfg_BaseURL cfg +:+ "/v1/public/market_trades?symbol=" +:+
    "SPOT_" +:+ sym +:+ "_USDT" +:+ "&limit=1")%string;
  ex_zero := wooxResponse_zero; ex_dec := dec_struct wooxResponse_fields;
  ex_price _ coinID currency now raw :=
    match head (wx_Rows raw) with
    | Some row =>
        if negb (wx_Success raw) then Some Skip else
        val ← dec_NewFromFloat (wx_ExecutedPrice row);
        Some (Priced (basicPrice coinID currency val "woox" now now))
    | None => Some Skip
    end |}.

(** ** phemex: prices scaled to integers, in USDT whatever the currency *)
Record phemexTickerResult := mkPhemexTickerResult { pm_Symbol : string; pm_LastEp : Z; pm_HighEp : Z;
  pm_LowEp : Z }.
Definition phemexTickerResult_zero : phemexTickerResult := mkPhemexTickerResult ""%string 0 0 0.
Definition phemexTickerResult_fields : list (field phemexTickerResult) := [
  fld "symbol" dec_string pm_Symbol (fun x t => mkPhemexTickerResult x (pm_LastEp t) (pm_HighEp t) (pm_LowEp t));
  fld "lastEp" dec_int64 pm_LastEp (fun x t => mkPhemexTickerResult (pm_Symbol t) x (pm_HighEp t) (pm_LowEp t));
  fld "highEp" dec_int64 pm_HighEp (fun x t => mkPhemexTickerResult (pm_Symbol t) (pm_LastEp t) x (pm_LowEp t));
  fld "lowEp" dec_int64 pm_LowEp (fun x t => mkPhemexTickerResult (pm_Symbol t) (pm_LastEp t) (pm_HighEp t) x)].
Record phemexResponse := mkPhemexResponse { pm_Error : jvalue; pm_Result : phemexTickerResult }.
Definition phemexResponse_zero : phemexResponse := mkPhemexResponse VNull phemexTickerResult_zero.
Definition phemexResponse_fields : list (field phemexResponse) := [
  fld "error" dec_interface pm_Error (fun x t => mkPhemexResponse x (pm_Result t));
  fld "result" (dec_struct phemexTickerResult_fields) pm_Result (fun x t => mkPhemexResponse (pm_Error t) x)].
Definition scaleFactor : float64 := f_of_int 100000000.
Definition phemex : Exchange := {|
  ex_name := "phemex"; ex_lookup := by_lower major_symbols; ex_quote _ := ""%string; ex_stamped := false;
  ex_request cfg sym _ _ := GET (cfg_BaseURL cfg +:+ "/md/v1/ticker/24hr?symbol=" +:+ "s" +:+ sym +:+ "USDT")%string;
  ex_zero := phemexResponse_zero; ex_dec := dec_struct phemexResponse_fields;
  ex_price _ coinID currency now raw :=
    if pm_LastEp (pm_Result raw) =? 0 then Some Skip else
    scale ← dec_NewFromFloat scaleFactor;
    val ← dec_Div (dec_NewFromInt (pm_LastEp (pm_Result raw))) scale;
    Some (Priced (basicPrice coinID currency val "phemex" now now)) |}.

(** ** wazirx *)
Record wazirxTicker := mkWazirxTicker { wz_Symbol : string; wz_LastPrice : string; wz_HighPrice : string;
  wz_LowPrice : string; wz_Volume : string; wz_BidPrice : string; wz_AskPrice : string }.
Definition wazirxTicker_zero : wazirxTicker := mkWazirxTicker ""%string ""%string ""%string ""%string ""%string ""%string ""%string.
Definition wazirxTicker_fields : list (field wazirxTicker) := [
  fld "symbol" dec_string wz_Symbol
    (fun x t => mkWazirxTicker x (wz_LastPrice t) (wz_HighPrice t) (wz_LowPrice t) (wz_Volume t) (wz_BidPrice t) (wz_AskPrice t));
  fld "lastPrice" dec_string wz_LastPrice
    (fun x t => mkWazirxTicker (wz_Symbol t) x (wz_HighPrice t) (wz_LowPrice t) (wz_Volume t) (wz_BidPrice t) (wz_AskPrice t));
  fld "highPrice" dec_string wz_HighPrice
    (fun x t => mkWazirxTicker (wz_Symbol t) (wz_LastPrice t) x (wz_LowPrice t) (wz_Volume t) (wz_BidPrice t) (wz_AskPrice t));
  fld "lowPrice" dec_string wz_LowPrice
    (fun x t => mkWazirxTicker (wz_Symbol t) (wz_LastPrice t) (wz_HighPrice t) x (wz_Volume t) (wz_BidPrice t) (wz_AskPrice t));
  fld "volume" dec_string wz_Volume
    (fun x t => mkWazirxTicker (wz_Symbol t) (wz_LastPrice t) (wz_HighPrice t) (wz_LowPrice t) x (wz_BidPrice t) (wz_AskPrice t));
  fld "bidPrice" dec_string wz_BidPrice
    (fun x t => mkWazirxTicker (wz_Symbol t) (wz_LastPrice t) (wz_HighPrice t) (wz_LowPrice t) (wz_Volume t) x (wz_AskPrice t));
  fld "askPrice" dec_string wz_AskPrice
    (fun x t => mkWazirxTicker (wz_Symbol t) (wz_LastPrice t) (wz_HighPrice t) (wz_LowPrice t) (wz_Volume t) (wz_BidPrice t) x)].
Definition wazirx : Exchange := {|
  ex_name := "wazirx"; ex_lookup := by_lower more_lower_symbols; ex_quote := usdt_lower_quote; ex_stamped := false;
  ex_request cfg sym quote _ := GET (cfg_BaseURL cfg +:+ "/sapi/v1/ticker/24hr?symbol=" +:+ sym +:+ quote)%string;
  ex_zero := wazirxTicker_zero; ex_dec := dec_struct wazirxTicker_fields;
  ex_price _ coinID currency now raw := Some (found (
    val ← nonzero (wz_LastPrice raw);
    Some (with_volume (dec_NewFromString (wz_Volume raw)) (basicPrice coinID currency val "wazirx" now now)))) |}.

(** ** bitstamp *)
Record bitstampTicker := mkBitstampTicker { bp_Last : string; bp_High : string; bp_Low : string;
  bp_Volume : string; bp_Vwap : string; bp_Open : string }.
Definition bitstampTicker_zero : bitstampTicker := mkBitstampTicker ""%string ""%string ""%string ""%string ""%string ""%string.
Definition bitstampTicker_fields : list (field bitstampTicker) := [
  fld "last" dec_string bp_Last
    (fun x t => mkBitstampTicker x (bp_High t) (bp_Low t) (bp_Volume t) (bp_Vwap t) (bp_Open t));
  fld "high" dec_string bp_High
    (fun x t => mkBitstampTicker (bp_Last t) x (bp_Low t) (bp_Volume t) (bp_Vwap t) (bp_Open t));
  fld "low" dec_string bp_Low
    (fun x t => mkBitstampTicker (bp_Last t) (bp_High t) x (bp_Volume t) (bp_Vwap t) (bp_Open t));
  fld "volume" dec_string bp_Volume
    (fun x t => mkBitstampTicker (bp_Last t) (bp_High t) (bp_Low t) x (bp_Vwap t) (bp_Open t));
  fld "vwap" dec_string bp_Vwap
    (fun x t => mkBitstampTicker (bp_Last t) (bp_High t) (bp_Low t) (bp_Volume t) x (bp_Open t));
  fld "open" dec_string bp_Open
    (fun x t => mkBitstampTicker (bp_Last t) (bp_High t) (bp_Low t) (bp_Volume t) (bp_Vwap t) x)].
Definition bitstamp : Exchange := {|
  ex_name := "bitstamp"; ex_lookup := by_lower lower_symbols; ex_quote := ToLower; ex_stamped := false;
  ex_request cfg sym quote _ := GET (cfg_BaseURL cfg +:+ "/api/v2/ticker/" +:+ sym +:+ quote +:+ "/")%string;
  ex_zero := bitstampTicker_zero; ex_dec := dec_struct bitstampTicker_fields;
  ex_price _ coinID currency now raw := Some (found (
    if bool_decide (bp_Last raw = ""%string) then None else
    val ← dec_NewFromString (bp_Last raw);
    Some (with_volume (dec_NewFromString (bp_Volume raw)) (basicPrice coinID currency val "bitstamp" now now)))) |}.

(** ** dydx: the oracle price of the dollar market, whatever the currency *)
Record dydxMarket := mkDydxMarket { dy_Ticker : string; dy_OraclePrice : string; dy_PriceChange24H : string;
  dy_Volume24H : string }.
Definition dydxMarket_zero : dydxMarket := mkDydxMarket ""%string ""%string ""%string ""%string.
Definition dydxMarket_fields : list (field dydxMarket) := [
  fld "ticker" dec_string dy_Ticker
    (fun x t => mkDydxMarket x (dy_OraclePrice t) (dy_PriceChange24H t) (dy_Volume24H t));
  fld "oraclePrice" dec_string dy_OraclePrice
    (fun x t => mkDydxMarket (dy_Ticker t) x (dy_PriceChange24H t) (dy_Volume24H t));
  fld "priceChange24H" dec_string dy_PriceChange24H
    (fun x t => mkDydxMarket (dy_Ticker t) (dy_OraclePrice t) x (dy_Volume24H t));
  fld "volume24H" dec_string dy_Volume24H
    (fun x t => mkDydxMarket (dy_Ticker t) (dy_OraclePrice t) (dy_PriceChange24H t) x)].
Record dydxResponse := mkDydxResponse { dy_Markets : gmap string dydxMarket }.
Definition dydxResponse_zero : dydxResponse := mkDydxResponse ∅.
Definition dydxResponse_fields : list (field dydxResponse) := [
  fld "markets" (dec_map dydxMarket_zero (dec_struct dydxMarket_fields)) dy_Markets (fun x t => mkDydxResponse x)].
Definition dydx_ticker (sym : string) : string := (sym +:+ "-USD")%string.
Definition dydx : Exchange := {|
  ex_name := "dydx"; ex_lookup := by_lower major_symbols; ex_quote _ := ""%string; ex_stamped := false;
  ex_request cfg sym _ _ := GET (cfg_BaseURL cfg +:+ "/v4/perpetualMarkets?ticker=" +:+ dydx_ticker sym)%string;
  ex_zero := dydxResponse_zero; ex_dec := dec_struct dydxResponse_fields;
  ex_price sym coinID currency now raw := Some (found (
    market ← dy_Markets raw !! dydx_ticker sym;
    if bool_decide (dy_OraclePrice market = ""%string) then None else
    val ← dec_NewFromString (dy_OraclePrice market);
    Some (with_volume (dec_NewFromString (dy_Volume24H market)) (basicPrice coinID currency val "dydx" now now)))) |}.

End exchanges.

(** ** The loop bodies keep their promise *)
Section laws.
Context {O : DecimalOps} {L : DecimalLaws O} `{!GoJSON} `{!Unicode} `{!GoParse} `{!GoFmt}.

(** The tickers whose numbers are strings. *)
Ltac string_laws := split; intros j raw sym coin cur now _;
  cbn [ex_name ex_price bybit okx mexc gateio gemini coinbase poloniex cryptodotcom xtcom lbank wazirx bitstamp dydx];
  chain_sound.
#[export] Instance bybit_laws : ExchangeLaws bybit. Proof. string_laws. Qed.
#[export] Instance okx_laws : ExchangeLaws okx. Proof. string_laws. Qed.
#[export] Instance mexc_laws : ExchangeLaws mexc. Proof. string_laws. Qed.
#[export] Instance gateio_laws : ExchangeLaws gateio. Proof. string_laws. Qed.
#[export] Instance gemini_laws : ExchangeLaws gemini. Proof. string_laws. Qed.
#[export] Instance coinbase_laws : ExchangeLaws coinbase. Proof. string_laws. Qed.
#[export] Instance poloniex_laws : ExchangeLaws poloniex. Proof. string_laws. Qed.
#[export] Instance cryptodotcom_laws : ExchangeLaws cryptodotcom. Proof. string_laws. Qed.
#[export] Instance xtcom_laws : ExchangeLaws xtcom. Proof. string_laws. Qed.
#[export] Instance lbank_laws : ExchangeLaws lbank. Proof. string_laws. Qed.
#[export] Instance wazirx_laws : ExchangeLaws wazirx. Proof. string_laws. Qed.
#[export] Instance bitstamp_laws : ExchangeLaws bitstamp. Proof. string_laws. Qed.
#[export] Instance dydx_laws : ExchangeLaws dydx. Proof. string_laws. Qed.

(** The tickers whose numbers are floats: what is decoded is finite. *)
Definition htx_finite (t : htxTick) : Prop := finite (hx_Close t) /\ finite (hx_Vol t).
Lemma htxTick_finite : dec_keeps htx_finite (dec_struct htxTick_fields).
Proof. unfold htx_finite. finite_fields. Qed.
#[local] Hint Resolve htxTick_finite : finite.
#[export] Instance htx_laws : ExchangeLaws htx.
Proof.
  apply (exchange_laws htx (fun r => htx_finite (hx_Tick r))); [by split|finite_fields|].
  unfold htx_finite. intros raw sym coin cur now Hp. cbn [ex_name ex_price htx]. float_sound.
Qed.

Definition upbit_finite (t : upbitTicker) : Prop := finite (ub_TradePrice t) /\ finite (ub_AccTradeVolume24h t).
Lemma upbitTicker_finite : dec_keeps upbit_finite (dec_struct upbitTicker_fields).
Proof. unfold upbit_finite. finite_fields. Qed.
#[local] Hint Resolve upbitTicker_finite : finite.
#[export] Instance upbit_laws : ExchangeLaws upbit.
Proof.
  apply (exchange_laws upbit (Forall upbit_finite)); [constructor|by apply dec_slice_keeps; auto with finite|].
  unfold upbit_finite. intros raw sym coin cur now Hp. cbn [ex_name ex_price upbit]. float_sound.
Qed.

Definition bithumb_finite (t : bithumbTicker) : Prop := finite (bt_TradePrice t) /\ finite (bt_AccTradeVolume t).
Lemma bithumbTicker_finite : dec_keeps bithumb_finite (dec_struct bithumbTicker_fields).
Proof. unfold bithumb_finite. finite_fields. Qed.
#[local] Hint Resolve bithumbTicker_finite : finite.
#[export] Instance bithumb_laws : ExchangeLaws bithumb.
Proof.
  apply (exchange_laws bithumb (Forall bithumb_finite)); [constructor|by apply dec_slice_keeps; auto with finite|].
  unfold bithumb_finite. intros raw sym coin cur now Hp. cbn [ex_name ex_price bithumb]. float_sound.
Qed.

Definition btse_finite (t : btseTicker) : Prop := finite (bs_Last t) /\ finite (bs_Volume t).
Lemma btseTicker_finite : dec_keeps btse_finite (dec_struct btseTicker_fields).
Proof. unfold btse_finite. finite_fields. Qed.
#[local] Hint Resolve btseTicker_finite : finite.
#[export] Instance btse_laws : ExchangeLaws btse.
Proof.
  apply (exchange_laws btse (Forall btse_finite)); [constructor|by apply dec_slice_keeps; auto with finite|].
  unfold btse_finite. intros raw sym coin cur now Hp. cbn [ex_name ex_price btse]. float_sound.
Qed.

Definition bingx_finite (t : bingxTicker) : Prop := finite (bx_LastPrice t) /\ finite (bx_Volume t).
Lemma bingxTicker_finite : dec_keeps bingx_finite (dec_struct bingxTicker_fields).
Proof. unfold bingx_finite. finite_fields. Qed.
#[local] Hint Resolve bingxTicker_finite : finite.
#[export] Instance bingx_laws : ExchangeLaws bingx.
Proof.
  apply (exchange_laws bingx (fun r => Forall bingx_finite (bx_Data r))); [apply Forall_nil_2|finite_fields|].
  unfold bingx_finite. intros raw sym coin cur now Hp. cbn [ex_name ex_price bingx]. float_sound.
Qed.

Definition woox_finite (t : wooxRow) : Prop := finite (wx_ExecutedPrice t).
Lemma wooxRow_finite : dec_keeps woox_finite (dec_struct wooxRow_fields).
Proof. unfold woox_finite. finite_fields. Qed.
#[local] Hint Resolve wooxRow_finite : finite.
#[export] Instance woox_laws : ExchangeLaws woox.
Proof.
  apply (exchange_laws woox (fun r => Forall woox_finite (wx_Rows r))); [apply Forall_nil_2|finite_fields|].
  unfold woox_finite. intros raw sym coin cur now Hp. cbn [ex_name ex_price woox]. float_sound.
Qed.

(** phemex divides by a constant that is not zero. *)
#[export] Instance phemex_laws : ExchangeLaws phemex.
Proof.
  apply (exchange_laws phemex (fun _ => True)); [done|done|]. intros raw sym coin cur now _.
  cbn [ex_name ex_price phemex]. destruct (_ =? 0); [auto with sound|].
  destruct (NewFromFloat_some scaleFactor) as [d Hd]; [done|]. rewrite Hd. cbn [mbind option_bind].
  destruct (dec_Div _ d) as [v|] eqn:Ev; [simpl; auto with sound|].
  apply dec_Div_panics in Ev. by apply (dec_NewFromFloat_zero _ _ Hd) in Ev.
Qed.
End laws.

(** ** upbit and the won *)
Section won.
Context {O : DecimalOps} `{!GoJSON} `{!Unicode} `{!GoFmt} {W : Type} `{!ClockOps W} `{!HTTPClient W}.
Lemma ToUpper_krw : ToUpper "krw" = "KRW"%string.
Proof.
  unfold ToUpper. change (runes "krw") with [107; 114; 119]. cbn [fmap list_fmap].
  by rewrite !u_ToUpper_ascii.
Qed.

(** upbit answers every currency but dollars from its Korean won markets:
    a call in euros is the call in won with the currency's label changed, so
    the price in won is served as one in euros. *)
Theorem upbit_serves_won cfg coin cur (s : prov W) : ToUpper cur <> "USD"%string ->
  GetPrice upbit cfg coin cur s =
    let '(r, s') := GetPrice upbit cfg coin "krw" s in (relabel_answer cur <$> r, s').
Proof.
  intros Hcur. apply GetPrice_relabel.
  - cbn [ex_quote upbit]. unfold upbit_quote. by rewrite ToUpper_krw, (bool_decide_eq_false_2 _ Hcur).
  - intros sym now raw. cbn [ex_price upbit]. destruct (head raw) as [x|]; [|done].
    destruct (dec_NewFromFloat (ub_TradePrice x)) as [v|]; [|done]. cbn [mbind option_bind].
    destruct (dec_IsZero v); [done|]. by destruct (dec_NewFromFloat (ub_AccTradeVolume24h x)).
Qed.
End won.
