(* ===== verification/Aggregators.v ===== *)
(** * The data aggregators that are asked coin by coin

    coincodex, messari, livecoinwatch, twelvedata, freecryptoapi, cryptorank,
    dia, alternativeme and dexscreener follow the loop of [Exchange].  All but
    twelvedata answer in dollars whatever the currency. *)
From S2P Require Import Prelude GoLib GoStrings Decimal Model GoJSON Ports Exchange Demo.
Open Scope Z_scope.

Section aggregators.
Context {O : DecimalOps} `{!GoJSON} `{!Unicode} `{!GoParse}.

(** A key sent as a header when there is one. *)
Definition key_header (header : string) (cfg : Config) : list (string * string) :=
  if bool_decide (cfg_APIKey cfg = ""%string) then [] else [(header, cfg_APIKey cfg)].

(** ** coincodex: a capitalisation that parses as NaN or an infinity panics *)
Record coincodexResponse := mkCoincodexResponse { cx_Symbol : string; cx_CoinName : string; cx_End : float64;
  cx_Volume : string; cx_Cap : string; cx_Change : string }.
Definition coincodexResponse_zero : coincodexResponse := mkCoincodexResponse ""%string ""%string fzero ""%string ""%string ""%string.
Definition coincodexResponse_fields : list (field coincodexResponse) := [
  fld "symbol" dec_string cx_Symbol
    (fun x t => mkCoincodexResponse x (cx_CoinName t) (cx_End t) (cx_Volume t) (cx_Cap t) (cx_Change t));
  fld "coin_name" dec_string cx_CoinName
    (fun x t => mkCoincodexResponse (cx_Symbol t) x (cx_End t) (cx_Volume t) (cx_Cap t) (cx_Change t));
  fld "end" dec_float cx_End
    (fun x t => mkCoincodexResponse (cx_Symbol t) (cx_CoinName t) x (cx_Volume t) (cx_Cap t) (cx_Change t));
  fld "volume" dec_string cx_Volume
    (fun x t => mkCoincodexResponse (cx_Symbol t) (cx_CoinName t) (cx_End t) x (cx_Cap t) (cx_Change t));
  fld "cap" dec_string cx_Cap
    (fun x t => mkCoincodexResponse (cx_Symbol t) (cx_CoinName t) (cx_End t) (cx_Volume t) x (cx_Change t));
  fld "change" dec_string cx_Change
    (fun x t => mkCoincodexResponse (cx_Symbol t) (cx_CoinName t) (cx_End t) (cx_Volume t) (cx_Cap t) x)].
Definition float_string (s : string) : option decimal :=
  if bool_decide (s = ""%string) then Some dec_Zero else
  match strconv_ParseFloat s with Some f => dec_NewFromFloat f | None => Some dec_Zero end.
Definition coincodex : Exchange := {|
  ex_name := "coincodex"; ex_lookup := by_id lower_symbols; ex_quote _ := ""%string; ex_stamped := false;
  ex_request cfg sym _ _ := GET (cfg_BaseURL cfg +:+ "/api/coincodex/get_coin/" +:+ sym)%string;
  ex_zero := coincodexResponse_zero; ex_dec := dec_struct coincodexResponse_fields;
  ex_price _ coinID currency now raw :=
    marketCap ← float_string (cx_Cap raw);
    volume ← float_string (cx_Volume raw);
    let change24h := if bool_decide (cx_Change raw = ""%string) then fzero
                     else default fzero (strconv_ParseFloat (cx_Change raw)) in
    val ← dec_NewFromFloat (cx_End raw);
    Some (Priced (mkPrice coinID currency val "coincodex" now now marketCap volume change24h)) |}.

(** ** messari: every coin is asked for by its own ID *)
Record messariMarketCap := mkMessariMarketCap { ms_CurrentMarketCapUSD : float64 }.
Definition messariMarketCap_zero : messariMarketCap := mkMessariMarketCap fzero.
Definition messariMarketCap_fields : list (field messariMarketCap) := [
  fld "current_marketcap_usd" dec_float ms_CurrentMarketCapUSD (fun x t => mkMessariMarketCap x)].
Record messariMarketData := mkMessariMarketData { ms_PriceUSD : float64; ms_VolumeLastDay : float64;
  ms_MarketCap : messariMarketCap; ms_PercentChangeUSDLast24Hours : float64 }.
Definition messariMarketData_zero : messariMarketData := mkMessariMarketData fzero fzero messariMarketCap_zero fzero.
Definition messariMarketData_fields : list (field messariMarketData) := [
  fld "price_usd" dec_float ms_PriceUSD
    (fun x t => mkMessariMarketData x (ms_VolumeLastDay t) (ms_MarketCap t) (ms_PercentChangeUSDLast24Hours t));
  fld "volume_last_24_hours" dec_float ms_VolumeLastDay
    (fun x t => mkMessariMarketData (ms_PriceUSD t) x (ms_MarketCap t) (ms_PercentChangeUSDLast24Hours t));
  fld "market_cap" (dec_struct messariMarketCap_fields) ms_MarketCap
    (fun x t => mkMessariMarketData (ms_PriceUSD t) (ms_VolumeLastDay t) x (ms_PercentChangeUSDLast24Hours t));
  fld "percent_change_usd_last_24_hours" dec_float ms_PercentChangeUSDLast24Hours
    (fun x t => mkMessariMarketData (ms_PriceUSD t) (ms_VolumeLastDay t) (ms_MarketCap t) x)].
Record messariData := mkMessariData { ms_MarketData : messariMarketData }.
Definition messariData_zero : messariData := mkMessariData messariMarketData_zero.
Definition messariData_fields : list (field messariData) := [
  fld "market_data" (dec_struct messariMarketData_fields) ms_MarketData (fun x t => mkMessariData x)].
Record messariResponse := mkMessariResponse { ms_Data : messariData }.
Definition messariResponse_zero : messariResponse := mkMessariResponse messariData_zero.
Definition messariResponse_fields : list (field messariResponse) := [
  fld "data" (dec_struct messariData_fields) ms_Data (fun x t => mkMessariResponse x)].
Definition messari : Exchange := {|
  ex_name := "messari"; ex_lookup := Some; ex_quote _ := ""%string; ex_stamped := false;
  ex_request cfg coinID _ _ := mkRequest "GET"
    (cfg_BaseURL cfg +:+ "/v1/assets/" +:+ coinID +:+ "/metrics/market-data")
    (key_header "x-messari-api-key" cfg) None;
  ex_zero := messariResponse_zero; ex_dec := dec_struct messariResponse_fields;
  ex_price _ coinID currency now raw :=
    let md := ms_MarketData (ms_Data raw) in
    val ← dec_NewFromFloat (ms_PriceUSD md);
    marketCap ← dec_NewFromFloat (ms_CurrentMarketCapUSD (ms_MarketCap md));
    volume ← dec_NewFromFloat (ms_VolumeLastDay md);
    Some (Priced (mkPrice coinID currency val "messari" now now marketCap volume
      (ms_PercentChangeUSDLast24Hours md))) |}.

(** ** livecoinwatch: a POST, in dollars *)
Record lcwDelta := mkLcwDelta { lc_Day : float64 }.
Definition lcwDelta_zero : lcwDelta := mkLcwDelta fzero.
Definition lcwDelta_fields : list (field lcwDelta) := [
  fld "day" dec_float lc_Day (fun x t => mkLcwDelta x)].
Record lcwResponse := mkLcwResponse { lc_Rate : float64; lc_Volume : float64; lc_Cap : float64;
  lc_Delta : lcwDelta }.
Definition lcwResponse_zero : lcwResponse := mkLcwResponse fzero fzero fzero lcwDelta_zero.
Definition lcwResponse_fields : list (field lcwResponse) := [
  fld "rate" dec_float lc_Rate (fun x t => mkLcwResponse x (lc_Volume t) (lc_Cap t) (lc_Delta t));
  fld "volume" dec_float lc_Volume (fun x t => mkLcwResponse (lc_Rate t) x (lc_Cap t) (lc_Delta t));
  fld "cap" dec_float lc_Cap (fun x t => mkLcwResponse (lc_Rate t) (lc_Volume t) x (lc_Delta t));
  fld "delta" (dec_struct lcwDelta_fields) lc_Delta
    (fun x t => mkLcwResponse (lc_Rate t) (lc_Volume t) (lc_Cap t) x)].
Definition lcwRequest (code : string) : jvalue :=
  VObj [("currency", VStr "USD"); ("code", VStr code); ("meta", VBool false)]%string.
Definition livecoinwatch : Exchange := {|
  ex_name := "livecoinwatch"; ex_lookup := by_id major_symbols; ex_quote _ := ""%string; ex_stamped := false;
  ex_request cfg code _ _ := mkRequest "POST" (cfg_BaseURL cfg +:+ "/coins/single")
    (("Content-Type", "application/json")%string :: key_header "x-api-key" cfg) (Some (lcwRequest code));
  ex_zero := lcwResponse_zero; ex_dec := dec_struct lcwResponse_fields;
  ex_price _ coinID currency now raw :=
    let change24h := fmul (fsub (lc_Day (lc_Delta raw)) fone) (f_of_int 100) in
    val ← dec_NewFromFloat (lc_Rate raw);
    marketCap ← dec_NewFromFloat (lc_Cap raw);
    volume ← dec_NewFromFloat (lc_Volume raw);
    Some (Priced (mkPrice coinID currency val "livecoinwatch" now now marketCap volume change24h)) |}.

(** ** twelvedata: a price that does not parse fails the call *)
Record twelveDataResponse := mkTwelveDataResponse { td_Price : string }.
Definition twelveDataResponse_zero : twelveDataResponse := mkTwelveDataResponse ""%string.
Definition twelveDataResponse_fields : list (field twelveDataResponse) := [
  fld "price" dec_string td_Price (fun x t => mkTwelveDataResponse x)].
Definition twelvedata : Exchange := {|
  ex_name := "twelvedata"; ex_lookup := by_id major_symbols; ex_quote := ToUpper; ex_stamped := false;
  ex_request cfg sym quote _ := GET (cfg_BaseURL cfg +:+ "/price?symbol=" +:+ sym +:+ "/" +:+ quote +:+
    "&apikey=" +:+ cfg_APIKey cfg)%string;
  ex_zero := twelveDataResponse_zero; ex_dec := dec_struct twelveDataResponse_fields;
  ex_price _ coinID currency now raw := Some (
    match dec_NewFromString (td_Price raw) with
    | None => Failing (decimal_error (td_Price raw)) (Wrapf "parsing price: " (decimal_error (td_Price raw)) "")
    | Some val => Priced (basicPrice coinID currency val "twelvedata" now now)
    end) |}.

(** ** freecryptoapi *)
Record fcaSymbolData := mkFcaSymbolData { fc_Price : float64; fc_Volume : float64; fc_MarketCap : float64;
  fc_PercentChange24h : float64 }.
Definition fcaSymbolData_zero : fcaSymbolData := mkFcaSymbolData fzero fzero fzero fzero.
Definition fcaSymbolData_fields : list (field fcaSymbolData) := [
  fld "price" dec_float fc_Price
    (fun x t => mkFcaSymbolData x (fc_Volume t) (fc_MarketCap t) (fc_PercentChange24h t));
  fld "volume" dec_float fc_Volume
    (fun x t => mkFcaSymbolData (fc_Price t) x (fc_MarketCap t) (fc_PercentChange24h t));
  fld "marketCap" dec_float fc_MarketCap
    (fun x t => mkFcaSymbolData (fc_Price t) (fc_Volume t) x (fc_PercentChange24h t));
  fld "percentChange24h" dec_float fc_PercentChange24h
    (fun x t => mkFcaSymbolData (fc_Price t) (fc_Volume t) (fc_MarketCap t) x)].
Record fcaResponse := mkFcaResponse { fc_Status : Z; fc_Data : gmap string fcaSymbolData }.
Definition fcaResponse_zero : fcaResponse := mkFcaResponse 0 ∅.
Definition fcaResponse_fields : list (field fcaResponse) := [
  fld "status" dec_int64 fc_Status (fun x t => mkFcaResponse x (fc_Data t));
  fld "data" (dec_map fcaSymbolData_zero (dec_struct fcaSymbolData_fields)) fc_Data
    (fun x t => mkFcaResponse (fc_Status t) x)].
Definition freecryptoapi : Exchange := {|
  ex_name := "freecryptoapi"; ex_lookup := by_id major_symbols; ex_quote _ := ""%string; ex_stamped := false;
  ex_request cfg sym _ _ := mkRequest "GET" (cfg_BaseURL cfg +:+ "/v1/getData?symbol=" +:+ ToUpper sym)
    (key_header "x-api-key" cfg) None;
  ex_zero := fcaResponse_zero; ex_dec := dec_struct fcaResponse_fields;
  ex_price sym coinID currency now raw :=
    match fc_Data raw !! sym with
    | None => Some Skip
    | Some symData =>
        val ← dec_NewFromFloat (fc_Price symData);
        marketCap ← dec_NewFromFloat (fc_MarketCap symData);
        volume ← dec_NewFromFloat (fc_Volume symData);
        Some (Priced (mkPrice coinID currency val "freecryptoapi" now now marketCap volume
          (fc_PercentChange24h symData)))
    end |}.

(** ** cryptorank *)
Record cryptorankPriceUSD := mkCryptorankPriceUSD { cr_USD : float64 }.
Definition cryptorankPriceUSD_zero : cryptorankPriceUSD := mkCryptorankPriceUSD fzero.
Definition cryptorankPriceUSD_fields : list (field cryptorankPriceUSD) := [
  fld "USD" dec_float cr_USD (fun x t => mkCryptorankPriceUSD x)].
Record cryptorankCoin := mkCryptorankCoin { cr_Slug : string; cr_Symbol : string; cr_Price : cryptorankPriceUSD;
  cr_MarketCap : float64; cr_Volume24h : float64; cr_PercentChange24h : float64 }.
Definition cryptorankCoin_zero : cryptorankCoin := mkCryptorankCoin ""%string ""%string cryptorankPriceUSD_zero fzero fzero fzero.
Definition cryptorankCoin_fields : list (field cryptorankCoin) := [
  fld "slug" dec_string cr_Slug
    (fun x t => mkCryptorankCoin x (cr_Symbol t) (cr_Price t) (cr_MarketCap t) (cr_Volume24h t) (cr_PercentChange24h t));
  fld "symbol" dec_string cr_Symbol
    (fun x t => mkCryptorankCoin (cr_Slug t) x (cr_Price t) (cr_MarketCap t) (cr_Volume24h t) (cr_PercentChange24h t));
  fld "price" (dec_struct cryptorankPriceUSD_fields) cr_Price
    (fun x t => mkCryptorankCoin (cr_Slug t) (cr_Symbol t) x (cr_MarketCap t) (cr_Volume24h t) (cr_PercentChange24h t));
  fld "marketCap" dec_float cr_MarketCap
    (fun x t => mkCryptorankCoin (cr_Slug t) (cr_Symbol t) (cr_Price t) x (cr_Volume24h t) (cr_PercentChange24h t));
  fld "volume24h" dec_float cr_Volume24h
    (fun x t => mkCryptorankCoin (cr_Slug t) (cr_Symbol t) (cr_Price t) (cr_MarketCap t) x (cr_PercentChange24h t));
  fld "percentChange24h" dec_float cr_PercentChange24h
    (fun x t => mkCryptorankCoin (cr_Slug t) (cr_Symbol t) (cr_Price t) (cr_MarketCap t) (cr_Volume24h t) x)].
Record cryptorankResponse := mkCryptorankResponse { cr_Data : cryptorankCoin }.
Definition cryptorankResponse_zero : cryptorankResponse := mkCryptorankResponse cryptorankCoin_zero.
Definition cryptorankResponse_fields : list (field cryptorankResponse) := [
  fld "data" (dec_struct cryptorankCoin_fields) cr_Data (fun x t => mkCryptorankResponse x)].
Definition coinSlugs : list (string * string) :=
  [("bitcoin", "bitcoin"); ("ethereum", "ethereum"); ("solana", "solana"); ("cardano", "cardano");
   ("ripple", "ripple")]%string.
Definition cryptorank : Exchange := {|
  ex_name := "cryptorank"; ex_lookup := by_lower coinSlugs; ex_quote _ := ""%string; ex_stamped := false;
  ex_request cfg slug _ _ := GET (cfg_BaseURL cfg +:+ "/v0/coins/" +:+ slug +:+
    if bool_decide (cfg_APIKey cfg = "") then "" else "?api-key=" +:+ cfg_APIKey cfg)%string;
  ex_zero := cryptorankResponse_zero; ex_dec := dec_struct cryptorankResponse_fields;
  ex_price _ coinID currency now raw :=
    let data := cr_Data raw in
    val ← dec_NewFromFloat (cr_USD (cr_Price data));
    if dec_IsZero val then Some Skip else
    marketCap ← dec_NewFromFloat (cr_MarketCap data);
    volume ← dec_NewFromFloat (cr_Volume24h data);
    Some (Priced (mkPrice coinID currency val "cryptorank" now now marketCap volume (cr_PercentChange24h data))) |}.

(** ** dia *)
Record diaResponse := mkDiaResponse { di_Symbol : string; di_Price : float64; di_Time : string;
  di_Source : string }.
Definition diaResponse_zero : diaResponse := mkDiaResponse ""%string fzero ""%string ""%string.
Definition diaResponse_fields : list (field diaResponse) := [
  fld "Symbol" dec_string di_Symbol (fun x t => mkDiaResponse x (di_Price t) (di_Time t) (di_Source t));
  fld "Price" dec_float di_Price (fun x t => mkDiaResponse (di_Symbol t) x (di_Time t) (di_Source t));
  fld "Time" dec_string di_Time (fun x t => mkDiaResponse (di_Symbol t) (di_Price t) x (di_Source t));
  fld "Source" dec_string di_Source (fun x t => mkDiaResponse (di_Symbol t) (di_Price t) (di_Time t) x)].
Definition dia : Exchange := {|
  ex_name := "dia"; ex_lookup := by_id major_symbols; ex_quote _ := ""%string; ex_stamped := false;
  ex_request cfg symbol _ _ := GET (cfg_BaseURL cfg +:+ "/v1/quotation/" +:+ symbol)%string;
  ex_zero := diaResponse_zero; ex_dec := dec_struct diaResponse_fields;
  ex_price _ coinID currency now raw :=
    val ← dec_NewFromFloat (di_Price raw);
    Some (Priced (basicPrice coinID currency val "dia" now now)) |}.

(** ** alternativeme *)
Record altmeQuoteUSD := mkAltmeQuoteUSD { am_Price : float64; am_Volume24h : float64; am_MarketCap : float64;
  am_PercentChange24h : float64 }.
Definition altmeQuoteUSD_zero : altmeQuoteUSD := mkAltmeQuoteUSD fzero fzero fzero fzero.
Definition altmeQuoteUSD_fields : list (field altmeQuoteUSD) := [
  fld "price" dec_float am_Price
    (fun x t => mkAltmeQuoteUSD x (am_Volume24h t) (am_MarketCap t) (am_PercentChange24h t));
  fld "volume_24h" dec_float am_Volume24h
    (fun x t => mkAltmeQuoteUSD (am_Price t) x (am_MarketCap t) (am_PercentChange24h t));
  fld "market_cap" dec_float am_MarketCap
    (fun x t => mkAltmeQuoteUSD (am_Price t) (am_Volume24h t) x (am_PercentChange24h t));
  fld "percentage_change_24h" dec_float am_PercentChange24h
    (fun x t => mkAltmeQuoteUSD (am_Price t) (am_Volume24h t) (am_MarketCap t) x)].
Record altmeQuotes := mkAltmeQuotes { am_USD : altmeQuoteUSD }.
Definition altmeQuotes_zero : altmeQuotes := mkAltmeQuotes altmeQuoteUSD_zero.
Definition altmeQuotes_fields : list (field altmeQuotes) := [
  fld "USD" (dec_struct altmeQuoteUSD_fields) am_USD (fun x t => mkAltmeQuotes x)].
Record altmeCoin := mkAltmeCoin { am_ID : Z; am_Name : string; am_Symbol : string; am_Quotes : altmeQuotes }.
Definition altmeCoin_zero : altmeCoin := mkAltmeCoin 0 ""%string ""%string altmeQuotes_zero.
Definition altmeCoin_fields : list (field altmeCoin) := [
  fld "id" dec_int64 am_ID (fun x t => mkAltmeCoin x (am_Name t) (am_Symbol t) (am_Quotes t));
  fld "name" dec_string am_Name (fun x t => mkAltmeCoin (am_ID t) x (am_Symbol t) (am_Quotes t));
  fld "symbol" dec_string am_Symbol (fun x t => mkAltmeCoin (am_ID t) (am_Name t) x (am_Quotes t));
  fld "quotes" (dec_struct altmeQuotes_fields) am_Quotes
    (fun x t => mkAltmeCoin (am_ID t) (am_Name t) (am_Symbol t) x)].
Record altmeResponse := mkAltmeResponse { am_Data : list altmeCoin }.
Definition altmeResponse_zero : altmeResponse := mkAltmeResponse [].
Definition altmeResponse_fields : list (field altmeResponse) := [
  fld "data" (dec_slice altmeCoin_zero (dec_struct altmeCoin_fields)) am_Data (fun x t => mkAltmeResponse x)].
Definition altmeCoinIDs : list (string * string) :=
  [("bitcoin", "1"); ("ethereum", "1027"); ("solana", "5426"); ("cardano", "2010"); ("ripple", "52")]%string.
Definition alternativeme : Exchange := {|
  ex_name := "alternativeme"; ex_lookup := by_lower altmeCoinIDs; ex_quote _ := ""%string; ex_stamped := false;
  ex_request cfg numID _ _ := GET (cfg_BaseURL cfg +:+ "/v2/ticker/" +:+ numID +:+ "/")%string;
  ex_zero := altmeResponse_zero; ex_dec := dec_struct altmeResponse_fields;
  ex_price _ coinID currency now raw :=
    match head (am_Data raw) with
    | None => Some Skip
    | Some coin =>
        let quote := am_USD (am_Quotes coin) in
        val ← dec_NewFromFloat (am_Price quote);
        if dec_IsZero val then Some Skip else
        volume ← dec_NewFromFloat (am_Volume24h quote);
        marketCap ← dec_NewFromFloat (am_MarketCap quote);
        Some (Priced (mkPrice coinID currency val "alternativeme" now now marketCap volume
          (am_PercentChange24h quote)))
    end |}.

(** ** dexscreener: a search by name, the first pair in dollars *)
Record dexscreenerBaseToken := mkDexscreenerBaseToken { ds_Symbol : string; ds_Name : string }.
Definition dexscreenerBaseToken_zero : dexscreenerBaseToken := mkDexscreenerBaseToken ""%string ""%string.
Definition dexscreenerBaseToken_fields : list (field dexscreenerBaseToken) := [
  fld "symbol" dec_string ds_Symbol (fun x t => mkDexscreenerBaseToken x (ds_Name t));
  fld "name" dec_string ds_Name (fun x t => mkDexscreenerBaseToken (ds_Symbol t) x)].
Record dexscreenerVolume := mkDexscreenerVolume { dv_H24 : float64 }.
Definition dexscreenerVolume_zero : dexscreenerVolume := mkDexscreenerVolume fzero.
Definition dexscreenerVolume_fields : list (field dexscreenerVolume) := [
  fld "h24" dec_float dv_H24 (fun x t => mkDexscreenerVolume x)].
Record dexscreenerPriceChange := mkDexscreenerPriceChange { dc_H24 : float64 }.
Definition dexscreenerPriceChange_zero : dexscreenerPriceChange := mkDexscreenerPriceChange fzero.
Definition dexscreenerPriceChange_fields : list (field dexscreenerPriceChange) := [
  fld "h24" dec_float dc_H24 (fun x t => mkDexscreenerPriceChange x)].
Record dexscreenerPair := mkDexscreenerPair { ds_BaseToken : dexscreenerBaseToken; ds_PriceUsd : string;
  ds_Volume : dexscreenerVolume; ds_PriceChange : dexscreenerPriceChange }.
Definition dexscreenerPair_zero : dexscreenerPair := mkDexscreenerPair dexscreenerBaseToken_zero ""%string dexscreenerVolume_zero dexscreenerPriceChange_zero.
Definition dexscreenerPair_fields : list (field dexscreenerPair) := [
  fld "baseToken" (dec_struct dexscreenerBaseToken_fields) ds_BaseToken
    (fun x t => mkDexscreenerPair x (ds_PriceUsd t) (ds_Volume t) (ds_PriceChange t));
  fld "priceUsd" dec_string ds_PriceUsd
    (fun x t => mkDexscreenerPair (ds_BaseToken t) x (ds_Volume t) (ds_PriceChange t));
  fld "volume" (dec_struct dexscreenerVolume_fields) ds_Volume
    (fun x t => mkDexscreenerPair (ds_BaseToken t) (ds_PriceUsd t) x (ds_PriceChange t));
  fld "priceChange" (dec_struct dexscreenerPriceChange_fields) ds_PriceChange
    (fun x t => mkDexscreenerPair (ds_BaseToken t) (ds_PriceUsd t) (ds_Volume t) x)].
Record dexscreenerResponse := mkDexscreenerResponse { ds_Pairs : list dexscreenerPair }.
Definition dexscreenerResponse_zero : dexscreenerResponse := mkDexscreenerResponse [].
Definition dexscreenerResponse_fields : list (field dexscreenerResponse) := [
  fld "pairs" (dec_slice dexscreenerPair_zero (dec_struct dexscreenerPair_fields)) ds_Pairs
    (fun x t => mkDexscreenerResponse x)].
Definition coinNames : list (string * string) :=
  [("bitcoin", "Bitcoin"); ("ethereum", "Ethereum"); ("solana", "Solana")]%string.
Definition dexscreener : Exchange := {|
  ex_name := "dexscreener"; ex_lookup := by_lower coinNames; ex_quote _ := ""%string; ex_stamped := false;
  ex_request cfg name _ _ := GET (cfg_BaseURL cfg +:+ "/latest/dex/search?q=" +:+ name)%string;
  ex_zero := dexscreenerResponse_zero; ex_dec := dec_struct dexscreenerResponse_fields;
  ex_price _ coinID currency now raw :=
    match head (ds_Pairs raw) with
    | None => Some Skip
    | Some first =>
        match dec_NewFromString (ds_PriceUsd first) with
        | None => Some Skip
        | Some val =>
            volume ← dec_NewFromFloat (dv_H24 (ds_Volume first));
            Some (Priced (with_change (Some (dc_H24 (ds_PriceChange first)))
              (with_volume (Some volume) (basicPrice coinID currency val "dexscreener" now now))))
        end
    end |}.

End aggregators.

(** ** The loop bodies keep their promise *)
Section laws.
Context {O : DecimalOps} {L : DecimalLaws O} `{!GoJSON} `{!Unicode} `{!GoParse}.

(** What [strconv.ParseFloat] accepts is finite: it is not for the texts NaN
    and Inf, on which coincodex panics. *)
Definition parse_finite : Prop := forall s f, strconv_ParseFloat s = Some f -> finite f.
Lemma sound_float_string name coin cur now s k : parse_finite ->
  (forall v, sound name coin cur now (k v)) -> sound name coin cur now (float_string s ≫= k).
Proof.
  intros Hparse Hk. unfold float_string. case_bool_decide; [apply Hk|].
  destruct (strconv_ParseFloat s) as [f|] eqn:Ef; [|apply Hk]. apply sound_float; [by eapply Hparse|done].
Qed.
Definition coincodex_finite (r : coincodexResponse) : Prop := finite (cx_End r).
Lemma coincodex_laws : parse_finite -> ExchangeLaws coincodex.
Proof.
  intros Hparse. apply (exchange_laws coincodex coincodex_finite); [done|unfold coincodex_finite; finite_fields|].
  unfold coincodex_finite. intros raw sym coin cur now Hp. cbn [ex_name ex_price coincodex].
  do 2 (apply sound_float_string; [done|intros ?]). float_sound.
Qed.

Definition messari_finite (t : messariMarketData) : Prop :=
  finite (ms_PriceUSD t) /\ finite (ms_VolumeLastDay t) /\ finite (ms_CurrentMarketCapUSD (ms_MarketCap t)).
Lemma messariMarketCap_finite : dec_keeps (fun t => finite (ms_CurrentMarketCapUSD t)) (dec_struct messariMarketCap_fields).
Proof. finite_fields. Qed.
#[local] Hint Resolve messariMarketCap_finite : finite.
Lemma messariMarketData_finite : dec_keeps messari_finite (dec_struct messariMarketData_fields).
Proof. unfold messari_finite. finite_fields. Qed.
#[local] Hint Resolve messariMarketData_finite : finite.
Lemma messariData_finite : dec_keeps (fun t => messari_finite (ms_MarketData t)) (dec_struct messariData_fields).
Proof. finite_fields. Qed.
#[local] Hint Resolve messariData_finite : finite.
#[export] Instance messari_laws : ExchangeLaws messari.
Proof.
  apply (exchange_laws messari (fun r => messari_finite (ms_MarketData (ms_Data r)))); [finite_zero|finite_fields|].
  unfold messari_finite. intros raw sym coin cur now Hp. cbn [ex_name ex_price messari]. float_sound.
Qed.

Definition lcw_finite (t : lcwResponse) : Prop := finite (lc_Rate t) /\ finite (lc_Volume t) /\ finite (lc_Cap t).
#[export] Instance livecoinwatch_laws : ExchangeLaws livecoinwatch.
Proof.
  apply (exchange_laws livecoinwatch lcw_finite); [finite_zero|unfold lcw_finite; finite_fields|].
  unfold lcw_finite. intros raw sym coin cur now Hp. cbn [ex_name ex_price livecoinwatch]. float_sound.
Qed.

#[export] Instance twelvedata_laws : ExchangeLaws twelvedata.
Proof.
  split. intros j raw sym coin cur now _. cbn [ex_name ex_price twelvedata].
  destruct (dec_NewFromString _); auto with sound.
Qed.

Definition fca_finite (t : fcaSymbolData) : Prop := finite (fc_Price t) /\ finite (fc_Volume t) /\ finite (fc_MarketCap t).
Lemma fcaSymbolData_finite : dec_keeps fca_finite (dec_struct fcaSymbolData_fields).
Proof. unfold fca_finite. finite_fields. Qed.
#[local] Hint Resolve fcaSymbolData_finite : finite.
#[export] Instance freecryptoapi_laws : ExchangeLaws freecryptoapi.
Proof.
  apply (exchange_laws freecryptoapi (fun r => map_Forall (fun _ => fca_finite) (fc_Data r))); [done|finite_fields|].
  intros raw sym coin cur now Hp. cbn [ex_name ex_price freecryptoapi].
  destruct (fc_Data raw !! sym) as [t|] eqn:Et; [|auto with sound]. specialize (Hp _ _ Et). unfold fca_finite in Hp.
  float_sound.
Qed.

Definition cryptorank_finite (t : cryptorankCoin) : Prop :=
  finite (cr_USD (cr_Price t)) /\ finite (cr_MarketCap t) /\ finite (cr_Volume24h t).
Lemma cryptorankPriceUSD_finite : dec_keeps (fun t => finite (cr_USD t)) (dec_struct cryptorankPriceUSD_fields).
Proof. finite_fields. Qed.
#[local] Hint Resolve cryptorankPriceUSD_finite : finite.
Lemma cryptorankCoin_finite : dec_keeps cryptorank_finite (dec_struct cryptorankCoin_fields).
Proof. unfold cryptorank_finite. finite_fields. Qed.
#[local] Hint Resolve cryptorankCoin_finite : finite.
#[export] Instance cryptorank_laws : ExchangeLaws cryptorank.
Proof.
  apply (exchange_laws cryptorank (fun r => cryptorank_finite (cr_Data r))); [finite_zero|finite_fields|].
  unfold cryptorank_finite. intros raw sym coin cur now Hp. cbn [ex_name ex_price cryptorank]. float_sound.
Qed.

#[export] Instance dia_laws : ExchangeLaws dia.
Proof.
  apply (exchange_laws dia (fun r => finite (di_Price r))); [done|finite_fields|].
  intros raw sym coin cur now Hp. cbn [ex_name ex_price dia]. float_sound.
Qed.

Definition altme_finite (t : altmeQuoteUSD) : Prop :=
  finite (am_Price t) /\ finite (am_Volume24h t) /\ finite (am_MarketCap t).
Lemma altmeQuoteUSD_finite : dec_keeps altme_finite (dec_struct altmeQuoteUSD_fields).
Proof. unfold altme_finite. finite_fields. Qed.
#[local] Hint Resolve altmeQuoteUSD_finite : finite.
Lemma altmeQuotes_finite : dec_keeps (fun t => altme_finite (am_USD t)) (dec_struct altmeQuotes_fields).
Proof. finite_fields. Qed.
#[local] Hint Resolve altmeQuotes_finite : finite.
Lemma altmeCoin_finite : dec_keeps (fun t => altme_finite (am_USD (am_Quotes t))) (dec_struct altmeCoin_fields).
Proof. finite_fields. Qed.
#[local] Hint Resolve altmeCoin_finite : finite.
#[export] Instance alternativeme_laws : ExchangeLaws alternativeme.
Proof.
  apply (exchange_laws alternativeme (fun r => Forall (fun t => altme_finite (am_USD (am_Quotes t))) (am_Data r)));
    [apply Forall_nil_2|finite_fields|].
  unfold altme_finite. intros raw sym coin cur now Hp. cbn [ex_name ex_price alternativeme]. float_sound.
Qed.

Lemma dexscreenerVolume_finite : dec_keeps (fun t => finite (dv_H24 t)) (dec_struct dexscreenerVolume_fields).
Proof. finite_fields. Qed.
#[local] Hint Resolve dexscreenerVolume_finite : finite.
Lemma dexscreenerPair_finite : dec_keeps (fun t => finite (dv_H24 (ds_Volume t))) (dec_struct dexscreenerPair_fields).
Proof. finite_fields. Qed.
#[local] Hint Resolve dexscreenerPair_finite : finite.
#[export] Instance dexscreener_laws : ExchangeLaws dexscreener.
Proof.
  apply (exchange_laws dexscreener (fun r => Forall (fun t => finite (dv_H24 (ds_Volume t))) (ds_Pairs r)));
    [apply Forall_nil_2|finite_fields|].
  intros raw sym coin cur now Hp. cbn [ex_name ex_price dexscreener].
  destruct (ds_Pairs raw); [auto with sound|]. apply Forall_cons in Hp as [Hp _]. cbn [head].
  destruct (dec_NewFromString _); [|auto with sound]. float_sound.
Qed.
End laws.

Section panics.
Context {O : DecimalOps} {L : DecimalLaws O} `{!GoJSON} `{!Unicode} `{!GoParse} `{!GoFmt}.
Context {W : Type} `{!ClockOps W} `{!HTTPClient W}.
Implicit Types s : prov W.

(** coincodex sends the capitalisation it receives through [strconv.ParseFloat]
    and [decimal.NewFromFloat]: the texts NaN and Inf pass the first and panic
    in the second. *)
Theorem coincodex_panics cfg coin cur s sym raw s1 f : by_id lower_symbols coin = Some sym ->
  fetch (GET (cfg_BaseURL cfg +:+ "/api/coincodex/get_coin/" +:+ sym)) coincodexResponse_zero
    (dec_struct coincodexResponse_fields) (snd (on_w w_Now s)) = (inl raw, s1) ->
  cx_Cap raw <> ""%string -> strconv_ParseFloat (cx_Cap raw) = Some f -> float_finite f = false ->
  fst (GetPrice coincodex cfg coin cur s) = None.
Proof.
  intros Hl Hf Hcap Hparse Hnan.
  assert (float_string (cx_Cap raw) = None) as Hcx.
  { unfold float_string. rewrite bool_decide_eq_false_2, Hparse by done. by apply dec_NewFromFloat_panics. }
  unfold GetPrice, bindp, GetPrices. rewrite !bind_unfold.
  cbn [GetPrices_loop coincodex ex_lookup]. rewrite Hl. unfold bindp. rewrite !bind_unfold.
  cbn [coincodex ex_raw ex_stamped ex_request ex_zero ex_dec ex_price ret fst snd]. rewrite Hf. cbn [fst snd].
  rewrite !bind_unfold. unfold of_option. by rewrite Hcx.
Qed.
End panics.

(** ** Witness: a server that sends such a capitalisation *)
#[local] Existing Instance plain_GoJSON.
Definition demo_ParseFloat (s : string) : option float64 :=
  if bool_decide (s = "NaN"%string) then Some S754_nan else None.
#[local] Instance demo_GoParse : GoParse := {
  time_ParseRFC3339 _ := None; time_ParseDuration _ := None; strconv_ParseFloat := demo_ParseFloat }.
#[local] Instance demo_clock_ops : ClockOps Clock := { w_Now := tick }.
#[local] Instance demo_http : HTTPClient Clock := {
  http_Do _ := ret (HResponse 200 (Some (VObj [("end", VNum "7"); ("cap", VStr "NaN")]%string))) }.
Definition demo_cfg : Config := mkConfig "https://example.org" "" 10.
Definition demo_state : prov Clock := New demo_clock.

Lemma coincodex_panics_witness : fst (GetPrice coincodex demo_cfg "bitcoin" "usd" demo_state) = None.
Proof.
  eapply (coincodex_panics demo_cfg "bitcoin" "usd" demo_state "btc"); [reflexivity|reflexivity|..].
  - discriminate.
  - vm_compute. reflexivity.
  - reflexivity.
Defined.
