(* ===== verification/Single.v ===== *)
(** * The adapters that ask for one coin and iterate for several

    kraken, bitfinex, kucoin, coincap, coinlore and coinranking: [GetPrice] makes
    the request, and [GetPrices] calls it coin by coin and stops at the first
    error. *)
From S2P Require Import Prelude GoLib GoStrings Decimal Model GoJSON Ports Exchange Aggregators.
Open Scope Z_scope.

(** ** The adapter

    [sg_price] is what [GetPrice] makes of a decoded response: a panic, an error
    to record and one to answer with, or the price once the clock is read. *)
Section single.
Context {O : DecimalOps} {W : Type} `{!ClockOps W} `{!HTTPClient W} `{!GoFmt} `{!GoJSON}.

Record Single := mkSingle {
  sg_name : string;
  sg_lookup : string -> option string; (* the coin's symbol *)
  sg_request : Config -> string -> string -> string -> request; (* coin, symbol, currency *)
  sg_status : Z -> option error;
  sg_raw : Type;
  sg_zero : sg_raw;
  sg_dec : dec sg_raw;
  sg_price : string -> string -> string -> sg_raw -> option ((error * error) + (Time -> Price)) }.

Variables (sg : Single) (cfg : Config).
Definition single_GetPrice (coinID currency : string) : PM (prov W) (Price + error) :=
  match sg_lookup sg coinID with
  | None => liftp (fail_with ErrCoinNotFound ErrCoinNotFound)
  | Some sym =>
      r <- fetch_with (sg_status sg) (sg_request sg cfg coinID sym currency) (sg_zero sg) (sg_dec sg) ;;
      match r with
      | inr e => retp (inr e)
      | inl raw =>
          o <~ of_option (sg_price sg sym coinID currency raw) ;;
          match o with
          | inl (recorded, answered) => liftp (fail_with recorded answered)
          | inr price =>
              now <- on_w w_Now ;;
              RecordSuccess ;;;
              retp (inl (price now))
          end
      end
  end.
Fixpoint single_GetPrices_loop (coinIDs : list string) (currency : string) (prices : list Price) :
    PM (prov W) (list Price + error) :=
  match coinIDs with
  | [] => retp (inl prices)
  | id :: coinIDs =>
      r <~ single_GetPrice id currency ;;
      match r with
      | inr e => retp (inr e)
      | inl p => single_GetPrices_loop coinIDs currency (prices ++ [p])
      end
  end.
Definition single_GetPrices (coinIDs : list string) (currency : string) : PM (prov W) (list Price + error) :=
  single_GetPrices_loop coinIDs currency [].
End single.

(** ** The adapters *)
Section adapters.
Context {O : DecimalOps} `{!GoJSON} `{!Unicode} `{!GoParse} `{!GoFmt}.
Definition not_found : error * error := (ErrCoinNotFound, ErrCoinNotFound).
Definition bad_price (s : string) : error * error := (decimal_error s, Wrapf "parsing price: " (decimal_error s) "").

(** *** kraken *)
Definition krakenPairs : list (string * string) :=
  [("bitcoin", "XXBTZUSD"); ("ethereum", "XETHZUSD"); ("solana", "SOLUSD")]%string.
Record tickerResponse := mkTickerResponse { tr_Error : list string; tr_Result : gmap string jvalue }.
Definition tickerResponse_zero : tickerResponse := mkTickerResponse [] ∅.
Definition tickerResponse_fields : list (field tickerResponse) := [
  fld "error" (dec_slice ""%string dec_string) tr_Error (fun x r => mkTickerResponse x (tr_Result r));
  fld "result" (dec_map VNull dec_raw) tr_Result (fun x r => mkTickerResponse (tr_Error r) x)].
Record tickerData := mkTickerData { tk_C : list string; tk_V : list string }.
Definition tickerData_zero : tickerData := mkTickerData [] [].
Definition tickerData_fields : list (field tickerData) := [
  fld "c" (dec_slice ""%string dec_string) tk_C (fun x t => mkTickerData x (tk_V t));
  fld "v" (dec_slice ""%string dec_string) tk_V (fun x t => mkTickerData (tk_C t) x)].
Definition kraken_query (coinID pairName : string) : string :=
  if bool_decide (coinID = "bitcoin"%string) then "XBTUSD"%string
  else if bool_decide (coinID = "ethereum"%string) then "ETHUSD"%string
  else pairName.
Definition kraken_price (pairName coinID currency : string) (raw : tickerResponse) :
    (error * error) + (Time -> Price) :=
  match tr_Error raw with
  | msg :: _ => let e := Errorf ("kraken error: " +:+ msg) in inl (e, e)
  | [] =>
      match tr_Result raw !! pairName with
      | None => inl not_found
      | Some rawTicker =>
          match decode tickerData_zero (dec_struct tickerData_fields) (Some rawTicker) with
          | inr e => inl (e, Wrapf "decoding ticker: " e "")
          | inl ticker =>
              match tk_C ticker with
              | [] => inl not_found
              | c :: _ =>
                  match dec_NewFromString c with
                  | None => inl (bad_price c)
                  | Some value =>
                      let volume := s ← tk_V ticker !! 1%nat; dec_NewFromString s in
                      inr (fun now => mkPrice coinID currency value "kraken" now now dec_Zero
                        (default dec_Zero volume) fzero)
                  end
              end
          end
      end
  end.
Definition kraken : Single := {|
  sg_name := "kraken"; sg_lookup := by_id krakenPairs; sg_status := status_error;
  sg_request cfg coinID pairName _ :=
    GET (cfg_BaseURL cfg +:+ "/0/public/Ticker?pair=" +:+ kraken_query coinID pairName)%string;
  sg_zero := tickerResponse_zero; sg_dec := dec_struct tickerResponse_fields;
  sg_price pairName coinID currency raw := Some (kraken_price pairName coinID currency raw) |}.

(** *** bitfinex: an array of numbers, the change a fraction *)
Definition tickerSymbols : list (string * string) :=
  [("bitcoin", "tBTCUSD"); ("ethereum", "tETHUSD"); ("solana", "tSOLUSD")]%string.
Definition bitfinex : Single := {|
  sg_name := "bitfinex"; sg_lookup := by_id tickerSymbols; sg_status := status_error;
  sg_request cfg _ symbol _ := GET (cfg_BaseURL cfg +:+ "/v2/ticker/" +:+ symbol)%string;
  sg_zero := []; sg_dec := dec_slice fzero dec_float;
  sg_price _ coinID currency raw :=
    if (length raw <? 8)%nat
    then let e := Errorf ("unexpected response length: " +:+ fmt_d (Z.of_nat (length raw))) in Some (inl (e, e))
    else
      lastPrice ← raw !! 6%nat;
      volume ← raw !! 7%nat;
      changePct ← raw !! 5%nat;
      value ← dec_NewFromFloat lastPrice;
      vol ← dec_NewFromFloat volume;
      Some (inr (fun now => mkPrice coinID currency value "bitfinex" now now dec_Zero vol
        (fmul changePct (f_of_int 100)))) |}.

(** *** kucoin *)
Record orderBookData := mkOrderBookData { ku_Price : string; ku_Time : Z }.
Definition orderBookData_zero : orderBookData := mkOrderBookData ""%string 0.
Definition orderBookData_fields : list (field orderBookData) := [
  fld "price" dec_string ku_Price (fun x t => mkOrderBookData x (ku_Time t));
  fld "time" dec_int64 ku_Time (fun x t => mkOrderBookData (ku_Price t) x)].
Record orderBookResponse := mkOrderBookResponse { ku_Code : string; ku_Data : orderBookData }.
Definition orderBookResponse_zero : orderBookResponse := mkOrderBookResponse ""%string orderBookData_zero.
Definition orderBookResponse_fields : list (field orderBookResponse) := [
  fld "code" dec_string ku_Code (fun x t => mkOrderBookResponse x (ku_Data t));
  fld "data" (dec_struct orderBookData_fields) ku_Data (fun x t => mkOrderBookResponse (ku_Code t) x)].
Definition kucoin : Single := {|
  sg_name := "kucoin"; sg_lookup := by_id major_symbols; sg_status := status_error;
  sg_request cfg _ symbol currency := GET (cfg_BaseURL cfg +:+ "/api/v1/market/orderbook/level1?symbol=" +:+
    symbol +:+ "-" +:+ ToUpper currency)%string;
  sg_zero := orderBookResponse_zero; sg_dec := dec_struct orderBookResponse_fields;
  sg_price _ coinID currency raw :=
    let price := ku_Price (ku_Data raw) in
    if bool_decide (price = ""%string) then Some (inl not_found) else
    match dec_NewFromString price with
    | None => Some (inl (bad_price price))
    | Some value => Some (inr (fun now => basicPrice coinID currency value "kucoin" now now))
    end |}.

(** *** coincap: every coin by its own ID, in dollars *)
Record assetData := mkAssetData { ca_ID : string; ca_PriceUsd : string; ca_MarketCapUsd : string;
  ca_VolumeUsd24Hr : string; ca_ChangePercent24Hr : string }.
Definition assetData_zero : assetData := mkAssetData ""%string ""%string ""%string ""%string ""%string.
Definition assetData_fields : list (field assetData) := [
  fld "id" dec_string ca_ID
    (fun x t => mkAssetData x (ca_PriceUsd t) (ca_MarketCapUsd t) (ca_VolumeUsd24Hr t) (ca_ChangePercent24Hr t));
  fld "priceUsd" dec_string ca_PriceUsd
    (fun x t => mkAssetData (ca_ID t) x (ca_MarketCapUsd t) (ca_VolumeUsd24Hr t) (ca_ChangePercent24Hr t));
  fld "marketCapUsd" dec_string ca_MarketCapUsd
    (fun x t => mkAssetData (ca_ID t) (ca_PriceUsd t) x (ca_VolumeUsd24Hr t) (ca_ChangePercent24Hr t));
  fld "volumeUsd24Hr" dec_string ca_VolumeUsd24Hr
    (fun x t => mkAssetData (ca_ID t) (ca_PriceUsd t) (ca_MarketCapUsd t) x (ca_ChangePercent24Hr t));
  fld "changePercent24Hr" dec_string ca_ChangePercent24Hr
    (fun x t => mkAssetData (ca_ID t) (ca_PriceUsd t) (ca_MarketCapUsd t) (ca_VolumeUsd24Hr t) x)].
Record assetResponse := mkAssetResponse { ca_Data : assetData }.
Definition assetResponse_zero : assetResponse := mkAssetResponse assetData_zero.
Definition assetResponse_fields : list (field assetResponse) := [
  fld "data" (dec_struct assetData_fields) ca_Data (fun x t => mkAssetResponse x)].
Definition coincap : Single := {|
  sg_name := "coincap"; sg_lookup := Some; sg_status := base_status;
  sg_request cfg coinID _ _ := GET (cfg_BaseURL cfg +:+ "/v2/assets/" +:+ coinID)%string;
  sg_zero := assetResponse_zero; sg_dec := dec_struct assetResponse_fields;
  sg_price _ coinID currency raw :=
    let data := ca_Data raw in
    if bool_decide (ca_PriceUsd data = ""%string) then Some (inl not_found) else
    match dec_NewFromString (ca_PriceUsd data) with
    | None => Some (inl (bad_price (ca_PriceUsd data)))
    | Some value => Some (inr (fun now =>
        with_change (dec_InexactFloat64 <$> dec_NewFromString (ca_ChangePercent24Hr data))
          (with_volume (dec_NewFromString (ca_VolumeUsd24Hr data))
            (with_cap (dec_NewFromString (ca_MarketCapUsd data))
              (basicPrice coinID currency value "coincap" now now)))))
    end |}.

(** *** coinlore *)
Record tickerItem := mkTickerItem { cl_ID : string; cl_Symbol : string; cl_Name : string; cl_PriceUsd : string;
  cl_MarketCapUsd : string; cl_Volume24 : string; cl_Change24h : string }.
Definition tickerItem_zero : tickerItem := mkTickerItem ""%string ""%string ""%string ""%string ""%string ""%string ""%string.
Definition tickerItem_fields : list (field tickerItem) := [
  fld "id" dec_string cl_ID
    (fun x t => mkTickerItem x (cl_Symbol t) (cl_Name t) (cl_PriceUsd t) (cl_MarketCapUsd t) (cl_Volume24 t) (cl_Change24h t));
  fld "symbol" dec_string cl_Symbol
    (fun x t => mkTickerItem (cl_ID t) x (cl_Name t) (cl_PriceUsd t) (cl_MarketCapUsd t) (cl_Volume24 t) (cl_Change24h t));
  fld "name" dec_string cl_Name
    (fun x t => mkTickerItem (cl_ID t) (cl_Symbol t) x (cl_PriceUsd t) (cl_MarketCapUsd t) (cl_Volume24 t) (cl_Change24h t));
  fld "price_usd" dec_string cl_PriceUsd
    (fun x t => mkTickerItem (cl_ID t) (cl_Symbol t) (cl_Name t) x (cl_MarketCapUsd t) (cl_Volume24 t) (cl_Change24h t));
  fld "market_cap_usd" dec_string cl_MarketCapUsd
    (fun x t => mkTickerItem (cl_ID t) (cl_Symbol t) (cl_Name t) (cl_PriceUsd t) x (cl_Volume24 t) (cl_Change24h t));
  fld "volume24" dec_string cl_Volume24
    (fun x t => mkTickerItem (cl_ID t) (cl_Symbol t) (cl_Name t) (cl_PriceUsd t) (cl_MarketCapUsd t) x (cl_Change24h t));
  fld "percent_change_24h" dec_string cl_Change24h
    (fun x t => mkTickerItem (cl_ID t) (cl_Symbol t) (cl_Name t) (cl_PriceUsd t) (cl_MarketCapUsd t) (cl_Volume24 t) x)].
Definition symbolToID : list (string * string) :=
  [("bitcoin", "90"); ("ethereum", "80"); ("solana", "48543"); ("cardano", "257"); ("ripple", "58")]%string.
Definition coinlore : Single := {|
  sg_name := "coinlore"; sg_lookup := by_id symbolToID; sg_status := status_error;
  sg_request cfg _ numericID _ := GET (cfg_BaseURL cfg +:+ "/api/ticker/?id=" +:+ numericID)%string;
  sg_zero := []; sg_dec := dec_slice tickerItem_zero (dec_struct tickerItem_fields);
  sg_price _ coinID currency raw :=
    match head raw with
    | None => Some (inl not_found)
    | Some item =>
        match dec_NewFromString (cl_PriceUsd item) with
        | None => Some (inl (bad_price (cl_PriceUsd item)))
        | Some value => Some (inr (fun now =>
            with_change (strconv_ParseFloat (cl_Change24h item))
              (with_volume (dec_NewFromString (cl_Volume24 item))
                (with_cap (dec_NewFromString (cl_MarketCapUsd item))
                  (basicPrice coinID currency value "coinlore" now now)))))
        end
    end |}.

(** *** coinranking *)
Record rankedCoin := mkRankedCoin { rk_Symbol : string; rk_Name : string; rk_Price : string;
  rk_MarketCap : string; rk_Volume24h : string; rk_Change : string }.
Definition rankedCoin_zero : rankedCoin := mkRankedCoin ""%string ""%string ""%string ""%string ""%string ""%string.
Definition rankedCoin_fields : list (field rankedCoin) := [
  fld "symbol" dec_string rk_Symbol
    (fun x t => mkRankedCoin x (rk_Name t) (rk_Price t) (rk_MarketCap t) (rk_Volume24h t) (rk_Change t));
  fld "name" dec_string rk_Name
    (fun x t => mkRankedCoin (rk_Symbol t) x (rk_Price t) (rk_MarketCap t) (rk_Volume24h t) (rk_Change t));
  fld "price" dec_string rk_Price
    (fun x t => mkRankedCoin (rk_Symbol t) (rk_Name t) x (rk_MarketCap t) (rk_Volume24h t) (rk_Change t));
  fld "marketCap" dec_string rk_MarketCap
    (fun x t => mkRankedCoin (rk_Symbol t) (rk_Name t) (rk_Price t) x (rk_Volume24h t) (rk_Change t));
  fld "24hVolume" dec_string rk_Volume24h
    (fun x t => mkRankedCoin (rk_Symbol t) (rk_Name t) (rk_Price t) (rk_MarketCap t) x (rk_Change t));
  fld "change" dec_string rk_Change
    (fun x t => mkRankedCoin (rk_Symbol t) (rk_Name t) (rk_Price t) (rk_MarketCap t) (rk_Volume24h t) x)].
Record rankedData := mkRankedData { rk_Coin : rankedCoin }.
Definition rankedData_zero : rankedData := mkRankedData rankedCoin_zero.
Definition rankedData_fields : list (field rankedData) := [
  fld "coin" (dec_struct rankedCoin_fields) rk_Coin (fun x t => mkRankedData x)].
Record coinResponse := mkCoinResponse { rk_Status : string; rk_Data : rankedData }.
Definition coinResponse_zero : coinResponse := mkCoinResponse ""%string rankedData_zero.
Definition coinResponse_fields : list (field coinResponse) := [
  fld "status" dec_string rk_Status (fun x t => mkCoinResponse x (rk_Data t));
  fld "data" (dec_struct rankedData_fields) rk_Data (fun x t => mkCoinResponse (rk_Status t) x)].
Definition coinUUIDs : list (string * string) :=
  [("bitcoin", "Qwsogvtv82FCd"); ("ethereum", "razxDUgYGNAdQ"); ("solana", "zNZHO_Sjf")]%string.
Definition coinranking : Single := {|
  sg_name := "coinranking"; sg_lookup := by_id coinUUIDs; sg_status := base_status;
  sg_request cfg _ uuid _ := mkRequest "GET" (cfg_BaseURL cfg +:+ "/v2/coin/" +:+ uuid)
    (key_header "x-access-token" cfg) None;
  sg_zero := coinResponse_zero; sg_dec := dec_struct coinResponse_fields;
  sg_price _ coinID currency raw :=
    let coin := rk_Coin (rk_Data raw) in
    if bool_decide (rk_Price coin = ""%string) then Some (inl not_found) else
    match dec_NewFromString (rk_Price coin) with
    | None => Some (inl (bad_price (rk_Price coin)))
    | Some value => Some (inr (fun now =>
        with_change (strconv_ParseFloat (rk_Change coin))
          (with_volume (dec_NewFromString (rk_Volume24h coin))
            (with_cap (dec_NewFromString (rk_MarketCap coin))
              (basicPrice coinID currency value "coinranking" now now)))))
    end |}.
End adapters.

(** ** Behaviour *)
(** What [GetPrice] promises of the price it makes of a decoded response. *)
Definition sound_single {O : DecimalOps} (name coin cur : string) (r : option ((error * error) + (Time -> Price))) : Prop :=
  match r with
  | None => False
  | Some (inl _) => True
  | Some (inr price) => forall now, labelled name coin cur now (price now)
  end.
Class SingleLaws {O : DecimalOps} `{!GoJSON} (sg : Single) := {
  sg_sound : forall j raw sym coin cur, sg_dec sg (sg_zero sg) j = Some raw ->
    sound_single (sg_name sg) coin cur (sg_price sg sym coin cur raw) }.

Section behaviour.
Context {O : DecimalOps} {W : Type} `{!ClockOps W} `{!HTTPClient W} `{!GoFmt} `{!GoJSON}.
Variables (sg : Single) (cfg : Config).
Context `{XL : !SingleLaws sg}.
Implicit Types s : prov W.
Notation priced := (priced (sg_name sg)).

Lemma single_GetPrice_runs coin cur s :
  runs (single_GetPrice sg cfg coin cur) s (fun r s' =>
    price_answer (sg_name sg) s s' coin cur r).
Proof.
  unfold single_GetPrice. destruct (sg_lookup sg coin) as [sym|];
    [|apply fail_runs, failed_now].
  apply runs_bind. set (rq := sg_request sg cfg coin sym cur).
  pose proof (fetch_with_spec (sg_status sg) rq (sg_zero sg) (sg_dec sg) s) as Hf.
  destruct (fetch_with _ rq _ _ s) as [[raw|e] s1]; simpl; [|by apply runs_retp].
  destruct Hf as [Hh [j Hj]]. unfold bindp. apply runs_bind. simpl.
  pose proof (sg_sound (sg := sg) j raw sym coin cur Hj) as Hs. unfold sound_single in Hs.
  destruct (sg_price sg sym coin cur raw) as [[[e e']|price]|]; [| |done].
  - apply fail_runs. eapply same_health_failed; [exact Hh|]. apply failed_now.
  - do 2 apply runs_bind. apply runs_retp. unfold RecordSuccess. rewrite bind_unfold. split; [|by split].
    destruct (Hs (fst (on_w w_Now s1))) as (Hc & Hcur & Hn & Ht1 & Ht2). unfold priced. by rewrite Ht1, Ht2.
Qed.

Lemma single_GetPrice_unknown coin cur s : sg_lookup sg coin = None ->
  exists s', single_GetPrice sg cfg coin cur s = (Some (inr ErrCoinNotFound), s') /\ pv_world s' = pv_world s.
Proof. intros El. unfold single_GetPrice. rewrite El. by eexists. Qed.

(** A batch answers for every coin, in order, or fails as its first failure. *)
Lemma single_GetPrices_runs coinIDs cur : forall prices s,
  runs (single_GetPrices_loop sg cfg coinIDs cur prices) s (fun r s' =>
    match r with
    | inl ps => exists new, ps = prices ++ new /\ CoinID <$> new = coinIDs /\
        Forall (fun p => priced (CoinID p) cur p) new /\ (coinIDs <> [] -> up s')
    | inr e => exists s1, failed s1 s' e
    end).
Proof.
  induction coinIDs as [|coin coinIDs IH]; intros prices s; cbn [single_GetPrices_loop].
  { apply runs_retp. exists []. by rewrite app_nil_r. }
  apply runs_bindp. eapply runs_mono; [|apply single_GetPrice_runs]. intros [p|e] s1; [|intros; apply runs_retp; eauto].
  intros [Hp Hu]. pose proof (IH (prices ++ [p]) s1) as Hr. unfold runs_unless in *.
  destruct (single_GetPrices_loop _ _ _ _ _ s1) as [[r|] s2] eqn:E; [|done]. destruct r as [ps|e]; [|done].
  destruct Hr as (new & -> & Hc & Hf & Hup). exists (p :: new). rewrite <- app_assoc. split_and!; [done| | |].
  - rewrite fmap_cons, Hc. f_equal. apply Hp.
  - constructor; [|done]. destruct Hp as (? & ? & ? & ?). by split_and!.
  - intros _. destruct coinIDs; [|by apply Hup]. simpl in E. unfold retp, ret in E. by simplify_eq.
Qed.

(** An adapter whose request and price do not look at the currency. *)
Lemma single_relabel coin cur cur' s :
  (forall sym, sg_request sg cfg coin sym cur = sg_request sg cfg coin sym cur') ->
  (forall sym raw, match sg_price sg sym coin cur raw, sg_price sg sym coin cur' raw with
     | Some (inr p), Some (inr p') => forall now, p now = relabel cur (p' now)
     | r, r' => r = r'
     end) ->
  single_GetPrice sg cfg coin cur s =
    let '(r, s') := single_GetPrice sg cfg coin cur' s in (relabel_answer cur <$> r, s').
Proof.
  intros Hq Hp. unfold single_GetPrice. destruct (sg_lookup sg coin) as [sym|]; [|done]. rewrite Hq.
  rewrite !bind_unfold. destruct (fetch_with _ _ _ _ s) as [[raw|e] s1]; [|done]. cbn [fst snd].
  unfold bindp. rewrite !bind_unfold. specialize (Hp sym raw). unfold of_option. cbn [ret fst snd].
  destruct (sg_price sg sym coin cur raw) as [[[? ?]|p]|], (sg_price sg sym coin cur' raw) as [[[? ?]|p']|];
    simplify_eq; try done.
  rewrite !bind_unfold, Hp. unfold RecordSuccess. by rewrite !bind_unfold.
Qed.
End behaviour.

(** ** The adapters keep their promise *)
Section laws.
Context {O : DecimalOps} {L : DecimalLaws O} `{!GoJSON} `{!Unicode} `{!GoParse} `{!GoFmt}.
Ltac single_laws := split; intros j raw sym coin cur _;
  cbn [sg_name sg_price kraken kucoin coincap coinlore coinranking]; unfold kraken_price;
  repeat case_match; simpl; auto with sound.
#[export] Instance kraken_laws : SingleLaws kraken. Proof. single_laws. Qed.
#[export] Instance kucoin_laws : SingleLaws kucoin. Proof. single_laws. Qed.
#[export] Instance coincap_laws : SingleLaws coincap. Proof. single_laws. Qed.
#[export] Instance coinlore_laws : SingleLaws coinlore. Proof. single_laws. Qed.
#[export] Instance coinranking_laws : SingleLaws coinranking. Proof. single_laws. Qed.

#[export] Instance bitfinex_laws : SingleLaws bitfinex.
Proof.
  split. intros j raw sym coin cur Hj. cbn [sg_name sg_price bitfinex].
  apply (dec_slice_keeps (fun f => finite f) fzero dec_float eq_refl dec_float_finite [] j raw (Forall_nil_2 _)) in Hj.
  destruct (Nat.ltb_spec (length raw) 8) as [|Hlen]; [done|].
  do 8 (destruct raw as [|? raw]; [simpl in Hlen; lia|]). cbn [lookup list_lookup mbind option_bind].
  rewrite !Forall_cons in Hj. destruct Hj as (_ & _ & _ & _ & _ & _ & Hp & Hv & _).
  destruct (NewFromFloat_some _ Hp) as [p ->], (NewFromFloat_some _ Hv) as [v ->]. simpl. auto with sound.
Qed.
End laws.
