(* ===== verification/Providers.v ===== *)
(** * Adapters with a shape of their own

    coingecko, coinmarketcap and blockchain make one request for all coins;
    coinpaprika and cryptocompare ask coin by coin and skip failures; the token
    providers of coingecko and dexscreener keep no state. *)
From S2P Require Import Prelude GoLib GoStrings Decimal Model GoJSON Ports Exchange Aggregators.
Open Scope Z_scope.

Section providers.
Context {O : DecimalOps} `{!GoJSON} `{!Unicode} `{!GoParse}.
Context {W : Type} `{!ClockOps W} `{!HTTPClient W} `{!GoFmt}.

(** ** coingecko *)
Definition gecko_data : Type := gmap string (gmap string string).
Definition gecko_dec : dec gecko_data := dec_map ∅ (dec_map ""%string dec_Number).
Definition gecko_price (data : gmap string string) (id currency : string) (val : decimal) (now : Time) : Price :=
  mkPrice id currency val "coingecko" now now
    (default dec_Zero (s ← data !! (currency +:+ "_market_cap"); dec_NewFromString s))
    (default dec_Zero (s ← data !! (currency +:+ "_24h_vol"); dec_NewFromString s))
    (default fzero (s ← data !! (currency +:+ "_24h_change"); strconv_ParseFloat s)).
Fixpoint gecko_loop (raw : gecko_data) (coinIDs : list string) (currency : string) (now : Time)
    (prices : list Price) : PM (prov W) (list Price + error) :=
  match coinIDs with
  | [] => retp (inl prices)
  | id :: coinIDs =>
      match raw !! id with
      | None => gecko_loop raw coinIDs currency now prices
      | Some data =>
          match data !! currency with
          | None => gecko_loop raw coinIDs currency now prices
          | Some numVal =>
              match dec_NewFromString numVal with
              | None => liftp (fail_with (decimal_error numVal) (Wrapf "parsing price value: " (decimal_error numVal) ""))
              | Some val => gecko_loop raw coinIDs currency now (prices ++ [gecko_price data id currency val now])
              end
          end
      end
  end.
Definition gecko_GetPrices (cfg : Config) (coinIDs : list string) (currency : string) :
    PM (prov W) (list Price + error) :=
  let url := (cfg_BaseURL cfg +:+ "/simple/price?ids=" +:+ String.concat "," coinIDs +:+ "&vs_currencies=" +:+
    currency +:+ "&include_market_cap=true&include_24hr_vol=true&include_24hr_change=true")%string in
  r <- fetch (mkRequest "GET" url (key_header "x-cg-demo-api-key" cfg) None) ∅ gecko_dec ;;
  match r with
  | inr e => retp (inr e)
  | inl raw =>
      now <- on_w w_Now ;;
      r <~ gecko_loop raw coinIDs currency now [] ;;
      match r with
      | inr e => retp (inr e)
      | inl prices => finish coinIDs prices
      end
  end.
Definition gecko_GetPrice (cfg : Config) (coinID currency : string) : PM (prov W) (Price + error) :=
  r <~ gecko_GetPrices cfg [coinID] currency ;; first_recorded r.

(** ** coinmarketcap *)
Record cmcQuote := mkCmcQuote { cm_Price : float64 }.
Definition cmcQuote_zero : cmcQuote := mkCmcQuote fzero.
Definition cmcQuote_fields : list (field cmcQuote) := [
  fld "price" dec_float cm_Price (fun x t => mkCmcQuote x)].
Record cmcEntry := mkCmcEntry { cm_Quote : gmap string cmcQuote }.
Definition cmcEntry_zero : cmcEntry := mkCmcEntry ∅.
Definition cmcEntry_fields : list (field cmcEntry) := [
  fld "quote" (dec_map cmcQuote_zero (dec_struct cmcQuote_fields)) cm_Quote (fun x _ => mkCmcEntry x)].
Record cmcResponse := mkCmcResponse { cm_Data : gmap string (list cmcEntry) }.
Definition cmcResponse_zero : cmcResponse := mkCmcResponse ∅.
Definition cmcResponse_fields : list (field cmcResponse) := [
  fld "data" (dec_map [] (dec_slice cmcEntry_zero (dec_struct cmcEntry_fields))) cm_Data (fun x _ => mkCmcResponse x)].
Fixpoint cmc_loop (raw : cmcResponse) (coinIDs : list string) (currency cur : string) (now : Time)
    (prices : list Price) : option (list Price) :=
  match coinIDs with
  | [] => Some prices
  | id :: coinIDs =>
      match entries ← cm_Data raw !! ToUpper id; entry ← head entries; cm_Quote entry !! cur with
      | None => cmc_loop raw coinIDs currency cur now prices
      | Some quote =>
          val ← dec_NewFromFloat (cm_Price quote);
          cmc_loop raw coinIDs currency cur now (prices ++ [basicPrice id currency val "coinmarketcap" now now])
      end
  end.
Definition cmc_GetPrices (cfg : Config) (coinIDs : list string) (currency : string) :
    PM (prov W) (list Price + error) :=
  let url := (cfg_BaseURL cfg +:+ "/v1/cryptocurrency/quotes/latest?symbol=" +:+ String.concat "," coinIDs +:+
    "&convert=" +:+ ToUpper currency)%string in
  r <- fetch (mkRequest "GET" url [("X-CMC_PRO_API_KEY"%string, cfg_APIKey cfg)] None)
         cmcResponse_zero (dec_struct cmcResponse_fields) ;;
  match r with
  | inr e => retp (inr e)
  | inl raw =>
      now <- on_w w_Now ;;
      prices <~ of_option (cmc_loop raw coinIDs currency (ToUpper currency) now []) ;;
      finish coinIDs prices
  end.
(** The first price of a batch; coinmarketcap and cryptocompare do not record
    that there is none. *)
Definition first_price (r : list Price + error) : Price + error :=
  match r with
  | inr e => inr e
  | inl [] => inr ErrCoinNotFound
  | inl (p :: _) => inl p
  end.
Definition cmc_GetPrice (cfg : Config) (coinID currency : string) : PM (prov W) (Price + error) :=
  r <~ cmc_GetPrices cfg [coinID] currency ;; retp (first_price r).

(** ** blockchain: bitcoin only *)
Record blockchainEntry := mkBlockchainEntry { bc_Last : float64; bc_Buy : float64; bc_Sell : float64;
  bc_Symbol : string }.
Definition blockchainEntry_zero : blockchainEntry := mkBlockchainEntry fzero fzero fzero ""%string.
Definition blockchainEntry_fields : list (field blockchainEntry) := [
  fld "last" dec_float bc_Last (fun x t => mkBlockchainEntry x (bc_Buy t) (bc_Sell t) (bc_Symbol t));
  fld "buy" dec_float bc_Buy (fun x t => mkBlockchainEntry (bc_Last t) x (bc_Sell t) (bc_Symbol t));
  fld "sell" dec_float bc_Sell (fun x t => mkBlockchainEntry (bc_Last t) (bc_Buy t) x (bc_Symbol t));
  fld "symbol" dec_string bc_Symbol (fun x t => mkBlockchainEntry (bc_Last t) (bc_Buy t) (bc_Sell t) x)].
Fixpoint blockchain_loop (entry : blockchainEntry) (coinIDs : list string) (currency : string) (now : Time)
    (prices : list Price) : option (list Price) :=
  match coinIDs with
  | [] => Some prices
  | coinID :: coinIDs =>
      val ← dec_NewFromFloat (bc_Last entry);
      blockchain_loop entry coinIDs currency now (prices ++ [basicPrice coinID currency val "blockchain" now now])
  end.
Definition blockchain_GetPrices (cfg : Config) (coinIDs : list string) (currency : string) :
    PM (prov W) (list Price + error) :=
  let validCoins := filter (fun id => ToLower id = "bitcoin"%string) coinIDs in
  if (length validCoins =? 0)%nat then liftp (fail_with ErrCoinNotFound ErrCoinNotFound) else
  r <- fetch (GET (cfg_BaseURL cfg +:+ "/ticker")) ∅ (dec_map blockchainEntry_zero (dec_struct blockchainEntry_fields)) ;;
  match r with
  | inr e => retp (inr e)
  | inl raw =>
      match raw !! ToUpper currency with
      | None => liftp (fail_with ErrCoinNotFound ErrCoinNotFound)
      | Some entry =>
          if feqb (bc_Last entry) fzero then liftp (fail_with ErrCoinNotFound ErrCoinNotFound) else
          now <- on_w w_Now ;;
          prices <~ of_option (blockchain_loop entry validCoins currency now []) ;;
          RecordSuccess ;;; retp (inl prices)
      end
  end.
Definition blockchain_GetPrice (cfg : Config) (coinID currency : string) : PM (prov W) (Price + error) :=
  r <~ blockchain_GetPrices cfg [coinID] currency ;; first_recorded r.

(** ** coinpaprika: a 404 is a coin not found; a batch skips failures *)
Definition paprika_status (code : Z) : option error :=
  if code =? 404 then Some ErrCoinNotFound
  else if code =? 429 then Some ErrRateLimited
  else if code >=? 500 then Some ErrProviderDown
  else if negb (code =? 200) then Some (unexpected_status code)
  else None.
Record paprikaQuote := mkPaprikaQuote { pq_Price : float64 }.
Definition paprikaQuote_zero : paprikaQuote := mkPaprikaQuote fzero.
Definition paprikaQuote_fields : list (field paprikaQuote) := [
  fld "price" dec_float pq_Price (fun x t => mkPaprikaQuote x)].
Record paprikaResponse := mkPaprikaResponse { pk_ID : string; pk_Quotes : gmap string paprikaQuote }.
Definition paprikaResponse_zero : paprikaResponse := mkPaprikaResponse ""%string ∅.
Definition paprikaResponse_fields : list (field paprikaResponse) := [
  fld "id" dec_string pk_ID (fun x t => mkPaprikaResponse x (pk_Quotes t));
  fld "quotes" (dec_map paprikaQuote_zero (dec_struct paprikaQuote_fields)) pk_Quotes
    (fun x t => mkPaprikaResponse (pk_ID t) x)].
Definition paprika_GetPrice (cfg : Config) (coinID currency : string) : PM (prov W) (Price + error) :=
  let url := (cfg_BaseURL cfg +:+ "/v1/tickers/" +:+ coinID +:+ "?quotes=" +:+ ToUpper currency)%string in
  r <- fetch_with paprika_status (GET url) paprikaResponse_zero (dec_struct paprikaResponse_fields) ;;
  match r with
  | inr e => retp (inr e)
  | inl raw =>
      match pk_Quotes raw !! ToUpper currency with
      | None => liftp (fail_with ErrCoinNotFound ErrCoinNotFound)
      | Some quote =>
          now <- on_w w_Now ;;
          RecordSuccess ;;;
          val <~ of_option (dec_NewFromFloat (pq_Price quote)) ;;
          retp (inl (basicPrice coinID currency val "coinpaprika" now now))
      end
  end.
Fixpoint paprika_loop (cfg : Config) (coinIDs : list string) (currency : string) (prices : list Price) :
    PM (prov W) (list Price) :=
  match coinIDs with
  | [] => retp prices
  | id :: coinIDs =>
      r <~ paprika_GetPrice cfg id currency ;;
      paprika_loop cfg coinIDs currency (match r with inl p => prices ++ [p] | inr _ => prices end)
  end.
Definition paprika_GetPrices (cfg : Config) (coinIDs : list string) (currency : string) :
    PM (prov W) (list Price + error) :=
  prices <~ paprika_loop cfg coinIDs currency [] ;;
  retp (if (length prices =? 0)%nat && negb (length coinIDs =? 0)%nat then inr ErrCoinNotFound else inl prices).

(** ** cryptocompare: a coin that is not found is not recorded *)
Definition compare_status (code : Z) : option error :=
  if code =? 429 then Some ErrRateLimited
  else if code >=? 500 then Some ErrProviderDown
  else if negb (code =? 200) then Some (unexpected_status code)
  else None.
Definition compare_fetchOne (cfg : Config) (coinID currency : string) : PM (prov W) (Price + error) :=
  let url := (cfg_BaseURL cfg +:+ "/data/price?fsym=" +:+ ToUpper coinID +:+ "&tsyms=" +:+ ToUpper currency)%string in
  r <- fetch_with compare_status (GET url) ∅ (dec_map fzero dec_float) ;;
  match r with
  | inr e => retp (inr e)
  | inl raw =>
      match raw !! ToUpper currency with
      | None => retp (inr ErrCoinNotFound)
      | Some val =>
          now <- on_w w_Now ;;
          v <~ of_option (dec_NewFromFloat val) ;;
          retp (inl (basicPrice coinID currency v "cryptocompare" now now))
      end
  end.
Definition hard_error (e : error) : bool :=
  bool_decide (e = ErrRateLimited) || bool_decide (e = ErrProviderDown) || bool_decide (e = ErrUnauthorized).
Fixpoint compare_loop (cfg : Config) (coinIDs : list string) (currency : string) (prices : list Price) :
    PM (prov W) (list Price + error) :=
  match coinIDs with
  | [] => retp (inl prices)
  | id :: coinIDs =>
      r <~ compare_fetchOne cfg id currency ;;
      match r with
      | inl p => compare_loop cfg coinIDs currency (prices ++ [p])
      | inr e => if hard_error e then retp (inr e) else compare_loop cfg coinIDs currency prices
      end
  end.
Definition compare_GetPrices (cfg : Config) (coinIDs : list string) (currency : string) :
    PM (prov W) (list Price + error) :=
  r <~ compare_loop cfg coinIDs currency [] ;;
  match r with
  | inr e => retp (inr e)
  | inl prices =>
      if (length prices =? 0)%nat && negb (length coinIDs =? 0)%nat then retp (inr ErrCoinNotFound)
      else RecordSuccess ;;; retp (inl prices)
  end.
Definition compare_GetPrice (cfg : Config) (coinID currency : string) : PM (prov W) (Price + error) :=
  r <~ compare_GetPrices cfg [coinID] currency ;; retp (first_price r).

(** ** The token providers, which keep no state *)
Definition token_fetch {A} (url : string) (zero : A) (d : dec A) : M W (A + error) :=
  r <- http_Do (GET url) ;;
  match r with
  | HBadRequest e => ret (inr (Wrapf "creating request: " e ""))
  | HFailed => ret (inr ErrProviderDown)
  | HResponse code body =>
      if code =? 429 then ret (inr ErrRateLimited)
      else if negb (code =? 200) then ret (inr (Errorf ("status: " +:+ fmt_d code)))
      else match decode zero d body with
           | inr e => ret (inr (Wrapf "decoding: " e ""))
           | inl a => ret (inl a)
           end
  end.

(** *** coingecko/token.go *)
Definition gecko_SupportsChain (chain : string) : bool := true.
Definition gecko_GetPriceByAddress (baseURL chain address currency : string) : PM W (Price + error) :=
  let url := (baseURL +:+ "/api/v3/simple/token_price/" +:+ chain +:+ "?contract_addresses=" +:+ ToLower address +:+
    "&vs_currencies=" +:+ ToLower currency)%string in
  r <- token_fetch url ∅ (dec_map ∅ (dec_map fzero dec_float)) ;;
  match r with
  | inr e => retp (inr e)
  | inl raw =>
      let addr := ToLower address in
      match raw !! addr with
      | None => retp (inr ErrCoinNotFound)
      | Some data =>
          match data !! ToLower currency with
          | None => retp (inr ErrCoinNotFound)
          | Some val =>
              now <- w_Now ;;
              v <~ of_option (dec_NewFromFloat val) ;;
              retp (inl (basicPrice addr currency v "coingecko" now now))
          end
      end
  end.

(** *** dexscreener/token.go *)
Definition dex_SupportsChain (chain : string) : bool := true.
Record dexPair := mkDexPair { dp_PriceUsd : string; dp_Symbol : string; dp_Name : string }.
Definition dexPair_fields : list (field dexPair) := [
  fld "priceUsd" dec_string dp_PriceUsd (fun x t => mkDexPair x (dp_Symbol t) (dp_Name t));
  fld "baseToken" (dec_struct [
      fld "symbol" dec_string fst (fun x t => (x, snd t)); fld "name" dec_string snd (fun x t => (fst t, x))])
    (fun t => (dp_Symbol t, dp_Name t)) (fun x t => mkDexPair (dp_PriceUsd t) x.1 x.2)].
Definition dexTokenResponse_fields : list (field (list dexPair)) :=
  [fld "pairs" (dec_slice (mkDexPair "" "" "") (dec_struct dexPair_fields)) id (fun x _ => x)].
Definition dex_GetPriceByAddress (baseURL chain address currency : string) : PM W (Price + error) :=
  let url := (baseURL +:+ "/tokens/v1/" +:+ chain +:+ "/" +:+ ToLower address)%string in
  r <- token_fetch url [] (dec_struct dexTokenResponse_fields) ;;
  match r with
  | inr e => retp (inr e)
  | inl pairs =>
      match head pairs with
      | None => retp (inr ErrCoinNotFound)
      | Some tok =>
          if bool_decide (dp_PriceUsd tok = ""%string) then retp (inr ErrCoinNotFound) else
          match dec_NewFromString (dp_PriceUsd tok) with
          | None => retp (inr (Wrapf "parsing price: " (decimal_error (dp_PriceUsd tok)) ""))
          | Some price =>
              now <- w_Now ;;
              retp (inl (basicPrice (ToLower address) "usd" price "dexscreener" now now))
          end
      end
  end.
End providers.

(** ** Behaviour *)
Section behaviour.
Context {O : DecimalOps} {L : DecimalLaws O} `{!GoJSON} `{!Unicode} `{!GoParse}.
Context {W : Type} `{!ClockOps W} `{!HTTPClient W} `{!GoFmt}.
Implicit Types s : prov W.

(** A response that was fetched and decoded, with what decoding keeps. *)
Lemma fetch_runs {A B} st rq (zero : A) d (P : A -> Prop) k s (Q : B + error -> prov W -> Prop) :
  P zero -> dec_keeps P d -> (forall e s', failed s s' e -> Q (inr e) s') ->
  (forall raw s1, same_health s s1 -> P raw -> runs (k raw) s1 Q) ->
  runs (r <- fetch_with st rq zero d ;; match r with inr e => retp (inr e) | inl raw => k raw end) s Q.
Proof.
  intros Hz Hd He Hk. apply runs_bind. pose proof (fetch_with_spec st rq zero d s) as Hf.
  destruct (fetch_with st rq zero d s) as [[raw|e] s1]; simpl; [|by apply runs_retp, He].
  destruct Hf as [Hh [j Hj]]. apply Hk; [done|]. by eapply Hd.
Qed.
Lemma now_runs {B} (k : Time -> PM (prov W) B) s s1 Q : same_health s s1 ->
  (forall now s2, same_health s s2 -> runs (k now) s2 Q) -> runs (now <- on_w w_Now ;; k now) s1 Q.
Proof.
  intros Hh Hk. apply runs_bind, Hk. eapply same_health_trans; [exact Hh|]. apply on_w_health.
Qed.
Lemma first_of_batch name (m : PM (prov W) (list Price + error)) coin cur s :
  runs m s (fun r s' => batch_answer name s s' [coin] cur r) ->
  runs (r <~ m ;; first_recorded r) s (fun r s' => price_answer name s s' coin cur r).
Proof.
  intros Hm. apply runs_bindp. eapply runs_mono; [|exact Hm]. intros r s' Hb.
  eapply runs_mono; [|exact (first_recorded_runs _ _ _ _ _ _ Hb)]. by intros r1 s2 Hp.
Qed.

(** *** coingecko *)
Lemma gecko_loop_spec raw coinIDs cur now s0 : forall prices s, same_health s0 s ->
  runs (gecko_loop raw coinIDs cur now prices) s (fun r s' =>
    match r with
    | inl ps => same_health s0 s' /\ grown "coingecko" coinIDs cur prices ps
    | inr e => failed s0 s' e
    end).
Proof.
  induction coinIDs as [|id coinIDs IH]; intros prices s Hh; cbn [gecko_loop].
  { apply runs_retp. split; [done|apply grown_nil]. }
  assert (forall prices', (forall ps, grown "coingecko" coinIDs cur prices' ps -> grown "coingecko" (id :: coinIDs) cur prices ps) ->
    runs (gecko_loop raw coinIDs cur now prices') s (fun r s' =>
      match r with
      | inl ps => same_health s0 s' /\ grown "coingecko" (id :: coinIDs) cur prices ps
      | inr e => failed s0 s' e
      end)) as Hnext.
  { intros prices' Hg. eapply runs_mono; [|by apply IH]. intros [ps|e] s'; [|done]. intros [? ?]. split; auto. }
  destruct (raw !! id) as [data|]; [|apply Hnext; intros ?; apply grown_skip].
  destruct (data !! cur) as [num|]; [|apply Hnext; intros ?; apply grown_skip].
  destruct (dec_NewFromString num) as [val|].
  - apply Hnext. intros ps. by apply grown_price.
  - apply fail_runs. eapply same_health_failed; [exact Hh|]. apply failed_now.
Qed.

Lemma gecko_GetPrices_runs cfg coinIDs cur s :
  runs (gecko_GetPrices cfg coinIDs cur) s (fun r s' => batch_answer "coingecko" s s' coinIDs cur r).
Proof.
  unfold gecko_GetPrices. apply (fetch_runs _ _ _ _ (fun _ => True)); [done|done|done|]. intros raw s1 Hh _.
  apply (now_runs _ s); [done|]. intros now s2 Hh2. apply runs_bindp. eapply runs_mono; [|by apply gecko_loop_spec].
  intros [ps|e] s3; [|by intros; apply runs_retp]. intros [Hh3 Hg]. by apply finish_runs.
Qed.

(** *** coinmarketcap *)
Definition cmc_finite (raw : cmcResponse) : Prop :=
  map_Forall (fun _ => Forall (fun e => map_Forall (fun _ q => finite (cm_Price q)) (cm_Quote e))) (cm_Data raw).
Lemma cmcQuote_finite : dec_keeps (fun q => finite (cm_Price q)) (dec_struct cmcQuote_fields).
Proof. finite_fields. Qed.
#[local] Hint Resolve cmcQuote_finite : finite.
Lemma cmcEntry_finite :
  dec_keeps (fun e => map_Forall (fun _ q => finite (cm_Price q)) (cm_Quote e)) (dec_struct cmcEntry_fields).
Proof. finite_fields. Qed.
#[local] Hint Resolve cmcEntry_finite : finite.
Lemma cmcResponse_finite : dec_keeps cmc_finite (dec_struct cmcResponse_fields).
Proof. unfold cmc_finite. finite_fields. Qed.

Lemma cmc_loop_spec raw coinIDs cur key now : cmc_finite raw -> forall prices,
  exists ps, cmc_loop raw coinIDs cur key now prices = Some ps /\ grown "coinmarketcap" coinIDs cur prices ps.
Proof.
  intros Hf. induction coinIDs as [|id coinIDs IH]; intros prices; cbn [cmc_loop].
  { eexists. split; [done|apply grown_nil]. }
  assert (match (entries ← cm_Data raw !! ToUpper id; entry ← head entries; cm_Quote entry !! key) with
    Some q => finite (cm_Price q) | None => True end) as Hq.
  { destruct (cm_Data raw !! ToUpper id) as [l|] eqn:El; [|done]. specialize (Hf _ _ El). cbn [mbind option_bind].
    destruct l as [|e l]; [done|]. apply Forall_cons in Hf as [Hf _]. cbn [head mbind option_bind].
    destruct (cm_Quote e !! key) as [q|] eqn:Eq; [|done]. exact (Hf _ _ Eq). }
  destruct (_ ≫= _) as [q|].
  - destruct (NewFromFloat_some _ Hq) as [v ->]. cbn [mbind option_bind].
    destruct (IH (prices ++ [basicPrice id cur v "coinmarketcap" now now])) as (ps & -> & Hg).
    eexists. split; [done|]. eapply grown_price; [|exact Hg]; done.
  - destruct (IH prices) as (ps & -> & Hg). eexists. split; [done|]. by apply grown_skip.
Qed.

Lemma cmc_GetPrices_runs cfg coinIDs cur s :
  runs (cmc_GetPrices cfg coinIDs cur) s (fun r s' => batch_answer "coinmarketcap" s s' coinIDs cur r).
Proof.
  unfold cmc_GetPrices. apply (fetch_runs _ _ _ _ cmc_finite); [finite_zero|apply cmcResponse_finite|done|].
  intros raw s1 Hh Hf. apply (now_runs _ s); [done|]. intros now s2 Hh2.
  destruct (cmc_loop_spec raw coinIDs cur (ToUpper cur) now Hf []) as (ps & -> & Hg).
  unfold bindp. apply runs_bind. by apply finish_runs.
Qed.

(** *** blockchain *)
Lemma blockchain_loop_spec entry coinIDs cur now : finite (bc_Last entry) -> forall prices,
  exists ps, blockchain_loop entry coinIDs cur now prices = Some ps /\
    grown "blockchain" coinIDs cur prices ps /\ length ps = (length prices + length coinIDs)%nat.
Proof.
  intros Hf. destruct (NewFromFloat_some _ Hf) as [v Hv].
  induction coinIDs as [|id coinIDs IH]; intros prices; cbn [blockchain_loop].
  { eexists. split_and!; [done|apply grown_nil|simpl; lia]. }
  rewrite Hv. cbn [mbind option_bind].
  destruct (IH (prices ++ [basicPrice id cur v "blockchain" now now])) as (ps & -> & Hg & Hl).
  eexists. split_and!; [done|eapply grown_price; [|exact Hg]; done|]. rewrite Hl, length_app. simpl. lia.
Qed.
Lemma grown_sublist name coinIDs coinIDs' cur prices ps : coinIDs `sublist_of` coinIDs' ->
  grown name coinIDs cur prices ps -> grown name coinIDs' cur prices ps.
Proof. intros Hs (new & -> & Hs' & Hp). exists new. split_and!; [done|by etrans|done]. Qed.
Lemma filter_sublist {A} (P : A -> Prop) `{forall x, Decision (P x)} (l : list A) : filter P l `sublist_of` l.
Proof.
  induction l as [|x l IH]; [done|]. rewrite filter_cons. by destruct (decide (P x)); constructor.
Qed.

Lemma blockchain_GetPrices_runs cfg coinIDs cur s :
  runs (blockchain_GetPrices cfg coinIDs cur) s (fun r s' => batch_answer "blockchain" s s' coinIDs cur r).
Proof.
  unfold blockchain_GetPrices. set (valid := filter _ coinIDs). destruct (Nat.eqb_spec (length valid) 0) as [|Hn];
    [apply fail_runs, failed_now|].
  apply (fetch_runs _ _ _ _ (map_Forall (fun _ e => finite (bc_Last e)))); [done| |done|].
  { apply dec_map_keeps; [done|finite_fields]. }
  intros raw s1 Hh Hf. destruct (raw !! ToUpper cur) as [entry|] eqn:Er;
    [|apply fail_runs; eapply same_health_failed; [exact Hh|apply failed_now]].
  specialize (Hf _ _ Er). destruct (feqb _ _);
    [apply fail_runs; eapply same_health_failed; [exact Hh|apply failed_now]|].
  apply (now_runs _ s); [done|]. intros now s2 Hh2.
  destruct (blockchain_loop_spec entry valid cur now Hf []) as (ps & -> & Hg & Hl).
  unfold bindp. apply runs_bind. cbn [of_option ret fst snd]. apply runs_bind, runs_retp.
  apply (grown_sublist _ _ coinIDs) in Hg as (new & -> & Hs & Hp); [|apply filter_sublist]. cbn [app] in *.
  split_and!; [apply RecordSuccess_up|done| |done]. intros ->. simpl in Hl. lia.
Qed.

(** *** coinpaprika *)
Definition paprika_finite (r : paprikaResponse) : Prop := map_Forall (fun _ q => finite (pq_Price q)) (pk_Quotes r).
Lemma paprikaQuote_finite : dec_keeps (fun q => finite (pq_Price q)) (dec_struct paprikaQuote_fields).
Proof. finite_fields. Qed.
#[local] Hint Resolve paprikaQuote_finite : finite.
Lemma paprikaResponse_finite : dec_keeps paprika_finite (dec_struct paprikaResponse_fields).
Proof. unfold paprika_finite. finite_fields. Qed.
Lemma paprika_GetPrice_runs cfg coin cur s :
  runs (paprika_GetPrice cfg coin cur) s (fun r s' => price_answer "coinpaprika" s s' coin cur r).
Proof.
  unfold paprika_GetPrice. apply (fetch_runs _ _ _ _ paprika_finite); [done|apply paprikaResponse_finite|done|].
  intros raw s1 Hh Hf. destruct (_ !! _) as [q|] eqn:Eq;
    [|apply fail_runs; eapply same_health_failed; [exact Hh|apply failed_now]].
  specialize (Hf _ _ Eq). apply (now_runs _ s); [done|]. intros now s2 Hh2. apply runs_bind.
  destruct (NewFromFloat_some _ Hf) as [v ->]. unfold bindp. apply runs_bind, runs_retp.
  split; [by split_and!|apply RecordSuccess_up].
Qed.

(** A batch is the prices of the coins that succeed; when there is none it is
    [ErrCoinNotFound], whatever the failures were. *)
Lemma paprika_loop_spec cfg coinIDs cur : forall prices s,
  runs (paprika_loop cfg coinIDs cur prices) s (fun ps _ => grown "coinpaprika" coinIDs cur prices ps).
Proof.
  induction coinIDs as [|id coinIDs IH]; intros prices s; cbn [paprika_loop]; [apply runs_retp, grown_nil|].
  apply runs_bindp. eapply runs_mono; [|apply paprika_GetPrice_runs]. intros [p|e] s1 Hp;
    (eapply runs_mono; [|apply IH]); intros ps s2 Hg; [|by apply grown_skip]. destruct Hp as [Hp _]. by apply (grown_price _ _ _ _ _ _ p).
Qed.

(** A batch call answers with the prices of the coins that succeeded; when all
    fail it is [ErrCoinNotFound], whatever the failures were. *)
Lemma paprika_GetPrices_runs cfg coinIDs cur s :
  runs (paprika_GetPrices cfg coinIDs cur) s (fun r _ =>
    match r with
    | inl ps => grown "coinpaprika" coinIDs cur [] ps /\ (ps = [] -> coinIDs = [])
    | inr e => e = ErrCoinNotFound
    end).
Proof.
  unfold paprika_GetPrices. apply runs_bindp. eapply runs_mono; [|apply paprika_loop_spec]. intros ps s1 Hg.
  apply runs_retp. destruct (_ && _) eqn:E; [done|]. split; [done|]. intros ->.
  simpl in E. apply negb_false_iff, Nat.eqb_eq in E. by apply nil_length_inv.
Qed.

(** *** cryptocompare *)
(** The health after an error: down, or as it was. *)
Definition down_or_same s s' : Prop := (pv_healthy s' = false /\ is_Some (pv_lastError s')) \/ same_health s s'.
Lemma failed_down_or_same s s' e : failed s s' e -> down_or_same s s'.
Proof. intros [?|(m & _ & ?)]; [by left|by right]. Qed.
Lemma compare_fetchOne_runs cfg coin cur s :
  runs (compare_fetchOne cfg coin cur) s (fun r s' =>
    match r with inl p => same_health s s' /\ priced "cryptocompare" coin cur p | inr _ => down_or_same s s' end).
Proof.
  unfold compare_fetchOne. apply (fetch_runs _ _ _ _ (map_Forall (fun _ f => finite f))); [done| | |].
  { apply dec_map_keeps; [done|apply dec_float_finite]. }
  { intros e s'. apply failed_down_or_same. }
  intros raw s1 Hh Hf. destruct (_ !! _) as [val|] eqn:Er; [|apply runs_retp; by right].
  specialize (Hf _ _ Er). apply (now_runs _ s); [done|]. intros now s2 Hh2.
  destruct (NewFromFloat_some _ Hf) as [v ->]. unfold bindp. by apply runs_bind, runs_retp.
Qed.

Lemma compare_GetPrice_runs cfg coin cur s :
  runs (compare_GetPrice cfg coin cur) s (fun r s' =>
    match r with inl p => priced "cryptocompare" coin cur p /\ up s' | inr _ => down_or_same s s' end).
Proof.
  unfold compare_GetPrice, compare_GetPrices. do 2 apply runs_bindp. cbn [compare_loop]. apply runs_bindp.
  eapply runs_mono; [|apply compare_fetchOne_runs]. intros [p|e] s1.
  - intros [Hh Hp]. apply runs_retp. cbn. apply runs_bind, runs_retp. split; [done|apply RecordSuccess_up].
  - intros Hd. destruct (hard_error e); [by apply runs_retp, runs_retp|by apply runs_retp, runs_retp].
Qed.

(** A refused key is a coin not found: fetchOne has no case for a 401, the
    unexpected status is none of the errors the batch propagates. *)
Theorem compare_unauthorized cfg coin cur s code body w : code = 401 \/ code = 403 ->
  http_Do (GET (cfg_BaseURL cfg +:+ "/data/price?fsym=" +:+ ToUpper coin +:+ "&tsyms=" +:+ ToUpper cur))
    (pv_world s) = (HResponse code body, w) ->
  exists s', compare_GetPrice cfg coin cur s = (Some (inr ErrCoinNotFound), s') /\ pv_healthy s' = false /\
    pv_lastError s' = Some (unexpected_status code).
Proof.
  intros Hcode Hd. unfold compare_GetPrice, compare_GetPrices, bindp. rewrite !bind_unfold. cbn [compare_loop].
  unfold bindp. rewrite !bind_unfold. unfold compare_fetchOne, fetch_with. rewrite !bind_unfold. unfold on_w. rewrite Hd.
  destruct Hcode as [-> | ->]; (eexists; split; [reflexivity|by split]).
Qed.
End behaviour.

Section tokens.
Context {O : DecimalOps} {L : DecimalLaws O} `{!GoJSON} `{!Unicode} `{!GoParse}.
Context {W : Type} `{!ClockOps W} `{!HTTPClient W} `{!GoFmt}.

(** The coingecko token provider never panics: what it decodes is finite.
    Its price is the lower-cased address's, in the currency asked for; the
    dexscreener one answers in dollars, and does not read the currency. *)
Theorem token_providers_spec baseURL chain address cur cur' (w : W) :
  (exists r w', gecko_GetPriceByAddress baseURL chain address cur w = (Some r, w') /\
     forall p, r = inl p -> CoinID p = ToLower address /\ Currency p = cur /\ PProvider p = "coingecko"%string) /\
  (exists r w', dex_GetPriceByAddress baseURL chain address cur w = (Some r, w') /\
     forall p, r = inl p -> CoinID p = ToLower address /\ Currency p = "usd"%string /\ PProvider p = "dexscreener"%string) /\
  dex_GetPriceByAddress baseURL chain address cur w = dex_GetPriceByAddress baseURL chain address cur' w.
Proof.
  split_and!; [| |done].
  - apply runs_elim. unfold gecko_GetPriceByAddress. cbv zeta. apply runs_bind.
    set (url := (_ +:+ _)%string). unfold token_fetch at 1. rewrite bind_unfold.
    set (w1 := (token_fetch _ _ _ w).2). clearbody w1.
    destruct (http_Do (GET url) w).1 as [e| |code body]; [by apply runs_retp..|].
    destruct (code =? 429); [by apply runs_retp|]. destruct (negb _); [by apply runs_retp|].
    unfold decode. destruct body as [j|]; [|by apply runs_retp].
    destruct (dec_map ∅ (dec_map fzero dec_float) ∅ j) as [raw|] eqn:E; [|by apply runs_retp]. cbn [fst ret].
    apply (dec_map_keeps (map_Forall (fun _ f => float_finite f = true)) ∅) in E;
      [|done|by apply dec_map_keeps, dec_float_finite|done].
    destruct (raw !! ToLower address) as [data|] eqn:Ea; [|by apply runs_retp].
    destruct (data !! ToLower cur) as [val|] eqn:Ec; [|by apply runs_retp].
    apply runs_bind. destruct (NewFromFloat_some val) as [v Hv].
    { specialize (E _ _ Ea). by apply (E (ToLower cur)). }
    unfold bindp. apply runs_bind. rewrite Hv. cbn. by intros p [= <-].
  - apply runs_elim. unfold dex_GetPriceByAddress. cbv zeta. apply runs_bind.
    destruct (fst _) as [pairs|e]; [|by apply runs_retp]. destruct (head pairs) as [tok|]; [|by apply runs_retp].
    case_bool_decide; [by apply runs_retp|].
    destruct (dec_NewFromString _) as [v|]; [|by apply runs_retp]. apply runs_bind, runs_retp. by intros p [= <-].
Qed.
End tokens.
