(* ===== verification/Catalog.v ===== *)
(** * internal/registry/coingecko.go

    Fetching the token catalogue from CoinGecko, and the loop that refreshes
    the registry with it. *)
From S2P Require Import Prelude GoLib GoStrings Decimal Model GoJSON Exchange Registry Demo.
Open Scope Z_scope.

Section catalog.
Context `{!GoJSON} `{!GoFmt} `{!Unicode} `{!MapRange} {W : Type} `{!HTTPClient W}.

Definition CoinEntry_fields : list (field CoinEntry) := [
  fld "id" dec_string ID (fun x e => mkCoinEntry x (Symbol e) (Platforms e));
  fld "symbol" dec_string Symbol (fun x e => mkCoinEntry (ID e) x (Platforms e));
  fld "platforms" (dec_map ""%string dec_string) Platforms (fun x e => mkCoinEntry (ID e) (Symbol e) x)].
Definition catalog_url (baseURL : string) : string := trim_slashes baseURL +:+ "/coins/list?include_platform=true".
Definition FetchCoinGeckoCatalog (baseURL : string) : M W (list CoinEntry + error) :=
  r <- http_Do (GET (catalog_url baseURL)) ;;
  match r with
  | HBadRequest e => ret (inr (Wrapf "creating request: " e ""))
  | HFailed => ret (inr (Errorf "fetching catalog"))
  | HResponse code body =>
      if negb (code =? 200) then ret (inr (Errorf ("catalog response: " +:+ fmt_d code)))
      else match decode [] (dec_slice (mkCoinEntry "" "" ∅) (dec_struct CoinEntry_fields)) body with
           | inr e => ret (inr (Wrapf "decoding catalog: " e ""))
           | inl entries => ret (inl entries)
           end
  end.

(** What an event does to the goroutine of [StartRefresh]: a tick refreshes
    the registry, the end of the context ends the loop. *)
Inductive refresh_event := CtxDone | Tick.
Definition refresh_turn (baseURL : string) (chains : gmap string bool) (e : refresh_event) (r : TokenRegistry) :
    M W (option TokenRegistry) :=
  match e with
  | CtxDone => ret None
  | Tick => fetched <- FetchCoinGeckoCatalog baseURL ;; ret (Some (refresh_tick fetched chains r))
  end.
(** The loop on a sequence of events, up to the end of the context. *)
Fixpoint refresh_loop (baseURL : string) (chains : gmap string bool) (es : list refresh_event) (r : TokenRegistry) :
    M W TokenRegistry :=
  match es with
  | [] => ret r
  | e :: es =>
      o <- refresh_turn baseURL chains e r ;;
      match o with None => ret r | Some r => refresh_loop baseURL chains es r end
  end.

(** ** What a refresh keeps *)
Definition resolvable (r r' : TokenRegistry) : Prop :=
  forall chain address, is_Some (Resolve chain address r) -> is_Some (Resolve chain address r').
Lemma resolvable_put chain address coinID r : resolvable r (put_contract chain address coinID r).
Proof.
  intros chain' address' Ha. unfold Resolve, put_contract in *. simpl. rewrite lookup_insert. by case_decide.
Qed.
Lemma LoadCatalog_keeps entries chains r : registry_wf r ->
  registry_wf (LoadCatalog entries chains r) /\ resolvable r (LoadCatalog entries chains r).
Proof.
  intros Hr. apply LoadCatalog_ind; [split; [done|by intros ??]|]. intros e ca r' _ _ _ [Hw Hres].
  split; [by apply put_contract_wf|]. intros chain address Ha. by apply resolvable_put, Hres.
Qed.
Lemma refresh_tick_keeps fetched chains r : registry_wf r ->
  registry_wf (refresh_tick (E := error) fetched chains r) /\ resolvable r (refresh_tick fetched chains r).
Proof. intros Hr. destruct fetched; [by apply LoadCatalog_keeps|]. split; [done|by intros ??]. Qed.

(** C39. Whatever the server answers and however often the loop turns, the registry
    stays consistent and no address that resolved stops resolving. *)
Theorem refresh_loop_keeps baseURL chains es : forall r w, registry_wf r ->
  let r' := fst (refresh_loop baseURL chains es r w) in registry_wf r' /\ resolvable r r'.
Proof.
  induction es as [|e es IH]; intros r w Hr; [split; [done|by intros ??]|]. simpl. unfold bind.
  destruct e; simpl; [split; [done|by intros ??]|]. unfold bind, ret.
  destruct (FetchCoinGeckoCatalog baseURL w) as [fetched w1].
  destruct (refresh_tick_keeps fetched chains r Hr) as [Hw Hres].
  destruct (IH (refresh_tick fetched chains r) w1 Hw) as [Hw' Hres']. split; [done|].
  intros chain address Ha. by apply Hres', Hres.
Qed.

(** A catalogue is loaded from a 200 whose body decodes, and from nothing else. *)
Lemma refresh_turn_refused baseURL chains r w code body :
  http_Do (GET (catalog_url baseURL)) w = (HResponse code body, snd (http_Do (GET (catalog_url baseURL)) w)) ->
  code <> 200 -> fst (refresh_turn baseURL chains Tick r w) = Some r.
Proof.
  intros Hd Hc. simpl. unfold bind, ret, FetchCoinGeckoCatalog. rewrite bind_unfold, Hd. simpl.
  apply Z.eqb_neq in Hc. by rewrite Hc.
Qed.
End catalog.

(** ** Witness: a server that knows one token *)
#[local] Existing Instance plain_GoJSON.
#[local] Instance token_server : HTTPClient unit := {
  http_Do _ := ret (HResponse 200 (Some (VArr [VObj
    [("id", VStr "tether"); ("symbol", VStr "usdt"); ("platforms", VObj [("ethereum", VStr "0xDAC1")])]])))%string }.
Definition one_chain : gmap string bool := {["ethereum"%string := true]}.

Example refresh_resolves :
  Resolve "Ethereum" "0xdac1" (fst (refresh_loop "https://api.coingecko.com/" one_chain [Tick; Tick; CtxDone; Tick] New tt)) =
    Some "tether"%string.
Proof. vm_compute. reflexivity. Qed.

Lemma refresh_loop_keeps_witness :
  registry_wf (fst (refresh_loop "https://api.coingecko.com" one_chain [Tick; Tick] New tt)).
Proof.
  exact (proj1 (refresh_loop_keeps "https://api.coingecko.com" one_chain [Tick; Tick] New tt New_wf)).
Defined.
