(* ===== verification/Alerts.v ===== *)
(** * internal/app/alert_service.go

    Price alerts.  The alerts are objects on a heap (a list, a pointer is an
    index), shared by the map of the service, by the [OnPriceUpdate] calls in
    flight, which collect pointers under the read lock and trigger them one by
    one under the write lock, and by the webhook goroutines they start. *)
From S2P Require Import Prelude GoLib GoStrings Decimal Model Demo.
From Stdlib Require Import Ascii.
Open Scope Z_scope.

(** ** net.IP

    Addresses are byte strings of length 4 or 16, as [net.ParseIP] makes them;
    the classification of a 16-byte address goes through [To4]. *)
Definition IP : Type := list Z.
Definition To4 (ip : IP) : option IP :=
  if bool_decide (length ip = 4%nat) then Some ip
  else if bool_decide (length ip = 16%nat) &&
          bool_decide (take 12 ip = replicate 10 0 ++ [255; 255])
  then Some (drop 12 ip) else None.
Definition ip_at (ip : IP) (i : nat) : Z := default 0 (ip !! i).
Definition IsLoopback (ip : IP) : bool :=
  match To4 ip with
  | Some ip4 => ip_at ip4 0 =? 127
  | None => bool_decide (ip = replicate 15 0 ++ [1])
  end.
Definition IsPrivate (ip : IP) : bool :=
  match To4 ip with
  | Some ip4 =>
      (ip_at ip4 0 =? 10) || ((ip_at ip4 0 =? 172) && (Z.land (ip_at ip4 1) 240 =? 16)) ||
      ((ip_at ip4 0 =? 192) && (ip_at ip4 1 =? 168))
  | None => bool_decide (length ip = 16%nat) && (Z.land (ip_at ip 0) 254 =? 252)
  end.
Definition IsLinkLocalUnicast (ip : IP) : bool :=
  match To4 ip with
  | Some ip4 => (ip_at ip4 0 =? 169) && (ip_at ip4 1 =? 254)
  | None => bool_decide (length ip = 16%nat) && (ip_at ip 0 =? 254) && (Z.land (ip_at ip 1) 192 =? 128)
  end.
Definition IsLinkLocalMulticast (ip : IP) : bool :=
  match To4 ip with
  | Some ip4 => (ip_at ip4 0 =? 224) && (ip_at ip4 1 =? 0) && (ip_at ip4 2 =? 0)
  | None => bool_decide (length ip = 16%nat) && (ip_at ip 0 =? 255) && (Z.land (ip_at ip 1) 15 =? 2)
  end.

(** A dotted quad: four decimal fields up to 255 without leading zeros. *)
Definition octet (s : string) : option Z :=
  let ds := (fun c => byte_of c - 48) <$> String.list_ascii_of_string s in
  match ds with
  | [] => None
  | d :: ds' =>
      let v := fold_left (fun a d => 10 * a + d) ds 0 in
      if forallb (fun d => rng 0 9 d) ds && bool_decide (length ds <= 3)%nat &&
         (v <=? 255) && (bool_decide (ds' = []) || negb (d =? 0))
      then Some v else None
  end.
Definition parse_ipv4 (s : string) : option IP :=
  match split_byte "."%char s with
  | [a; b; c; d] =>
      a ← octet a; b ← octet b; c ← octet c; d ← octet d; Some [a; b; c; d]
  | _ => None
  end.
(** [net.ParseIP] looks at the first ['.'] or [':']; [net/url] and the IPv6
    syntax are a class. *)
Class NetParse := {
  url_Parse : string -> (string * string) + error; (* scheme and host name *)
  parse_ipv6 : string -> option IP }.
Fixpoint net_ParseIP_from `{NetParse} (whole s : string) : option IP :=
  match s with
  | EmptyString => None
  | String c s' =>
      if bool_decide (c = "."%char) then parse_ipv4 whole
      else if bool_decide (c = ":"%char) then parse_ipv6 whole
      else net_ParseIP_from whole s'
  end.
Definition net_ParseIP `{NetParse} (s : string) : option IP := net_ParseIP_from s s.

Definition internal_ip (ip : IP) : bool :=
  IsLoopback ip || IsPrivate ip || IsLinkLocalUnicast ip || IsLinkLocalMulticast ip.
Definition blocked_hosts : list string := ["localhost"; "metadata.google"; "169.254.169.254"]%string.

Definition validateWebhookURL `{NetParse} `{Unicode} (rawURL : string) : option error :=
  match url_Parse rawURL with
  | inr e => Some (Wrapf "invalid URL: " e "")
  | inl (scheme, host) =>
      if negb (bool_decide (scheme = "http"%string)) && negb (bool_decide (scheme = "https"%string))
      then Some (Errorf "only http/https schemes allowed") else
      match net_ParseIP host with
      | Some ip =>
          if internal_ip ip then Some (Errorf ("internal IP addresses not allowed: " +:+ host)) else
          if existsb (contains (ToLower host)) blocked_hosts
          then Some (Errorf ("blocked hostname: " +:+ host)) else None
      | None =>
          if existsb (contains (ToLower host)) blocked_hosts
          then Some (Errorf ("blocked hostname: " +:+ host)) else None
      end
  end.

Definition hex_digit (z : Z) : ascii := of_byte (if z <? 10 then 48 + z else 87 + z).
Definition hex_byte (b : Z) : string :=
  String (hex_digit (Z.shiftr b 4)) (String (hex_digit (Z.land b 15)) EmptyString).
(** [generateAlertID] with the bytes [b] that [rand.Read] gave. *)
Definition generateAlertID (b : list Z) : string :=
  "alert_" +:+ String.concat "" (hex_byte <$> b).

Section alerts.
Context {O : DecimalOps} `{!MapRange} `{!GoFmt} `{!NetParse} `{!Unicode}.

Record webhookPayload := mkPayload {
  wp_AlertID : string; wp_Coin : string; wp_Currency : string; wp_Condition : string;
  wp_Threshold : string; wp_Price : string; wp_TriggeredAt : string }.

(** The state: the objects, the map, the updates in flight with the pointers
    they still have to trigger, and the webhooks started, oldest first. *)
Record AlertService := mkAS {
  as_heap : list Alert;
  as_alerts : gmap string nat;
  as_updates : list (Price * list nat);
  as_webhooks : list (nat * Price) }.
Definition NewAlertService : AlertService := mkAS [] ∅ [] [].

Definition conditionMet (alert : Alert) (price : Price) : bool :=
  match ACondition alert with
  | ConditionAbove => dec_GreaterThanOrEqual (Value price) (AThreshold alert)
  | ConditionBelow => dec_LessThanOrEqual (Value price) (AThreshold alert)
  | ConditionOther _ => false
  end.

(** The tests of the loop of [OnPriceUpdate] on one alert. *)
Definition matches (price : Price) (alert : Alert) : bool :=
  AActive alert && bool_decide (ACoinID alert = CoinID price) &&
  bool_decide (ACurrency alert = Currency price) && conditionMet alert price.

Definition collect (s : AlertService) (price : Price) : list nat :=
  omap (fun '(_, i) => a ← as_heap s !! i; if matches price a then Some i else None)
    (map_range (as_alerts s)).

(** [OnPriceUpdate] up to the release of the read lock. *)
Definition OnPriceUpdate (price : Price) (s : AlertService) : AlertService :=
  mkAS (as_heap s) (as_alerts s) (as_updates s ++ [(price, collect s price)]) (as_webhooks s).

Definition deactivate (now : Time) (a : Alert) : Alert :=
  mkAlert (AID a) (ACoinID a) (ACurrency a) (ACondition a) (AThreshold a) (AWebhookURL a)
    false (ACreatedAt a) (Some now).

(** [trigger] of one pointer. *)
Definition trigger (now : Time) (i : nat) (price : Price) (s : AlertService) : AlertService :=
  match as_heap s !! i with
  | None => s
  | Some a =>
      if AActive a then
        mkAS (<[i := deactivate now a]> (as_heap s)) (as_alerts s) (as_updates s)
          (as_webhooks s ++ [(i, price)])
      else s
  end.

(** The next turn of the second loop of the [k]-th update in flight. *)
Definition trigger_next (k : nat) (now : Time) (s : AlertService) : AlertService :=
  match as_updates s !! k with
  | Some (price, i :: rest) =>
      trigger now i price (mkAS (as_heap s) (as_alerts s) (<[k := (price, rest)]> (as_updates s)) (as_webhooks s))
  | _ => s
  end.

Definition Create (rnd : list Z) (now : Time) (alert : Alert) (s : AlertService) :
    option error * AlertService :=
  match validateWebhookURL (AWebhookURL alert) with
  | Some e => (Some (Wrapf "invalid webhook URL: " e ""), s)
  | None =>
      let id := if bool_decide (AID alert = ""%string) then generateAlertID rnd else AID alert in
      let a := mkAlert id (ACoinID alert) (ACurrency alert) (ACondition alert) (AThreshold alert)
                 (AWebhookURL alert) true now (ATriggeredAt alert) in
      (None, mkAS (as_heap s ++ [a]) (<[id := length (as_heap s)]> (as_alerts s))
               (as_updates s) (as_webhooks s))
  end.

(** [List] copies the alerts. *)
Definition List (s : AlertService) : list Alert :=
  omap (fun '(_, i) => as_heap s !! i) (map_range (as_alerts s)).

Definition Delete (id : string) (s : AlertService) : option error * AlertService :=
  match as_alerts s !! id with
  | None => (Some (Errorf ("alert not found: " +:+ id)), s)
  | Some _ => (None, mkAS (as_heap s) (delete id (as_alerts s)) (as_updates s) (as_webhooks s))
  end.

(** ** fireWebhook

    What the client sees: the attempts and the pauses between them.  [resp k]
    is the outcome of attempt [k]: a status code, or none on an error. *)
Inductive wh_action := WPost (url : string) (body : webhookPayload) | WSleep (d : Duration).

Definition payload (alert : Alert) (price : Price) : webhookPayload :=
  mkPayload (AID alert) (ACoinID alert) (ACurrency alert) (AlertCondition_String (ACondition alert))
    (dec_String (AThreshold alert)) (dec_String (Value price))
    (fmt_RFC3339 (default 0 (ATriggeredAt alert))).

Definition delivered (r : option Z) : bool :=
  match r with Some status => status <? 500 | None => false end.

Fixpoint post_loop (resp : nat -> option Z) (url : string) (body : webhookPayload)
    (attempt fuel : nat) : list wh_action * bool :=
  match fuel with
  | 0%nat => ([], false)
  | S fuel =>
      if delivered (resp attempt) then ([WPost url body], true) else
      let '(acts, ok) := post_loop resp url body (S attempt) fuel in
      (WPost url body ::
         (if (attempt <? 2)%nat then [WSleep (Z.of_nat (attempt + 1) * Second)] else []) ++ acts, ok)
  end.
Definition maxWebhookAttempts : nat := 3.
Definition fireWebhook (resp : nat -> option Z) (alert : Alert) (price : Price) :
    list wh_action * bool :=
  post_loop resp (AWebhookURL alert) (payload alert price) 0 maxWebhookAttempts.

(** ** Runs

    Every interleaving of updates, triggers, creations and deletions. *)
Inductive alert_local : AlertService -> AlertService -> Prop :=
  | step_trigger k now s : alert_local s (trigger_next k now s)
  | step_create rnd now alert s : alert_local s (snd (Create rnd now alert s))
  | step_delete id s : alert_local s (snd (Delete id s)).
Inductive alert_step : AlertService -> AlertService -> Prop :=
  | step_local s s' : alert_local s s' -> alert_step s s'
  | step_update price s : alert_step s (OnPriceUpdate price s).
Definition reachable (s : AlertService) : Prop := rtc alert_step NewAlertService s.

(** The parts of an alert no operation changes. *)
Definition triggers (a : Alert) (price : Price) : Prop :=
  ACoinID a = CoinID price /\ ACurrency a = Currency price /\ conditionMet a price = true.

Record as_wf (s : AlertService) : Prop := {
  wf_once : NoDup (as_webhooks s).*1;
  wf_fired : forall i price, (i, price) ∈ as_webhooks s ->
    exists a, as_heap s !! i = Some a /\ AActive a = false /\ is_Some (ATriggeredAt a) /\ triggers a price;
  wf_pending : forall price l i, (price, l) ∈ as_updates s -> i ∈ l ->
    exists a, as_heap s !! i = Some a /\ triggers a price;
  wf_map : forall id i, as_alerts s !! id = Some i -> exists a, as_heap s !! i = Some a /\ AID a = id;
  wf_inactive : forall i a, as_heap s !! i = Some a -> AActive a = false -> is_Some (ATriggeredAt a) }.

Lemma OnPriceUpdate_wf price s : as_wf s -> as_wf (OnPriceUpdate price s).
Proof.
  intros [Ho Hfi Hpe Hma Hina]. split; simpl; try done.
  intros p l i Hin Hi. apply elem_of_app in Hin as [Hin|Hin]; [by eapply Hpe|].
  apply list_elem_of_singleton in Hin. simplify_eq. unfold collect in Hi.
  apply list_elem_of_omap in Hi as ([id j] & _ & Hj).
  destruct (as_heap s !! j) as [a|] eqn:Ea; simplify_eq/=.
  destruct (matches price a) eqn:Em; simplify_eq. exists a. split; [done|].
  unfold matches in Em. to_prop. repeat match goal with H : bool_decide _ = true |- _ => apply bool_decide_eq_true in H end.
  done.
Qed.

Lemma trigger_wf now i price s :
  (forall a, as_heap s !! i = Some a -> triggers a price) -> as_wf s -> as_wf (trigger now i price s).
Proof.
  intros Hi [Ho Hfi Hpe Hma Hina]. unfold trigger. destruct (as_heap s !! i) as [a|] eqn:Ea; [|done].
  destruct (AActive a) eqn:Eact; [|done]. specialize (Hi a eq_refl).
  assert (forall j b, as_heap s !! j = Some b -> exists b', <[i := deactivate now a]> (as_heap s) !! j = Some b' /\
    (b' = b \/ (j = i /\ b = a /\ b' = deactivate now a))) as Hext.
  { intros j b Hb. destruct (decide (j = i)) as [->|].
    - rewrite list_lookup_insert_eq by by eapply lookup_lt_Some. simplify_eq.
      eexists. split; [done|]. by right.
    - rewrite list_lookup_insert_ne by done. eauto. }
  split; simpl.
  - rewrite fmap_app. apply NoDup_app. split_and!; [done| |apply NoDup_singleton].
    simpl. intros j Hj Hji. apply list_elem_of_singleton in Hji.
    apply list_elem_of_fmap in Hj as ([j' p] & Hj & Hjp). simpl in Hj.
    apply Hfi in Hjp as (b & Hb & Hbact & _). congruence.
  - intros j p Hin. apply elem_of_app in Hin as [Hin|Hin].
    + destruct (Hfi _ _ Hin) as (b & Hb & Hact & Hts & Htr).
      destruct (Hext _ _ Hb) as (b' & Hb' & [->|(-> & -> & ->)]); [|congruence].
      exists b. split_and!; done.
    + apply list_elem_of_singleton in Hin. simplify_eq. exists (deactivate now a).
      rewrite list_lookup_insert_eq by by eapply lookup_lt_Some. by split_and!.
  - intros p l j Hin Hj. destruct (Hpe _ _ _ Hin Hj) as (b & Hb & Htr).
    destruct (Hext _ _ Hb) as (b' & Hb' & [->|(-> & -> & ->)]); eauto.
  - intros id j (b & Hb & Hid)%Hma.
    destruct (Hext _ _ Hb) as (b' & Hb' & [->|(-> & -> & ->)]); eauto.
  - intros j b. rewrite list_lookup_insert. case_decide; [intros; simplify_eq; by eexists|by apply Hina].
Qed.

Lemma trigger_next_wf k now s : as_wf s -> as_wf (trigger_next k now s).
Proof.
  intros Hs. unfold trigger_next. destruct (as_updates s !! k) as [[price [|i rest]]|] eqn:Ek; try done.
  pose proof (list_elem_of_lookup_2 _ _ _ Ek) as Hin.
  apply trigger_wf.
  - simpl. intros a Ha. destruct (wf_pending _ Hs _ _ i Hin) as (b & Hb & ?); [set_solver|]. congruence.
  - destruct Hs as [Ho Hfi Hpe Hma Hina]. split; simpl; try done.
    intros p l j Hp Hj. apply list_elem_of_lookup in Hp as [k' Hk'].
    destruct (decide (k' = k)) as [->|].
    + rewrite list_lookup_insert_eq in Hk' by by eapply lookup_lt_Some. simplify_eq.
      eapply Hpe; [exact Hin|]. set_solver.
    + rewrite list_lookup_insert_ne in Hk' by done.
      eapply Hpe; [by eapply list_elem_of_lookup_2|done].
Qed.

Lemma Create_wf rnd now alert s : as_wf s -> as_wf (snd (Create rnd now alert s)).
Proof.
  intros [Ho Hfi Hpe Hma Hina]. unfold Create. destruct (validateWebhookURL _); [done|]. simpl.
  set (a := mkAlert _ _ _ _ _ _ _ _ _).
  split; simpl; try done.
  - intros i p (b & Hb & ?)%Hfi. exists b. split; [by apply lookup_app_l_Some|done].
  - intros p l i Hin Hi. destruct (Hpe _ _ _ Hin Hi) as (b & Hb & ?).
    exists b. split; [by apply lookup_app_l_Some|done].
  - intros id i. rewrite lookup_insert. case_decide as Hid; intros Hl.
    + simplify_eq. exists a. split; [|done]. rewrite lookup_app_r by lia. by rewrite Nat.sub_diag.
    + apply Hma in Hl as (b & Hb & ?). exists b. split; [by apply lookup_app_l_Some|done].
  - intros i b. rewrite lookup_app_Some, list_lookup_singleton_Some.
    intros [Hb|(_ & _ & <-)]; [by eapply Hina|done].
Qed.

Lemma Delete_wf id s : as_wf s -> as_wf (snd (Delete id s)).
Proof.
  intros [Ho Hfi Hpe Hma Hina]. unfold Delete. destruct (as_alerts s !! id); [|done]. split; simpl; try done.
  intros id' i. rewrite lookup_delete. case_decide; [done|]. apply Hma.
Qed.

Lemma alerts_reachable_wf s : reachable s -> as_wf s.
Proof.
  unfold reachable. intros Hr. assert (as_wf NewAlertService) as Hinit.
  { split; simpl; [constructor|set_solver..|done]. }
  revert Hinit. induction Hr as [|s1 s2 s3 Hstep _ IH]; [done|]. intros Hs. apply IH.
  destruct Hstep as [? ? []|]; eauto using OnPriceUpdate_wf, trigger_next_wf, Create_wf, Delete_wf.
Qed.

(** ** Where webhooks come from *)
Definition alerts_from (Q : Price -> Prop) (s : AlertService) : Prop :=
  Forall (fun u => Q u.1) (as_updates s) /\ Forall (fun w => Q w.2) (as_webhooks s).
Lemma OnPriceUpdate_from (Q : Price -> Prop) p s : Q p -> alerts_from Q s -> alerts_from Q (OnPriceUpdate p s).
Proof. intros Hp [Hu Hw]. split; [by apply Forall_snoc|done]. Qed.
Lemma alert_local_from (Q : Price -> Prop) s s' : alert_local s s' -> alerts_from Q s -> alerts_from Q s'.
Proof.
  intros Hl [Hu Hw]. destruct Hl as [k now s|rnd now alert s|id s].
  - unfold trigger_next. destruct (as_updates s !! k) as [[p [|i rest]]|] eqn:Ek; try by split.
    assert (Q p) as Hp by (eapply Forall_lookup_1 in Hu; [|exact Ek]; done).
    unfold trigger. simpl. destruct (as_heap s !! i) as [a|]; [destruct (AActive a)|]; split; simpl;
      try (apply Forall_insert; done); (done || by apply Forall_snoc).
  - unfold Create. destruct (validateWebhookURL _); by split.
  - unfold Delete. destruct (as_alerts s !! id); by split.
Qed.
End alerts.

Section properties.
Context {O : DecimalOps} `{!MapRange} `{!GoFmt} `{!NetParse} `{!Unicode}.

(** C9. However updates, triggers, creations and deletions interleave, an alert
    starts at most one webhook; one is started only by a price of the alert's
    coin and currency that meets its condition, and the alert it is started
    for is inactive and carries its trigger time. *)
Theorem alerts_fire_once (s : AlertService) : reachable s ->
  NoDup (as_webhooks s).*1 /\
  forall i price, (i, price) ∈ as_webhooks s -> exists a, as_heap s !! i = Some a /\
    AActive a = false /\ is_Some (ATriggeredAt a) /\
    ACoinID a = CoinID price /\ ACurrency a = Currency price /\ conditionMet a price = true.
Proof.
  intros [Ho Hfi _ _ _]%alerts_reachable_wf. split; [done|]. intros i price Hin.
  destruct (Hfi _ _ Hin) as (a & ? & ? & ? & ?). exists a. unfold triggers in *. tauto.
Qed.

(** [OnPriceUpdate] run to its end with nothing in between. *)
Definition deliver (now : Time) (price : Price) (s : AlertService) : AlertService :=
  fold_left (fun s i => trigger now i price s) (collect s price) s.

Lemma collect_spec s price i : i ∈ collect s price <->
  exists id a, as_alerts s !! id = Some i /\ as_heap s !! i = Some a /\ matches price a = true.
Proof.
  unfold collect. rewrite list_elem_of_omap. split.
  - intros ([id j] & Hin & Hj). destruct (as_heap s !! j) as [a|] eqn:Ea; simplify_eq/=.
    destruct (matches price a) eqn:Em; simplify_eq. apply elem_of_map_range in Hin. eauto.
  - intros (id & a & Hid & Ha & Hm). exists (id, i). rewrite elem_of_map_range. split; [done|].
    rewrite Ha. simpl. by rewrite Hm.
Qed.

Lemma collect_NoDup s price : as_wf s -> NoDup (collect s price).
Proof.
  intros [_ _ _ Hma _]. unfold collect.
  pose proof (NoDup_map_range_fst (as_alerts s)) as Hnd.
  assert (forall id i, (id, i) ∈ map_range (as_alerts s) -> as_alerts s !! id = Some i) as Hl
    by (intros ??; apply elem_of_map_range).
  revert Hnd Hl. induction (map_range (as_alerts s)) as [|[id i] l IH]; simpl; [constructor|].
  intros [Hni Hnd]%NoDup_cons Hl.
  assert (NoDup (omap (fun '(_, i) => a ← as_heap s !! i; if matches price a then Some i else None) l)) as IH'.
  { apply IH; [done|]. intros. apply Hl. set_solver. }
  destruct (as_heap s !! i) as [a|] eqn:Ea; simpl; [|done].
  destruct (matches price a); [|done]. constructor; [|done].
  intros ([id' j] & Hin & Hj)%list_elem_of_omap.
  destruct (as_heap s !! j) as [b|] eqn:Eb; simplify_eq/=. destruct (matches price b); simplify_eq.
  destruct (Hma id i) as (a1 & Ha1 & <-); [apply Hl; set_solver|].
  destruct (Hma id' i) as (a2 & Ha2 & <-); [apply Hl; set_solver|]. simplify_eq.
  apply Hni. apply list_elem_of_fmap. by exists (AID a, i).
Qed.

Lemma deliver_list now price l : forall s, NoDup l ->
  (forall i, i ∈ l -> exists a, as_heap s !! i = Some a /\ AActive a = true) ->
  let s' := fold_left (fun s i => trigger now i price s) l s in
  as_webhooks s' = as_webhooks s ++ ((fun i => (i, price)) <$> l) /\
  as_alerts s' = as_alerts s /\
  forall j, as_heap s' !! j = if bool_decide (j ∈ l) then deactivate now <$> as_heap s !! j else as_heap s !! j.
Proof.
  induction l as [|i l IH]; intros s Hnd Hact; simpl.
  { rewrite app_nil_r. split_and!; done. }
  apply NoDup_cons in Hnd as [Hni Hnd].
  destruct (Hact i) as (a & Ha & Hi); [set_solver|].
  set (s1 := trigger now i price s).
  assert (s1 = mkAS (<[i := deactivate now a]> (as_heap s)) (as_alerts s) (as_updates s)
    (as_webhooks s ++ [(i, price)])) as Hs1 by (unfold s1, trigger; by rewrite Ha, Hi).
  destruct (IH s1 Hnd) as (Hw & Hm & Hh).
  { intros j Hj. rewrite Hs1. simpl. rewrite list_lookup_insert_ne by set_solver. apply Hact. set_solver. }
  split_and!.
  - rewrite Hw, Hs1. simpl. by rewrite <- app_assoc.
  - rewrite Hm, Hs1. done.
  - intros j. rewrite Hh, Hs1. simpl. destruct (decide (j = i)) as [->|Hne].
    + rewrite bool_decide_eq_false_2, bool_decide_eq_true_2 by set_solver.
      rewrite list_lookup_insert_eq by by eapply lookup_lt_Some. by rewrite Ha.
    + rewrite list_lookup_insert_ne by done.
      rewrite (bool_decide_ext (j ∈ i :: l) (j ∈ l)) by set_solver. done.
Qed.

(** C24. A price update that runs undisturbed starts a webhook for exactly the
    registered alerts that are active, are for its coin and currency and whose
    condition it meets, each once, and deactivates exactly those. *)
Theorem deliver_exact now price (s : AlertService) : reachable s ->
  let s' := deliver now price s in
  exists fired, as_webhooks s' = as_webhooks s ++ ((fun i => (i, price)) <$> fired) /\
    NoDup fired /\ as_alerts s' = as_alerts s /\
    (forall i, i ∈ fired <-> exists id a, as_alerts s !! id = Some i /\ as_heap s !! i = Some a /\
       AActive a = true /\ ACoinID a = CoinID price /\ ACurrency a = Currency price /\
       conditionMet a price = true) /\
    (forall j, as_heap s' !! j = if bool_decide (j ∈ fired) then deactivate now <$> as_heap s !! j
                                 else as_heap s !! j).
Proof.
  intros Hs%alerts_reachable_wf. pose proof (collect_NoDup s price Hs) as Hnd.
  assert (forall a, matches price a = true <-> AActive a = true /\ ACoinID a = CoinID price /\
    ACurrency a = Currency price /\ conditionMet a price = true) as Hm.
  { intros a. unfold matches. rewrite !andb_true_iff, !bool_decide_eq_true. tauto. }
  destruct (deliver_list now price (collect s price) s Hnd) as (Hw & Hal & Hh).
  { intros i (id & a & _ & Ha & Hma)%collect_spec. exists a. split; [done|]. by apply Hm. }
  exists (collect s price). split_and!; try done.
  intros i. rewrite collect_spec. by setoid_rewrite Hm.
Qed.

Definition is_post (a : wh_action) : bool := match a with WPost _ _ => true | _ => false end.
Definition pauses (acts : list wh_action) : list Duration :=
  omap (fun a => match a with WSleep d => Some d | _ => None end) acts.

Lemma post_loop_posts resp url body fuel : forall attempt u b,
  WPost u b ∈ fst (post_loop resp url body attempt fuel) -> u = url /\ b = body.
Proof.
  induction fuel as [|fuel IH]; intros attempt u b; simpl; [by intros ?%elem_of_nil|].
  destruct (delivered _); simpl.
  { intros Hin%list_elem_of_singleton. by simplify_eq. }
  specialize (IH (S attempt)). destruct (post_loop _ _ _ _ _) as [acts ok]. simpl in *.
  intros [Heq|Hin]%elem_of_cons; [by simplify_eq|].
  apply elem_of_app in Hin as [Hin|Hin]; [|by apply IH].
  destruct (attempt <? 2)%nat; [apply list_elem_of_singleton in Hin|apply elem_of_nil in Hin]; done.
Qed.

(** A webhook is posted at most three times, with pauses of one and two
    seconds; it stops at the first answer below 500, and succeeds exactly when
    one of the three attempts gets one. *)
Theorem fireWebhook_spec resp alert price :
  let '(acts, ok) := fireWebhook resp alert price in
  ok = existsb (fun k => delivered (resp k)) [0; 1; 2]%nat /\
  length (bfilter is_post acts) =
    (if delivered (resp 0%nat) then 1 else if delivered (resp 1%nat) then 2 else 3)%nat /\
  pauses acts = (if delivered (resp 0%nat) then [] else
                 if delivered (resp 1%nat) then [1 * Second] else [1 * Second; 2 * Second]) /\
  forall u b, WPost u b ∈ acts -> u = AWebhookURL alert /\ b = payload alert price.
Proof.
  unfold fireWebhook.
  pose proof (post_loop_posts resp (AWebhookURL alert) (payload alert price) maxWebhookAttempts 0) as Hp.
  destruct (post_loop _ _ _ _ _) as [acts ok] eqn:E. split_and!; [..|exact Hp]; clear Hp; revert E;
    cbn [post_loop maxWebhookAttempts existsb];
    destruct (delivered (resp 0%nat)), (delivered (resp 1%nat)), (delivered (resp 2%nat));
    intros [= <- <-]; reflexivity.
Qed.

(** A webhook URL is accepted exactly when it parses, its scheme is http or
    https, its host is not an address of the four internal ranges and contains
    none of the blocked names in any case. *)
Theorem validateWebhookURL_spec rawURL : validateWebhookURL rawURL = None <->
  exists scheme host, url_Parse rawURL = inl (scheme, host) /\
    (scheme = "http"%string \/ scheme = "https"%string) /\
    (forall ip, net_ParseIP host = Some ip -> internal_ip ip = false) /\
    (forall b, b ∈ blocked_hosts -> contains (ToLower host) b = false).
Proof.
  unfold validateWebhookURL. destruct (url_Parse rawURL) as [[scheme host]|e]; [|naive_solver].
  assert (existsb (contains (ToLower host)) blocked_hosts = false <->
    forall b, b ∈ blocked_hosts -> contains (ToLower host) b = false) as Hb.
  { rewrite <- not_true_iff_false, existsb_exists. setoid_rewrite <- list_elem_of_In.
    split; [|intros Hn (b & Hin & Hc); specialize (Hn b Hin); congruence]. intros Hn b Hin. apply not_true_is_false. eauto. }
  destruct (negb _ && negb _) eqn:Es.
  { apply andb_true_iff in Es. rewrite !negb_true_iff, !bool_decide_eq_false in Es.
    split; [done|]. intros (?&?&?&Hs&_). simplify_eq. tauto. }
  assert (scheme = "http"%string \/ scheme = "https"%string) as Hsch.
  { apply andb_false_iff in Es. rewrite !negb_false_iff, !bool_decide_eq_true in Es. done. }
  assert (forall sch h, inl (A := string * string) (B := error) (scheme, host) = inl (sch, h) ->
    sch = scheme /\ h = host) as Hinj by (intros; by simplify_eq).
  transitivity ((forall ip, net_ParseIP host = Some ip -> internal_ip ip = false) /\
    existsb (contains (ToLower host)) blocked_hosts = false).
  - destruct (net_ParseIP host) as [ip|]; [destruct (internal_ip ip) eqn:Ei|];
      destruct (existsb _ _); (split; [intros Hn|intros [Hip Hex]]);
      try done; try (by split; [intros; simplify_eq|]).
    + specialize (Hip ip eq_refl). congruence.
  - rewrite Hb. split; [intros []; eauto 10|].
    intros (sch & h & [-> ->]%Hinj & _ & ? & ?). done.
Qed.

(** The check lets the unspecified address through: a URL whose host is
    0.0.0.0, which reaches the local machine on common systems, is accepted. *)
Theorem unspecified_address_accepted rawURL :
  url_Parse rawURL = inl ("http", "0.0.0.0")%string -> validateWebhookURL rawURL = None.
Proof.
  intros Hu. unfold validateWebhookURL. rewrite Hu, ToLower_ascii by reflexivity. reflexivity.
Qed.
End properties.

(** ** Witnesses *)
Definition demo_NetParse : NetParse := {|
  url_Parse s := if bool_decide (s = "bad"%string) then inr (Errorf "parse error")
                 else if bool_decide (s = "http://0.0.0.0/"%string) then inl ("http", "0.0.0.0")%string
                 else inl ("https", "example.com")%string;
  parse_ipv6 _ := None |}.
#[local] Existing Instance demo_NetParse.
Definition demo_alert : Alert :=
  mkAlert "a1" "bitcoin" "usd" ConditionAbove (dec_NewFromInt 60000) "https://example.com/hook" false 0 None.
Definition alert_states : list AlertService :=
  let s1 := snd (Create [] 5 demo_alert NewAlertService) in
  let s2 := OnPriceUpdate MemCache.sample_price s1 in
  let s3 := OnPriceUpdate MemCache.sample_price s2 in
  [s1; s2; s3; trigger_next 0 7 s3; trigger_next 1 8 (trigger_next 0 7 s3)].

Lemma alert_states_reachable s : s ∈ alert_states -> reachable s.
Proof.
  assert (forall s s', reachable s -> alert_step s s' -> reachable s') as Hstep.
  { intros s1 s2 H1 H2. eapply rtc_r; [exact H1|exact H2]. }
  assert (reachable (snd (Create [] 5 demo_alert NewAlertService))) as H1
    by (eapply Hstep; [apply rtc_refl|apply step_local, step_create]).
  assert (forall p s, reachable s -> reachable (OnPriceUpdate p s)) as H2
    by (intros; eapply Hstep; [done|apply step_update]).
  assert (forall k t s, reachable s -> reachable (trigger_next k t s)) as H3
    by (intros; eapply Hstep; [done|apply step_local, step_trigger]).
  unfold alert_states. intros Hs.
  repeat (apply elem_of_cons in Hs as [->|Hs]; [auto 10|]). by apply elem_of_nil in Hs.
Qed.

(** Two updates in flight collected the same alert; it fired once. *)
Lemma alerts_fire_once_witness : exists s, s ∈ alert_states /\
  (as_webhooks s).*1 = [0%nat] /\ NoDup (as_webhooks s).*1.
Proof.
  exists (List.last alert_states NewAlertService).
  assert (List.last alert_states NewAlertService ∈ alert_states) as Hin
    by (unfold alert_states; cbn [List.last]; do 4 apply list_elem_of_further; apply list_elem_of_here).
  split; [exact Hin|]. split; [vm_compute; reflexivity|].
  apply (alerts_fire_once _ (alert_states_reachable _ Hin)).
Defined.

Lemma deliver_exact_witness :
  let s := snd (Create [] 5 demo_alert NewAlertService) in
  (as_webhooks (deliver 9 MemCache.sample_price s)).*1 = [0%nat] /\
  exists fired, as_webhooks (deliver 9 MemCache.sample_price s) =
    as_webhooks s ++ ((fun i => (i, MemCache.sample_price)) <$> fired) /\ NoDup fired.
Proof.
  intros s. assert (reachable s) as Hs by (apply alert_states_reachable, list_elem_of_here).
  split; [vm_compute; reflexivity|].
  destruct (deliver_exact 9 MemCache.sample_price s Hs) as (fired & Hw & Hnd & _).
  exists fired. split; [exact Hw|exact Hnd].
Defined.

Lemma unspecified_address_accepted_witness : validateWebhookURL "http://0.0.0.0/" = None.
Proof. apply unspecified_address_accepted. reflexivity. Defined.
