(* ===== verification/Poller.v ===== *)
(** * internal/scheduler: poller.go, subscription.go; internal/app/subscription_service.go

    The subscriptions and their polling goroutines, as a step relation: the
    operations take the poller's lock, the goroutines run in between. *)
From S2P Require Import Prelude GoLib Decimal Model.
Open Scope Z_scope.

Record Subscription := mkSub { sb_CoinID : string; sb_Currency : string; sb_Interval : Duration }.
#[export] Instance Subscription_eq_dec : EqDecision Subscription.
Proof. solve_decision. Defined.

Definition subKey (coinID currency : string) : string := coinID +:+ ":" +:+ currency.
Definition sub_key (s : Subscription) : string := subKey (sb_CoinID s) (sb_Currency s).

(** A goroutine of [poll], before it has made its ticker or in its loop. *)
Inductive pstate := PStarting | PWaiting.
(** A context is the number of its subscription; it is done when it was
    cancelled or when the poller's own context is. *)
Record goroutine := mkG { g_ctx : nat; g_sub : Subscription; g_state : pstate }.

Record Poller := mkPoller {
  po_minInterval : Duration;
  po_subs : gmap string (Subscription * nat);
  po_next : nat;
  po_cancelled : gset nat;
  po_ctxDone : bool;
  po_goroutines : list goroutine;
  po_fetches : list (string * string);
  po_panicked : bool }.
Definition NewPoller (minInterval : Duration) : Poller :=
  mkPoller minInterval ∅ 0 ∅ false [] [] false.

Definition set_goroutines (gs : list goroutine) (p : Poller) : Poller :=
  mkPoller (po_minInterval p) (po_subs p) (po_next p) (po_cancelled p) (po_ctxDone p) gs
    (po_fetches p) (po_panicked p).

Definition clamp_interval (p : Poller) (sub : Subscription) : Subscription :=
  mkSub (sb_CoinID sub) (sb_Currency sub)
    (if sb_Interval sub <? po_minInterval p then po_minInterval p else sb_Interval sub).

Definition Subscribe (sub : Subscription) (p : Poller) : Poller :=
  let sub := clamp_interval p sub in
  let key := subKey (sb_CoinID sub) (sb_Currency sub) in
  let cancelled := match po_subs p !! key with
    | Some (_, c) => {[c]} ∪ po_cancelled p | None => po_cancelled p end in
  mkPoller (po_minInterval p) (<[key := (sub, po_next p)]> (po_subs p)) (S (po_next p)) cancelled
    (po_ctxDone p) (po_goroutines p ++ [mkG (po_next p) sub PStarting]) (po_fetches p) (po_panicked p).

Definition Unsubscribe (coinID currency : string) (p : Poller) : option error * Poller :=
  let key := subKey coinID currency in
  match po_subs p !! key with
  | None => (Some (Errorf ("subscription not found: " +:+ coinID +:+ ":" +:+ currency)), p)
  | Some (_, c) => (None, mkPoller (po_minInterval p) (delete key (po_subs p)) (po_next p)
      ({[c]} ∪ po_cancelled p) (po_ctxDone p) (po_goroutines p) (po_fetches p) (po_panicked p))
  end.

Definition Stop (p : Poller) : Poller :=
  mkPoller (po_minInterval p) ∅ (po_next p)
    (list_to_set (map_to_list (po_subs p)).*2.*2 ∪ po_cancelled p)
    (po_ctxDone p) (po_goroutines p) (po_fetches p) (po_panicked p).

Definition Subscriptions `{MapRange} (p : Poller) : list Subscription := (map_range (po_subs p)).*2.*1.

(** The poller's context is cancelled. *)
Definition ctx_cancel (p : Poller) : Poller :=
  mkPoller (po_minInterval p) (po_subs p) (po_next p) (po_cancelled p) true (po_goroutines p)
    (po_fetches p) (po_panicked p).

Definition done (p : Poller) (c : nat) : bool := po_ctxDone p || bool_decide (c ∈ po_cancelled p).

Definition fetchOnce (sub : Subscription) (p : Poller) : Poller :=
  mkPoller (po_minInterval p) (po_subs p) (po_next p) (po_cancelled p) (po_ctxDone p) (po_goroutines p)
    (po_fetches p ++ [(sb_CoinID sub, sb_Currency sub)]) (po_panicked p).

(** [poll] up to its loop: [time.NewTicker] panics on an interval that is not
    positive, which ends the program. *)
Definition poll_start (k : nat) (p : Poller) : Poller :=
  match po_goroutines p !! k with
  | Some (mkG c sub PStarting) =>
      if sb_Interval sub <=? 0
      then mkPoller (po_minInterval p) (po_subs p) (po_next p) (po_cancelled p) (po_ctxDone p)
             (po_goroutines p) (po_fetches p) true
      else fetchOnce sub (set_goroutines (<[k := mkG c sub PWaiting]> (po_goroutines p)) p)
  | _ => p
  end.
(** A tick of the loop.  When the context is done too, the select may still
    pick the tick. *)
Definition poll_tick (k : nat) (p : Poller) : Poller :=
  match po_goroutines p !! k with
  | Some (mkG _ sub PWaiting) => fetchOnce sub p
  | _ => p
  end.
Definition poll_exit (k : nat) (p : Poller) : Poller :=
  match po_goroutines p !! k with
  | Some (mkG c _ PWaiting) =>
      if done p c then set_goroutines (delete k (po_goroutines p)) p else p
  | _ => p
  end.

Inductive poller_step : Poller -> Poller -> Prop :=
  | ps_subscribe sub p : poller_step p (Subscribe sub p)
  | ps_unsubscribe coin cur p : poller_step p (snd (Unsubscribe coin cur p))
  | ps_stop p : poller_step p (Stop p)
  | ps_cancel p : poller_step p (ctx_cancel p)
  | ps_start k p : poller_step p (poll_start k p)
  | ps_tick k p : poller_step p (poll_tick k p)
  | ps_exit k p : poller_step p (poll_exit k p).
Definition reachable (minInterval : Duration) (p : Poller) : Prop :=
  rtc poller_step (NewPoller minInterval) p.

(** A goroutine is live while its context was not cancelled. *)
Definition live (p : Poller) (g : goroutine) : Prop :=
  g ∈ po_goroutines p /\ g_ctx g ∉ po_cancelled p.

Record poller_wf (p : Poller) : Prop := {
  pw_nodup : NoDup (g_ctx <$> po_goroutines p);
  pw_next : forall g, g ∈ po_goroutines p -> (g_ctx g < po_next p)%nat;
  pw_fresh : forall c, c ∈ po_cancelled p -> (c < po_next p)%nat;
  pw_live : forall g, live p g -> po_subs p !! sub_key (g_sub g) = Some (g_sub g, g_ctx g);
  pw_subs : forall key sub c, po_subs p !! key = Some (sub, c) ->
    sub_key sub = key /\ c ∉ po_cancelled p /\ (c < po_next p)%nat /\
    po_minInterval p <= sb_Interval sub /\
    (po_ctxDone p = false -> exists g, g ∈ po_goroutines p /\ g_ctx g = c /\ g_sub g = sub);
  pw_inj : forall k1 k2 s1 s2 c, po_subs p !! k1 = Some (s1, c) -> po_subs p !! k2 = Some (s2, c) -> k1 = k2;
  pw_interval : forall g, g ∈ po_goroutines p -> po_minInterval p <= sb_Interval (g_sub g) }.

Lemma NewPoller_wf m : poller_wf (NewPoller m).
Proof. split; simpl; try set_solver; [constructor|]. unfold live. set_solver. Qed.

Lemma Subscribe_wf sub p : poller_wf p -> poller_wf (Subscribe sub p).
Proof.
  intros [Hnd Hnx Hfr Hlv Hsb Hinj Hin]. unfold Subscribe.
  set (s' := clamp_interval p sub).
  assert (po_minInterval p <= sb_Interval s') as Hmin.
  { unfold s', clamp_interval. simpl. destruct (_ <? _) eqn:E; to_prop; lia. }
  change (subKey (sb_CoinID s') (sb_Currency s')) with (sub_key s').
  set (canc := match po_subs p !! sub_key s' with Some (_, c) => {[c]} ∪ po_cancelled p | None => po_cancelled p end).
  assert (forall c, c ∈ canc <-> c ∈ po_cancelled p \/ exists sb, po_subs p !! sub_key s' = Some (sb, c)) as Hc.
  { intros c. unfold canc. destruct (po_subs p !! sub_key s') as [[sb c0]|]; [|naive_solver].
    rewrite elem_of_union, elem_of_singleton. naive_solver. }
  split; simpl.
  - rewrite fmap_app. apply NoDup_app. split_and!; [done| |apply NoDup_singleton].
    intros c (g & -> & Hg)%list_elem_of_fmap Hcc. apply list_elem_of_singleton in Hcc.
    apply Hnx in Hg. simpl in Hcc. lia.
  - intros g [Hg|Hg]%elem_of_app; [apply Hnx in Hg; lia|].
    apply list_elem_of_singleton in Hg as ->. simpl. lia.
  - intros c [Hcc|[sb Hsb']]%Hc; [apply Hfr in Hcc; lia|]. apply Hsb in Hsb' as (_&_&?&_). lia.
  - intros g [Hg Hgc]. simpl in *. rewrite lookup_insert.
    apply elem_of_app in Hg as [Hg|Hg].
    + assert (live p g) as Hl by (split; [done|]; rewrite Hc in Hgc; tauto).
      apply Hlv in Hl. case_decide as Hk; [|done].
      exfalso. apply Hgc, Hc. right. rewrite Hk. eauto.
    + apply list_elem_of_singleton in Hg as ->. simpl. by rewrite decide_True.
  - intros key sb c. rewrite lookup_insert. case_decide as Hk; intros Hl.
    + injection Hl as <- <-. split_and!; [done| |lia|done|].
      * intros [Hx|[sb Hx]]%Hc; [apply Hfr in Hx; lia|]. apply Hsb in Hx as (_&_&?&_). lia.
      * intros _. exists (mkG (po_next p) s' PStarting). set_solver.
    + destruct (Hsb _ _ _ Hl) as (Hkey & Hcc & Hlt & Hmi & Hg).
      split_and!; [done| |lia|done|].
      * intros [Hx|[sb' Hx]]%Hc; [done|].
        by rewrite (Hinj _ _ _ _ _ Hl Hx) in Hk.
      * intros (g & Hg1 & Hg2 & Hg3)%Hg. exists g. set_solver.
  - intros k1 k2 s1 s2 c. rewrite !lookup_insert.
    assert (forall k sb, po_subs p !! k = Some (sb, po_next p) -> False) as Hno.
    { intros k sb Hx. apply Hsb in Hx as (_&_&?&_). lia. }
    case_decide; case_decide; intros; simplify_eq; eauto; exfalso; eauto.
  - intros g [Hg|Hg]%elem_of_app; [by apply Hin|]. by apply list_elem_of_singleton in Hg as ->.
Qed.

(** Cancelling some entries and dropping them from the map. *)
Lemma drop_subs_wf p subs' canc' :
  (forall k v, subs' !! k = Some v -> po_subs p !! k = Some v) ->
  (forall c, c ∈ canc' <-> c ∈ po_cancelled p \/
     exists k s, po_subs p !! k = Some (s, c) /\ subs' !! k = None) ->
  poller_wf p ->
  poller_wf (mkPoller (po_minInterval p) subs' (po_next p) canc' (po_ctxDone p) (po_goroutines p)
    (po_fetches p) (po_panicked p)).
Proof.
  intros Hsub Hc [Hnd Hnx Hfr Hlv Hsb Hinj Hin]. split; simpl; try done.
  - intros c [Hx|(k & s & Hx & _)]%Hc; [by apply Hfr|]. by apply Hsb in Hx as (_&_&?&_).
  - intros g [Hg Hgc]. simpl in *. rewrite Hc in Hgc.
    assert (live p g) as Hl by (split; [done|tauto]). apply Hlv in Hl.
    destruct (subs' !! sub_key (g_sub g)) as [v|] eqn:E.
    + apply Hsub in E as E'. congruence.
    + exfalso. apply Hgc. right. eauto.
  - intros key sub c Hl. destruct (Hsb _ _ _ (Hsub _ _ Hl)) as (H1 & H2 & H3 & H4 & H5).
    split_and!; try done. intros [Hx|(k & s & Hx & Hn)]%Hc; [done|].
    rewrite (Hinj _ _ _ _ _ Hx (Hsub _ _ Hl)) in Hn. congruence.
  - intros. eapply Hinj; by apply Hsub.
Qed.

Lemma Unsubscribe_wf coin cur p : poller_wf p -> poller_wf (snd (Unsubscribe coin cur p)).
Proof.
  intros Hp. unfold Unsubscribe. destruct (po_subs p !! subKey coin cur) as [[sub c]|] eqn:E; [|done].
  simpl. apply drop_subs_wf; [| |done].
  - intros k v. rewrite lookup_delete. by case_decide.
  - intros c'. rewrite elem_of_union, elem_of_singleton. split.
    + intros [->|?]; [|by left]. right. exists (subKey coin cur), sub.
      rewrite lookup_delete, decide_True by done. done.
    + intros [?|(k & s & Hk & Hn)]; [by right|]. rewrite lookup_delete in Hn.
      case_decide; [subst; left; congruence|congruence].
Qed.

Lemma Stop_wf p : poller_wf p -> poller_wf (Stop p).
Proof.
  intros Hp. unfold Stop. apply drop_subs_wf; [done| |done].
  intros c. rewrite elem_of_union, elem_of_list_to_set, list_elem_of_fmap.
  setoid_rewrite list_elem_of_fmap. split.
  - intros [([s c'] & -> & ([k v] & -> & Hkv))|?]; [|by left]. right.
    apply elem_of_map_to_list in Hkv. exists k, v.1. simpl in *. by destruct v.
  - intros [?|(k & s & Hk & _)]; [by right|]. left. exists (s, c). split; [done|].
    exists (k, (s, c)). split; [done|]. by apply elem_of_map_to_list.
Qed.

Lemma ctx_cancel_wf p : poller_wf p -> poller_wf (ctx_cancel p).
Proof. intros [Hnd Hnx Hfr Hlv Hsb Hinj Hin]. split; simpl; try done. intros ??? ?%Hsb. naive_solver. Qed.

Lemma fetchOnce_wf sub p : poller_wf p -> poller_wf (fetchOnce sub p).
Proof. by intros [Hnd Hnx Hfr Hlv Hsb Hinj Hin]; split. Qed.

Lemma poll_state_wf k c sub s s' p : po_goroutines p !! k = Some (mkG c sub s) ->
  poller_wf p -> poller_wf (set_goroutines (<[k := mkG c sub s']> (po_goroutines p)) p).
Proof.
  intros Hk [Hnd Hnx Hfr Hlv Hsb Hinj Hin].
  pose proof (list_elem_of_lookup_2 _ _ _ Hk) as Hg0.
  assert (forall g, g ∈ <[k:=mkG c sub s']> (po_goroutines p) ->
    exists g', g' ∈ po_goroutines p /\ g_ctx g' = g_ctx g /\ g_sub g' = g_sub g) as Hold.
  { intros g [j Hj]%list_elem_of_lookup. destruct (decide (j = k)) as [->|].
    - rewrite list_lookup_insert_eq in Hj by by eapply lookup_lt_Some. simplify_eq. eauto.
    - rewrite list_lookup_insert_ne in Hj by done. exists g. split; [|done]. by eapply list_elem_of_lookup_2. }
  split; simpl; try done.
  - rewrite list_fmap_insert. simpl. rewrite list_insert_id; [done|].
    by rewrite list_lookup_fmap, Hk.
  - intros g (g' & Hg' & <- & _)%Hold. by apply Hnx.
  - intros g [Hg Hgc]. simpl in *. destruct (Hold _ Hg) as (g' & Hg' & Hc & Hs).
    rewrite <- Hs, <- Hc. apply Hlv. split; [done|]. by rewrite Hc.
  - intros key sub' c' Hl. destruct (Hsb _ _ _ Hl) as (H1 & H2 & H3 & H4 & H5). split_and!; try done.
    intros (g & [j Hj]%list_elem_of_lookup & Hc & Hs)%H5.
    destruct (decide (j = k)) as [->|].
    + exists (mkG c sub s'). rewrite Hk in Hj. simplify_eq/=. split; [|done].
      apply list_elem_of_lookup. exists k. apply list_lookup_insert_eq. by eapply lookup_lt_Some.
    + exists g. split; [|done]. apply list_elem_of_lookup. exists j. by rewrite list_lookup_insert_ne.
  - intros g (g' & Hg' & _ & <-)%Hold. by apply Hin.
Qed.

Lemma poll_exit_wf k p : poller_wf p -> poller_wf (poll_exit k p).
Proof.
  intros Hp. unfold poll_exit. destruct (po_goroutines p !! k) as [[c sub []]|] eqn:Hk; try done.
  destruct (done p c) eqn:Ed; [|done]. destruct Hp as [Hnd Hnx Hfr Hlv Hsb Hinj Hin].
  assert (forall g, g ∈ delete k (po_goroutines p) -> g ∈ po_goroutines p) as Hold.
  { intros g Hg. rewrite (delete_Permutation _ _ _ Hk). apply elem_of_cons. by right. }
  pose proof (delete_Permutation _ _ _ Hk) as Hperm.
  split; simpl; try by eauto.
  - rewrite Hperm in Hnd. by apply NoDup_cons in Hnd as [_ ?].
  - intros g [Hg Hgc]. apply Hlv. split; [by apply Hold|done].
  - intros key sub' c' Hl. destruct (Hsb _ _ _ Hl) as (H1 & H2 & H3 & H4 & H5). split_and!; try done.
    intros Hcd. destruct (H5 Hcd) as (g & Hg & Hc & Hs). exists g. split; [|done].
    rewrite Hperm in Hg. apply elem_of_cons in Hg as [->|?]; [|done]. exfalso. simpl in *. subst.
    unfold done in Ed. rewrite Hcd in Ed. simpl in Ed. apply bool_decide_eq_true in Ed. done.
Qed.

Lemma poller_step_wf p p' : poller_step p p' -> poller_wf p -> poller_wf p'.
Proof.
  destruct 1 as [sub p|coin cur p|p|p|k p|k p|k p]; intros Hp.
  - by apply Subscribe_wf.
  - by apply Unsubscribe_wf.
  - by apply Stop_wf.
  - by apply ctx_cancel_wf.
  - unfold poll_start. destruct (po_goroutines p !! k) as [[c sub []]|] eqn:Hk; try done.
    destruct (_ <=? 0); [by destruct Hp; split|].
    by eapply (fetchOnce_wf _ (set_goroutines _ p)), poll_state_wf.
  - unfold poll_tick. destruct (po_goroutines p !! k) as [[c sub []]|]; try done. by apply fetchOnce_wf.
  - by apply poll_exit_wf.
Qed.

Lemma poller_reachable_wf m p : reachable m p -> poller_wf p.
Proof.
  intros Hr. pose proof (NewPoller_wf m) as Hinit. unfold reachable in Hr. revert Hinit.
  induction Hr as [|p1 p2 p3 Hs _ IH]; [done|]. intros. by apply IH; eapply poller_step_wf.
Qed.

Lemma reachable_min m p : reachable m p -> po_minInterval p = m.
Proof.
  unfold reachable. intros Hr. change m with (po_minInterval (NewPoller m)) at 1.
  induction Hr as [|p1 p2 p3 Hs _ IH]; [done|]. rewrite IH. clear IH.
  destruct Hs; simpl; unfold Unsubscribe, poll_start, poll_tick, poll_exit; repeat (case_match; simpl); done.
Qed.

(** C21. In every reachable state the live goroutines and the subscriptions
    correspond: a live goroutine polls the pair of the one subscription that
    holds its context, and while the poller's context is not done every
    subscription has its goroutine.  No pair is polled twice. *)
Theorem poller_one_goroutine m p : reachable m p ->
  (forall g, live p g -> po_subs p !! sub_key (g_sub g) = Some (g_sub g, g_ctx g)) /\
  (forall g g', live p g -> live p g' -> sub_key (g_sub g) = sub_key (g_sub g') -> g_ctx g = g_ctx g') /\
  NoDup (g_ctx <$> po_goroutines p) /\
  (po_ctxDone p = false -> forall key sub c, po_subs p !! key = Some (sub, c) ->
     exists g, live p g /\ g_ctx g = c /\ g_sub g = sub).
Proof.
  intros Hp%poller_reachable_wf. split_and!.
  - apply Hp.
  - intros g g' Hg Hg' Hk. apply (pw_live _ Hp) in Hg, Hg'. rewrite Hk in Hg. congruence.
  - apply Hp.
  - intros Hc key sub c Hl. destruct (pw_subs _ Hp _ _ _ Hl) as (_ & Hcc & _ & _ & Hg).
    destruct (Hg Hc) as (g & ? & <- & <-). by exists g.
Qed.

(** A polling interval is never below the configured minimum; so with a
    positive minimum no goroutine's ticker panics, and with one that is not
    positive the first subscription that asks for such an interval panics. *)
Theorem poller_interval m p : reachable m p ->
  (forall g, g ∈ po_goroutines p -> m <= sb_Interval (g_sub g)) /\
  (0 < m -> po_panicked p = false) /\
  (m <= 0 -> forall coin cur, po_panicked (poll_start (length (po_goroutines p))
     (Subscribe (mkSub coin cur 0) p)) = true).
Proof.
  intros Hr. pose proof (reachable_min _ _ Hr) as Hm. split_and!.
  - rewrite <- Hm. apply (pw_interval _ (poller_reachable_wf _ _ Hr)).
  - intros Hpos. clear Hm. unfold reachable in Hr. remember (NewPoller m) as p0 eqn:Hp0.
    assert (reachable m p0) as Hr0 by (rewrite Hp0; apply rtc_refl).
    assert (po_panicked p0 = false) as H0 by by rewrite Hp0. clear Hp0.
    induction Hr as [|p1 p2 p3 Hs _ IH]; [done|]. apply IH; [by eapply rtc_r|].
    pose proof (poller_reachable_wf _ _ Hr0) as Hwf. pose proof (reachable_min _ _ Hr0) as Hmin.
    destruct Hs as [sub p|coin cur p|p|p|k p|k p|k p]; simpl; try done.
    + unfold Unsubscribe. destruct (po_subs p !! _) as [[]|]; done.
    + unfold poll_start. destruct (po_goroutines p !! k) as [[c sub []]|] eqn:Hk; try done.
      destruct (sb_Interval sub <=? 0) eqn:E; [|done]. to_prop.
      apply list_elem_of_lookup_2, (pw_interval _ Hwf) in Hk. simpl in Hk. lia.
    + unfold poll_tick. destruct (po_goroutines p !! k) as [[c sub []]|]; done.
    + unfold poll_exit. destruct (po_goroutines p !! k) as [[c sub []]|]; try done. by destruct (done p c).
  - intros Hneg coin cur. unfold poll_start, Subscribe, clamp_interval. simpl. rewrite Hm.
    rewrite lookup_app_r, Nat.sub_diag by lia. simpl.
    rewrite (proj2 (Z.ltb_ge 0 m)) by lia. done.
Qed.

(** After [Unsubscribe] nothing live polls the pair, and after [Stop]
    nothing live polls at all. *)
Theorem poller_stops m p : reachable m p ->
  (forall coin cur g, live (snd (Unsubscribe coin cur p)) g -> sub_key (g_sub g) <> subKey coin cur) /\
  (forall g, ~ live (Stop p) g).
Proof.
  intros Hr. split.
  - intros coin cur g Hl.
    assert (reachable m (snd (Unsubscribe coin cur p))) as Hr' by (eapply rtc_r; [exact Hr|apply ps_unsubscribe]).
    apply (pw_live _ (poller_reachable_wf _ _ Hr')) in Hl. revert Hl. unfold Unsubscribe.
    destruct (po_subs p !! subKey coin cur) as [[sub c]|] eqn:E; simpl; intros Hl Hk; rewrite Hk in Hl.
    + rewrite lookup_delete, decide_True in Hl by done. done.
    + congruence.
  - intros g Hl. assert (reachable m (Stop p)) as Hr' by (eapply rtc_r; [exact Hr|apply ps_stop]).
    by apply (pw_live _ (poller_reachable_wf _ _ Hr')) in Hl.
Qed.

(** ** subscription_service.go: the service hands everything to the poller. *)
Record SubscriptionService := mkSubscriptionService { ss_poller : Poller }.
Definition NewSubscriptionService (minInterval : Duration) : SubscriptionService :=
  mkSubscriptionService (NewPoller minInterval).
Definition Service_Subscribe (coinID currency : string) (interval : Duration) (s : SubscriptionService) :=
  mkSubscriptionService (Subscribe (mkSub coinID currency interval) (ss_poller s)).
Definition Service_Unsubscribe (coinID currency : string) (s : SubscriptionService) :
    option error * SubscriptionService :=
  let '(e, p) := Unsubscribe coinID currency (ss_poller s) in (e, mkSubscriptionService p).
Definition Service_Subscriptions `{MapRange} (s : SubscriptionService) := Subscriptions (ss_poller s).
Definition Service_Stop (s : SubscriptionService) := mkSubscriptionService (Stop (ss_poller s)).

(** ** Witnesses: a pair subscribed twice, the first goroutine still winding down. *)
Definition demo_poller : Poller :=
  poll_start 1 (Subscribe (mkSub "bitcoin" "usd" 5) (poll_start 0 (Subscribe (mkSub "bitcoin" "usd" 20)
    (NewPoller 10)))).
Lemma demo_poller_reachable : reachable 10 demo_poller.
Proof.
  unfold reachable, demo_poller. eapply rtc_r; [|apply ps_start]. eapply rtc_r; [|apply ps_subscribe].
  eapply rtc_r; [|apply ps_start]. eapply rtc_r; [|apply ps_subscribe]. apply rtc_refl.
Qed.

Lemma poller_one_goroutine_witness :
  length (po_goroutines demo_poller) = 2%nat /\ NoDup (g_ctx <$> po_goroutines demo_poller).
Proof.
  split; [reflexivity|].
  destruct (poller_one_goroutine 10 demo_poller demo_poller_reachable) as (_ & _ & Hnd & _). exact Hnd.
Defined.

Lemma poller_interval_witness : po_panicked demo_poller = false.
Proof.
  destruct (poller_interval 10 demo_poller demo_poller_reachable) as (_ & Hp & _). apply Hp. lia.
Defined.

Lemma poller_stops_witness : forall g, ~ live (Stop demo_poller) g.
Proof. destruct (poller_stops 10 demo_poller demo_poller_reachable) as [_ Hs]. exact Hs. Defined.
