(* ===== verification/Hub.v ===== *)
(** * internal/adapter/transport/ws: hub.go, handler.go

    The price hub and its WebSocket connections.  Channels are buffered and
    shared: a channel is an index into the list of channels.  Sending on a
    closed channel panics, which the state remembers. *)
From S2P Require Import Prelude GoLib Decimal Model GoJSON Demo MemCache.
Open Scope Z_scope.

Section hub.
Context {O : DecimalOps} `{!MapRange} `{!GoFmt} `{!GoJSON}.

Record priceMessage := mkPriceMessage {
  pm_Coin : string; pm_Currency : string; pm_Price : string; pm_Provider : string; pm_Timestamp : string }.

(** [make(chan []byte, cap)] *)
Record chan := mkChan { ch_buf : list priceMessage; ch_closed : bool }.
Definition sendCap : nat := 64.
Definition updatesCap : nat := 256.

Record Client := mkClient { cl_Send : nat; cl_CoinIDs : gmap string bool }.

(** A connection: its channel, and what its handler is doing. *)
Inductive conn_state :=
  | CReading (client : option nat)
  | CRemoved (* after [RemoveClient], before [close(send)] *)
  | CClosed.
Record conn := mkConn { co_send : nat; co_state : conn_state }.

Record Hub := mkHub {
  h_clients : gmap nat Client;
  h_updates : list Price;
  h_nextID : nat;
  h_done : bool;
  h_chans : list chan;
  h_conns : list conn;
  h_panicked : bool }.
Definition NewHub : Hub := mkHub ∅ [] 0 false [] [] false.

Definition coin_set (coinIDs : list string) : gmap string bool :=
  fold_left (fun m id => <[id := true]> m) coinIDs ∅.

Definition set_clients (c : gmap nat Client) (h : Hub) : Hub :=
  mkHub c (h_updates h) (h_nextID h) (h_done h) (h_chans h) (h_conns h) (h_panicked h).
Definition set_conn (k : nat) (c : conn) (h : Hub) : Hub :=
  mkHub (h_clients h) (h_updates h) (h_nextID h) (h_done h) (h_chans h) (<[k := c]> (h_conns h)) (h_panicked h).

(** ** hub.go *)
Definition Hub_Stop (h : Hub) : Hub :=
  mkHub (h_clients h) (h_updates h) (h_nextID h) true (h_chans h) (h_conns h) (h_panicked h).

(** The select of [OnPriceUpdate]: the update is queued or, when the queue is
    full or ([drop]) the hub is stopped, dropped. *)
Definition Hub_OnPriceUpdate (drop : bool) (price : Price) (h : Hub) : Hub :=
  if (length (h_updates h) <? updatesCap)%nat && negb (drop && h_done h)
  then mkHub (h_clients h) (h_updates h ++ [price]) (h_nextID h) (h_done h) (h_chans h) (h_conns h) (h_panicked h)
  else h.

Definition AddClient (send : nat) (coinIDs : list string) (h : Hub) : nat * Hub :=
  let id := S (h_nextID h) in
  (id, mkHub (<[id := mkClient send (coin_set coinIDs)]> (h_clients h)) (h_updates h) id
         (h_done h) (h_chans h) (h_conns h) (h_panicked h)).

Definition RemoveClient (id : nat) (h : Hub) : Hub := set_clients (delete id (h_clients h)) h.

Definition UpdateClientSubscriptions (id : nat) (coinIDs : list string) (h : Hub) : Hub :=
  set_clients (alter (fun c => mkClient (cl_Send c) (coin_set coinIDs)) id (h_clients h)) h.

Definition message (price : Price) : priceMessage :=
  mkPriceMessage (CoinID price) (Currency price) (dec_String (Value price)) (PProvider price)
    (fmt_wsTime (Timestamp price)).

Definition wants (price : Price) (c : Client) : bool := default false (cl_CoinIDs c !! CoinID price).

(** The non-blocking send of [broadcast]. *)
Definition try_send (msg : priceMessage) (ch : nat) (h : Hub) : Hub :=
  match h_chans h !! ch with
  | None => h
  | Some c =>
      if ch_closed c
      then mkHub (h_clients h) (h_updates h) (h_nextID h) (h_done h) (h_chans h) (h_conns h) true
      else if (length (ch_buf c) <? sendCap)%nat
      then mkHub (h_clients h) (h_updates h) (h_nextID h) (h_done h)
             (<[ch := mkChan (ch_buf c ++ [msg]) false]> (h_chans h)) (h_conns h) (h_panicked h)
      else h
  end.
Definition broadcast (price : Price) (h : Hub) : Hub :=
  fold_left (fun h '(_, c) => if wants price c then try_send (message price) (cl_Send c) h else h)
    (map_range (h_clients h)) h.

(** A turn of [Run] that takes an update. *)
Definition run_once (h : Hub) : Hub :=
  match h_updates h with
  | [] => h
  | p :: ps => broadcast p (mkHub (h_clients h) ps (h_nextID h) (h_done h) (h_chans h) (h_conns h) (h_panicked h))
  end.

(** ** handler.go *)
Definition ws_accept (h : Hub) : Hub :=
  mkHub (h_clients h) (h_updates h) (h_nextID h) (h_done h) (h_chans h ++ [mkChan [] false])
    (h_conns h ++ [mkConn (length (h_chans h)) (CReading None)]) (h_panicked h).

Record clientMessage := mkClientMessage { cm_Action : string; cm_Coins : list string; cm_Currency : string }.

Definition remaining (coins : gmap string bool) (drop : list string) : list string :=
  omap (fun '(id, _) => if bool_decide (id ∈ drop) then None else Some id) (map_range coins).

(** What the [k]-th connection does with a message. *)
Definition ws_message (k : nat) (cm : clientMessage) (h : Hub) : Hub :=
  match h_conns h !! k with
  | Some (mkConn send (CReading client)) =>
      if bool_decide (cm_Action cm = "subscribe"%string) then
        match client with
        | None => let '(id, h) := AddClient send (cm_Coins cm) h in set_conn k (mkConn send (CReading (Some id))) h
        | Some id => UpdateClientSubscriptions id (cm_Coins cm) h
        end
      else if bool_decide (cm_Action cm = "unsubscribe"%string) then
        match client with
        | None => h
        | Some id =>
            match h_clients h !! id with
            | Some c => UpdateClientSubscriptions id (remaining (cl_CoinIDs c) (cm_Coins cm)) h
            | None => h (* a registered client stays so until its handler ends *)
            end
        end
      else h
  | _ => h
  end.

(** A text it reads; one that is not a message is skipped. *)
Definition clientMessage_zero : clientMessage := mkClientMessage "" [] "".
Definition clientMessage_fields : list (field clientMessage) := [
  fld "action" dec_string cm_Action (fun x m => mkClientMessage x (cm_Coins m) (cm_Currency m));
  fld "coins" (dec_slice ""%string dec_string) cm_Coins (fun x m => mkClientMessage (cm_Action m) x (cm_Currency m));
  fld "currency" dec_string cm_Currency (fun x m => mkClientMessage (cm_Action m) (cm_Coins m) x)].
Definition ws_read (k : nat) (msg : option jvalue) (h : Hub) : Hub :=
  match decode clientMessage_zero (dec_struct clientMessage_fields) msg with
  | inr _ => h
  | inl cm => ws_message k cm h
  end.

(** The deferred function: [RemoveClient], then [close(send)]. *)
Definition ws_hangup (k : nat) (h : Hub) : Hub :=
  match h_conns h !! k with
  | Some (mkConn send (CReading client)) =>
      set_conn k (mkConn send CRemoved) (match client with Some id => RemoveClient id h | None => h end)
  | _ => h
  end.
Definition ws_close (k : nat) (h : Hub) : Hub :=
  match h_conns h !! k with
  | Some (mkConn send CRemoved) =>
      set_conn k (mkConn send CClosed)
        (mkHub (h_clients h) (h_updates h) (h_nextID h) (h_done h)
           (alter (fun c => mkChan (ch_buf c) true) send (h_chans h)) (h_conns h) (h_panicked h))
  | _ => h
  end.
(** The writer goroutine takes a message. *)
Definition ws_write (ch : nat) (h : Hub) : Hub :=
  mkHub (h_clients h) (h_updates h) (h_nextID h) (h_done h)
    (alter (fun c => mkChan (tail (ch_buf c)) (ch_closed c)) ch (h_chans h)) (h_conns h) (h_panicked h).

(** What the hub and its connections do by themselves, and with an update. *)
Inductive hub_local : Hub -> Hub -> Prop :=
  | hs_stop h : hub_local h (Hub_Stop h)
  | hs_run h : hub_local h (run_once h)
  | hs_accept h : hub_local h (ws_accept h)
  | hs_message k msg h : hub_local h (ws_read k msg h)
  | hs_hangup k h : hub_local h (ws_hangup k h)
  | hs_close k h : hub_local h (ws_close k h)
  | hs_write ch h : hub_local h (ws_write ch h).
Inductive hub_step : Hub -> Hub -> Prop :=
  | hs_local h h' : hub_local h h' -> hub_step h h'
  | hs_update drop p h : hub_step h (Hub_OnPriceUpdate drop p h).
Definition reachable (h : Hub) : Prop := rtc hub_step NewHub h.

(** ** Invariant *)
Record hub_wf (h : Hub) : Prop := {
  hw_client : forall id c, h_clients h !! id = Some c -> (id <= h_nextID h)%nat /\
    exists k, h_conns h !! k = Some (mkConn (cl_Send c) (CReading (Some id)));
  hw_conn : forall k c, h_conns h !! k = Some c -> exists ch, h_chans h !! co_send c = Some ch /\
    (ch_closed ch = true -> co_state c = CClosed);
  hw_own : forall k k' c c', h_conns h !! k = Some c -> h_conns h !! k' = Some c' ->
    co_send c = co_send c' -> k = k';
  hw_id : forall k k' s s' id, h_conns h !! k = Some (mkConn s (CReading (Some id))) ->
    h_conns h !! k' = Some (mkConn s' (CReading (Some id))) -> k = k';
  hw_next : forall k s id, h_conns h !! k = Some (mkConn s (CReading (Some id))) ->
    (id <= h_nextID h)%nat;
  hw_buf : forall i ch, h_chans h !! i = Some ch -> (length (ch_buf ch) <= sendCap)%nat;
  hw_upd : (length (h_updates h) <= updatesCap)%nat;
  hw_ok : h_panicked h = false }.

Lemma hub_client_open h id c : hub_wf h -> h_clients h !! id = Some c ->
  exists ch, h_chans h !! cl_Send c = Some ch /\ ch_closed ch = false.
Proof.
  intros Hh (_ & k & Hk)%(hw_client _ Hh). destruct (hw_conn _ Hh _ _ Hk) as (ch & Hch & Hcl).
  exists ch. split; [done|]. simpl in Hcl. destruct (ch_closed ch); [|done]. by specialize (Hcl eq_refl).
Qed.

(** A change of the channels that closes none and keeps them bounded. *)
Lemma chans_wf h chans' :
  (forall i ch, h_chans h !! i = Some ch -> exists ch', chans' !! i = Some ch' /\ ch_closed ch' = ch_closed ch) ->
  (forall i ch', chans' !! i = Some ch' -> (length (ch_buf ch') <= sendCap)%nat) ->
  hub_wf h -> hub_wf (mkHub (h_clients h) (h_updates h) (h_nextID h) (h_done h) chans' (h_conns h) (h_panicked h)).
Proof.
  intros Hold Hbuf [Hcl Hco How Hid Hnx Hbf Hup Hok]. split; simpl; try done.
  intros k c Hk. destruct (Hco _ _ Hk) as (ch & Hch & Hcl'). destruct (Hold _ _ Hch) as (ch' & Hch' & Heq).
  exists ch'. split; [done|]. by rewrite Heq.
Qed.

Lemma try_send_wf msg ch c h : hub_wf h -> h_chans h !! ch = Some c -> ch_closed c = false ->
  hub_wf (try_send msg ch h) /\ h_clients (try_send msg ch h) = h_clients h.
Proof.
  intros Hh Hc Ho. unfold try_send. rewrite Hc, Ho. destruct (_ <? _)%nat eqn:El; [|done].
  split; [|done]. apply Nat.ltb_lt in El. apply chans_wf; [..|done].
  - intros i ch' Hi. destruct (decide (i = ch)) as [->|].
    + rewrite list_lookup_insert_eq by by eapply lookup_lt_Some. eexists. split; [done|]. by simplify_eq.
    + rewrite list_lookup_insert_ne by done. eauto.
  - intros i ch' Hi. destruct (decide (i = ch)) as [->|].
    + rewrite list_lookup_insert_eq in Hi by by eapply lookup_lt_Some. simplify_eq/=.
      rewrite length_snoc. unfold sendCap in *. lia.
    + rewrite list_lookup_insert_ne in Hi by done. by eapply hw_buf.
Qed.

Lemma broadcast_wf price h : hub_wf h -> hub_wf (broadcast price h).
Proof.
  intros Hh. unfold broadcast.
  assert (forall id c, (id, c) ∈ map_range (h_clients h) -> h_clients h !! id = Some c) as Hl
    by (intros ??; apply elem_of_map_range).
  enough (hub_wf (fold_left (fun h '(_, c) => if wants price c then try_send (message price) (cl_Send c) h else h)
    (map_range (h_clients h)) h) /\ h_clients (fold_left (fun h '(_, c) =>
      if wants price c then try_send (message price) (cl_Send c) h else h) (map_range (h_clients h)) h)
      = h_clients h) as [? _]; [done|].
  apply (fold_left_ind (fun h' => hub_wf h' /\ h_clients h' = h_clients h)); [done|].
  intros h' [id c] Hin [Hh' Hc']. destruct (wants price c); [|done].
  apply Hl in Hin. rewrite <- Hc' in Hin.
  destruct (hub_client_open _ _ _ Hh' Hin) as (ch & Hch & Hop).
  destruct (try_send_wf (message price) _ _ _ Hh' Hch Hop) as [? ->]. done.
Qed.

Lemma set_clients_wf h m : hub_wf h ->
  (forall id c, m !! id = Some c -> exists c', h_clients h !! id = Some c' /\ cl_Send c = cl_Send c') ->
  hub_wf (set_clients m h).
Proof.
  intros [Hcl Hco How Hid Hnx Hbf Hup Hok] Hm. split; simpl; try done.
  intros id c (c' & Hc' & ->)%Hm. by apply Hcl.
Qed.

Lemma ws_accept_wf h : hub_wf h -> hub_wf (ws_accept h).
Proof.
  intros [Hcl Hco How Hid Hnx Hbf Hup Hok].
  assert (forall k c, (h_conns h ++ [mkConn (length (h_chans h)) (CReading None)]) !! k = Some c ->
    h_conns h !! k = Some c \/ (k = length (h_conns h) /\ c = mkConn (length (h_chans h)) (CReading None))) as Hsp.
  { intros k c. rewrite lookup_app_Some, list_lookup_singleton_Some. intros [?|(Hk & Hk0 & <-)]; [by left|].
    right. split; [lia|done]. }
  assert (forall k c, h_conns h !! k = Some c -> (co_send c < length (h_chans h))%nat) as Hlt.
  { intros k c (ch & Hch & _)%Hco. by eapply lookup_lt_Some. }
  split; simpl; try done.
  - intros id c Hc. destruct (Hcl _ _ Hc) as (? & k & Hk). split; [done|]. exists k. by apply lookup_app_l_Some.
  - intros k c [Hk|[-> ->]]%Hsp.
    + destruct (Hco _ _ Hk) as (ch & Hch & ?). exists ch. split; [by apply lookup_app_l_Some|done].
    + exists (mkChan [] false). simpl. by rewrite lookup_app_r, Nat.sub_diag by lia.
  - intros k k' c c' [Hk|[-> ->]]%Hsp [Hk'|[-> ->]]%Hsp Heq; simpl in *; eauto;
      [apply Hlt in Hk; lia|apply Hlt in Hk'; lia].
  - intros k k' s s' id [Hk|[-> ?]]%Hsp [Hk'|[-> ?]]%Hsp; simplify_eq; eauto.
  - intros k s id [Hk|[-> ?]]%Hsp; simplify_eq; eauto.
  - intros i ch [Hi|(_ & Hi)]%lookup_app_Some; [by eapply Hbf|].
    apply list_lookup_singleton_Some in Hi as [_ <-]. simpl. lia.
Qed.

(** A connection moves on without changing hands. *)
Lemma set_conn_wf k send st st' h m n :
  h_conns h !! k = Some (mkConn send st) -> hub_wf h -> (h_nextID h <= n)%nat -> st <> CClosed ->
  (forall id, st' = CReading (Some id) -> st = CReading (Some id) \/ id = n /\ (h_nextID h < n)%nat) ->
  (forall id c, m !! id = Some c ->
     h_clients h !! id = Some c /\ st <> CReading (Some id) \/
     st' = CReading (Some id) /\ cl_Send c = send) ->
  hub_wf (set_conn k (mkConn send st') (mkHub m (h_updates h) n (h_done h) (h_chans h) (h_conns h) (h_panicked h))).
Proof.
  intros Hk [Hcl Hco How Hid Hnx Hbf Hup Hok] Hn Hst Hst' Hm.
  pose proof (lookup_lt_Some _ _ _ Hk) as Hlt.
  assert (forall j c, <[k:=mkConn send st']> (h_conns h) !! j = Some c ->
    (j <> k /\ h_conns h !! j = Some c) \/ (j = k /\ c = mkConn send st')) as Hsp.
  { intros j c. rewrite list_lookup_insert. case_decide as Hj; [|naive_solver].
    destruct Hj as [-> ?]. intros. simplify_eq. by right. }
  split; simpl; try done.
  - intros id c [[Hc Hne]|[-> Hs]]%Hm.
    + destruct (Hcl _ _ Hc) as (? & j & Hj). split; [lia|]. exists j.
      rewrite list_lookup_insert_ne; [done|]. intros <-. rewrite Hk in Hj. congruence.
    + destruct (Hst' id eq_refl) as [->|[-> ?]].
      * split; [apply Hnx in Hk; lia|]. exists k. rewrite Hs. by rewrite list_lookup_insert_eq.
      * split; [done|]. exists k. rewrite Hs. by rewrite list_lookup_insert_eq.
  - intros j c [[_ Hj]|[-> ->]]%Hsp; [by eapply Hco|]. simpl.
    destruct (Hco _ _ Hk) as (ch & Hch & Hclo). simpl in *. exists ch. split; [done|].
    intros ?%Hclo. done.
  - intros j j' c c' [[_ Hj]|[-> ->]]%Hsp [[_ Hj']|[-> ->]]%Hsp Heq; simpl in *; try done;
      [by eapply How|by eapply (How j k)|by eapply (How k j')].
  - intros j j' s s' id [[Hjk Hj]|[-> Hc]]%Hsp [[Hjk' Hj']|[-> Hc']]%Hsp; try done.
    + by eapply Hid.
    + simplify_eq. destruct (Hst' id eq_refl) as [->|[-> ?]]; [by eapply Hid|]. apply Hnx in Hj. lia.
    + simplify_eq. destruct (Hst' id eq_refl) as [->|[-> ?]]; [by eapply Hid|]. apply Hnx in Hj'. lia.
  - intros j s id [[_ Hj]|[-> Hc]]%Hsp; [apply Hnx in Hj; lia|]. simplify_eq.
    destruct (Hst' id eq_refl) as [->|[-> ?]]; [apply Hnx in Hk; lia|done].
Qed.

Lemma UpdateClientSubscriptions_wf id coins h : hub_wf h -> hub_wf (UpdateClientSubscriptions id coins h).
Proof.
  intros Hh. apply set_clients_wf; [done|]. intros id' c. rewrite lookup_alter. case_decide; [|eauto].
  intros (c' & Hc' & ->)%fmap_Some. subst. eauto.
Qed.

Lemma ws_message_wf k cm h : hub_wf h -> hub_wf (ws_message k cm h).
Proof.
  intros Hh. unfold ws_message. destruct (h_conns h !! k) as [[send [client| |]]|] eqn:Hk; try done.
  case_bool_decide.
  - destruct client as [id|]; [by apply UpdateClientSubscriptions_wf|].
    apply (set_conn_wf k send (CReading None)); try done; [lia| |].
    + intros id [= <-]. right. lia.
    + intros id c. rewrite lookup_insert. case_decide; intros; [simplify_eq; by right|by left].
  - case_bool_decide; [|done]. destruct client as [id|]; [|done].
    destruct (h_clients h !! id); [|done]. by apply UpdateClientSubscriptions_wf.
Qed.

Lemma ws_hangup_wf k h : hub_wf h -> hub_wf (ws_hangup k h).
Proof.
  intros Hh. unfold ws_hangup. destruct (h_conns h !! k) as [[send [client| |]]|] eqn:Hk; try done.
  destruct client as [id|].
  - apply (set_conn_wf k send (CReading (Some id)) CRemoved h (delete id (h_clients h))); try done.
    intros id' c. rewrite lookup_delete. case_decide; [done|]. left. split; [done|]. congruence.
  - apply (set_conn_wf k send (CReading None) CRemoved h (h_clients h)); try done. by left.
Qed.

Lemma ws_close_wf k h : hub_wf h -> hub_wf (ws_close k h).
Proof.
  intros Hh. unfold ws_close. destruct (h_conns h !! k) as [[send [client| |]]|] eqn:Hk; try done.
  destruct Hh as [Hcl Hco How Hid Hnx Hbf Hup Hok].
  pose proof (lookup_lt_Some _ _ _ Hk) as Hlt.
  assert (forall j c, <[k:=mkConn send CClosed]> (h_conns h) !! j = Some c ->
    (j <> k /\ h_conns h !! j = Some c) \/ (j = k /\ c = mkConn send CClosed)) as Hsp.
  { intros j c. rewrite list_lookup_insert. case_decide as Hj; [|naive_solver].
    destruct Hj as [-> ?]. intros. simplify_eq. by right. }
  split; simpl; try done.
  - intros id c Hc. destruct (Hcl _ _ Hc) as (? & j & Hj). split; [done|]. exists j.
    rewrite list_lookup_insert_ne; [done|]. intros <-. congruence.
  - intros j c [[Hjk Hj]|[-> ->]]%Hsp.
    + destruct (Hco _ _ Hj) as (ch & Hch & Hclo). exists ch. split; [|done].
      rewrite list_lookup_alter. rewrite decide_False; [done|]. intros Heq.
      apply Hjk. by eapply (How j k); [done|exact Hk|].
    + destruct (Hco _ _ Hk) as (ch & Hch & _). simpl in *. eexists.
      rewrite list_lookup_alter, decide_True by done. rewrite Hch. by split.
  - intros j j' c c' [[_ Hj]|[-> ->]]%Hsp [[_ Hj']|[-> ->]]%Hsp Heq; simpl in *; try done;
      [by eapply How|by eapply (How j k)|by eapply (How k j')].
  - intros j j' s s' id [[Hjk Hj]|[-> Hc]]%Hsp [[Hjk' Hj']|[-> Hc']]%Hsp; simplify_eq. by eapply Hid.
  - intros j s id [[_ Hj]|[-> Hc]]%Hsp; [by eapply Hnx|]. simplify_eq.
  - intros i ch. rewrite list_lookup_alter. case_decide; [|by apply Hbf].
    intros (c & Hc & ->)%fmap_Some. simpl. by eapply Hbf.
Qed.

Lemma ws_write_wf ch h : hub_wf h -> hub_wf (ws_write ch h).
Proof.
  intros Hh. apply chans_wf; [..|done].
  - intros i c Hc. rewrite list_lookup_alter. case_decide; subst; rewrite Hc; simpl; eauto.
  - intros i c'. rewrite list_lookup_alter. case_decide; [|by apply (hw_buf _ Hh)].
    intros (c & Hc & ->)%fmap_Some. simpl. apply (hw_buf _ Hh) in Hc.
    destruct (ch_buf c); simpl in *; lia.
Qed.

Lemma updates_wf h us : (length us <= updatesCap)%nat -> hub_wf h ->
  hub_wf (mkHub (h_clients h) us (h_nextID h) (h_done h) (h_chans h) (h_conns h) (h_panicked h)).
Proof. by intros ? [Hcl Hco How Hid Hnx Hbf Hup Hok]; split. Qed.

Lemma Hub_OnPriceUpdate_wf drop p h : hub_wf h -> hub_wf (Hub_OnPriceUpdate drop p h).
Proof.
  intros Hh. unfold Hub_OnPriceUpdate. destruct (_ && _) eqn:E; [|done]. apply andb_true_iff in E as [E _].
  apply Nat.ltb_lt in E. apply updates_wf; [|done]. rewrite length_snoc. lia.
Qed.
Lemma hub_step_wf h h' : hub_step h h' -> hub_wf h -> hub_wf h'.
Proof.
  destruct 1 as [h h' Hl|drop p h]; [|apply Hub_OnPriceUpdate_wf].
  destruct Hl as [h|h|h|k msg h|k h|k h|ch h]; intros Hh.
  - by destruct Hh; split.
  - unfold run_once. destruct (h_updates h) as [|p ps] eqn:E; [done|]. apply broadcast_wf, updates_wf; [|done].
    pose proof (hw_upd _ Hh) as Hu. rewrite E in Hu. simpl in Hu. lia.
  - by apply ws_accept_wf.
  - unfold ws_read. destruct (decode _ _ _); [by apply ws_message_wf|done].
  - by apply ws_hangup_wf.
  - by apply ws_close_wf.
  - by apply ws_write_wf.
Qed.

Lemma hub_reachable_wf h : reachable h -> hub_wf h.
Proof.
  assert (hub_wf NewHub) as Hinit by (split; simpl; try done; unfold updatesCap; lia).
  unfold reachable. intros Hr. revert Hinit.
  induction Hr as [|h1 h2 h3 Hs _ IH]; [done|]. intros. by apply IH; eapply hub_step_wf.
Qed.

(** ** Where messages come from *)
Section from.
Variable Q : Price -> Prop.
Definition from_price (m : priceMessage) : Prop := exists p, Q p /\ m = message p.
Definition hub_from (h : Hub) : Prop :=
  Forall Q (h_updates h) /\ forall i ch, h_chans h !! i = Some ch -> Forall from_price (ch_buf ch).

Lemma Hub_OnPriceUpdate_from drop p h : Q p -> hub_from h -> hub_from (Hub_OnPriceUpdate drop p h).
Proof.
  intros Hp [Hu Hc]. unfold Hub_OnPriceUpdate. destruct (_ && _); [|done]. split; [by apply Forall_snoc|done].
Qed.
Lemma try_send_from m ch h : from_price m -> hub_from h -> hub_from (try_send m ch h).
Proof.
  intros Hm [Hu Hc]. unfold try_send. destruct (h_chans h !! ch) as [c|] eqn:Ec; [|done].
  destruct (ch_closed c); [done|]. destruct (_ <? _)%nat; [|done]. split; [done|]. simpl. intros i c'.
  rewrite list_lookup_insert. case_decide; [|apply Hc]. intros; simplify_eq/=. apply Forall_snoc.
  split; [by eapply Hc|done].
Qed.
Lemma broadcast_from p h : Q p -> hub_from h -> hub_from (broadcast p h).
Proof.
  intros Hp Hh. unfold broadcast. apply fold_left_ind; [done|]. intros h' [id c] _ Hh'.
  destruct (wants p c); [|done]. apply try_send_from; [by exists p|done].
Qed.
(** Buffers that change by losing messages. *)
Lemma alter_from f ch h : (forall c, ch_buf (f c) ⊆ ch_buf c) ->
  (forall i ch, h_chans h !! i = Some ch -> Forall from_price (ch_buf ch)) ->
  forall i c, alter f ch (h_chans h) !! i = Some c -> Forall from_price (ch_buf c).
Proof.
  intros Hf Hc i c. rewrite list_lookup_alter. case_decide; [|apply Hc].
  intros (c' & Hc' & ->)%fmap_Some. specialize (Hc _ _ Hc'). rewrite Forall_forall in Hc |- *. intros m Hm. by apply Hc, Hf.
Qed.
Lemma hub_local_from h h' : hub_local h h' -> hub_from h -> hub_from h'.
Proof.
  intros Hl [Hu Hc]. destruct Hl as [h|h|h|k msg h|k h|k h|ch h].
  - by split.
  - unfold run_once. destruct (h_updates h) as [|p ps] eqn:E; [split; [by rewrite E|done]|].
    apply Forall_cons in Hu as [Hp Hu]. apply broadcast_from; [done|]. by split.
  - split; [done|]. intros i c [Hi|(_ & Hi)]%lookup_app_Some; [by eapply Hc|].
    apply list_lookup_singleton_Some in Hi as [_ <-]. constructor.
  - unfold ws_read. destruct (decode _ _ _); [|by split]. unfold ws_message, AddClient. cbn.
    repeat case_match; by split.
  - unfold ws_hangup. repeat case_match; by split.
  - unfold ws_close. repeat case_match; try by split.
    split; [done|]. simpl. by eapply alter_from.
  - split; [done|]. simpl. eapply alter_from; [|done]. intros c. simpl. destruct (ch_buf c); set_solver.
Qed.
End from.

(** ** Delivery *)
Definition push (msg : priceMessage) (c : chan) : chan :=
  if (length (ch_buf c) <? sendCap)%nat then mkChan (ch_buf c ++ [msg]) (ch_closed c) else c.

Lemma broadcast_list price (l : list (nat * Client)) : forall h,
  NoDup (cl_Send <$> l.*2) ->
  (forall id c, (id, c) ∈ l -> exists ch, h_chans h !! cl_Send c = Some ch /\ ch_closed ch = false) ->
  forall i, h_chans (fold_left (fun h '(_, c) =>
      if wants price c then try_send (message price) (cl_Send c) h else h) l h) !! i =
    if existsb (fun x => wants price x.2 && bool_decide (cl_Send x.2 = i)) l
    then push (message price) <$> h_chans h !! i else h_chans h !! i.
Proof.
  induction l as [|[id c] l IH]; intros h Hnd Hop i; [done|].
  cbn [fmap list_fmap] in Hnd. apply NoDup_cons in Hnd as [Hni Hnd]. simpl.
  destruct (Hop id c) as (ch & Hch & Hcl); [set_solver|]. cbn [snd] in *.
  set (h1 := if wants price c then try_send (message price) (cl_Send c) h else h).
  assert (forall j, h_chans h1 !! j =
    if wants price c && bool_decide (cl_Send c = j) then push (message price) <$> h_chans h !! j
    else h_chans h !! j) as Hh1.
  { intros j. unfold h1. destruct (wants price c); [|done]. simpl. unfold try_send. rewrite Hch, Hcl.
    unfold push. case_bool_decide as Hj.
    - subst j. rewrite Hch. simpl. destruct (_ <? _)%nat; simpl; [|done].
      rewrite list_lookup_insert_eq by by eapply lookup_lt_Some. by rewrite Hcl.
    - destruct (_ <? _)%nat; simpl; [|done]. by rewrite list_lookup_insert_ne. }
  rewrite (IH h1 Hnd).
  - rewrite Hh1. destruct (wants price c && bool_decide (cl_Send c = i)) eqn:E; simpl; [|done].
    apply andb_true_iff in E as [_ E]. apply bool_decide_eq_true in E. subst i.
    rewrite (proj1 (not_true_iff_false (existsb _ l))); [done|].
    rewrite existsb_exists. intros ([id' c'] & Hin & Hw). apply andb_true_iff in Hw as [_ Hw].
    apply bool_decide_eq_true in Hw. simpl in Hw. apply Hni. rewrite <- Hw.
    rewrite <- list_elem_of_In in Hin. apply list_elem_of_fmap. exists c'. split; [done|].
    apply list_elem_of_fmap. by exists (id', c').
  - intros id' c' Hin. destruct (Hop id' c') as (ch' & Hch' & Hcl'); [set_solver|].
    rewrite Hh1, Hch'. destruct (_ && _); [|eauto]. simpl. eexists. split; [done|].
    unfold push. by destruct (_ <? _)%nat.
Qed.

Lemma clients_nodup h : hub_wf h -> NoDup (cl_Send <$> (map_range (h_clients h)).*2).
Proof.
  intros Hh. pose proof (NoDup_map_range_fst (h_clients h)) as Hnd.
  assert (forall id c, (id, c) ∈ map_range (h_clients h) -> h_clients h !! id = Some c) as Hl
    by (intros ??; apply elem_of_map_range).
  revert Hnd Hl. induction (map_range (h_clients h)) as [|[id c] l IH]; [constructor|].
  cbn [fmap list_fmap]. intros [Hni Hnd]%NoDup_cons Hl. apply NoDup_cons.
  split; [|apply IH; [done|]; intros; apply Hl; set_solver].
  intros (c' & Heq & ([id' c''] & -> & Hin)%list_elem_of_fmap)%list_elem_of_fmap. simpl in Heq.
  destruct (hw_client _ Hh id c) as (_ & k & Hk); [apply Hl; set_solver|].
  destruct (hw_client _ Hh id' c'') as (_ & k' & Hk'); [apply Hl; set_solver|].
  assert (k = k') as -> by (eapply (hw_own _ Hh); [exact Hk|exact Hk'|done]).
  rewrite Hk in Hk'. simplify_eq. apply Hni, list_elem_of_fmap. by exists (id', c'').
Qed.
End hub.

Section properties.
Context {O : DecimalOps} `{!MapRange} `{!GoFmt} `{!GoJSON}.

(** C10. In no interleaving of connections, messages, updates, broadcasts and
    hang-ups does the hub send on a closed channel: a client is removed before
    its channel is closed.  No channel holds more than 64 messages and no more
    than 256 updates wait. *)
Theorem hub_never_panics (h : Hub) : reachable h ->
  h_panicked h = false /\
  (forall i ch, h_chans h !! i = Some ch -> (length (ch_buf ch) <= sendCap)%nat) /\
  (length (h_updates h) <= updatesCap)%nat /\
  (forall id c, h_clients h !! id = Some c ->
     exists ch, h_chans h !! cl_Send c = Some ch /\ ch_closed ch = false).
Proof.
  intros Hh%hub_reachable_wf. split_and!; [apply Hh..|]. intros id c. by apply hub_client_open.
Qed.

(** C25. A broadcast appends the price's message to the channel of exactly the
    clients subscribed to its coin, when there is room, whatever order the map
    of clients is visited in; every other channel is untouched. *)
Theorem broadcast_delivery price (h : Hub) : reachable h ->
  (forall id c, h_clients h !! id = Some c -> exists ch, h_chans h !! cl_Send c = Some ch /\
     h_chans (broadcast price h) !! cl_Send c =
       Some (if wants price c then push (message price) ch else ch)) /\
  (forall i, (forall id c, h_clients h !! id = Some c -> cl_Send c <> i) ->
     h_chans (broadcast price h) !! i = h_chans h !! i).
Proof.
  intros Hh%hub_reachable_wf. pose proof (clients_nodup h Hh) as Hnd.
  assert (forall id c, (id, c) ∈ map_range (h_clients h) <-> h_clients h !! id = Some c) as Hl
    by (intros ??; apply elem_of_map_range).
  assert (forall i, h_chans (broadcast price h) !! i =
    if existsb (fun x => wants price x.2 && bool_decide (cl_Send x.2 = i)) (map_range (h_clients h))
    then push (message price) <$> h_chans h !! i else h_chans h !! i) as Hb.
  { apply broadcast_list; [done|]. intros id c Hin%Hl. by eapply hub_client_open. }
  split.
  - intros id c Hc. destruct (hub_client_open _ _ _ Hh Hc) as (ch & Hch & _). exists ch. split; [done|].
    rewrite Hb, Hch. destruct (wants price c) eqn:Ew.
    + rewrite (proj2 (existsb_exists _ _)); [done|]. exists (id, c).
      rewrite <- list_elem_of_In. split; [by apply Hl|]. simpl. by rewrite Ew, bool_decide_eq_true_2.
    + rewrite (proj1 (not_true_iff_false (existsb _ _))); [done|].
      rewrite existsb_exists. intros ([id' c'] & Hin & Hw). rewrite <- list_elem_of_In in Hin.
      apply Hl in Hin. apply andb_true_iff in Hw as [Hw1 Hw2]. apply bool_decide_eq_true in Hw2. simpl in *.
      destruct (hw_client _ Hh _ _ Hc) as (_ & k & Hk). destruct (hw_client _ Hh _ _ Hin) as (_ & k' & Hk').
      assert (k = k') as -> by (eapply (hw_own _ Hh); [exact Hk|exact Hk'|done]).
      rewrite Hk in Hk'. simplify_eq. congruence.
  - intros i Hno. rewrite Hb. rewrite (proj1 (not_true_iff_false (existsb _ _))); [done|].
    rewrite existsb_exists. intros ([id c] & Hin & Hw). rewrite <- list_elem_of_In in Hin.
    apply Hl in Hin. apply andb_true_iff in Hw as [_ Hw2]. apply bool_decide_eq_true in Hw2. by apply (Hno id c).
Qed.
End properties.

(** ** Witnesses: two connections, one subscribed to bitcoin, one hanging up. *)
#[local] Existing Instance plain_GoJSON.
Definition subscribe_bitcoin : option jvalue :=
  Some (VObj [("action", VStr "subscribe"); ("coins", VArr [VStr "bitcoin"])]%string).
Definition demo_hub : Hub :=
  ws_hangup 1 (ws_read 1 subscribe_bitcoin (ws_read 0 subscribe_bitcoin (ws_accept (ws_accept NewHub)))).
Lemma demo_hub_reachable : reachable demo_hub.
Proof.
  unfold reachable, demo_hub. eapply rtc_r; [|apply hs_local, hs_hangup]. do 2 (eapply rtc_r; [|apply hs_local, hs_message]).
  do 2 (eapply rtc_r; [|apply hs_local, hs_accept]). apply rtc_refl.
Qed.

Lemma hub_never_panics_witness : h_panicked demo_hub = false.
Proof. destruct (hub_never_panics demo_hub demo_hub_reachable) as [Hp _]. exact Hp. Defined.

Lemma broadcast_delivery_witness :
  length (ch_buf (default (mkChan [] false) (h_chans (broadcast sample_price demo_hub) !! 0%nat))) = 1%nat /\
  forall i, (forall id c, h_clients demo_hub !! id = Some c -> cl_Send c <> i) ->
     h_chans (broadcast sample_price demo_hub) !! i = h_chans demo_hub !! i.
Proof.
  split; [vm_compute; reflexivity|].
  destruct (broadcast_delivery sample_price demo_hub demo_hub_reachable) as [_ Hb]. exact Hb.
Defined.
