(* ===== verification/BatchBuffer.v ===== *)
(** * internal/adapter/storage/clickhouse: buffer.go, and the writes of store.go

    The write buffer in front of ClickHouse.  [flush] takes the pending prices
    under the lock and sends them outside it, so several flushes may be in
    flight; a batch that fails twice is dropped. *)
From S2P Require Import Prelude GoLib Decimal Model Demo MemCache.
Open Scope Z_scope.

Section buffer.
Context {O : DecimalOps}.

(** A flush in flight: its batch, and whether the first attempt failed. *)
Record in_flight := mkInFlight { if_batch : list Price; if_retry : bool }.

Record BatchBuffer := mkBuffer {
  bb_prices : list Price;
  bb_maxSize : Z;
  bb_flights : list in_flight;
  bb_flushErrors : Z;
  bb_flushCount : Z;
  bb_written : list (list Price); (* the batches [flushFn] accepted *)
  bb_lost : list (list Price) }.
Definition NewBatchBuffer (maxSize : Z) : BatchBuffer := mkBuffer [] maxSize [] 0 0 [] [].

(** [flush] up to its unlock: the pending prices become a batch. *)
Definition flush_begin (b : BatchBuffer) : BatchBuffer :=
  match bb_prices b with
  | [] => b
  | batch => mkBuffer [] (bb_maxSize b) (bb_flights b ++ [mkInFlight batch false])
               (bb_flushErrors b) (bb_flushCount b) (bb_written b) (bb_lost b)
  end.

(** The next attempt of the [k]-th flush in flight, with its outcome. *)
Definition flush_attempt (k : nat) (success : bool) (b : BatchBuffer) : BatchBuffer :=
  match bb_flights b !! k with
  | None => b
  | Some (mkInFlight batch retry) =>
      if success then
        mkBuffer (bb_prices b) (bb_maxSize b) (delete k (bb_flights b)) (bb_flushErrors b)
          (wrap64 (bb_flushCount b + 1)) (bb_written b ++ [batch]) (bb_lost b)
      else if retry then
        mkBuffer (bb_prices b) (bb_maxSize b) (delete k (bb_flights b))
          (wrap64 (bb_flushErrors b + 1)) (bb_flushCount b) (bb_written b) (bb_lost b ++ [batch])
      else
        mkBuffer (bb_prices b) (bb_maxSize b) (<[k := mkInFlight batch true]> (bb_flights b))
          (bb_flushErrors b) (bb_flushCount b) (bb_written b) (bb_lost b)
  end.

(** [Add]: the append under the lock; the flag says that it goes on to flush. *)
Definition Add (price : Price) (b : BatchBuffer) : bool * BatchBuffer :=
  let prices := bb_prices b ++ [price] in
  (Z.of_nat (length prices) >=? bb_maxSize b,
   mkBuffer prices (bb_maxSize b) (bb_flights b) (bb_flushErrors b) (bb_flushCount b)
     (bb_written b) (bb_lost b)).

(** A flush with nothing in between, [r1] and [r2] the outcomes of its attempts. *)
Definition flush (r1 r2 : bool) (b : BatchBuffer) : BatchBuffer :=
  match bb_prices b with
  | [] => b
  | _ =>
      let k := length (bb_flights b) in
      let b := flush_attempt k r1 (flush_begin b) in
      if r1 then b else flush_attempt k r2 b
  end.
(** The goroutine of [Start]: on a tick it flushes, when the buffer is done it
    ends.  [Stop] waits for it and flushes what is left. *)
Definition Start_turn (ticked r1 r2 : bool) (b : BatchBuffer) : option BatchBuffer :=
  if ticked then Some (flush r1 r2 b) else None.
Definition Stop (r1 r2 : bool) (b : BatchBuffer) : BatchBuffer := flush r1 r2 b.
Definition FlushStats (b : BatchBuffer) : Z * Z := (bb_flushCount b, bb_flushErrors b).

(** ** store.go: Save, SaveBatch, the defaults of NewStore, the rows of flushBatch *)
Definition store_Save (r1 r2 : bool) (price : Price) (b : BatchBuffer) : BatchBuffer :=
  let '(full, b) := Add price b in if full then flush r1 r2 b else b.
(** The outcomes of the flushes a batch may cause, one pair per price. *)
Fixpoint store_SaveBatch (prices : list Price) (rs : list (bool * bool)) (b : BatchBuffer) : BatchBuffer :=
  match prices with
  | [] => b
  | p :: ps =>
      let '(r1, r2) := hd (true, true) rs in
      store_SaveBatch ps (tail rs) (store_Save r1 r2 p b)
  end.
Definition store_batchSize (n : Z) : Z := if n <=? 0 then 1000 else n.
Definition store_batchInterval (d : Duration) : Duration := if d <=? 0 then 5 * Second else d.

Record row := mkRow {
  row_CoinID : string; row_Currency : string; row_Value : float64; row_Provider : string;
  row_MarketCap : float64; row_Volume24h : float64; row_Change24h : float64;
  row_Timestamp : Time; row_ReceivedAt : Time }.
Definition flush_row (now1 now2 : Time) (p : Price) : row :=
  mkRow (CoinID p) (Currency p) (dec_InexactFloat64 (Value p)) (PProvider p)
    (dec_InexactFloat64 (MarketCap p)) (dec_InexactFloat64 (Volume24h p)) (Change24h p)
    (if time_IsZero (Timestamp p) then now1 else Timestamp p)
    (if time_IsZero (ReceivedAt p) then now2 else ReceivedAt p).

(** ** Runs: adds, flushes (from [Add], the ticker or [Stop]) and attempts *)
Inductive buffer_event := EvAdd (p : Price) | EvFlush | EvAttempt (k : nat) (success : bool).
Definition buffer_run1 (b : BatchBuffer) (e : buffer_event) : BatchBuffer :=
  match e with
  | EvAdd p => snd (Add p b)
  | EvFlush => flush_begin b
  | EvAttempt k s => flush_attempt k s b
  end.
Definition buffer_run (maxSize : Z) (es : list buffer_event) : BatchBuffer :=
  fold_left buffer_run1 es (NewBatchBuffer maxSize).
Definition added (es : list buffer_event) : list Price :=
  omap (fun e => match e with EvAdd p => Some p | _ => None end) es.

Definition held (b : BatchBuffer) : list Price :=
  concat (bb_written b) ++ concat (bb_lost b) ++ concat (if_batch <$> bb_flights b) ++ bb_prices b.

Lemma concat_snoc {A} (l : list (list A)) x : concat (l ++ [x]) = concat l ++ x.
Proof. rewrite concat_app. simpl. by rewrite app_nil_r. Qed.

Lemma concat_flights_delete (l : list in_flight) k f : l !! k = Some f ->
  concat (if_batch <$> l) ≡ₚ if_batch f ++ concat (if_batch <$> delete k l).
Proof.
  revert k. induction l as [|x l IH]; intros [|k] Hk; simplify_eq/=; [done|].
  rewrite (IH _ Hk). rewrite !app_assoc. by rewrite (Permutation_app_comm (if_batch x)).
Qed.

Lemma held_step b e :
  held (buffer_run1 b e) ≡ₚ held b ++ match e with EvAdd p => [p] | _ => [] end.
Proof.
  destruct e as [p| |k s]; simpl.
  - unfold held. simpl. by rewrite <- !app_assoc.
  - rewrite app_nil_r. unfold flush_begin, held. destruct (bb_prices b) as [|p ps] eqn:E; [by rewrite E|].
    simpl. rewrite fmap_app. simpl. by rewrite concat_snoc, app_nil_r.
  - rewrite app_nil_r. unfold flush_attempt. destruct (bb_flights b !! k) as [[batch retry]|] eqn:Ek; [|done].
    pose proof (concat_flights_delete _ _ _ Ek) as Hd. simpl in Hd.
    destruct s; [|destruct retry]; unfold held; simpl.
    + rewrite concat_snoc, Hd, <- !app_assoc. apply Permutation_app_head, Permutation_app_swap_app.
    + rewrite concat_snoc, Hd, <- !app_assoc. done.
    + rewrite list_fmap_insert. simpl. rewrite list_insert_id; [done|]. by rewrite list_lookup_fmap, Ek.
Qed.

Lemma fold_held es b : held (fold_left buffer_run1 es b) ≡ₚ held b ++ added es.
Proof.
  revert b. induction es as [|e es IH]; intros b; simpl; [by rewrite app_nil_r|].
  rewrite IH, held_step, <- app_assoc. by destruct e.
Qed.
End buffer.

Section properties.
Context {O : DecimalOps}.

(** C12. Whatever the interleaving of additions, flushes and attempts, every
    price that was added is, exactly once, in a batch that was written, in one
    that was lost after two failures, in one in flight, or in the buffer. *)
Theorem buffer_conservation maxSize (es : list buffer_event) :
  let b := buffer_run maxSize es in
  concat (bb_written b) ++ concat (bb_lost b) ++ concat (if_batch <$> bb_flights b) ++ bb_prices b
    ≡ₚ added es.
Proof. apply (fold_held es (NewBatchBuffer maxSize)). Qed.

Lemma flush_spec r1 r2 (b : BatchBuffer) : bb_flights b = [] ->
  let b' := flush r1 r2 b in
  let batch := match bb_prices b with [] => [] | batch => [batch] end in
  bb_prices b' = [] /\ bb_flights b' = [] /\ bb_maxSize b' = bb_maxSize b /\
  bb_written b' = bb_written b ++ (if r1 || r2 then batch else []) /\
  bb_lost b' = bb_lost b ++ (if r1 || r2 then [] else batch).
Proof.
  intros Hfl. unfold flush. destruct (bb_prices b) as [|p ps] eqn:Eb.
  { simpl. split_and!; try done; by destruct (r1 || r2); rewrite app_nil_r. }
  unfold flush_begin. rewrite Eb, Hfl. simpl. unfold flush_attempt. simpl.
  destruct r1; simpl; [|destruct r2; simpl]; split_and!; try done; by rewrite app_nil_r.
Qed.

(** A buffer that is stopped with no other flush in flight has nothing left:
    every price that was added is in a batch written or, after two failures,
    lost. *)
Theorem Stop_drains maxSize (es : list buffer_event) r1 r2 : bb_flights (buffer_run maxSize es) = [] ->
  let b := Stop r1 r2 (buffer_run maxSize es) in
  bb_prices b = [] /\ concat (bb_written b) ++ concat (bb_lost b) ≡ₚ added es /\
  (r1 || r2 = true -> bb_lost b = bb_lost (buffer_run maxSize es)).
Proof.
  intros Hfl b. destruct (flush_spec r1 r2 _ Hfl) as (Hp & _ & _ & Hw & Hl). fold (Stop r1 r2 (buffer_run maxSize es)) in *.
  fold b in Hp, Hw, Hl. split_and!; [done| |intros Hr; rewrite Hl, Hr; apply app_nil_r].
  pose proof (fold_held es (NewBatchBuffer maxSize)) as Hh. unfold held in Hh. simpl in Hh.
  fold (buffer_run maxSize es) in Hh. rewrite Hfl in Hh. simpl in Hh. rewrite <- Hh, Hw, Hl.
  destruct (bb_prices (buffer_run maxSize es)) as [|p ps]; destruct (r1 || r2); rewrite ?app_nil_r; try done.
  - rewrite concat_snoc, <- !app_assoc. apply Permutation_app_head, Permutation_app_comm.
  - by rewrite concat_snoc.
Qed.

(** Saving with no flush in flight keeps the buffer below its capacity and
    leaves no flush behind; the price goes to the buffer, or with everything
    before it, in order, to one batch that is written or, after two failures,
    lost. *)
Theorem store_Save_bounded r1 r2 price (b : BatchBuffer) :
  0 < bb_maxSize b -> bb_flights b = [] -> Z.of_nat (length (bb_prices b)) < bb_maxSize b ->
  let b' := store_Save r1 r2 price b in
  let batch := bb_prices b ++ [price] in
  bb_flights b' = [] /\ Z.of_nat (length (bb_prices b')) < bb_maxSize b' /\
  (bb_prices b' = batch /\ bb_written b' = bb_written b /\ bb_lost b' = bb_lost b \/
   bb_prices b' = [] /\ bb_written b' = bb_written b ++ (if r1 || r2 then [batch] else []) /\
   bb_lost b' = bb_lost b ++ (if r1 || r2 then [] else [batch])).
Proof.
  intros Hpos Hfl Hlen. unfold store_Save, Add. cbv zeta.
  assert (bb_prices b ++ [price] <> []) as Hne by (by destruct (bb_prices b)).
  destruct (_ >=? bb_maxSize b) eqn:E; to_prop; simpl; [|rewrite Hfl; split_and!; [done|lia|by left]].
  unfold flush. simpl. destruct (bb_prices b ++ [price]) as [|p ps] eqn:Eb; [done|].
  unfold flush_begin. simpl. rewrite Hfl. simpl. unfold flush_attempt. simpl.
  destruct r1; simpl; [|destruct r2; simpl]; split_and!; try done; right; rewrite ?app_nil_r; done.
Qed.
End properties.

Lemma store_Save_bounded_witness :
  let b := mkBuffer [sample_price] 2 [] 0 0 [] [] in
  bb_lost (store_Save false false sample_price b) = [[sample_price; sample_price]] /\
  bb_flights (store_Save false false sample_price b) = [].
Proof.
  intros b. destruct (store_Save_bounded false false sample_price b) as (Hf & _ & _);
    [reflexivity|reflexivity|reflexivity|]. split; [reflexivity|exact Hf].
Defined.
