(* ===== verification/Sql.v ===== *)
(** * Databases: rows, scanning, and the meaning of a SELECT

    What the PostgreSQL and ClickHouse stores share: a connection that answers
    the text of a statement with rows, the loop that scans them, and a meaning
    for the shape of statement the stores send, a relation between the table
    and the answer.  The drivers are parameters. *)
From S2P Require Import Prelude GoLib GoStrings Decimal Model.
Open Scope Z_scope.

Section scanning.
Context {O : DecimalOps}.

(** The Go types a column can be scanned into, and a row of them. *)
Inductive kind := KString | KTime | KFloat | KInt64 | KUint64 | KDecimal.
#[export] Instance kind_eq_dec : EqDecision kind.
Proof. solve_decision. Defined.
Definition val (k : kind) : Type :=
  match k with
  | KString => string | KTime => Time | KFloat => float64 | KInt64 | KUint64 => Z | KDecimal => decimal
  end.
Fixpoint vals (ks : list kind) : Type :=
  match ks with [] => unit | k :: ks => (val k * vals ks)%type end.

(** The values bound to the placeholders of a statement. *)
Inductive arg := AString (s : string) | ATime (t : Time) | AFloat (f : float64) | ADecimal (d : decimal).

(** A connection.  [conn_Query] answers with the rows and what [rows.Err()]
    says after them; [conn_QueryRow] with the first row, [None] when there is
    none; [row_Scan] copies the columns of a row into destinations. *)
Class SqlConn (W R : Type) := {
  conn_Query : string -> list arg -> M W (list R * option error + error);
  conn_QueryRow : string -> list arg -> M W (option R + error);
  conn_Exec : string -> list arg -> M W (option error);
  row_Scan : forall ks, R -> vals ks + error }.

(** [for rows.Next() { rows.Scan(..); .. append }]: a scan that fails ends the
    loop with its error, and what is made of a row may panic. *)
Context {W R : Type} `{!SqlConn W R}.
Fixpoint scan_rows {A} (ks : list kind) (make : vals ks -> option A) (scan_error : error -> error)
    (rows : list R) (acc : list A) : option (list A + error) :=
  match rows with
  | [] => Some (inl acc)
  | r :: rows =>
      match row_Scan ks r with
      | inr e => Some (inr (scan_error e))
      | inl v => a ← make v; scan_rows ks make scan_error rows (acc ++ [a])
      end
  end.
(** A query, the loop, and [return result, rows.Err()]. *)
Definition query_all {A} (ks : list kind) (make : vals ks -> option A) (query_error scan_error : error -> error)
    (sql : string) (args : list arg) : PM W (list A * option error) :=
  r <- conn_Query sql args ;;
  match r with
  | inr e => retp ([], Some (query_error e))
  | inl (rows, rows_Err) =>
      scanned <~ of_option (scan_rows ks make scan_error rows []) ;;
      match scanned with
      | inr e => retp ([], Some e)
      | inl result => retp (result, rows_Err)
      end
  end.

Lemma scan_rows_ok {A} ks (make : vals ks -> option A) scan_error out : forall rows acc l,
  row_Scan ks <$> rows = inl <$> out -> Forall2 (fun v a => make v = Some a) out l ->
  scan_rows ks make scan_error rows acc = Some (inl (acc ++ l)).
Proof.
  induction out as [|v out IH]; intros [|r rows] acc l Hr Hl; try done; inversion Hl as [|? a ? l' Ha Hl']; subst.
  - simpl. by rewrite app_nil_r.
  - simpl in Hr. injection Hr as Hv Hr. simpl. rewrite Hv. simpl. rewrite Ha. simpl.
    rewrite (IH rows _ l') by done. by rewrite <- app_assoc.
Qed.

(** What the loop returned is what the rows made. *)
Lemma scan_rows_inv {A} ks (make : vals ks -> option A) scan_error out : forall rows acc l,
  row_Scan ks <$> rows = inl <$> out -> scan_rows ks make scan_error rows acc = Some (inl l) ->
  exists l', l = acc ++ l' /\ Forall2 (fun v a => make v = Some a) out l'.
Proof.
  induction out as [|v out IH]; intros [|r rows] acc l Hr Hl; try done.
  - injection Hl as <-. exists []. split; [by rewrite app_nil_r|constructor].
  - simpl in Hr. injection Hr as Hv Hr. simpl in Hl. rewrite Hv in Hl. simpl in Hl.
    destruct (make v) as [a|] eqn:Ha; [|done]. apply (IH _ _ _ Hr) in Hl as (l' & -> & Hl').
    exists (a :: l'). split; [by rewrite <- app_assoc|by constructor].
Qed.

(** When every row scans, [query_all] returns what the rows make. *)
Lemma query_all_ok {A} ks (make : vals ks -> option A) qe se sql args w rows e w' out l :
  conn_Query sql args w = (inl (rows, e), w') -> row_Scan ks <$> rows = inl <$> out -> Forall2 (fun v a => make v = Some a) out l ->
  query_all ks make qe se sql args w = (Some (l, e), w').
Proof.
  intros Hq Hs Hm. unfold query_all, bind. rewrite Hq.
  unfold bindp, bind, of_option, ret. by rewrite (scan_rows_ok _ _ _ _ _ [] _ Hs Hm).
Qed.

(** An answer without an error comes from a query that succeeded. *)
Lemma query_all_inv {A} ks (make : vals ks -> option A) qe se sql args w l w' :
  query_all ks make qe se sql args w = (Some (l, None), w') ->
  exists rows, conn_Query sql args w = (inl (rows, None), w') /\
    scan_rows ks make se rows [] = Some (inl l).
Proof.
  unfold query_all, bind. destruct (conn_Query sql args w) as [[[rows err]|e] w1]; [|by intros [= ]].
  unfold bindp, bind, of_option, ret. destruct (scan_rows _ _ _ _ _) as [[l'|e']|] eqn:E; [|by intros [= ]|by intros [= ]].
  intros [= <- -> <-]. by exists rows.
Qed.
End scanning.

(** ** SELECT columns FROM t WHERE .. ORDER BY key LIMIT n *)
Section select.
Context {Row : Type}.

Record select (A : Type) := SELECT {
  s_columns : Row -> A;
  s_where : Row -> bool;
  s_order_by : Row -> Z;
  s_desc : bool;
  s_limit : option nat }.
#[global] Arguments SELECT {_}.
#[global] Arguments s_columns {_}.
#[global] Arguments s_where {_}.
#[global] Arguments s_order_by {_}.
#[global] Arguments s_desc {_}.
#[global] Arguments s_limit {_}.

Definition key_le (key : Row -> Z) (desc : bool) (a b : Row) : Prop :=
  if desc then key b <= key a else key a <= key b.
Definition limited {B} (n : option nat) (l : list B) : list B :=
  match n with Some n => take n l | None => l end.

(** The answers a database may give: the rows that satisfy the condition in
    some order of the keys, the first ones of them, their columns. *)
Definition selects {A} (q : select A) (t : list Row) (out : list A) : Prop :=
  exists l, l ≡ₚ bfilter (s_where q) t /\ StronglySorted (key_le (s_order_by q) (s_desc q)) l /\
    out = s_columns q <$> limited (s_limit q) l.

Lemma selects_all {A} (q : select A) t out : s_limit q = None -> selects q t out ->
  forall a, a ∈ out <-> exists r, r ∈ t /\ s_where q r = true /\ a = s_columns q r.
Proof.
  intros Hn (l & Hl & _ & ->) a. rewrite Hn. simpl. rewrite list_elem_of_fmap.
  setoid_rewrite Hl. setoid_rewrite elem_of_bfilter. naive_solver.
Qed.

(** The first row: none exactly when none satisfies the condition, and
    otherwise one whose key comes first. *)
Lemma selects_first {A} (q : select A) t out : s_limit q = Some 1%nat -> selects q t out ->
  match out with
  | [] => forall r, r ∈ t -> s_where q r = false
  | [a] => exists r, r ∈ t /\ s_where q r = true /\ a = s_columns q r /\
      forall r', r' ∈ t -> s_where q r' = true -> key_le (s_order_by q) (s_desc q) r r'
  | _ => False
  end.
Proof.
  intros Hn (l & Hl & Hs & ->). rewrite Hn. destruct l as [|r l]; simpl.
  - intros r Hr. apply not_true_is_false. intros Hw.
    assert (r ∈ bfilter (s_where q) t) as Hin by (by apply elem_of_bfilter). rewrite <- Hl in Hin. set_solver.
  - exists r.
    assert (r ∈ bfilter (s_where q) t) as [Hw Hr]%elem_of_bfilter by (rewrite <- Hl; set_solver).
    split_and!; [done..|]. intros r' Hr' Hw'.
    assert (r' ∈ r :: l) as [->|Hin]%elem_of_cons by (rewrite Hl; by apply elem_of_bfilter).
    + unfold key_le. case_match; lia.
    + inversion Hs as [|?? _ Hall]; subst. by eapply Forall_forall in Hall.
Qed.

(** A database that sorts by insertion. *)
Definition run_select {A} (q : select A) (t : list Row) : list A :=
  s_columns q <$> limited (s_limit q) (insertion_sort (fun a b =>
    if s_desc q then s_order_by q b <? s_order_by q a else s_order_by q a <? s_order_by q b)
    (bfilter (s_where q) t)).
Lemma run_select_ok {A} (q : select A) t : selects q t (run_select q t).
Proof.
  eexists. split; [apply insertion_sort_perm|]. split; [|done].
  set (less := fun a b => if s_desc q then s_order_by q b <? s_order_by q a else s_order_by q a <? s_order_by q b).
  assert (strict_weak less) as Hw.
  { unfold less. destruct (s_desc q); [|apply strict_weak_key].
    split; [intros; apply Z.ltb_irrefl|intros ???..]; rewrite !Z.ltb_lt; lia. }
  pose proof (insertion_sort_sorted less (bfilter (s_where q) t) Hw) as Hs.
  induction Hs as [|a l _ IH Ha]; constructor; [done|].
  eapply Forall_impl; [exact Ha|]. intros b. unfold less, key_le. destruct (s_desc q); intros; to_prop; lia.
Qed.
End select.
Arguments select : clear implicits.
Arguments key_le {_} _ _ _ _ /.

(** [int(interval.Seconds())], the width of a bucket of candles. *)
Definition interval_seconds (interval : Duration) : Z := f_to_int (Duration_Seconds interval).

(** The largest and the smallest of a group, as MAX and MIN give them. *)
Definition is_max {A} (le : A -> A -> Prop) (l : list A) (m : A) : Prop := m ∈ l /\ Forall (fun x => le x m) l.
Definition is_min {A} (le : A -> A -> Prop) (l : list A) (m : A) : Prop := m ∈ l /\ Forall (fun x => le m x) l.

(** ** A driver for the witnesses: a row is a list of tagged cells *)
Section cells.
Context {O : DecimalOps}.

Inductive cell :=
  | CString (s : string) | CTime (t : Time) | CFloat (f : float64) | CInt64 (z : Z) | CUint64 (z : Z)
  | CDecimal (d : decimal).
Definition cell_of (k : kind) : val k -> cell :=
  match k with
  | KString => CString | KTime => CTime | KFloat => CFloat | KInt64 => CInt64 | KUint64 => CUint64
  | KDecimal => CDecimal
  end.
Definition scan_cell (k : kind) (c : cell) : option (val k) :=
  match k, c with
  | KString, CString s => Some s | KTime, CTime t => Some t | KFloat, CFloat f => Some f
  | KInt64, CInt64 z => Some z | KUint64, CUint64 z => Some z | KDecimal, CDecimal d => Some d
  | _, _ => None
  end.
Fixpoint cells (ks : list kind) : vals ks -> list cell :=
  match ks with [] => fun _ => [] | k :: ks => fun v => cell_of k (fst v) :: cells ks (snd v) end.
Fixpoint scan_cells (ks : list kind) (cs : list cell) : option (vals ks) :=
  match ks, cs with
  | [], [] => Some tt
  | k :: ks, c :: cs => v ← scan_cell k c; vs ← scan_cells ks cs; Some (v, vs)
  | _, _ => None
  end.
Definition scan_or_error (ks : list kind) (cs : list cell) : vals ks + error :=
  match scan_cells ks cs with Some v => inl v | None => inr (Errorf "converting a column") end.
Definition cell_kind (c : cell) : kind :=
  match c with
  | CString _ => KString | CTime _ => KTime | CFloat _ => KFloat | CInt64 _ => KInt64 | CUint64 _ => KUint64
  | CDecimal _ => KDecimal
  end.

Lemma scan_cells_ok ks (v : vals ks) : scan_or_error ks (cells ks v) = inl v.
Proof.
  unfold scan_or_error. enough (scan_cells ks (cells ks v) = Some v) as -> by done.
  induction ks as [|k ks IH]; [by destruct v|]. destruct v as [v vs]. simpl. rewrite IH. by destruct k.
Qed.
Lemma scan_cells_kinds ks cs v : scan_or_error ks cs = inl v -> cell_kind <$> cs = ks.
Proof.
  unfold scan_or_error. destruct (scan_cells ks cs) as [v'|] eqn:E; [intros _|done]. clear v. revert cs v' E.
  induction ks as [|k ks IH]; intros [|c cs] v' E; try done.
  simpl in E. destruct (scan_cell k c) eqn:Ec; [|done]. simpl in E. destruct (scan_cells ks cs) eqn:Es; [|done].
  rewrite fmap_cons, (IH _ _ Es). f_equal. by destruct k, c.
Qed.
Lemma scan_all_cells ks (out : list (vals ks)) : scan_or_error ks <$> (cells ks <$> out) = inl <$> out.
Proof. induction out as [|v out IH]; [done|]. rewrite !fmap_cons, scan_cells_ok. by f_equal. Qed.
End cells.
