(* ===== verification/Postgres.v ===== *)
(** * internal/adapter/storage/postgres/store.go

    The PostgreSQL store: each operation with the text it sends, and what the
    statements mean on the table of prices.  pgx and the server are parameters;
    the laws say that a statement answers what SQL says it means, that an
    insertion stores the row as its columns' types round it, and that a
    transaction is committed as a whole. *)
From S2P Require Import Prelude GoLib GoStrings Decimal Model Ports MemStore Sql Demo.
From Stdlib Require Import QArith Qabs Lqa.
Open Scope Z_scope.

Section store.
Context {O : DecimalOps} `{!GoFmt}.

(** A row of the table (the column [id], which is never read, aside). *)
Record prow := mkProw {
  pr_CoinID : string; pr_Currency : string; pr_Value : decimal; pr_Provider : string;
  pr_Timestamp : Time; pr_ReceivedAt : Time }.
Definition price_cols : list kind := [KString; KString; KDecimal; KString; KTime; KTime].
Definition prow_vals (r : prow) : vals price_cols :=
  (pr_CoinID r, (pr_Currency r, (pr_Value r, (pr_Provider r, (pr_Timestamp r, (pr_ReceivedAt r, tt)))))).
(** The price a row is scanned into: the fields without a column stay zero. *)
Definition pg_price (v : vals price_cols) : Price :=
  let '(coinID, (currency, (value, (provider, (timestamp, (receivedAt, _)))))) := v in
  mkPrice coinID currency value provider timestamp receivedAt dec_Zero dec_Zero fzero.
Definition price_row (p : Price) : prow :=
  mkProw (CoinID p) (Currency p) (Value p) (PProvider p) (Timestamp p) (ReceivedAt p).

(** ** The statements *)
Definition insert_sql : string :=
  "INSERT INTO prices (coin_id, currency, value, provider, timestamp, received_at)
		 VALUES ($1, $2, $3, $4, $5, $6)".
Definition insert_args (r : prow) : list arg :=
  [AString (pr_CoinID r); AString (pr_Currency r); ADecimal (pr_Value r); AString (pr_Provider r);
   ATime (pr_Timestamp r); ATime (pr_ReceivedAt r)].
Definition latest_sql : string :=
  "SELECT coin_id, currency, value, provider, timestamp, received_at
		 FROM prices
		 WHERE coin_id = $1 AND currency = $2
		 ORDER BY received_at DESC
		 LIMIT 1".
Definition history_sql : string :=
  "SELECT coin_id, currency, value, provider, timestamp, received_at
		 FROM prices
		 WHERE coin_id = $1 AND currency = $2
		   AND received_at >= $3 AND received_at < $4
		 ORDER BY received_at ASC".
Definition ohlc_sql : string :=
  "
        WITH buckets AS (
            SELECT generate_series($3::timestamptz, $4::timestamptz - $5::interval, $5::interval) AS bucket_start
        )
        SELECT
            b.bucket_start,
            (SELECT value FROM prices WHERE coin_id = $1 AND currency = $2 AND received_at >= b.bucket_start AND received_at < b.bucket_start + $5::interval ORDER BY received_at ASC LIMIT 1) AS open,
            MAX(p.value) AS high,
            MIN(p.value) AS low,
            (SELECT value FROM prices WHERE coin_id = $1 AND currency = $2 AND received_at >= b.bucket_start AND received_at < b.bucket_start + $5::interval ORDER BY received_at DESC LIMIT 1) AS close
        FROM buckets b
        LEFT JOIN prices p ON p.coin_id = $1 AND p.currency = $2 AND p.received_at >= b.bucket_start AND p.received_at < b.bucket_start + $5::interval
        GROUP BY b.bucket_start
        HAVING COUNT(p.id) > 0
        ORDER BY b.bucket_start".

(** ** The operations *)
Class PgTx (W : Type) := {
  conn_Begin : M W (option error);
  tx_Exec : string -> list arg -> M W (option error);
  tx_Commit : M W (option error);
  tx_Rollback : M W unit }.
Context {W R : Type} `{!SqlConn W R} `{!PgTx W}.

(** [NewStore]: a pool that does not answer is closed again. *)
Class PgPool (W C : Type) := {
  pgx_ParseConfig : string -> C + error;
  pool_NewWithConfig : C -> M W (option error);
  pool_Ping : M W (option error);
  pool_Close : M W unit }.
Definition pg_NewStore {C} `{!PgPool W C} (dsn : string) : M W (option error) :=
  match pgx_ParseConfig dsn with
  | inr e => ret (Some (Wrapf "parsing dsn: " e ""))
  | inl config =>
      e <- pool_NewWithConfig config ;;
      match e with
      | Some e => ret (Some (Wrapf "connecting to postgres: " e ""))
      | None =>
          e <- pool_Ping ;;
          match e with
          | Some e => pool_Close ;;; ret (Some (Wrapf "pinging postgres: " e ""))
          | None => ret None
          end
      end
  end.

Definition pg_Close {C} `{!PgPool W C} : M W unit := pool_Close.

Definition pg_Save (price : Price) : M W (option error) :=
  e <- conn_Exec insert_sql (insert_args (price_row price)) ;;
  match e with Some e => ret (Some (Wrapf "inserting price: " e "")) | None => ret None end.

Fixpoint insert_loop (prices : list Price) : M W (option error) :=
  match prices with
  | [] => tx_Commit
  | p :: prices =>
      e <- tx_Exec insert_sql (insert_args (price_row p)) ;;
      match e with
      | Some e => ret (Some (Wrapf "inserting price in batch: " e ""))
      | None => insert_loop prices
      end
  end.
(** The rollback is deferred: it comes last, after a commit too. *)
Definition pg_SaveBatch (prices : list Price) : M W (option error) :=
  e <- conn_Begin ;;
  match e with
  | Some e => ret (Some (Wrapf "beginning transaction: " e ""))
  | None => r <- insert_loop prices ;; tx_Rollback ;;; ret r
  end.

Definition pg_GetLatest (coinID currency : string) : M W (result Price) :=
  r <- conn_QueryRow latest_sql [AString coinID; AString currency] ;;
  match r with
  | inr e => ret (err (Wrapf "querying latest price: " e ""))
  | inl None => ret (None, None)
  | inl (Some row) =>
      match row_Scan price_cols row with
      | inr e => ret (err (Wrapf "querying latest price: " e ""))
      | inl v => ret (ok (pg_price v))
      end
  end.
Definition pg_GetHistory (coinID currency : string) (from to : Time) : PM W (list Price * option error) :=
  query_all price_cols (fun v => Some (pg_price v))
    (fun e => Wrapf "querying history: " e "") (fun e => Wrapf "scanning row: " e "")
    history_sql [AString coinID; AString currency; ATime from; ATime to].

Definition candle_cols : list kind := [KTime; KDecimal; KDecimal; KDecimal; KDecimal].
Definition pg_candle (v : vals candle_cols) : OHLC :=
  let '(t, (open, (high, (low, (close, _))))) := v in mkOHLC t open high low close.
Definition pg_GetOHLC (coinID currency : string) (from to : Time) (interval : Duration) :
    PM W (list OHLC * option error) :=
  query_all candle_cols (fun v => Some (pg_candle v))
    (fun e => Wrapf "querying ohlc: " e "") (fun e => Wrapf "scanning ohlc row: " e "")
    ohlc_sql [AString coinID; AString currency; ATime from; ATime to;
              AString (fmt_d (interval_seconds interval) +:+ " seconds")].

(** The store behind the port.  Its reads never panic ([no_panic]), so what a
    panic would answer does not matter. *)
Definition no_panic {A} (m : PM W (list A * option error)) : M W (list A * option error) :=
  o <- m ;; ret (default ([], None) o).
Definition pg_store : PriceStore W := {|
  ps_Save := pg_Save;
  ps_SaveBatch := pg_SaveBatch;
  ps_GetLatest := pg_GetLatest;
  ps_GetHistory coinID currency from to := no_panic (pg_GetHistory coinID currency from to);
  ps_GetOHLC coinID currency from to interval := no_panic (pg_GetOHLC coinID currency from to interval) |}.

Lemma no_panic_total {A} ks (make : vals ks -> A) qe se sql args w :
  let m := query_all ks (fun v => Some (make v)) qe se sql args in
  fst (m w) = Some (fst (no_panic m w)) /\ snd (m w) = snd (no_panic m w).
Proof.
  assert (forall rows acc, is_Some (scan_rows ks (fun v => Some (make v)) se rows acc)) as Hs.
  { induction rows as [|r rows IH]; intros acc; simpl; [done|]. destruct (row_Scan ks r); simpl; [apply IH|done]. }
  intros m. unfold no_panic, bind, ret. destruct (m w) as [o w'] eqn:E. simpl. split; [|done].
  unfold m, query_all, bind in E. destruct (conn_Query sql args w) as [[[rows e]|e] w1]; [|by injection E as <- <-].
  unfold bindp, bind, of_option, ret in E. destruct (Hs rows []) as [[l|e'] Hr]; rewrite Hr in E; by injection E as <- <-.
Qed.
End store.

(** ** What the statements mean *)
Definition Microsecond : Duration := 1000.

Section meaning.
Context {O : DecimalOps} {L : DecimalLaws O} `{!GoFmt}.

Inductive pg_query :=
  | PgLatest (coinID currency : string)
  | PgHistory (coinID currency : string) (from to : Time)
  | PgOHLC (coinID currency : string) (from to : Time) (seconds : Z).
Definition pg_cols (q : pg_query) : list kind :=
  match q with PgOHLC _ _ _ _ _ => candle_cols | _ => price_cols end.
Definition pg_text (q : pg_query) : string :=
  match q with
  | PgLatest _ _ => latest_sql | PgHistory _ _ _ _ => history_sql | PgOHLC _ _ _ _ _ => ohlc_sql
  end.
Definition pg_args (q : pg_query) : list arg :=
  match q with
  | PgLatest coinID currency => [AString coinID; AString currency]
  | PgHistory coinID currency from to => [AString coinID; AString currency; ATime from; ATime to]
  | PgOHLC coinID currency from to n =>
      [AString coinID; AString currency; ATime from; ATime to; AString (fmt_d n +:+ " seconds")]
  end.

Definition of_pair (coinID currency : string) (r : prow) : bool :=
  bool_decide (pr_CoinID r = coinID) && bool_decide (pr_Currency r = currency).
Definition received_in (from to : Time) (r : prow) : bool :=
  (from <=? pr_ReceivedAt r) && (pr_ReceivedAt r <? to).
Definition latest_select (coinID currency : string) : select prow (vals price_cols) :=
  SELECT prow_vals (of_pair coinID currency) pr_ReceivedAt true (Some 1%nat).
Definition history_select (coinID currency : string) (from to : Time) : select prow (vals price_cols) :=
  SELECT prow_vals (fun r => of_pair coinID currency r && received_in from to r) pr_ReceivedAt false None.

(** [generate_series(start, stop, step)] for a positive step. *)
Definition generate_series (start stop : Time) (step : Duration) : list Time :=
  (fun i => start + step * Z.of_nat i) <$> seq 0 (Z.to_nat ((stop - start) / step + 1)).
Definition in_bucket (coinID currency : string) (step : Duration) (b : Time) (r : prow) : bool :=
  of_pair coinID currency r && received_in b (b + step) r.
(** The sub-select of the opening price, or of the closing one. *)
Definition bound_select (coinID currency : string) (step : Duration) (b : Time) (last : bool) : select prow decimal :=
  SELECT pr_Value (in_bucket coinID currency step b) pr_ReceivedAt last (Some 1%nat).
Definition dec_le (a b : decimal) : Prop := (dval a <= dval b)%Q.
Definition bucket_means (t : list prow) (coinID currency : string) (step : Duration) (b : Time)
    (v : vals candle_cols) : Prop :=
  let '(bucket_start, (open, (high, (low, (close, _))))) := v in
  let group := bfilter (in_bucket coinID currency step b) t in
  bucket_start = b /\
  selects (bound_select coinID currency step b false) t [open] /\
  is_max dec_le (pr_Value <$> group) high /\ is_min dec_le (pr_Value <$> group) low /\
  selects (bound_select coinID currency step b true) t [close].
Definition ohlc_buckets (t : list prow) (coinID currency : string) (from to : Time) (step : Duration) : list Time :=
  bfilter (fun b => negb (length (bfilter (in_bucket coinID currency step b) t) =? 0)%nat)
    (generate_series from (to - step) step).

(** The answers of a statement on a table; [ts] is what a bound instant
    becomes.  An interval that is not positive is left open. *)
Definition pg_means (ts : Time -> Time) (q : pg_query) (t : list prow) : list (vals (pg_cols q)) -> Prop :=
  match q with
  | PgLatest coinID currency => selects (latest_select coinID currency) t
  | PgHistory coinID currency from to => selects (history_select coinID currency (ts from) (ts to)) t
  | PgOHLC coinID currency from to n => fun out => 0 < n ->
      Forall2 (bucket_means t coinID currency (n * Second))
        (ohlc_buckets t coinID currency (ts from) (ts to) (n * Second)) out
  end.

(** *** pgx and the server

    [pg_table] is the table, [pg_tx] the rows the open transaction has
    inserted; [pg_stored] is a row as the columns hold it ([None] when a
    constraint refuses it): NUMERIC(24, 8) rounds the value, TIMESTAMPTZ holds
    microseconds.  After an error of a commit the outcome is not known. *)
Class PgLaws (W R : Type) `{!SqlConn W R} `{!PgTx W} := {
  pg_table : W -> list prow;
  pg_tx : W -> list prow;
  pg_stored : prow -> option prow;
  pg_time : Time -> Time;
  pg_time_spec : forall t, t - Microsecond < pg_time t <= t;
  pg_time_mono : forall t u, t <= u -> pg_time t <= pg_time u;
  pg_stored_spec : forall r r', pg_stored r = Some r' ->
    pr_CoinID r' = pr_CoinID r /\ pr_Currency r' = pr_Currency r /\ pr_Provider r' = pr_Provider r /\
    (Qabs (dval (pr_Value r') - dval (pr_Value r)) <= 1 # 200000000)%Q /\
    pr_Timestamp r' = pg_time (pr_Timestamp r) /\ pr_ReceivedAt r' = pg_time (pr_ReceivedAt r);
  pg_select : forall q w rows w', conn_Query (pg_text q) (pg_args q) w = (inl (rows, None), w') ->
    pg_table w' = pg_table w /\
    exists out, pg_means pg_time q (pg_table w) out /\ row_Scan (pg_cols q) <$> rows = inl <$> out;
  pg_select_row : forall q w row w', conn_QueryRow (pg_text q) (pg_args q) w = (inl row, w') ->
    pg_table w' = pg_table w /\
    exists out, pg_means pg_time q (pg_table w) out /\
      match row with
      | None => out = []
      | Some row => exists v rest, out = v :: rest /\ row_Scan (pg_cols q) row = inl v
      end;
  pg_insert : forall r w w', conn_Exec insert_sql (insert_args r) w = (None, w') ->
    exists r', pg_stored r = Some r' /\ pg_table w' = pg_table w ++ [r'];
  pg_begin : forall w e w', conn_Begin w = (e, w') ->
    pg_table w' = pg_table w /\ (e = None -> pg_tx w' = []);
  pg_tx_insert : forall r w e w', tx_Exec insert_sql (insert_args r) w = (e, w') ->
    pg_table w' = pg_table w /\
    (e = None -> exists r', pg_stored r = Some r' /\ pg_tx w' = pg_tx w ++ [r']);
  pg_commit : forall w e w', tx_Commit w = (e, w') ->
    pg_table w' = pg_table w ++ pg_tx w \/ (e <> None /\ pg_table w' = pg_table w);
  pg_rollback : forall w, pg_table (snd (tx_Rollback w)) = pg_table w }.
End meaning.

(** ** What the store does *)
Section properties.
Context {O : DecimalOps} {L : DecimalLaws O} `{!GoFmt} {W R : Type} `{!SqlConn W R} `{!PgTx W} `{!PgLaws W R}.

Definition stored_as (p : Price) (r : prow) : Prop := pg_stored (price_row p) = Some r.

Lemma insert_loop_spec prices : forall w r w', insert_loop prices w = (r, w') ->
  (r <> None /\ pg_table w' = pg_table w) \/
  exists rows, Forall2 stored_as prices rows /\ pg_table w' = pg_table w ++ pg_tx w ++ rows.
Proof.
  induction prices as [|p prices IH]; intros w r w'; simpl.
  - intros [Hc|Hc]%pg_commit; [right|by left]. exists []. split; [done|]. by rewrite app_nil_r.
  - unfold bind. destruct (tx_Exec insert_sql _ w) as [[e|] w1] eqn:E; apply pg_tx_insert in E as [Ht Hn].
    + intros [= <- <-]. by left.
    + destruct (Hn eq_refl) as (r1 & Hr1 & Htx). intros [[Hne Hw]|(rows & Hrows & Hw)]%IH.
      * left. split; [done|]. congruence.
      * right. exists (r1 :: rows). split; [by constructor|]. rewrite Hw, Ht, Htx. by rewrite <- app_assoc.
Qed.

(** C34. A batch is stored as a whole or not at all, and as a whole whenever the
    call reports no error. *)
Theorem SaveBatch_atomic prices w r w' : pg_SaveBatch prices w = (r, w') ->
  (r <> None /\ pg_table w' = pg_table w) \/
  exists rows, Forall2 stored_as prices rows /\ pg_table w' = pg_table w ++ rows.
Proof.
  unfold pg_SaveBatch, bind, ret. destruct (conn_Begin w) as [[e|] w1] eqn:E; apply pg_begin in E as [Ht Htx].
  { intros [= <- <-]. by left. }
  destruct (insert_loop prices w1) as [r1 w2] eqn:El. destruct (tx_Rollback w2) as [[] w3] eqn:Er.
  pose proof (pg_rollback w2) as Hr. rewrite Er in Hr. simpl in Hr. intros [= <- <-]. rewrite Hr.
  apply insert_loop_spec in El as [[Hne Hw]|(rows & Hrows & Hw)]; [left; split; [done|congruence]|right].
  exists rows. split; [done|]. by rewrite Hw, Ht, (Htx eq_refl).
Qed.

(** How the store gives back a price it stored: the value to eight decimals,
    the instants to the microsecond, and neither the capitalisation nor the
    volume nor the change. *)
Record read_back (p q : Price) : Prop := {
  rb_labels : CoinID q = CoinID p /\ Currency q = Currency p /\ PProvider q = PProvider p;
  rb_value : (Qabs (dval (Value q) - dval (Value p)) <= 1 # 200000000)%Q;
  rb_timestamp : Timestamp p - Microsecond < Timestamp q <= Timestamp p;
  rb_received : ReceivedAt p - Microsecond < ReceivedAt q <= ReceivedAt p;
  rb_lost : MarketCap q = dec_Zero /\ Volume24h q = dec_Zero /\ Change24h q = fzero }.

Lemma stored_read_back p r : stored_as p r -> read_back p (pg_price (prow_vals r)).
Proof.
  intros (Hc & Hu & Hp & Hv & Ht & Hr)%pg_stored_spec. destruct r as [c u v pr ts ra]; simpl in *. subst.
  split; simpl; try done; apply pg_time_spec.
Qed.

Lemma GetLatest_inv coin cur w q w' : pg_GetLatest coin cur w = ((q, None), w') ->
  pg_table w' = pg_table w /\
  match q with
  | None => forall r, r ∈ pg_table w -> of_pair coin cur r = false
  | Some q => exists r, r ∈ pg_table w /\ of_pair coin cur r = true /\ q = pg_price (prow_vals r) /\
      forall r', r' ∈ pg_table w -> of_pair coin cur r' = true -> pr_ReceivedAt r' <= pr_ReceivedAt r
  end.
Proof.
  unfold pg_GetLatest, bind. destruct (conn_QueryRow _ _ w) as [[row|e] w1] eqn:E; [|by intros [= ]].
  apply (pg_select_row (PgLatest coin cur)) in E as (Ht & out & Hm & Hrow). simpl in Hm, Hrow.
  apply (selects_first (latest_select coin cur)) in Hm; [|done]. destruct row as [row|].
  - destruct Hrow as (v & rest & -> & Hs). rewrite Hs. intros [= <- <-]. split; [done|].
    destruct rest; [|done]. destruct Hm as (r & Hr & Hw & -> & Hlast). by exists r.
  - subst out. intros [= <- <-]. by split.
Qed.

Lemma GetHistory_inv coin cur from to w l w' :
  pg_GetHistory coin cur from to w = (Some (l, None), w') ->
  exists rows, rows ≡ₚ bfilter (s_where (history_select coin cur (pg_time from) (pg_time to))) (pg_table w) /\
    StronglySorted (fun a b => pr_ReceivedAt a <= pr_ReceivedAt b) rows /\ l = pg_price ∘ prow_vals <$> rows.
Proof.
  intros (rows & Hq & Hl)%query_all_inv.
  apply (pg_select (PgHistory coin cur from to)) in Hq as (_ & out & (srt & Hp & Hs & ->) & Hscan).
  exists srt. split_and!; [done..|].
  rewrite (scan_rows_ok _ _ _ _ _ [] (pg_price ∘ prow_vals <$> srt) Hscan) in Hl; [by injection Hl|].
  clear. induction srt; constructor; auto.
Qed.

(** The prices of a pair received in an interval, as the store reads them. *)
Definition pair_prices (t : list prow) (coin cur : string) (from to : Time) : list Price :=
  pg_price ∘ prow_vals <$> bfilter (fun r => of_pair coin cur r && received_in from to r) t.

(** *** Candles *)
Lemma elem_of_series start stop step b : 0 < step ->
  b ∈ generate_series start stop step <-> exists i, 0 <= i /\ b = start + step * i /\ b <= stop.
Proof.
  intros Hs. unfold generate_series. rewrite list_elem_of_fmap. setoid_rewrite elem_of_seq. split.
  - intros (i & -> & Hi). exists (Z.of_nat i). split_and!; [lia|done|].
    assert (Z.of_nat i <= (stop - start) / step) by lia.
    pose proof (Z.mul_div_le (stop - start) step Hs). nia.
  - intros (i & Hi & -> & Hle). exists (Z.to_nat i). split; [f_equal; f_equal; lia|].
    assert (i <= (stop - start) / step) by (apply Z.div_le_lower_bound; lia). lia.
Qed.

(** Which instants fall in a whole interval before [stop]. *)
Lemma whole_intervals start stop step x : 0 < step -> start <= x ->
  (exists i, 0 <= i /\ start + step * i <= stop - step /\ start + step * i <= x < start + step * i + step) <->
  x < start + step * ((stop - start) / step).
Proof.
  intros Hs Hx. pose proof (Z.mul_div_le (stop - start) step Hs). split.
  - intros (i & Hi & Hle & Hin). assert (i + 1 <= (stop - start) / step) by (apply Z.div_le_lower_bound; lia). nia.
  - intros Hlt. exists ((x - start) / step).
    pose proof (Z.mul_div_le (x - start) step Hs). pose proof (Z.mul_succ_div_gt (x - start) step Hs).
    assert (0 <= (x - start) / step) by (apply Z.div_pos; lia).
    assert ((x - start) / step < (stop - start) / step) by nia. split_and!; [done|nia|lia|lia].
Qed.

Lemma elem_of_ohlc_buckets t coin cur from to step b : 0 < step ->
  b ∈ ohlc_buckets t coin cur from to step <->
  (exists i, 0 <= i /\ b = from + step * i /\ b <= to - step) /\
  exists r, r ∈ t /\ in_bucket coin cur step b r = true.
Proof.
  intros Hs. unfold ohlc_buckets. rewrite elem_of_bfilter, elem_of_series by done.
  rewrite negb_true_iff, Nat.eqb_neq, bfilter_nonempty. tauto.
Qed.

Lemma series_sorted start stop step : 0 < step -> StronglySorted Z.lt (generate_series start stop step).
Proof.
  intros Hs. unfold generate_series. generalize 0%nat as a.
  induction (Z.to_nat _) as [|n IH]; intros a; simpl; constructor; [apply IH|].
  apply Forall_forall. intros b (i & -> & Hi%elem_of_seq)%list_elem_of_fmap. nia.
Qed.

Lemma bucket_candle t coin cur step b v : bucket_means t coin cur step b v ->
  OTime (pg_candle v) = b /\ candle_of (pair_prices t coin cur b (b + step)) (pg_candle v).
Proof.
  destruct v as (b' & open & high & low & close & []). simpl. intros (-> & Ho & [Hh1 Hh2] & [Hl1 Hl2] & Hc).
  split; [done|]. unfold pair_prices.
  apply (selects_first (bound_select coin cur step b false)) in Ho as (ro & Ho1 & Ho2 & -> & Ho3); [|done].
  apply (selects_first (bound_select coin cur step b true)) in Hc as (rc & Hc1 & Hc2 & -> & Hc3); [|done].
  simpl in *.
  assert (forall r, r ∈ t -> in_bucket coin cur step b r = true ->
    pg_price (prow_vals r) ∈ pg_price ∘ prow_vals <$> bfilter (in_bucket coin cur step b) t) as Hin.
  { intros r Hr Hb. apply list_elem_of_fmap. exists r. split; [done|]. by apply elem_of_bfilter. }
  split.
  - exists (pg_price (prow_vals ro)). split_and!; [by apply Hin|done|].
    intros q (r & -> & [Hr1 Hr2]%elem_of_bfilter)%list_elem_of_fmap. by apply Ho3.
  - exists (pg_price (prow_vals rc)). split_and!; [by apply Hin|done|].
    intros q (r & -> & [Hr1 Hr2]%elem_of_bfilter)%list_elem_of_fmap. by apply Hc3.
  - rewrite Forall_fmap, Forall_forall in Hh2. apply list_elem_of_fmap in Hh1 as (rh & -> & [? ?]%elem_of_bfilter).
    split; [exists (pg_price (prow_vals rh)); split; [by apply Hin|done]|].
    intros q (r & -> & Hr)%list_elem_of_fmap. by apply Hh2.
  - rewrite Forall_fmap, Forall_forall in Hl2. apply list_elem_of_fmap in Hl1 as (rl & -> & [? ?]%elem_of_bfilter).
    split; [exists (pg_price (prow_vals rl)); split; [by apply Hin|done]|].
    intros q (r & -> & Hr)%list_elem_of_fmap. by apply Hl2.
Qed.

Lemma candles_of_buckets t coin cur step bs out : Forall2 (bucket_means t coin cur step) bs out ->
  OTime <$> (pg_candle <$> out) = bs /\
  Forall (fun o => candle_of (pair_prices t coin cur (OTime o) (OTime o + step)) o) (pg_candle <$> out).
Proof.
  induction 1 as [|b v bs out Hb _ [IH1 IH2]]; [by split|]. apply bucket_candle in Hb as [<- Hc].
  rewrite !fmap_cons. split; [by f_equal|by constructor].
Qed.

Lemma GetOHLC_inv coin cur from to interval w os w' : 0 < interval_seconds interval ->
  let step := interval_seconds interval * Second in
  pg_GetOHLC coin cur from to interval w = (Some (os, None), w') ->
  OTime <$> os = ohlc_buckets (pg_table w) coin cur (pg_time from) (pg_time to) step /\
  Forall (fun o => candle_of (pair_prices (pg_table w) coin cur (OTime o) (OTime o + step)) o) os.
Proof.
  intros Hn step (rows & Hq & Hl)%query_all_inv.
  apply (pg_select (PgOHLC coin cur from to (interval_seconds interval))) in Hq as (_ & out & Hm & Hscan).
  apply Hm, candles_of_buckets in Hn as [Ht Hc].
  rewrite (scan_rows_ok _ _ _ _ _ [] (pg_candle <$> out) Hscan) in Hl; [|clear; induction out; constructor; auto].
  injection Hl as <-. by split.
Qed.

(** C38. The candles are strictly ordered; they lie between the bounds asked for,
    rounded to the microsecond, each as wide as the interval's whole seconds
    and made of the prices received in it; and a price has a candle exactly
    when it was received in one of the whole intervals that fit: what was
    received after the last one has none. *)
Theorem postgres_candles coin cur from to interval w os w' : 0 < interval_seconds interval ->
  pg_GetOHLC coin cur from to interval w = (Some (os, None), w') ->
  let step := interval_seconds interval * Second in
  let whole := step * ((pg_time to - pg_time from) / step) in
  StronglySorted (fun a b => OTime a < OTime b) os /\
  (forall o, o ∈ os -> candle_of (pair_prices (pg_table w) coin cur (OTime o) (OTime o + step)) o) /\
  (forall p, p ∈ pair_prices (pg_table w) coin cur (pg_time from) (pg_time to) ->
    (exists o, o ∈ os /\ OTime o <= ReceivedAt p < OTime o + step) <-> ReceivedAt p < pg_time from + whole).
Proof.
  intros Hn [Ht Hc]%GetOHLC_inv step whole; [|done]. assert (0 < step) as Hs by (unfold step, Second, Millisecond; lia).
  fold step in Ht, Hc. split_and!.
  - apply (StronglySorted_key OTime). rewrite Ht. apply StronglySorted_bfilter, series_sorted, Hs.
  - by apply Forall_forall.
  - intros p (r & -> & [(Hpair & Hin)%andb_true_iff Hr]%elem_of_bfilter)%list_elem_of_fmap.
    simpl. unfold received_in in Hin. to_prop.
    assert (forall b, b ∈ OTime <$> os <-> _) as Hb
      by (intros b; rewrite Ht; exact (elem_of_ohlc_buckets _ _ _ _ _ _ b Hs)).
    unfold whole. rewrite <- whole_intervals by lia. split.
    + intros (o & Ho & Hin).
      apply (list_elem_of_fmap_2 OTime), Hb in Ho as [(i & Hi & Heq & Hle) _]. exists i. lia.
    + intros (i & Hi & Hle & Hin).
      assert (pg_time from + step * i ∈ OTime <$> os) as (o & Ho & Hos)%list_elem_of_fmap; [|exists o; split; [done|lia]].
      apply Hb. split; [exists i; split_and!; lia|]. exists r. split; [done|].
      unfold in_bucket, received_in. rewrite Hpair. simpl. apply andb_true_iff. split; [apply Z.leb_le|apply Z.ltb_lt]; lia.
Qed.

(** *** The two stores *)
Context `{!SortSlice}.

Lemma stored_range coin cur from to p r : pg_time from = from -> pg_time to = to -> stored_as p r ->
  (storeKey (CoinID p) (Currency p) = storeKey coin cur -> CoinID p = coin /\ Currency p = cur) ->
  bool_decide (storeKey (CoinID p) (Currency p) = storeKey coin cur) && in_range from to p =
  of_pair coin cur r && received_in from to r.
Proof.
  intros Hf Ht (Hc & Hu & _ & _ & _ & Hra)%pg_stored_spec Hkey. simpl in *. unfold of_pair, received_in, in_range, time_Before.
  rewrite Hc, Hu, Hra. f_equal.
  - rewrite <- bool_decide_and. apply bool_decide_ext. split; [done|by intros [-> ->]].
  - pose proof (pg_time_spec (ReceivedAt p)) as Hs. f_equal.
    + apply eq_true_iff_eq. rewrite negb_true_iff, Z.ltb_ge, Z.leb_le. split; [|lia].
      intros Hle%pg_time_mono. lia.
    + apply eq_true_iff_eq. rewrite !Z.ltb_lt. split; [lia|].
      intros Hlt. destruct (Z.lt_ge_cases (ReceivedAt p) to) as [|Hge%pg_time_mono]; lia.
Qed.

Lemma stored_filter coin cur from to saved t : pg_time from = from -> pg_time to = to ->
  (forall p, p ∈ saved -> storeKey (CoinID p) (Currency p) = storeKey coin cur -> CoinID p = coin /\ Currency p = cur) ->
  Forall2 stored_as saved t ->
  Forall2 stored_as
    (bfilter (in_range from to) (bfilter (fun p => bool_decide (storeKey (CoinID p) (Currency p) = storeKey coin cur)) saved))
    (bfilter (fun r => of_pair coin cur r && received_in from to r) t).
Proof.
  intros Hf Ht Hk Hall. induction Hall as [|p r saved t Hs _ IH]; [constructor|].
  assert (Hb := stored_range coin cur from to p r Hf Ht Hs (Hk p ltac:(set_solver))).
  specialize (IH ltac:(set_solver)). unfold bfilter in *. simpl. rewrite <- Hb.
  destruct (bool_decide _); simpl; [|done]. destruct (in_range from to p); [by constructor|done].
Qed.

(** C35. When the prices saved are those in the table, and no colon in a name makes
    two pairs collide in memory, the history PostgreSQL answers over bounds
    that are whole microseconds is the in-memory store's, price by price, in
    an order of reception, each as it reads back. *)
Theorem stores_agree saved coin cur from to w l w' : Forall2 stored_as saved (pg_table w) ->
  (forall p, p ∈ saved -> storeKey (CoinID p) (Currency p) = storeKey coin cur -> CoinID p = coin /\ Currency p = cur) ->
  pg_time from = from -> pg_time to = to ->
  pg_GetHistory coin cur from to w = (Some (l, None), w') ->
  StronglySorted (fun a b => ReceivedAt a <= ReceivedAt b) l /\
  exists k, k ≡ₚ GetHistory coin cur from to (SaveBatch saved NewStore) /\ Forall2 read_back k l.
Proof.
  intros Hst Hk Hf Ht (rows & Hp & Hs & ->)%GetHistory_inv. rewrite Hf, Ht in Hp. split.
  { clear -Hs. induction Hs as [|r rows _ IH Hr]; [constructor|]. rewrite fmap_cons. constructor; [done|]. by rewrite Forall_fmap. }
  pose proof (stored_filter coin cur from to saved _ Hf Ht Hk Hst) as Hall. simpl in Hp.
  destruct (Forall2_perm_r _ _ _ _ Hall (symmetry Hp)) as (k & Hkp & Hkr).
  exists k. split.
  - unfold GetHistory. rewrite sort_received_perm, SaveBatch_entries. by rewrite <- Hkp.
  - rewrite Forall2_fmap_r. eapply Forall2_impl; [exact Hkr|]. intros p r. apply stored_read_back.
Qed.

(** What was saved is in the answer: the latest price of its pair was received
    no earlier, to the microsecond. *)
Theorem Save_then_latest p q w w' w'' : pg_Save p w = (None, w') ->
  pg_GetLatest (CoinID p) (Currency p) w' = ((q, None), w'') ->
  exists q', q = Some q' /\ CoinID q' = CoinID p /\ Currency q' = Currency p /\
    ReceivedAt p - Microsecond < ReceivedAt q' /\
    ((forall r, r ∈ pg_table w -> of_pair (CoinID p) (Currency p) r = true ->
        pr_ReceivedAt r < pg_time (ReceivedAt p)) -> read_back p q').
Proof.
  unfold pg_Save, bind. destruct (conn_Exec insert_sql _ w) as [[e|] w1] eqn:E; [by intros [= ]|].
  intros [= <-]. apply pg_insert in E as (r & Hr & Ht). intros [_ Hq]%GetLatest_inv. rewrite Ht in Hq.
  pose proof (pg_stored_spec _ _ Hr) as (Hc & Hu & _ & _ & _ & Hra). simpl in *.
  assert (of_pair (CoinID p) (Currency p) r = true) as Hpair.
  { unfold of_pair. rewrite Hc, Hu. by rewrite !bool_decide_eq_true_2. }
  destruct q as [q|]; [|specialize (Hq r ltac:(set_solver)); congruence].
  destruct Hq as (r' & Hin & Hw & -> & Hlast). exists (pg_price (prow_vals r')). split; [done|].
  specialize (Hlast r ltac:(set_solver) Hpair). pose proof (pg_time_spec (ReceivedAt p)).
  pose proof Hw as Hw'. unfold of_pair in Hw. apply andb_true_iff in Hw as [Hw1%bool_decide_eq_true Hw2%bool_decide_eq_true].
  simpl. split_and!; [done..|lia|]. intros Hbefore.
  apply elem_of_app in Hin as [Hin| ->%list_elem_of_singleton]; [|by apply stored_read_back].
  specialize (Hbefore r' Hin Hw'). lia.
Qed.
End properties.
