(* ===== verification/ClickHouse.v ===== *)
(** * internal/adapter/storage/clickhouse: store.go, schema.go, analytics.go

    The ClickHouse store behind its write buffer, its queries, and the
    analytics.  The driver and the server are parameters, as in [Postgres]; the
    values are floats in the table, which [decimal.NewFromFloat] turns back
    into decimals, or panics on. *)
From S2P Require Import Prelude GoLib GoStrings Decimal Model Ports BatchBuffer Sql.
Open Scope Z_scope.

Section store.
Context {O : DecimalOps} `{!GoFmt}.

(** ** schema.go *)
Definition createPricesTable : string :=
  "
CREATE TABLE IF NOT EXISTS prices (
    coin_id     LowCardinality(String),
    currency    LowCardinality(String),
    value       Float64,
    provider    LowCardinality(String),
    market_cap  Float64  DEFAULT 0,
    volume_24h  Float64  DEFAULT 0,
    change_24h  Float64  DEFAULT 0,
    timestamp   DateTime64(3),
    received_at DateTime64(3)
) ENGINE = MergeTree()
PARTITION BY toYYYYMM(received_at)
ORDER BY (coin_id, currency, received_at)
TTL received_at + INTERVAL 2 YEAR
SETTINGS index_granularity = 8192
".
Definition row_cols : list kind :=
  [KString; KString; KFloat; KString; KFloat; KFloat; KFloat; KTime; KTime].
Definition row_vals (r : row) : vals row_cols :=
  (row_CoinID r, (row_Currency r, (row_Value r, (row_Provider r, (row_MarketCap r, (row_Volume24h r,
   (row_Change24h r, (row_Timestamp r, (row_ReceivedAt r, tt))))))))).

(** The connection: opening it, and the batches of an insertion. *)
Record ch_Config := mkChConfig {
  ch_Addr : string; ch_Database : string; ch_Username : string; ch_Password : string;
  ch_BatchSize : Z; ch_BatchInterval : Duration }.
Class ChClient (W : Type) := {
  ch_Open : string -> string -> string -> string -> M W (option error);
  ch_Ping : M W (option error);
  ch_conn_Close : M W (option error);
  PrepareBatch : string -> M W (option error);
  batch_Append : row -> M W (option error);
  batch_Send : M W (option error) }.
Context {W R : Type} `{!SqlConn W R} `{!ChClient W} `{!ClockOps W}.

Definition EnsureSchema : M W (option error) :=
  e <- conn_Exec createPricesTable [] ;;
  match e with Some e => ret (Some (Wrapf "creating prices table: " e "")) | None => ret None end.

(** [NewStore]: the buffer and the interval of its ticker. *)
Definition ch_NewStore (cfg : ch_Config) : M W (BatchBuffer * Duration + error) :=
  e <- ch_Open (ch_Addr cfg) (ch_Database cfg) (ch_Username cfg) (ch_Password cfg) ;;
  match e with Some e => ret (inr (Wrapf "connecting to clickhouse: " e "")) | None =>
    e <- ch_Ping ;;
    match e with Some e => ret (inr (Wrapf "pinging clickhouse: " e "")) | None =>
      e <- EnsureSchema ;;
      match e with Some e => ret (inr (Wrapf "ensuring schema: " e "")) | None =>
        ret (inl (NewBatchBuffer (store_batchSize (ch_BatchSize cfg)), store_batchInterval (ch_BatchInterval cfg)))
      end
    end
  end.

(** ** Writing *)
Definition now_if_zero (t : Time) : M W Time := if time_IsZero t then w_Now else ret t.
Fixpoint append_loop (prices : list Price) : M W (option error) :=
  match prices with
  | [] => batch_Send
  | p :: prices =>
      ts <- now_if_zero (Timestamp p) ;;
      ra <- now_if_zero (ReceivedAt p) ;;
      e <- batch_Append (flush_row ts ra p) ;;
      match e with
      | Some e => ret (Some (Wrapf "appending to batch: " e ""))
      | None => append_loop prices
      end
  end.
Definition flushBatch (prices : list Price) : M W (option error) :=
  e <- PrepareBatch "INSERT INTO prices" ;;
  match e with
  | Some e => ret (Some (Wrapf "preparing batch: " e ""))
  | None => append_loop prices
  end.
Definition is_nil (e : option error) : bool := match e with None => true | Some _ => false end.
(** An attempt of the [k]-th flush in flight, with this [flushFn]: whether it succeeds. *)
Definition ch_attempt (k : nat) (b : BatchBuffer) : M W (bool * BatchBuffer) :=
  match bb_flights b !! k with
  | None => ret (true, b)
  | Some f => e <- flushBatch (if_batch f) ;; ret (is_nil e, flush_attempt k (is_nil e) b)
  end.
(** [flush] with nothing in between: a second attempt after a failure. *)
Definition ch_flush (b : BatchBuffer) : M W BatchBuffer :=
  match bb_prices b with
  | [] => ret b
  | _ =>
      let k := length (bb_flights b) in
      r <- ch_attempt k (flush_begin b) ;;
      if fst r then ret (snd r) else r <- ch_attempt k (snd r) ;; ret (snd r)
  end.
Definition ch_Save (price : Price) (b : BatchBuffer) : M W BatchBuffer :=
  let '(full, b) := Add price b in if full then ch_flush b else ret b.
Fixpoint ch_SaveBatch (prices : list Price) (b : BatchBuffer) : M W BatchBuffer :=
  match prices with
  | [] => ret b
  | p :: prices => b <- ch_Save p b ;; ch_SaveBatch prices b
  end.

(** [Close]: [Stop] of the buffer, which flushes what is left, and the connection. *)
Definition ch_Close (b : BatchBuffer) : M W BatchBuffer := b <- ch_flush b ;; ch_conn_Close ;;; ret b.

(** The lock is free while a batch is sent and before it is sent again: prices
    are added and other flushes begin and make their attempts in between. *)
Inductive ch_event := ChAdd (p : Price) | ChFlush | ChAttempt (k : nat).
Definition ch_event1 (e : ch_event) (b : BatchBuffer) : M W BatchBuffer :=
  match e with
  | ChAdd p => ret (snd (Add p b))
  | ChFlush => ret (flush_begin b)
  | ChAttempt k => r <- ch_attempt k b ;; ret (snd r)
  end.
Fixpoint ch_events (es : list ch_event) (b : BatchBuffer) : M W BatchBuffer :=
  match es with [] => ret b | e :: es => b <- ch_event1 e b ;; ch_events es b end.
Definition ch_added (es : list ch_event) : list Price :=
  omap (fun e => match e with ChAdd p => Some p | _ => None end) es.

(** ** Reading *)
Definition ch_latest_sql : string :=
  "SELECT coin_id, currency, value, provider, market_cap, volume_24h, change_24h, timestamp, received_at
         FROM prices
         WHERE coin_id = ? AND currency = ?
         ORDER BY received_at DESC
         LIMIT 1".
Definition ch_history_sql : string :=
  "SELECT coin_id, currency, value, provider, market_cap, volume_24h, change_24h, timestamp, received_at
         FROM prices
         WHERE coin_id = ? AND currency = ?
           AND received_at >= ? AND received_at < ?
         ORDER BY received_at ASC".
Definition ch_ohlc_sql (intervalSec : Z) : string :=
  "SELECT
            toStartOfInterval(received_at, INTERVAL " +:+ fmt_d intervalSec +:+ " second) AS time,
            argMin(value, received_at) AS open,
            max(value) AS high,
            min(value) AS low,
            argMax(value, received_at) AS close
         FROM prices
         WHERE coin_id = ? AND currency = ?
           AND received_at >= ? AND received_at < ?
         GROUP BY time
         ORDER BY time".

(** The price of a scanned row: [None] when [NewFromFloat] panics. *)
Definition ch_price (v : vals row_cols) : option Price :=
  let '(cid, (cur, (val, (provider, (mc, (vol, (change, (ts, (ra, _))))))))) := v in
  val ← dec_NewFromFloat val;
  mc ← dec_NewFromFloat mc;
  vol ← dec_NewFromFloat vol;
  Some (mkPrice cid cur val provider ts ra mc vol change).

(** Any error whose text mentions no rows is taken for an empty answer. *)
Definition latest_error (e : error) : result Price :=
  if contains (error_Error e) "no rows" then (None, None) else err (Wrapf "querying latest: " e "").
Definition ErrNoRows : error := Errorf "sql: no rows in result set".
Definition ch_GetLatest (coinID currency : string) : PM W (result Price) :=
  r <- conn_QueryRow ch_latest_sql [AString coinID; AString currency] ;;
  match r with
  | inr e => retp (latest_error e)
  | inl None => retp (latest_error ErrNoRows)
  | inl (Some row) =>
      match row_Scan row_cols row with
      | inr e => retp (latest_error e)
      | inl v => p <~ of_option (ch_price v) ;; retp (ok p)
      end
  end.
Definition ch_GetHistory (coinID currency : string) (from to : Time) : PM W (list Price * option error) :=
  query_all row_cols ch_price
    (fun e => Wrapf "querying history: " e "") (fun e => Wrapf "scanning row: " e "")
    ch_history_sql [AString coinID; AString currency; ATime from; ATime to].

Definition ch_candle_cols : list kind := [KTime; KFloat; KFloat; KFloat; KFloat].
Definition ch_candle (v : vals ch_candle_cols) : option OHLC :=
  let '(t, (open, (high, (low, (cl, _))))) := v in
  open ← dec_NewFromFloat open;
  high ← dec_NewFromFloat high;
  low ← dec_NewFromFloat low;
  cl ← dec_NewFromFloat cl;
  Some (mkOHLC t open high low cl).
Definition ch_GetOHLC (coinID currency : string) (from to : Time) (interval : Duration) :
    PM W (list OHLC * option error) :=
  query_all ch_candle_cols ch_candle
    (fun e => Wrapf "querying ohlc: " e "") (fun e => Wrapf "scanning ohlc: " e "")
    (ch_ohlc_sql (interval_seconds interval)) [AString coinID; AString currency; ATime from; ATime to].

(** ** analytics.go *)
Definition accuracy_sql : string :=
  "
        WITH medians AS (
            SELECT coin_id, currency,
                   toStartOfMinute(received_at) AS minute,
                   medianExact(value) AS median_val
            FROM prices
            WHERE received_at >= ? AND received_at < ?
            GROUP BY coin_id, currency, minute
        )
        SELECT
            p.provider,
            count() AS total,
            countIf(abs(p.value - m.median_val) / m.median_val < 0.02) AS accurate
        FROM prices p
        INNER JOIN medians m
            ON p.coin_id = m.coin_id
            AND p.currency = m.currency
            AND toStartOfMinute(p.received_at) = m.minute
        WHERE p.received_at >= ? AND p.received_at < ?
        GROUP BY p.provider
        ORDER BY accurate / total DESC".
Definition accuracy_dests : list kind := [KString; KInt64; KInt64].
Definition accuracy_report (v : vals accuracy_dests) : ProviderAccuracyReport :=
  let '(provider, (total, (accurate, _))) := v in
  mkAccuracy provider total accurate
    (if total >? 0 then fdiv (f_of_int accurate) (f_of_int total) else fzero).
Definition ProviderAccuracy (from to : Time) : PM W (list ProviderAccuracyReport * option error) :=
  query_all accuracy_dests (fun v => Some (accuracy_report v))
    (fun e => Wrapf "querying provider accuracy: " e "") id
    accuracy_sql [ATime from; ATime to; ATime from; ATime to].

Definition anomalies_sql : string :=
  "
        WITH medians AS (
            SELECT toStartOfMinute(received_at) AS minute,
                   medianExact(value) AS median_val
            FROM prices
            WHERE coin_id = ? AND currency = ?
              AND received_at >= ? AND received_at < ?
            GROUP BY minute
        )
        SELECT
            p.received_at, p.provider, p.coin_id, p.currency,
            p.value, m.median_val,
            abs(p.value - m.median_val) / m.median_val * 100 AS deviation_pct
        FROM prices p
        INNER JOIN medians m ON toStartOfMinute(p.received_at) = m.minute
        WHERE p.coin_id = ? AND p.currency = ?
          AND p.received_at >= ? AND p.received_at < ?
        HAVING deviation_pct > ?
        ORDER BY p.received_at DESC
        LIMIT 1000".
Definition anomaly_dests : list kind := [KTime; KString; KString; KString; KFloat; KFloat; KFloat].
Definition anomaly (v : vals anomaly_dests) : option PriceAnomaly :=
  let '(receivedAt, (provider, (coinID, (currency, (val, (median, (deviation, _))))))) := v in
  val ← dec_NewFromFloat val;
  median ← dec_NewFromFloat median;
  Some (mkAnomaly receivedAt provider coinID currency val median deviation).
Definition PriceAnomalies (coinID currency : string) (deviationPercent : float64) (from to : Time) :
    PM W (list PriceAnomaly * option error) :=
  query_all anomaly_dests anomaly (fun e => Wrapf "querying anomalies: " e "") id anomalies_sql
    [AString coinID; AString currency; ATime from; ATime to; AString coinID; AString currency;
     ATime from; ATime to; AFloat deviationPercent].

Definition volume_sql : string :=
  "
        SELECT provider, count() AS cnt
        FROM prices
        WHERE received_at >= ? AND received_at < ?
        GROUP BY provider
        ORDER BY cnt DESC".
Definition volume_dests : list kind := [KString; KInt64].
Definition volume_of (v : vals volume_dests) : ProviderVolume :=
  let '(provider, (count, _)) := v in mkVolume provider count fzero.
(** The total of the counts, and the loop that sets the percentages. *)
Definition volume_total (l : list ProviderVolume) : Z := fold_left (fun t v => wrap64 (t + VolCount v)) l 0.
Definition with_percentage (total : Z) (v : ProviderVolume) : ProviderVolume :=
  if total >? 0
  then mkVolume (VolProvider v) (VolCount v)
         (fmul (fdiv (f_of_int (VolCount v)) (f_of_int total)) (f_of_int 100))
  else v.
Definition VolumeByProvider (from to : Time) : PM W (list ProviderVolume * option error) :=
  r <~ query_all volume_dests (fun v => Some (volume_of v))
    (fun e => Wrapf "querying volume: " e "") id volume_sql [ATime from; ATime to] ;;
  match r with
  | (_, Some e) => retp ([], Some e)
  | (result, None) => retp (with_percentage (volume_total result) <$> result, None)
  end.

Definition stats_sql : string :=
  "
        SELECT
            min(value), max(value), avg(value), stddevPop(value), count()
        FROM prices
        WHERE coin_id = ? AND currency = ?
          AND received_at >= ? AND received_at < ?".
Definition stats_dests : list kind := [KFloat; KFloat; KFloat; KFloat; KUint64].
Definition stats_summary (coinID currency : string) (v : vals stats_dests) : option PriceStatsSummary :=
  let '(min, (max, (avg, (stddev, (points, _))))) := v in
  min ← dec_NewFromFloat min;
  max ← dec_NewFromFloat max;
  avg ← dec_NewFromFloat avg;
  Some (mkStats coinID currency min max avg stddev (wrap64 points)).
Definition PriceStats (coinID currency : string) (from to : Time) : PM W (result PriceStatsSummary) :=
  let failure e := retp (err (Wrapf "querying price stats: " e "")) in
  r <- conn_QueryRow stats_sql [AString coinID; AString currency; ATime from; ATime to] ;;
  match r with
  | inr e => failure e
  | inl None => failure ErrNoRows
  | inl (Some row) =>
      match row_Scan stats_dests row with
      | inr e => failure e
      | inl v => s <~ of_option (stats_summary coinID currency v) ;; retp (ok s)
      end
  end.
End store.

(** ** What the statements mean *)
Section meaning.
Context `{!GoFmt}.

Inductive ch_query :=
  | ChLatest (coinID currency : string)
  | ChHistory (coinID currency : string) (from to : Time)
  | ChOHLC (coinID currency : string) (from to : Time) (seconds : Z)
  | ChAccuracy (from to : Time)
  | ChVolume (from to : Time)
  | ChStats (coinID currency : string) (from to : Time).
(** The types of the columns; a [count()] is a UInt64. *)
Definition ch_cols (q : ch_query) : list kind :=
  match q with
  | ChLatest _ _ | ChHistory _ _ _ _ => row_cols
  | ChOHLC _ _ _ _ _ => ch_candle_cols
  | ChAccuracy _ _ => [KString; KUint64; KUint64]
  | ChVolume _ _ => [KString; KUint64]
  | ChStats _ _ _ _ => stats_dests
  end.
Context {O : DecimalOps}.
Definition ch_text (q : ch_query) : string :=
  match q with
  | ChLatest _ _ => ch_latest_sql | ChHistory _ _ _ _ => ch_history_sql
  | ChOHLC _ _ _ _ n => ch_ohlc_sql n
  | ChAccuracy _ _ => accuracy_sql | ChVolume _ _ => volume_sql | ChStats _ _ _ _ => stats_sql
  end.
Definition ch_args (q : ch_query) : list arg :=
  match q with
  | ChLatest coinID currency => [AString coinID; AString currency]
  | ChHistory coinID currency from to | ChOHLC coinID currency from to _ | ChStats coinID currency from to =>
      [AString coinID; AString currency; ATime from; ATime to]
  | ChAccuracy from to => [ATime from; ATime to; ATime from; ATime to]
  | ChVolume from to => [ATime from; ATime to]
  end.

Definition row_pair (coinID currency : string) (r : row) : bool :=
  bool_decide (row_CoinID r = coinID) && bool_decide (row_Currency r = currency).
Definition row_in (from to : Time) (r : row) : bool := (from <=? row_ReceivedAt r) && (row_ReceivedAt r <? to).
Definition ch_latest_select (coinID currency : string) : select row (vals row_cols) :=
  SELECT row_vals (row_pair coinID currency) row_ReceivedAt true (Some 1%nat).
Definition ch_history_select (coinID currency : string) (from to : Time) : select row (vals row_cols) :=
  SELECT row_vals (fun r => row_pair coinID currency r && row_in from to r) row_ReceivedAt false None.

(** [toStartOfInterval(t, INTERVAL n second)], and a minute as one. *)
Definition start_of_interval (n : Z) (t : Time) : Time :=
  unix_epoch + (t - unix_epoch) / (n * Second) * (n * Second).
Definition fle (x y : float64) : Prop := fleb x y = true.
(** [max] and [min] of floats that are numbers. *)
Definition float_max (l : list float64) (m : float64) : Prop := Forall (fun f => fkey f <> None) l -> is_max fle l m.
Definition float_min (l : list float64) (m : float64) : Prop := Forall (fun f => fkey f <> None) l -> is_min fle l m.
(** A group of candles: [argMin] and [argMax] take a row whose key is extreme. *)
Definition ch_bucket_means (group : list row) (b : Time) (v : vals ch_candle_cols) : Prop :=
  let '(time, (open, (high, (low, (close, _))))) := v in
  time = b /\
  (exists r, r ∈ group /\ open = row_Value r /\ Forall (fun r' => row_ReceivedAt r <= row_ReceivedAt r') group) /\
  float_max (row_Value <$> group) high /\ float_min (row_Value <$> group) low /\
  (exists r, r ∈ group /\ close = row_Value r /\ Forall (fun r' => row_ReceivedAt r' <= row_ReceivedAt r) group).
(** GROUP BY a key: the keys of the rows, each once. *)
Definition group_keys {K} (key : row -> K) (rows : list row) (ks : list K) : Prop :=
  NoDup ks /\ forall k, k ∈ ks <-> exists r, r ∈ rows /\ key r = k.

(** The aggregates whose rounding ClickHouse does not fix. *)
Class ChAggregates := { ch_avg : list float64 -> float64; ch_stddevPop : list float64 -> float64;
  ch_medianExact : list float64 -> float64 }.
Context `{!ChAggregates}.
Definition accurate (rows : list row) (r : row) : bool :=
  let m := ch_medianExact (row_Value <$> bfilter (fun r' => row_pair (row_CoinID r) (row_Currency r) r' &&
    (start_of_interval 60 (row_ReceivedAt r') =? start_of_interval 60 (row_ReceivedAt r))) rows) in
  fltb (fdiv (SFabs (fsub (row_Value r) m)) m) (f_lit 2 100).
Definition of_provider (p : string) (r : row) : bool := bool_decide (row_Provider r = p).

(** The answers of a statement; the order of the two reports by provider is
    left open, and so is an interval that is not positive. *)
Definition ch_means (ts : Time -> Time) (q : ch_query) (t : list row) : list (vals (ch_cols q)) -> Prop :=
  match q with
  | ChLatest coinID currency => selects (ch_latest_select coinID currency) t
  | ChHistory coinID currency from to => selects (ch_history_select coinID currency (ts from) (ts to)) t
  | ChOHLC coinID currency from to n => fun out => 0 < n ->
      let rows := bfilter (fun r => row_pair coinID currency r && row_in (ts from) (ts to) r) t in
      let key r := start_of_interval n (row_ReceivedAt r) in
      exists bs, group_keys key rows bs /\ StronglySorted Z.lt bs /\
        Forall2 (fun b => ch_bucket_means (bfilter (fun r => key r =? b) rows) b) bs out
  | ChAccuracy from to => fun out =>
      let rows := bfilter (row_in (ts from) (ts to)) t in
      exists ps, group_keys row_Provider rows ps /\
        out = (fun p => let mine := bfilter (of_provider p) rows in
          (p, (Z.of_nat (length mine), (Z.of_nat (length (bfilter (accurate rows) mine)), tt)))) <$> ps
  | ChVolume from to => fun out =>
      let rows := bfilter (row_in (ts from) (ts to)) t in
      exists ps, group_keys row_Provider rows ps /\
        out = (fun p => (p, (Z.of_nat (length (bfilter (of_provider p) rows)), tt))) <$> ps
  | ChStats coinID currency from to => fun out =>
      let values := row_Value <$> bfilter (fun r => row_pair coinID currency r && row_in (ts from) (ts to) r) t in
      exists mn mx vs, vs ≡ₚ values /\
        (if decide (values = []) then mn = fzero /\ mx = fzero else float_min values mn /\ float_max values mx) /\
        out = [(mn, (mx, (ch_avg vs, (ch_stddevPop vs, (Z.of_nat (length values), tt)))))]
  end.
End meaning.

(** *** clickhouse-go and the server

    [ch_table] is the table and [ch_batch] the rows appended to the batch being
    prepared.  A row knows its columns' types, and is scanned only into
    destinations of these types; DateTime64(3) holds milliseconds; the average
    of no value is not a number.  An insertion is atomic in each partition of the
    table only ([PARTITION BY toYYYYMM(received_at)]): of a batch whose [Send]
    failed, the rows of some partitions may have been inserted.  (The merges that
    drop rows after two years are left out.) *)
Class ChLaws {O : DecimalOps} `{!GoFmt} `{!ChAggregates} (W R : Type) `{!SqlConn W R} `{!ChClient W} `{!ClockOps W} := {
  ch_table : W -> list row;
  ch_batch : W -> list row;
  ch_stored : row -> row;
  ch_bound : Time -> Time;
  toYYYYMM : Time -> Z;
  ch_kinds : R -> list kind;
  ch_avg_empty : ch_avg [] = S754_nan;
  ch_bound_spec : forall t, t - Second < ch_bound t <= t;
  ch_stored_spec : forall r, exists ts ra,
    ch_stored r = mkRow (row_CoinID r) (row_Currency r) (row_Value r) (row_Provider r) (row_MarketCap r)
      (row_Volume24h r) (row_Change24h r) ts ra /\
    row_Timestamp r - Millisecond < ts <= row_Timestamp r /\ row_ReceivedAt r - Millisecond < ra <= row_ReceivedAt r;
  ch_strict : forall ks r v, row_Scan ks r = inl v -> ch_kinds r = ks;
  ch_select : forall q w rows w', conn_Query (ch_text q) (ch_args q) w = (inl (rows, None), w') ->
    ch_table w' = ch_table w /\
    exists out, ch_means ch_bound q (ch_table w) out /\ row_Scan (ch_cols q) <$> rows = inl <$> out;
  ch_select_row : forall q w row w', conn_QueryRow (ch_text q) (ch_args q) w = (inl row, w') ->
    ch_table w' = ch_table w /\
    exists out, ch_means ch_bound q (ch_table w) out /\
      match row with
      | None => out = []
      | Some row => exists v rest, out = v :: rest /\ row_Scan (ch_cols q) row = inl v
      end;
  ch_now : forall w, ch_table (snd (w_Now w)) = ch_table w /\ ch_batch (snd (w_Now w)) = ch_batch w;
  ch_prepare : forall w e w', PrepareBatch "INSERT INTO prices" w = (e, w') ->
    ch_table w' = ch_table w /\ (e = None -> ch_batch w' = []);
  ch_append : forall r w e w', batch_Append r w = (e, w') ->
    ch_table w' = ch_table w /\ (e = None -> ch_batch w' = ch_batch w ++ [ch_stored r]);
  ch_send : forall w e w', batch_Send w = (e, w') ->
    exists inserted : Z -> bool, (e = None -> forall month, inserted month = true) /\
      ch_table w' = ch_table w ++ bfilter (fun r => inserted (toYYYYMM (row_ReceivedAt r))) (ch_batch w) }.

(** ** What the store does *)
Section properties.
Context {O : DecimalOps} {L : DecimalLaws O} `{!GoFmt} `{!ChAggregates} {W R : Type}.
Context `{!SqlConn W R} `{!ChClient W} `{!ClockOps W} `{!ChLaws W R}.

Lemma NewFromFloat_nan : dec_NewFromFloat S754_nan = None.
Proof. by apply dec_NewFromFloat_panics. Qed.

(** C40. The statistics of a pair without a price in the range panic: the average
    the server answers is not a number. *)
Theorem stats_of_nothing_panics coin cur from to row w w' :
  (forall r, r ∈ ch_table w -> row_pair coin cur r && row_in (ch_bound from) (ch_bound to) r = false) ->
  conn_QueryRow stats_sql [AString coin; AString cur; ATime from; ATime to] w = (inl row, w') ->
  PriceStats coin cur from to w = (None, w').
Proof.
  intros Hno Hq. unfold PriceStats, bind. rewrite Hq.
  apply (ch_select_row (ChStats coin cur from to)) in Hq as (_ & out & Hm & Hrow). simpl in Hm.
  destruct Hm as (mn & mx & vs & Hvs & Hext & ->).
  assert (bfilter (fun r => row_pair coin cur r && row_in (ch_bound from) (ch_bound to) r) (ch_table w) = []) as Hnil.
  { destruct (bfilter _ (ch_table w)) as [|r l] eqn:E; [done|].
    assert (r ∈ bfilter (fun r => row_pair coin cur r && row_in (ch_bound from) (ch_bound to) r) (ch_table w))
      as [Ht Hr]%elem_of_bfilter by (rewrite E; set_solver). rewrite Hno in Ht by done. done. }
  rewrite Hnil in Hvs, Hext, Hrow. simpl in *. apply Permutation_nil_r in Hvs as ->. destruct Hext as [-> ->].
  destruct row as [row|]; [|done]. destruct Hrow as (v & rest & [= <- <-] & ->).
  unfold bindp, bind, of_option, ret, stats_summary. rewrite ch_avg_empty, NewFromFloat_nan.
  by destruct (dec_NewFromFloat fzero).
Qed.

(** *** The reports by provider

    The counts are UInt64 columns and their destinations int64. *)
Lemma query_mismatch {A} (q : ch_query) ks (make : vals ks -> option A) qe se w l w' : ch_cols q <> ks ->
  (forall out, ch_means ch_bound q (ch_table w) out -> out <> []) ->
  query_all ks make qe se (ch_text q) (ch_args q) w <> (Some (l, None), w').
Proof.
  intros Hne Hout (rows & Hq & Hs)%query_all_inv. apply ch_select in Hq as (_ & out & Hm & Hscan). apply Hout in Hm.
  destruct out as [|v out], rows as [|r rows]; try done. injection Hscan as Hv _. apply ch_strict in Hv.
  simpl in Hs. destruct (row_Scan ks r) as [v'|] eqn:E; [|done]. apply ch_strict in E. congruence.
Qed.

Lemma group_keys_nonempty {K} (key : row -> K) rows ks r : group_keys key rows ks -> r ∈ rows -> ks <> [].
Proof. intros [_ Hk] Hr ->. assert (key r ∈ []) as Hin by (apply Hk; eauto). by apply not_elem_of_nil in Hin. Qed.

(** As soon as a price was received in the range, neither the accuracy nor the
    volume by provider is answered without an error. *)
Theorem counts_never_reported from to w r l l' w' : r ∈ ch_table w -> row_in (ch_bound from) (ch_bound to) r = true ->
  ProviderAccuracy from to w <> (Some (l, None), w') /\ VolumeByProvider from to w <> (Some (l', None), w').
Proof.
  intros Hr Hin. assert (r ∈ bfilter (row_in (ch_bound from) (ch_bound to)) (ch_table w)) as Hrows by (by apply elem_of_bfilter).
  split.
  - apply (query_mismatch (ChAccuracy from to)); [done|]. simpl.
    intros out (ps & Hps & ->) Hnil%fmap_nil_inv. by eapply group_keys_nonempty.
  - unfold VolumeByProvider, bindp, bind.
    destruct (query_all _ _ _ _ _ _ w) as [[[l0 [e|]]|] w1] eqn:E; try by intros [= ].
    exfalso. revert E. apply (query_mismatch (ChVolume from to)); [done|]. simpl.
    intros out (ps & Hps & ->) Hnil%fmap_nil_inv. by eapply group_keys_nonempty.
Qed.

(** *** The history *)
Definition finite_row (r : row) : bool :=
  float_finite (row_Value r) && float_finite (row_MarketCap r) && float_finite (row_Volume24h r).
Lemma ch_price_defined r : is_Some (ch_price (row_vals r)) <-> finite_row r = true.
Proof.
  unfold finite_row. rewrite !andb_true_iff.
  assert (forall f, float_finite f = true <-> is_Some (dec_NewFromFloat f)) as Hf.
  { intros f. rewrite <- not_false_iff_true, <- dec_NewFromFloat_panics. by rewrite <- not_eq_None_Some. }
  rewrite !Hf. unfold ch_price, row_vals.
  destruct (dec_NewFromFloat (row_Value r)), (dec_NewFromFloat (row_MarketCap r)), (dec_NewFromFloat (row_Volume24h r));
    simpl; split; naive_solver.
Qed.

Lemma scan_rows_panics {A} ks (make : vals ks -> option A) se out : forall rows acc,
  row_Scan ks <$> rows = inl <$> out -> Exists (fun v => make v = None) out -> scan_rows ks make se rows acc = None.
Proof.
  induction out as [|v out IH]; intros [|r rows] acc Hr Hex; try done; [by inversion Hex|].
  injection Hr as Hv Hr. simpl. rewrite Hv. destruct (make v) as [a|] eqn:E; [|done]. simpl.
  apply Exists_cons in Hex as [Hx|Hex]; [congruence|by apply IH].
Qed.

(** The history the server answers: the rows of the pair received in the
    range, in order, as prices; unless one holds an infinity, on which the
    call panics. *)
Theorem ch_history_spec coin cur from to rows w w' :
  conn_Query ch_history_sql [AString coin; AString cur; ATime from; ATime to] w = (inl (rows, None), w') ->
  exists sorted, sorted ≡ₚ bfilter (fun r => row_pair coin cur r && row_in (ch_bound from) (ch_bound to) r) (ch_table w) /\
    StronglySorted (fun a b => row_ReceivedAt a <= row_ReceivedAt b) sorted /\
    if forallb finite_row sorted
    then exists l, ch_GetHistory coin cur from to w = (Some (l, None), w') /\
           Forall2 (fun r p => ch_price (row_vals r) = Some p) sorted l
    else ch_GetHistory coin cur from to w = (None, w').
Proof.
  intros Hq. pose proof Hq as Hm. apply (ch_select (ChHistory coin cur from to)) in Hm as (_ & out & (srt & Hp & Hs & ->) & Hscan).
  exists srt. split_and!; [done..|]. simpl in Hscan. destruct (forallb finite_row srt) eqn:E.
  - assert (exists l, Forall2 (fun r p => ch_price (row_vals r) = Some p) srt l) as [l Hl].
    { clear -E L. induction srt as [|r srt IH]; [by exists []|]. simpl in E. apply andb_true_iff in E as [Hr E].
      apply ch_price_defined in Hr as [p Hr]. destruct (IH E) as [l Hl]. exists (p :: l). by constructor. }
    exists l. split; [|done]. unfold ch_GetHistory. eapply query_all_ok; [exact Hq|exact Hscan|]. by rewrite Forall2_fmap_l.
  - unfold ch_GetHistory, query_all, bind. rewrite Hq. unfold bindp, bind, of_option, ret.
    rewrite (scan_rows_panics row_cols _ _ _ _ _ Hscan); [done|]. rewrite Exists_fmap. clear -E L.
    induction srt as [|r srt IH]; [done|]. simpl in E. apply andb_false_iff in E as [E|E]; [|by apply Exists_cons_tl, IH].
    apply Exists_cons_hd. apply eq_None_not_Some. rewrite ch_price_defined. congruence.
Qed.

(** *** Candles *)
Definition float_candle (group : list row) (o : OHLC) : Prop := exists v,
  ch_candle v = Some o /\ ch_bucket_means group (OTime o) v.
Lemma candles_of_groups (group : Time -> list row) bs out : forall os, Forall2 (fun b => ch_bucket_means (group b) b) bs out ->
  Forall2 (fun v o => ch_candle v = Some o) out os ->
  OTime <$> os = bs /\ Forall (fun o => float_candle (group (OTime o)) o) os.
Proof.
  intros os Hb. revert os. induction Hb as [|b v bs out Hv _ IH]; intros os Hos;
    inversion Hos as [|? o ? os' Ho Hos']; subst; [by split|].
  destruct (IH _ Hos') as [<- Hall]. rewrite fmap_cons.
  assert (OTime o = b) as <-.
  { destruct v as (t & open & high & low & close & []), Hv as (-> & _). unfold ch_candle in Ho.
    repeat (apply bind_Some in Ho as (? & _ & Ho)). by injection Ho as <-. }
  split; [done|]. constructor; [by exists v|done].
Qed.

(** The candles ClickHouse answers, when the call does not panic: strictly
    ordered, one for each interval, counted from the Unix epoch, in which a
    price of the range was received, made of the prices received in it. *)
Theorem clickhouse_candles coin cur from to interval os w w' : 0 < interval_seconds interval ->
  ch_GetOHLC coin cur from to interval w = (Some (os, None), w') ->
  let rows := bfilter (fun r => row_pair coin cur r && row_in (ch_bound from) (ch_bound to) r) (ch_table w) in
  let bucket r := start_of_interval (interval_seconds interval) (row_ReceivedAt r) in
  StronglySorted (fun a b => OTime a < OTime b) os /\
  (forall o, o ∈ os -> float_candle (bfilter (fun r => bucket r =? OTime o) rows) o) /\
  (forall r, r ∈ rows -> exists o, o ∈ os /\ OTime o = bucket r).
Proof.
  intros Hn (ans & Hq & Hl)%query_all_inv rows bucket.
  apply (ch_select (ChOHLC coin cur from to (interval_seconds interval))) in Hq as (_ & out & Hm & Hscan).
  destruct (Hm Hn) as (bs & [_ Hkeys] & Hsort & Hout). fold rows in Hkeys, Hout. fold bucket in Hkeys, Hout.
  apply (scan_rows_inv _ _ _ _ _ _ _ Hscan) in Hl as (l & -> & Hmake). simpl.
  destruct (candles_of_groups (fun b => bfilter (fun r => bucket r =? b) rows) _ _ _ Hout Hmake) as [Ht Hc]. split_and!.
  - apply (StronglySorted_key OTime). by rewrite Ht.
  - by apply Forall_forall.
  - intros r Hr. assert (bucket r ∈ OTime <$> l) as (o & Ho & Hol)%list_elem_of_fmap by (rewrite Ht, Hkeys; eauto).
    by exists o.
Qed.

(** *** Writing *)
Definition written_as (p : Price) (r : row) : Prop := exists now1 now2, r = ch_stored (flush_row now1 now2 p).

Lemma now_if_zero_spec t w : let w' := snd (now_if_zero t w) in ch_table w' = ch_table w /\ ch_batch w' = ch_batch w.
Proof. unfold now_if_zero. destruct (time_IsZero t); [apply ch_now|done]. Qed.

(** A whole copy of a batch, and the rows of some of its partitions. *)
Definition copy (batch : list Price) (rows : list row) : Prop := Forall2 written_as batch rows.
Definition part (batch : list Price) (rows : list row) : Prop := exists all (inserted : Z -> bool), copy batch all /\
  rows = bfilter (fun r => inserted (toYYYYMM (row_ReceivedAt r))) all.

Lemma copy_exists batch : exists rows, copy batch rows.
Proof.
  induction batch as [|p batch [rows IH]]; [exists []; constructor|].
  exists (ch_stored (flush_row 0 0 p) :: rows). constructor; [by exists 0, 0|done].
Qed.
Lemma bfilter_all {A} (f : A -> bool) (l : list A) : (forall x, f x = true) -> bfilter f l = l.
Proof. intros Hf. unfold bfilter. induction l as [|x l IH]; [done|]. simpl. by rewrite Hf, IH. Qed.
Lemma bfilter_none {A} (l : list A) : bfilter (fun _ => false) l = [].
Proof. by induction l. Qed.
Lemma part_nil batch : part batch [].
Proof.
  destruct (copy_exists batch) as [all Hall]. exists all, (fun _ => false). split; [done|]. by rewrite bfilter_none.
Qed.

(** Without an error the batch and all the prices are inserted; with one, the
    partitions of them [inserted] says, or nothing. *)
Lemma append_loop_spec prices : forall w e w', append_loop prices w = (e, w') ->
  exists rows (inserted : Z -> bool), copy prices rows /\ (e = None -> forall month, inserted month = true) /\
    ch_table w' = ch_table w ++ bfilter (fun r => inserted (toYYYYMM (row_ReceivedAt r))) (ch_batch w ++ rows).
Proof.
  induction prices as [|p prices IH]; intros w e w'; simpl.
  - intros (inserted & He & Ht)%ch_send. exists [], inserted. rewrite app_nil_r. split_and!; [constructor|done|done].
  - unfold bind. pose proof (now_if_zero_spec (Timestamp p) w) as Hn1.
    destruct (now_if_zero (Timestamp p) w) as [ts w1]. simpl in Hn1.
    pose proof (now_if_zero_spec (ReceivedAt p) w1) as Hn2.
    destruct (now_if_zero (ReceivedAt p) w1) as [ra w2]. simpl in Hn2.
    assert (written_as p (ch_stored (flush_row ts ra p))) as Hp by by exists ts, ra.
    destruct (batch_Append (flush_row ts ra p) w2) as [[e1|] w3] eqn:E; apply ch_append in E as [Ht Hb];
      rewrite (proj1 Hn2), (proj1 Hn1) in Ht; rewrite (proj2 Hn2), (proj2 Hn1) in Hb.
    + intros [= <- <-]. destruct (copy_exists prices) as [rows Hrows].
      exists (ch_stored (flush_row ts ra p) :: rows), (fun _ => false). split_and!; [by constructor|done|].
      by rewrite bfilter_none, app_nil_r.
    + intros (rows & inserted & Hrows & He & Hw)%IH. exists (ch_stored (flush_row ts ra p) :: rows), inserted.
      split_and!; [by constructor|done|]. rewrite Hw, Ht, Hb by done. by rewrite <- app_assoc.
Qed.

Lemma flushBatch_spec prices w e w' : flushBatch prices w = (e, w') ->
  exists rows, ch_table w' = ch_table w ++ rows /\ part prices rows /\ (e = None -> copy prices rows).
Proof.
  unfold flushBatch, bind. destruct (PrepareBatch _ w) as [[e1|] w1] eqn:E; apply ch_prepare in E as [Ht Hb].
  - intros [= <- <-]. exists []. rewrite app_nil_r. split_and!; [done|apply part_nil|done].
  - intros (rows & inserted & Hrows & He & Hw)%append_loop_spec. rewrite Hb, Ht in Hw by done. eexists. split_and!; [exact Hw| |].
    + by exists rows, inserted.
    + intros ->. rewrite bfilter_all; [done|]. intros r. by apply He.
Qed.

(** What each batch has put in the table so far. *)
Definition written_rows (batch : list Price) (rows : list row) : Prop :=
  exists first all, part batch first /\ copy batch all /\ rows = first ++ all.
Definition lost_rows (batch : list Price) (rows : list row) : Prop :=
  exists first second, part batch first /\ part batch second /\ rows = first ++ second.
Definition flight_rows (f : in_flight) (rows : list row) : Prop :=
  if if_retry f then part (if_batch f) rows else rows = [].
(** The table, from [t0] on, made of the rows of the batches. *)
Definition table_made (t0 : list row) (b : BatchBuffer) (t : list row) : Prop :=
  exists ws ls fs, Forall2 written_rows (bb_written b) ws /\ Forall2 lost_rows (bb_lost b) ls /\
    Forall2 flight_rows (bb_flights b) fs /\ t ≡ₚ t0 ++ concat ws ++ concat ls ++ concat fs.

Lemma concat_delete {A} (l : list (list A)) k x : l !! k = Some x -> concat l ≡ₚ x ++ concat (delete k l).
Proof.
  revert k. induction l as [|y l IH]; intros [|k] Hk; simplify_eq/=; [done|]. rewrite (IH _ Hk). apply Permutation_app_swap_app.
Qed.
Lemma concat_insert_nil {A} (l : list (list A)) k x : l !! k = Some [] -> concat (<[k := x]> l) ≡ₚ concat l ++ x.
Proof.
  revert k. induction l as [|y l IH]; intros [|k] Hk; simplify_eq/=; [apply Permutation_app_comm|].
  by rewrite (IH _ Hk), app_assoc.
Qed.
Lemma Forall2_delete {A B} (K : A -> B -> Prop) l k i : Forall2 K l k -> Forall2 K (delete i l) (delete i k).
Proof. intros Hl. revert i. induction Hl; intros [|i]; simpl; try done; by constructor. Qed.

Lemma attempt_made t0 k b w : table_made t0 b (ch_table w) ->
  let '((ok, b'), w') := ch_attempt k b w in table_made t0 b' (ch_table w') /\ b' = flush_attempt k ok b.
Proof.
  intros (ws & ls & fs & Hws & Hls & Hfs & Ht). unfold ch_attempt.
  destruct (bb_flights b !! k) as [[batch retry]|] eqn:Ek.
  2:{ unfold ret. split; [by exists ws, ls, fs|]. unfold flush_attempt. by rewrite Ek. }
  unfold bind. cbn [if_batch]. destruct (flushBatch batch w) as [e w'] eqn:E. unfold ret. split; [|done].
  apply flushBatch_spec in E as (rows & Ht' & Hpart & Hcopy).
  destruct (Forall2_lookup_l _ _ _ _ _ Hfs Ek) as (first & Hk & Hfirst). pose proof (concat_delete fs k first Hk) as Hd.
  assert (part batch first) as Hf by (unfold flight_rows in Hfirst; cbn in Hfirst; destruct retry; [done|subst; apply part_nil]).
  unfold flush_attempt. rewrite Ek. destruct e as [e|]; cbn [is_nil]; [destruct retry|].
  - exists ws, (ls ++ [first ++ rows]), (delete k fs). split_and!; [done|apply Forall2_app; [done|]|by apply Forall2_delete|].
    + constructor; [|done]. by exists first, rows.
    + cbn [bb_written bb_lost]. rewrite Ht', Ht, Hd, concat_snoc. solve_Permutation.
  - exists ws, ls, (<[k := rows]> fs). split_and!; [done|done|by apply Forall2_insert|].
    unfold flight_rows in Hfirst. cbn in Hfirst. subst first.
    rewrite Ht', Ht, (concat_insert_nil fs k rows Hk). solve_Permutation.
  - exists (ws ++ [first ++ rows]), ls, (delete k fs). split_and!; [apply Forall2_app; [done|]|done|by apply Forall2_delete|].
    + constructor; [|done]. exists first, rows. auto.
    + rewrite Ht', Ht, Hd, concat_snoc. solve_Permutation.
Qed.
Lemma begin_made t0 b t : table_made t0 b t -> table_made t0 (flush_begin b) t.
Proof.
  intros (ws & ls & fs & Hws & Hls & Hfs & Ht). unfold flush_begin. destruct (bb_prices b) as [|p ps]; [by exists ws, ls, fs|].
  exists ws, ls, (fs ++ [[]]). split_and!; [done|done|apply Forall2_app; [done|by repeat constructor]|].
  by rewrite concat_snoc, app_nil_r.
Qed.

Lemma ch_events_made t0 es : forall b w, table_made t0 b (ch_table w) ->
  let '(b', w') := ch_events es b w in table_made t0 b' (ch_table w') /\ held b' ≡ₚ held b ++ ch_added es.
Proof.
  induction es as [|e es IH]; intros b w Hb; simpl; [by rewrite app_nil_r|]. unfold bind.
  destruct (ch_event1 e b w) as [b1 w1] eqn:E.
  assert (table_made t0 b1 (ch_table w1) /\ held b1 ≡ₚ held b ++ match e with ChAdd p => [p] | _ => [] end) as [Hb1 Hh].
  { destruct e as [p| |k]; simpl in E.
    - injection E as <- <-. split; [by destruct Hb as (ws & ls & fs & ?); exists ws, ls, fs|apply (held_step b (EvAdd p))].
    - injection E as <- <-. split; [by apply begin_made|apply (held_step b EvFlush)].
    - unfold bind in E. pose proof (attempt_made t0 k b w Hb) as Ha. destruct (ch_attempt k b w) as [[ok b2] w2].
      injection E as <- <-. destruct Ha as [Ha ->]. split; [done|apply (held_step b (EvAttempt k ok))]. }
  specialize (IH b1 w1 Hb1). destruct (ch_events es b1 w1) as [b' w']. destruct IH as [? Hh'].
  split; [done|]. rewrite Hh', Hh, <- app_assoc. by destruct e.
Qed.

(** C37. Whatever the interleaving of additions, flushes and attempts, and whichever
    of them fail, every price added is in a batch written, in one lost, in one in
    flight or in the buffer, and the table holds, besides what it held before:
    for each batch counted as written one whole copy, and, when its first attempt
    failed, perhaps the rows of some of its months a second time; for each batch
    counted as lost, perhaps the rows of some months, once or twice; for each
    batch that waits for its second attempt, perhaps the rows of some months. *)
Theorem clickhouse_writes maxSize (es : list ch_event) w :
  let '(b, w') := ch_events es (NewBatchBuffer maxSize) w in
  concat (bb_written b) ++ concat (bb_lost b) ++ concat (if_batch <$> bb_flights b) ++ bb_prices b ≡ₚ ch_added es /\
  table_made (ch_table w) b (ch_table w').
Proof.
  pose proof (ch_events_made (ch_table w) es (NewBatchBuffer maxSize) w) as He.
  destruct (ch_events es (NewBatchBuffer maxSize) w) as [b w']. destruct He as [Hm Hh]; [|by split].
  exists [], [], []. by rewrite app_nil_r.
Qed.

(** The flush without anything in between is such a run, and leaves nothing pending. *)
Lemma ch_flush_events (b : BatchBuffer) w : exists es, ch_flush b w = ch_events es b w /\ ch_added es = [] /\
  bb_prices (fst (ch_flush b w)) = [].
Proof.
  unfold ch_flush. destruct (bb_prices b) as [|p ps] eqn:Ep; [by exists []|].
  set (k := length (bb_flights b)).
  assert (forall j c v, bb_prices (snd (fst (ch_attempt j c v))) = bb_prices c) as Hatt.
  { intros j c v. unfold ch_attempt. destruct (bb_flights c !! j) as [[batch retry]|] eqn:Ec; [|done].
    unfold bind. destruct (flushBatch _ v) as [e v']. simpl. unfold flush_attempt. rewrite Ec.
    destruct (is_nil e); [done|by destruct retry]. }
  assert (bb_prices (flush_begin b) = []) as Hb by (unfold flush_begin; by rewrite Ep).
  unfold bind. pose proof (Hatt k (flush_begin b) w) as H1. rewrite Hb in H1.
  destruct (ch_attempt k (flush_begin b) w) as [[[] b1] w1] eqn:E1; cbn [fst snd] in *.
  - exists [ChFlush; ChAttempt k]. simpl. unfold bind, ret. by rewrite E1.
  - exists [ChFlush; ChAttempt k; ChAttempt k]. simpl. unfold bind, ret. rewrite E1. cbn [snd].
    pose proof (Hatt k b1 w1) as H2. destruct (ch_attempt k b1 w1) as [[ok b2] w2]. cbn [fst snd] in *. by rewrite H2.
Qed.
End properties.
