(* ===== verification/StorageExamples.v ===== *)
(** * Witnesses of the PostgreSQL and ClickHouse stores

    Servers that keep their table in a list, answer the statements by running
    them, and meet the laws. *)
From S2P Require Import Prelude GoLib GoStrings Decimal Model Ports MemStore BatchBuffer Sql Postgres ClickHouse Demo.
From Stdlib Require Import QArith Qabs Lqa.
Open Scope Z_scope.

(** ** PostgreSQL *)
Module Pg.
Record server := mkServer { table : list prow; tx : list prow }.
Definition to_microsecond (t : Time) : Time := t - t mod Microsecond.
Definition stored (r : prow) : option prow :=
  Some (mkProw (pr_CoinID r) (pr_Currency r) (pr_Value r) (pr_Provider r)
    (to_microsecond (pr_Timestamp r)) (to_microsecond (pr_ReceivedAt r))).

(** One bucket of the candles. *)
Definition run_bucket (t : list prow) (coinID currency : string) (step : Duration) (b : Time) : option (vals candle_cols) :=
  match run_select (bound_select coinID currency step b false) t, bfilter (in_bucket coinID currency step b) t,
        run_select (bound_select coinID currency step b true) t with
  | [open], r :: rs, [close] =>
      let hl := fold_left high_low (pg_price ∘ prow_vals <$> r :: rs) (pr_Value r, pr_Value r) in
      Some (b, (open, (hl.1, (hl.2, (close, tt)))))
  | _, _, _ => None
  end.
Lemma run_bucket_ok t coinID currency step b v :
  run_bucket t coinID currency step b = Some v -> bucket_means t coinID currency step b v.
Proof.
  unfold run_bucket. pose proof (run_select_ok (bound_select coinID currency step b false) t) as Ho.
  pose proof (run_select_ok (bound_select coinID currency step b true) t) as Hc.
  destruct (run_select (bound_select coinID currency step b false) t) as [|open [|]]; try done.
  destruct (bfilter _ t) as [|r rs] eqn:E; [done|].
  destruct (run_select (bound_select coinID currency step b true) t) as [|close [|]]; try done.
  pose proof (high_low_spec (pg_price ∘ prow_vals <$> r :: rs) (pr_Value r) (pr_Value r)) as Hs. cbv zeta in Hs |- *.
  revert Hs. generalize (fold_left high_low (pg_price ∘ prow_vals <$> r :: rs) (pr_Value r, pr_Value r)).
  intros [h l] Hs. intros [= <-]. cbn [fst snd] in Hs. destruct Hs as (Hh & Hl & _ & _ & Hall).
  unfold bucket_means. cbv zeta. rewrite E. split_and!; [done|done| | |done].
  - split.
    + destruct Hh as [->|(p & (r' & -> & Hr')%list_elem_of_fmap & ->)]; [apply list_elem_of_here|by apply (list_elem_of_fmap_2 pr_Value)].
    + rewrite Forall_fmap. apply Forall_forall. intros r' Hr'. apply (Hall (pg_price (prow_vals r'))). by apply (list_elem_of_fmap_2 (pg_price ∘ prow_vals)).
  - split.
    + destruct Hl as [->|(p & (r' & -> & Hr')%list_elem_of_fmap & ->)]; [apply list_elem_of_here|by apply (list_elem_of_fmap_2 pr_Value)].
    + rewrite Forall_fmap. apply Forall_forall. intros r' Hr'. apply (Hall (pg_price (prow_vals r'))). by apply (list_elem_of_fmap_2 (pg_price ∘ prow_vals)).
Qed.
Lemma run_bucket_some t coinID currency step b : bfilter (in_bucket coinID currency step b) t <> [] ->
  is_Some (run_bucket t coinID currency step b).
Proof.
  intros Hne. unfold run_bucket, run_select, limited. cbn [s_where bound_select s_limit s_columns].
  assert (forall less, exists x l, insertion_sort less (bfilter (in_bucket coinID currency step b) t) = x :: l) as Hsort.
  { intros less. destruct (insertion_sort less _) as [|x l] eqn:E; [|by exists x, l].
    pose proof (insertion_sort_perm less (bfilter (in_bucket coinID currency step b) t)) as Hp. rewrite E in Hp.
    by apply Permutation_nil in Hp. }
  destruct (bfilter _ t) as [|r rs]; [done|].
  match goal with |- context [insertion_sort ?f (r :: rs)] => destruct (Hsort f) as (x & l & ->) end.
  match goal with |- context [insertion_sort ?f (r :: rs)] => destruct (Hsort f) as (y & k & ->) end.
  simpl. by eexists.
Qed.
Definition run_ohlc (t : list prow) (coinID currency : string) (from to : Time) (step : Duration) : list (vals candle_cols) :=
  omap (run_bucket t coinID currency step) (ohlc_buckets t coinID currency from to step).
Lemma run_ohlc_ok t coinID currency from to step :
  Forall2 (bucket_means t coinID currency step) (ohlc_buckets t coinID currency from to step)
    (run_ohlc t coinID currency from to step).
Proof.
  unfold run_ohlc. assert (Forall (fun b => is_Some (run_bucket t coinID currency step b))
    (ohlc_buckets t coinID currency from to step)) as Hall.
  { apply Forall_forall. intros b [Hb _]%elem_of_bfilter. apply run_bucket_some. intros Hn. by rewrite Hn in Hb. }
  induction Hall as [|b bs [v Hv] _ IH]; [constructor|]. cbn [omap list_omap]. rewrite Hv.
  constructor; [by apply run_bucket_ok|exact IH].
Qed.

(** The statements, told apart by their text and arguments; candles only of
    a minute. *)
Definition run_query (text : string) (args : list arg) (s : server) : list (list cell) + error :=
  match args with
  | [AString c; AString u; ATime f; ATime t] =>
      if bool_decide (text = history_sql)
      then inl (cells price_cols <$> run_select (history_select c u (to_microsecond f) (to_microsecond t)) (table s))
      else inr (Errorf "syntax error")
  | [AString c; AString u; ATime f; ATime t; AString i] =>
      if bool_decide (text = ohlc_sql) && bool_decide (i = fmt_d 60 +:+ " seconds")
      then inl (cells candle_cols <$> run_ohlc (table s) c u (to_microsecond f) (to_microsecond t) Minute)
      else inr (Errorf "syntax error")
  | [AString c; AString u] =>
      if bool_decide (text = latest_sql)
      then inl (cells price_cols <$> run_select (latest_select c u) (table s))
      else inr (Errorf "syntax error")
  | _ => inr (Errorf "wrong number of arguments")
  end.
Definition arg_row (args : list arg) : option prow :=
  match args with
  | [AString c; AString u; ADecimal v; AString p; ATime t; ATime r] => Some (mkProw c u v p t r)
  | _ => None
  end.
#[export] Instance conn : SqlConn server (list cell) := {
  conn_Query text args s :=
    (match run_query text args s with inl rows => inl (rows, None) | inr e => inr e end, s);
  conn_QueryRow text args s :=
    (match run_query text args s with inl rows => inl (head rows) | inr e => inr e end, s);
  conn_Exec _ args s :=
    match r ← arg_row args; stored r with
    | Some r => (None, mkServer (table s ++ [r]) (tx s))
    | None => (Some (Errorf "syntax error"), s)
    end;
  row_Scan := scan_or_error }.
#[export] Instance transactions : PgTx server := {
  conn_Begin s := (None, mkServer (table s) []);
  tx_Exec _ args s :=
    match r ← arg_row args; stored r with
    | Some r => (None, mkServer (table s) (tx s ++ [r]))
    | None => (Some (Errorf "syntax error"), s)
    end;
  tx_Commit s := (None, mkServer (table s ++ tx s) []);
  tx_Rollback s := (tt, mkServer (table s) []) }.

Lemma to_microsecond_spec t : t - Microsecond < to_microsecond t <= t.
Proof. unfold to_microsecond, Microsecond. pose proof (Z.mod_pos_bound t 1000). lia. Qed.
Lemma to_microsecond_mono t u : t <= u -> to_microsecond t <= to_microsecond u.
Proof.
  intros Hle. unfold to_microsecond, Microsecond.
  pose proof (Z.div_le_mono t u 1000 ltac:(lia) Hle). pose proof (Z.div_mod t 1000). pose proof (Z.div_mod u 1000). lia.
Qed.

Lemma seconds_inj n : fmt_d n +:+ " seconds" = fmt_d 60 +:+ " seconds" -> n = 60.
Proof.
  intros He. apply (inj (pretty (A := Z))). change (fmt_d n = fmt_d 60).
  set (a := fmt_d n) in *. set (b := fmt_d 60) in *. clearbody a b. revert b He.
  assert (forall s : string, String.length (s +:+ " seconds") = (String.length s + 8)%nat) as Hlen
    by (induction s as [|c s IH]; simpl; [done|by rewrite IH]).
  induction a as [|c a IH]; intros [|d b] He; [done| | |].
  - apply (f_equal String.length) in He. rewrite !Hlen in He. simpl in He. lia.
  - apply (f_equal String.length) in He. rewrite !Hlen in He. simpl in He. lia.
  - simpl in He. injection He as -> He. f_equal. by apply IH.
Qed.

Lemma run_query_ok q s rows : run_query (pg_text q) (pg_args q) s = inl rows ->
  exists out, pg_means to_microsecond q (table s) out /\ rows = cells (pg_cols q) <$> out.
Proof.
  destruct q as [c u|c u f t|c u f t n]; unfold run_query, pg_text, pg_args.
  - rewrite bool_decide_eq_true_2 by done. intros [= <-]. eexists. split; [apply run_select_ok|done].
  - rewrite bool_decide_eq_true_2 by done. intros [= <-]. eexists. split; [apply run_select_ok|done].
  - case_bool_decide; [|done]. case_bool_decide as Hn; [|done]. apply seconds_inj in Hn as ->.
    intros [= <-]. eexists. split; [|done]. intros _. apply run_ohlc_ok.
Qed.

Lemma dist_zero (q : Q) : (Qabs (q - q) <= 1 # 200000000)%Q.
Proof. unfold Qminus. rewrite Qplus_opp_r. discriminate. Qed.

#[export] Instance laws : PgLaws server (list cell).
Proof.
  refine {| pg_table := table; pg_tx := tx; pg_stored := stored; pg_time := to_microsecond |}.
  - apply to_microsecond_spec.
  - apply to_microsecond_mono.
  - intros r r' [= <-]. simpl. split_and!; try done.
    apply dist_zero.
  - intros q w rows w'. simpl. destruct (run_query _ _ w) as [rs|e] eqn:E; [|done]. intros [= <- <-].
    split; [done|]. apply run_query_ok in E as (out & Hm & ->). exists out. split; [done|]. apply scan_all_cells.
  - intros q w row w'. simpl. destruct (run_query _ _ w) as [rs|e] eqn:E; [|done]. intros [= <- <-].
    split; [done|]. apply run_query_ok in E as (out & Hm & ->). exists out. split; [done|].
    destruct out as [|v out]; [done|]. simpl. exists v, out. split; [done|]. apply scan_cells_ok.
  - intros r w w'. simpl. intros [= <-]. destruct r. by eexists.
  - by intros w e w' [= <- <-].
  - intros r w e w'. simpl. intros [= <- <-]. split; [done|]. intros _. destruct r. by eexists.
  - intros w e w' [= <- <-]. by left.
  - done.
Defined.
End Pg.
#[local] Existing Instances Pg.conn Pg.transactions Pg.laws.

(** Three prices of a pair, the last one after the last whole minute of the
    range. *)
Definition pg_sample (ms : Z) (v : Z) : Price :=
  basicPrice "bitcoin" "usd" (dec_NewFromInt v) "kraken" (ms * Millisecond) (ms * Millisecond + 1500).
Definition pg_saved : list Price := [pg_sample 10000 100; pg_sample 70000 103; pg_sample 130000 101].
Definition pg_server : Pg.server := snd (pg_SaveBatch pg_saved (Pg.mkServer [] [])).

Lemma SaveBatch_atomic_witness : exists rows, Forall2 stored_as pg_saved rows /\ pg_table pg_server = rows.
Proof.
  assert (pg_SaveBatch pg_saved (Pg.mkServer [] []) = (None, pg_server)) as E by (vm_compute; reflexivity).
  destruct (SaveBatch_atomic pg_saved (Pg.mkServer [] []) None pg_server E) as [[Hne _]|(rows & Hr & Ht)]; [done|].
  exists rows. split; [exact Hr|exact Ht].
Defined.

Lemma stores_agree_witness : exists l k, pg_GetHistory "bitcoin" "usd" 0 Hour pg_server = (Some (l, None), pg_server) /\
  k ≡ₚ GetHistory "bitcoin" "usd" 0 Hour (SaveBatch pg_saved NewStore) /\ Forall2 read_back k l /\ length l = 3%nat.
Proof.
  assert (Forall2 stored_as pg_saved (pg_table pg_server)) as Hst by (repeat constructor).
  assert (forall p, p ∈ pg_saved -> storeKey (CoinID p) (Currency p) = storeKey "bitcoin" "usd" ->
    CoinID p = "bitcoin"%string /\ Currency p = "usd"%string) as Hk
    by (intros p [->|[->|[->|Hn%not_elem_of_nil]%elem_of_cons]%elem_of_cons]%elem_of_cons _; done).
  assert (match pg_GetHistory "bitcoin" "usd" 0 Hour pg_server with
    (Some (l, None), w) => length l = 3%nat /\ w = pg_server | _ => False end) as Hrun by (vm_compute; split; reflexivity).
  destruct (pg_GetHistory "bitcoin" "usd" 0 Hour pg_server) as [[[l [e|]]|] w'] eqn:E; try contradiction.
  destruct Hrun as [Hl ->].
  destruct (stores_agree pg_saved "bitcoin" "usd" 0 Hour pg_server l pg_server Hst Hk eq_refl eq_refl E) as (_ & k & Hp & Hr).
  exists l, k. split_and!; [reflexivity|exact Hp|exact Hr|exact Hl].
Defined.

Lemma postgres_candles_witness : exists os, pg_GetOHLC "bitcoin" "usd" 0 (150 * Second) Minute pg_server = (Some (os, None), pg_server) /\
  length os = 2%nat /\ ~ exists o, o ∈ os /\ OTime o <= 130 * Second + 1000 < OTime o + Minute.
Proof.
  assert (match pg_GetOHLC "bitcoin" "usd" 0 (150 * Second) Minute pg_server with
    (Some (os, None), w) => length os = 2%nat /\ w = pg_server | _ => False end) as Hrun by (vm_compute; split; reflexivity).
  destruct (pg_GetOHLC "bitcoin" "usd" 0 (150 * Second) Minute pg_server) as [[[os [e|]]|] w'] eqn:E; try contradiction.
  destruct Hrun as [Hl ->].
  assert (0 < interval_seconds Minute) as Hn by (vm_compute; reflexivity).
  destruct (postgres_candles "bitcoin" "usd" 0 (150 * Second) Minute pg_server os pg_server Hn E)
    as (_ & _ & Hc).
  exists os. split_and!; [reflexivity|exact Hl|]. intros Ho.
  assert (interval_seconds Minute * Second = Minute) as Hm by (vm_compute; reflexivity). rewrite Hm in Hc.
  assert (pg_price (prow_vals (mkProw "bitcoin" "usd" (dec_NewFromInt 101) "kraken" (130 * Second) (130 * Second + 1000))) ∈
    pair_prices (pg_table pg_server) "bitcoin" "usd" (pg_time 0) (pg_time (150 * Second))) as Hin.
  { unfold pair_prices. apply (list_elem_of_fmap_2 (pg_price ∘ prow_vals)), elem_of_bfilter.
    split; [reflexivity|]. do 2 apply list_elem_of_further. apply list_elem_of_here. }
  apply (Hc _ Hin) in Ho. vm_compute in Ho. discriminate.
Defined.

Lemma Save_then_latest_witness : exists q,
  pg_GetLatest "bitcoin" "usd" (snd (pg_Save (pg_sample 200000 105) pg_server)) =
    ((Some q, None), snd (pg_Save (pg_sample 200000 105) pg_server)) /\
  200 * Second + 500 < ReceivedAt q.
Proof.
  set (w' := snd (pg_Save (pg_sample 200000 105) pg_server)).
  assert (pg_Save (pg_sample 200000 105) pg_server = (None, w')) as E1 by (vm_compute; reflexivity).
  assert (match pg_GetLatest "bitcoin" "usd" w' with (_, None, w) => w = w' | _ => False end) as Hrun by (vm_compute; reflexivity).
  destruct (pg_GetLatest "bitcoin" "usd" w') as [[q [e|]] w''] eqn:E2; try contradiction. subst w''.
  destruct (Save_then_latest (pg_sample 200000 105) q pg_server w' w' E1 E2) as (q' & -> & _ & _ & Hr & _).
  exists q'. split; [reflexivity|exact Hr].
Defined.

(** ** ClickHouse *)
Module Ch.
#[export] Instance aggregates : ChAggregates := {
  ch_avg l := match l with [] => S754_nan | _ => fdiv (fold_left fadd l fzero) (f_of_int (Z.of_nat (length l))) end;
  ch_stddevPop _ := fzero;
  ch_medianExact l := nth (length l / 2) (insertion_sort fltb l) S754_nan }.

(** [outages]: the sends that will fail, each with the months it inserts all the same. *)
Record server := mkServer { table : list row; batch : list row; clock : Z; outages : list (Z -> bool) }.
(** Months of thirty days. *)
Definition month (t : Time) : Z := t / (30 * 24 * Hour).
Definition to_millisecond (t : Time) : Time := t - t mod Millisecond.
Definition stored (r : row) : row :=
  mkRow (row_CoinID r) (row_Currency r) (row_Value r) (row_Provider r) (row_MarketCap r) (row_Volume24h r)
    (row_Change24h r) (to_millisecond (row_Timestamp r)) (to_millisecond (row_ReceivedAt r)).

Definition providers (rows : list row) : list string := remove_dups (row_Provider <$> rows).
Lemma providers_ok rows : group_keys row_Provider rows (providers rows).
Proof.
  split; [apply NoDup_remove_dups|]. intros p. unfold providers. rewrite elem_of_remove_dups, list_elem_of_fmap. naive_solver.
Qed.
Definition report (f : list row -> string -> list cell) (from to : Time) (t : list row) : list (list cell) :=
  let rows := bfilter (row_in from to) t in f rows <$> providers rows.
Definition mine (rows : list row) (p : string) : list row := bfilter (of_provider p) rows.
Definition volume_cells (rows : list row) (p : string) : list cell :=
  [CString p; CUint64 (Z.of_nat (length (mine rows p)))].
Definition accuracy_cells (rows : list row) (p : string) : list cell :=
  [CString p; CUint64 (Z.of_nat (length (mine rows p)));
   CUint64 (Z.of_nat (length (bfilter (accurate rows) (mine rows p))))].

(** The statements, told apart by their text and arguments.  Candles, and the
    statistics of a price, are refused. *)
Definition run_query (text : string) (args : list arg) (t : list row) : list (list cell) + error :=
  match args with
  | [AString c; AString u] =>
      if bool_decide (text = ch_latest_sql) then inl (cells row_cols <$> run_select (ch_latest_select c u) t)
      else inr (Errorf "unknown statement")
  | [AString c; AString u; ATime from; ATime to] =>
      if bool_decide (text = ch_history_sql)
      then inl (cells row_cols <$> run_select (ch_history_select c u from to) t)
      else if bool_decide (text = stats_sql) &&
              (length (bfilter (fun r => row_pair c u r && row_in from to r) t) =? 0)%nat
      then inl [[CFloat fzero; CFloat fzero; CFloat S754_nan; CFloat fzero; CUint64 0]]
      else inr (Errorf "unknown statement")
  | [ATime from; ATime to] =>
      if bool_decide (text = volume_sql) then inl (report volume_cells from to t)
      else inr (Errorf "unknown statement")
  | [ATime from; ATime to; ATime _; ATime _] =>
      if bool_decide (text = accuracy_sql) then inl (report accuracy_cells from to t)
      else inr (Errorf "unknown statement")
  | _ => inr (Errorf "unknown statement")
  end.
#[export] Instance conn : SqlConn server (list cell) := {
  conn_Query text args s :=
    (match run_query text args (table s) with inl rows => inl (rows, None) | inr e => inr e end, s);
  conn_QueryRow text args s :=
    (match run_query text args (table s) with inl rows => inl (head rows) | inr e => inr e end, s);
  conn_Exec _ _ s := (None, s);
  row_Scan := scan_or_error }.
#[export] Instance client : ChClient server := {
  ch_Open _ _ _ _ s := (None, s);
  ch_Ping s := (None, s);
  ch_conn_Close s := (None, s);
  PrepareBatch _ s := (None, mkServer (table s) [] (clock s) (outages s));
  batch_Append r s := (None, mkServer (table s) (batch s ++ [stored r]) (clock s) (outages s));
  batch_Send s :=
    match outages s with
    | [] => (None, mkServer (table s ++ batch s) [] (clock s) [])
    | inserted :: later =>
        (Some (Errorf "read: i/o timeout"),
         mkServer (table s ++ bfilter (fun r => inserted (month (row_ReceivedAt r))) (batch s)) [] (clock s) later)
    end }.
#[export] Instance time : ClockOps server := {
  w_Now s := (clock s, mkServer (table s) (batch s) (clock s + 1) (outages s)) }.

Lemma to_millisecond_spec t : t - Millisecond < to_millisecond t <= t.
Proof. unfold to_millisecond. pose proof (Z.mod_pos_bound t Millisecond ltac:(reflexivity)). lia. Qed.

Lemma run_statement_ok q t rows : run_query (ch_text q) (ch_args q) t = inl rows ->
  exists out, ch_means id q t out /\ rows = cells (ch_cols q) <$> out.
Proof.
  destruct q as [c u|c u f e|c u f e n|f e|f e|c u f e]; unfold run_query, ch_text, ch_args.
  - rewrite bool_decide_eq_true_2 by done. intros [= <-]. eexists. split; [apply run_select_ok|done].
  - rewrite bool_decide_eq_true_2 by done. intros [= <-]. eexists. split; [apply run_select_ok|done].
  - rewrite bool_decide_eq_false_2 by done. by rewrite bool_decide_eq_false_2.
  - rewrite bool_decide_eq_true_2 by done. intros [= <-]. unfold report.
    eexists. split; [simpl; eexists; split; [apply providers_ok|reflexivity]|].
    by rewrite <- list_fmap_compose.
  - rewrite bool_decide_eq_true_2 by done. intros [= <-]. unfold report.
    eexists. split; [simpl; eexists; split; [apply providers_ok|reflexivity]|].
    by rewrite <- list_fmap_compose.
  - rewrite (bool_decide_eq_false_2 (stats_sql = ch_history_sql)) by done. rewrite bool_decide_eq_true_2 by done.
    simpl. destruct (_ =? 0)%nat eqn:E; [|done]. apply Nat.eqb_eq, nil_length_inv in E. unfold id. rewrite E. intros [= <-].
    eexists. split; [exists fzero, fzero, []; split_and!; [done|by rewrite decide_True|done]|done].
Qed.

#[export] Instance laws : ChLaws server (list cell).
Proof.
  refine {| ch_table := table; ch_batch := batch; ch_stored := stored; ch_bound := id; toYYYYMM := month;
            ch_kinds := fmap cell_kind |}.
  - done.
  - intros t. unfold id, Second, Millisecond. lia.
  - intros r. eexists _, _. split_and!; [reflexivity|apply to_millisecond_spec..].
  - intros ks r v. apply scan_cells_kinds.
  - intros q w rows w'. simpl. destruct (run_query _ _ (table w)) as [rs|e] eqn:E; [|done]. intros [= <- <-].
    split; [done|]. apply run_statement_ok in E as (out & Hm & ->). exists out. split; [done|]. apply scan_all_cells.
  - intros q w row w'. simpl. destruct (run_query _ _ (table w)) as [rs|e] eqn:E; [|done]. intros [= <- <-].
    split; [done|]. apply run_statement_ok in E as (out & Hm & ->). exists out. split; [done|].
    destruct out as [|v out]; [done|]. simpl. exists v, out. split; [done|]. apply scan_cells_ok.
  - done.
  - by intros w e w' [= <- <-].
  - by intros r w e w' [= <- <-].
  - intros w e w'. simpl. destruct (outages w) as [|inserted later]; intros [= <- <-].
    + exists (fun _ => true). split; [done|]. simpl. by rewrite bfilter_all.
    + by exists inserted.
Defined.
End Ch.
#[local] Existing Instances Ch.aggregates Ch.conn Ch.client Ch.time Ch.laws.

Definition ch_empty : Ch.server := Ch.mkServer [] [] 5000 [].
Definition ch_pending : BatchBuffer := snd (Add (pg_sample 70000 103) (snd (Add (pg_sample 10000 100) (NewBatchBuffer 1000)))).
Definition ch_filled : Ch.server := snd (ch_flush ch_pending ch_empty).

Lemma stats_of_nothing_panics_witness : PriceStats "bitcoin" "usd" 0 Hour ch_empty = (None, ch_empty).
Proof.
  assert (conn_QueryRow stats_sql [AString "bitcoin"; AString "usd"; ATime 0; ATime Hour] ch_empty =
    (inl (Some [CFloat fzero; CFloat fzero; CFloat S754_nan; CFloat fzero; CUint64 0]), ch_empty)) as Hq.
  { unfold conn_QueryRow, Ch.conn, Ch.run_query. rewrite (bool_decide_eq_false_2 (stats_sql = ch_history_sql)) by done.
    rewrite bool_decide_eq_true_2 by done. reflexivity. }
  refine (stats_of_nothing_panics "bitcoin" "usd" 0 Hour _ ch_empty ch_empty _ Hq).
  intros r Hr. apply not_elem_of_nil in Hr. contradiction.
Defined.

Lemma counts_never_reported_witness :
  fst (VolumeByProvider 0 Hour ch_filled) = Some ([], Some (Errorf "converting a column")) /\
  forall l, ProviderAccuracy 0 Hour ch_filled <> (Some (l, None), ch_filled).
Proof.
  split; [vm_compute; reflexivity|]. intros l.
  refine (proj1 (counts_never_reported 0 Hour ch_filled (Ch.stored (flush_row 0 0 (pg_sample 10000 100))) l [] ch_filled _ _)).
  - assert (ch_table ch_filled = [Ch.stored (flush_row 0 0 (pg_sample 10000 100)); Ch.stored (flush_row 0 0 (pg_sample 70000 103))])
      as -> by (vm_compute; reflexivity). apply list_elem_of_here.
  - vm_compute. reflexivity.
Defined.

(** Two prices of different months: the first attempt fails after the first
    month, a price is added meanwhile, the second attempt succeeds. *)
Definition ch_outage : Ch.server := Ch.mkServer [] [] 5000 [fun month => month =? 0].
Definition ch_retry_events : list ch_event :=
  [ChAdd (pg_sample 10000 100); ChAdd (pg_sample 2600000000 103); ChFlush; ChAttempt 0;
   ChAdd (pg_sample 2600000010 104); ChAttempt 0].
Lemma clickhouse_writes_witness : exists b w', ch_events ch_retry_events (NewBatchBuffer 1000) ch_outage = (b, w') /\
  bb_prices b = [pg_sample 2600000010 104] /\ table_made [] b (ch_table w').
Proof.
  pose proof (clickhouse_writes 1000 ch_retry_events ch_outage) as Hw.
  assert (bb_prices (fst (ch_events ch_retry_events (NewBatchBuffer 1000) ch_outage)) = [pg_sample 2600000010 104]) as Hp
    by (vm_compute; reflexivity).
  destruct (ch_events ch_retry_events (NewBatchBuffer 1000) ch_outage) as [b w'].
  exists b, w'. split; [reflexivity|]. split; [exact Hp|exact (proj2 Hw)].
Defined.

(** The price of the first month is in the table twice, in a batch counted as
    written, and no error is counted. *)
Theorem retry_duplicates : let '(b, w') := ch_events ch_retry_events (NewBatchBuffer 1000) ch_outage in
  row_ReceivedAt <$> ch_table w' = (fun ms => ms * Millisecond) <$> [10000; 10000; 2600000000] /\
  FlushStats b = (1, 0).
Proof. vm_compute. split; reflexivity. Qed.
