(* ===== verification/Redis.v ===== *)
(** * internal/adapter/storage/redis/cache.go

    The Redis cache: prices as JSON under a key.  The Redis client and the
    JSON text format are classes; what is modelled is the record that is
    encoded, the keys, and every error path. *)
From S2P Require Import Prelude GoLib GoStrings Decimal Model Demo MemCache.
From Stdlib Require Import QArith Ascii.
Open Scope Z_scope.

Definition redis_cacheKey (coinID currency : string) : string :=
  "price:" +:+ coinID +:+ ":" +:+ currency.

Record priceJSON := mkPriceJSON {
  pj_CoinID : string; pj_Currency : string; pj_Value : string; pj_Provider : string;
  pj_Timestamp : Z; pj_ReceivedAt : Z; pj_MarketCap : string; pj_Volume24h : string;
  pj_Change24h : float64 }.

(** encoding/json on this record: a NaN or an infinity is refused, and what was
    encoded decodes to itself when its strings are valid UTF-8. *)
Definition valid_utf8 (s : string) : Prop := encode_runes (runes s) = s.
Class PriceCodec := {
  json_Marshal : priceJSON -> option string;
  json_Unmarshal : string -> option priceJSON;
  json_Marshal_fails : forall pj, json_Marshal pj = None <-> float_finite (pj_Change24h pj) = false;
  json_roundtrip : forall pj data, json_Marshal pj = Some data ->
    valid_utf8 (pj_CoinID pj) -> valid_utf8 (pj_Currency pj) -> valid_utf8 (pj_Value pj) ->
    valid_utf8 (pj_Provider pj) -> valid_utf8 (pj_MarketCap pj) -> valid_utf8 (pj_Volume24h pj) ->
    json_Unmarshal data = Some pj }.

(** The commands of the client; [None] of [rc_Get] is [goredis.Nil]. *)
Class RedisClient (W : Type) := {
  rc_Get : string -> M W (option string + error);
  rc_Set : string -> string -> Duration -> M W (option error);
  rc_Del : string -> M W (option error) }.
(** A key that is found right after it was set holds what was set; it may have
    expired, and the command may fail. *)
Class RedisLaws (W : Type) `{RedisClient W} := {
  rc_set_get : forall k v v' ttl w w' w'', rc_Set k v ttl w = (None, w') ->
    rc_Get k w' = (inl (Some v'), w'') -> v' = v }.

(** Connecting and closing. *)
Record redis_Config := mkRedisOptions { rd_Addr : string; rd_Password : string; rd_DB : Z }.
Class RedisConn (W C : Type) := {
  rc_NewClient : redis_Config -> M W C;
  rc_Ping : C -> M W (option error);
  rc_Close : C -> M W (option error) }.
Definition NewCache {W C} `{!RedisConn W C} (cfg : redis_Config) : M W (C + error) :=
  client <- rc_NewClient cfg ;;
  e <- rc_Ping client ;;
  match e with
  | Some e => ret (inr (Wrapf "connecting to redis: " e ""))
  | None => ret (inl client)
  end.
Definition Redis_Close {W C} `{!RedisConn W C} (c : C) : M W (option error) := rc_Close c.

Section redis.
Context {O : DecimalOps} `{!PriceCodec} {W : Type} `{!RedisClient W}.

Definition decimal_or_zero (s : string) : decimal := default dec_Zero (dec_NewFromString s).

Definition Redis_Get (coinID currency : string) : M W (result Price) :=
  r <- rc_Get (redis_cacheKey coinID currency) ;;
  match r with
  | inr e => ret (err (Wrapf "redis get: " e ""))
  | inl None => ret (None, None)
  | inl (Some data) =>
      match json_Unmarshal data with
      | None =>
          rc_Del (redis_cacheKey coinID currency) ;;;
          ret (err (Errorf "unmarshaling price (key deleted)"))
      | Some pj =>
          match dec_NewFromString (pj_Value pj) with
          | None => ret (err (Errorf "parsing decimal"))
          | Some value =>
              ret (ok (mkPrice (pj_CoinID pj) (pj_Currency pj) value (pj_Provider pj)
                (from_UnixMilli (pj_Timestamp pj)) (from_UnixMilli (pj_ReceivedAt pj))
                (decimal_or_zero (pj_MarketCap pj)) (decimal_or_zero (pj_Volume24h pj))
                (pj_Change24h pj)))
          end
      end
  end.

Definition price_json (price : Price) : priceJSON :=
  mkPriceJSON (CoinID price) (Currency price) (dec_String (Value price)) (PProvider price)
    (time_UnixMilli (Timestamp price)) (time_UnixMilli (ReceivedAt price))
    (dec_String (MarketCap price)) (dec_String (Volume24h price)) (Change24h price).

Definition Redis_Set (price : Price) (ttl : Duration) : M W (option error) :=
  match json_Marshal (price_json price) with
  | None => ret (Some (Errorf "marshaling price"))
  | Some data => rc_Set (redis_cacheKey (CoinID price) (Currency price)) data ttl
  end.

Definition Redis_Delete (coinID currency : string) : M W (option error) :=
  rc_Del (redis_cacheKey coinID currency).
End redis.

Section properties.
Context {O : DecimalOps} {L : DecimalLaws O} `{!PriceCodec} {W : Type} `{!RedisClient W} `{!RedisLaws W}.

(** [String] is exact, which the package documents, and plain ASCII. *)
Definition string_exact (d : decimal) : Prop :=
  valid_utf8 (dec_String d) /\
  exists d', dec_NewFromString (dec_String d) = Some d' /\ (dval d' == dval d)%Q.

(** C29. A price written to Redis is read back with its coin, currency,
    provider and change, the exact value, market cap and volume, and its two
    timestamps rounded down to the millisecond; when the key is not there (any
    more) the cache has no price, and an error of the command is returned. *)
Theorem redis_roundtrip (p : Price) ttl (w w' : W) :
  Redis_Set p ttl w = (None, w') ->
  valid_utf8 (CoinID p) -> valid_utf8 (Currency p) -> valid_utf8 (PProvider p) ->
  string_exact (Value p) -> string_exact (MarketCap p) -> string_exact (Volume24h p) ->
  int64_ok ((Timestamp p - unix_epoch) / Millisecond) ->
  int64_ok ((ReceivedAt p - unix_epoch) / Millisecond) ->
  match rc_Get (redis_cacheKey (CoinID p) (Currency p)) w' with
  | (inl (Some _), w'') => exists q, Redis_Get (CoinID p) (Currency p) w' = (ok q, w'') /\
    CoinID q = CoinID p /\ Currency q = Currency p /\ PProvider q = PProvider p /\
    Change24h q = Change24h p /\
    (dval (Value q) == dval (Value p))%Q /\ (dval (MarketCap q) == dval (MarketCap p))%Q /\
    (dval (Volume24h q) == dval (Volume24h p))%Q /\
    Timestamp p - Millisecond < Timestamp q <= Timestamp p /\
    ReceivedAt p - Millisecond < ReceivedAt q <= ReceivedAt p
  | (inl None, w'') => Redis_Get (CoinID p) (Currency p) w' = ((None, None), w'')
  | (inr e, w'') => Redis_Get (CoinID p) (Currency p) w' = (err (Wrapf "redis get: " e ""), w'')
  end.
Proof.
  intros Hset Hc Hcu Hp [Hv1 (v & Hv & Hve)] [Hm1 (m & Hm & Hme)] [Ho1 (o & Ho & Hoe)] Ht Hr.
  unfold Redis_Set in Hset. destruct (json_Marshal (price_json p)) as [data|] eqn:Ej; [|done].
  destruct (rc_Get (redis_cacheKey (CoinID p) (Currency p)) w') as [[[data'|]|e] w''] eqn:Hget;
    [|by unfold Redis_Get, bind, ret; rewrite Hget..].
  pose proof (rc_set_get _ _ _ _ _ _ _ Hset Hget) as ->.
  assert (json_Unmarshal data = Some (price_json p)) as Hu by (by apply json_roundtrip).
  unfold Redis_Get, bind, ret. rewrite Hget, Hu. unfold price_json at 1. simpl. rewrite Hv.
  eexists. split; [reflexivity|]. simpl. unfold decimal_or_zero. rewrite Hm, Ho. simpl.
  split_and!; try done; by apply UnixMilli_roundtrip.
Qed.

(** A price whose 24-hour change is not a number cannot be written: the
    error is returned and Redis is not touched. *)
Theorem redis_set_nan (p : Price) ttl (w : W) :
  float_finite (Change24h p) = false ->
  Redis_Set p ttl w = (Some (Errorf "marshaling price"), w).
Proof.
  intros Hf. unfold Redis_Set. destruct (json_Marshal (price_json p)) eqn:E; [|done].
  assert (json_Marshal (price_json p) = None) by (by apply json_Marshal_fails). congruence.
Qed.
End properties.

(** ** Witnesses

    A codec that writes the record's code in binary, and a client with the
    commands on a map. *)
#[local] Instance spec_float_eq_dec : EqDecision spec_float.
Proof. solve_decision. Defined.
#[local] Instance spec_float_countable : Countable spec_float.
Proof.
  refine (inj_countable' (fun f => match f with
    | S754_zero s => inl (inl s) | S754_infinity s => inl (inr s)
    | S754_nan => inr (inl tt) | S754_finite s m e => inr (inr (s, m, e)) end)
   (fun x => match x with
    | inl (inl s) => S754_zero s | inl (inr s) => S754_infinity s
    | inr (inl _) => S754_nan | inr (inr (s, m, e)) => S754_finite s m e end) _).
  by intros [].
Defined.
#[local] Instance priceJSON_eq_dec : EqDecision priceJSON.
Proof. solve_decision. Defined.
#[local] Instance priceJSON_countable : Countable priceJSON.
Proof.
  refine (inj_countable' (fun '(mkPriceJSON a b c d e f g h i) => (a, b, c, d, e, f, g, h, i))
    (fun '(a, b, c, d, e, f, g, h, i) => mkPriceJSON a b c d e f g h i) _).
  by intros [].
Defined.

Fixpoint pos_bits (p : positive) : string :=
  match p with xH => "" | xO p => String "0" (pos_bits p) | xI p => String "1" (pos_bits p) end.
Fixpoint bits_pos (s : string) : positive :=
  match s with
  | String c s => if bool_decide (c = "0"%char) then xO (bits_pos s) else xI (bits_pos s)
  | EmptyString => xH
  end.
Lemma bits_pos_bits p : bits_pos (pos_bits p) = p.
Proof. by induction p as [p IH|p IH|]; simpl; [rewrite IH|rewrite IH|]. Qed.

Definition binary_codec : PriceCodec.
Proof.
  refine {| json_Marshal pj := if float_finite (pj_Change24h pj) then Some (pos_bits (encode pj)) else None;
            json_Unmarshal s := decode (bits_pos s) |}.
  - intros pj. by destruct (float_finite _).
  - intros pj data. destruct (float_finite _); [|done]. intros [= <-] _ _ _ _ _ _.
    by rewrite bits_pos_bits, decode_encode.
Defined.
Definition map_client : RedisClient (gmap string string) := {|
  rc_Get k w := (inl (w !! k), w);
  rc_Set k v _ w := (None, <[k := v]> w);
  rc_Del k w := (None, delete k w) |}.
#[local] Existing Instance binary_codec.
#[local] Existing Instance map_client.
#[local] Instance map_client_laws : RedisLaws (gmap string string).
Proof.
  split. intros k v v' ttl w w' w''. simpl. intros [= <-]. rewrite lookup_insert, decide_True by done. by intros [= ->].
Qed.

Definition redis_price : Price :=
  mkPrice "bitcoin" "usd" (dec_NewFromInt 67432) "kraken" (unix_epoch + 1234567) (unix_epoch + 2000000)
    (dec_NewFromInt 5) (dec_NewFromInt 6) fone.

Lemma int_string_exact (z : Z) (s : string) :
  dec_String (dec_NewFromInt z) = s -> encode_runes (runes s) = s ->
  QDec.of_string s = Some (inject_Z z) -> string_exact (dec_NewFromInt z).
Proof.
  intros Hs Hu Ho. split; [by rewrite Hs|]. exists (inject_Z z). rewrite Hs. by split.
Qed.

Lemma redis_roundtrip_witness : exists q w'',
  Redis_Get "bitcoin" "usd" (snd (Redis_Set redis_price Minute (∅ : gmap string string))) = (ok q, w'') /\
  CoinID q = "bitcoin"%string /\ (dval (Value q) == 67432 # 1)%Q /\
  unix_epoch < Timestamp q <= unix_epoch + 1234567.
Proof.
  assert (forall x, Redis_Set redis_price Minute (∅ : gmap string string) = x ->
    x = (None, snd x)) as Hset by (intros x <-; reflexivity).
  specialize (Hset _ eq_refl).
  assert (string_exact (Value redis_price)) as H1 by (by apply (int_string_exact 67432 "67432")).
  assert (string_exact (MarketCap redis_price)) as H2 by (by apply (int_string_exact 5 "5")).
  assert (string_exact (Volume24h redis_price)) as H3 by (by apply (int_string_exact 6 "6")).
  pose proof (redis_roundtrip redis_price Minute ∅ _ Hset eq_refl eq_refl eq_refl H1 H2 H3) as Hr.
  set (w1 := snd (Redis_Set redis_price Minute (∅ : gmap string string))) in *.
  destruct (rc_Get (redis_cacheKey (CoinID redis_price) (Currency redis_price)) w1) as [[[data|]|e] w''] eqn:Eg;
    [|exfalso; apply (f_equal (fun x => match x.1 with inl (Some _) => true | _ => false end)) in Eg;
      vm_compute in Eg; discriminate Eg..].
  destruct Hr as (q & Hq & Hc & _ & _ & _ & Hv & _ & _ & [Ht1 Ht2] & _); [split; discriminate|split; discriminate|].
  exists q, w''. split; [exact Hq|]. split; [exact Hc|]. split; [exact Hv|].
  split; [|exact Ht2]. refine (Z.le_lt_trans _ _ _ _ Ht1). discriminate.
Defined.

Lemma redis_set_nan_witness :
  Redis_Set (mkPrice "bitcoin" "usd" dec_Zero "p" 0 0 dec_Zero dec_Zero S754_nan) Minute
    (∅ : gmap string string) = (Some (Errorf "marshaling price"), ∅).
Proof. apply redis_set_nan. reflexivity. Defined.
