(* ===== verification/Binance.v ===== *)
(** * internal/adapter/stream/binance: symbols.go, binance.go

    The Binance price stream: the symbol tables, the subscription at each of its
    stages, and what the read loop makes of a message.  The connection itself
    is gorilla/websocket. *)
From S2P Require Import Prelude GoLib GoStrings Decimal Model GoJSON.
Open Scope Z_scope.

Definition defaultSymbols : list (string * string) := [
  ("bitcoin", "btcusdt"); ("ethereum", "ethusdt"); ("binancecoin", "bnbusdt");
  ("solana", "solusdt"); ("cardano", "adausdt"); ("ripple", "xrpusdt");
  ("polkadot", "dotusdt"); ("dogecoin", "dogeusdt"); ("avalanche", "avaxusdt");
  ("chainlink", "linkusdt"); ("litecoin", "ltcusdt"); ("tron", "trxusdt");
  ("near", "nearusdt"); ("uniswap", "uniusdt")]%string.

Record SymbolMapper := mkMapper { toSymbol : gmap string string; toCoinID : gmap string string }.
Definition NewSymbolMapper : SymbolMapper :=
  fold_left (fun sm '(coinID, symbol) =>
    mkMapper (<[coinID := symbol]> (toSymbol sm)) (<[symbol := coinID]> (toCoinID sm)))
    defaultSymbols (mkMapper ∅ ∅).
Arguments NewSymbolMapper : simpl never.

Section binance.
Context {O : DecimalOps} `{!Unicode} `{!GoJSON}.

Definition ToSymbol (sm : SymbolMapper) (coinID : string) : option string := toSymbol sm !! ToLower coinID.
Definition ToCoinID (sm : SymbolMapper) (symbol : string) : option string := toCoinID sm !! ToLower symbol.
Definition StreamName (sm : SymbolMapper) (coinID : string) : option string :=
  symbol ← ToSymbol sm coinID; Some (symbol +:+ "@miniTicker")%string.

(** The streams [Subscribe] asks for, or its error when there is none. *)
Definition valid_streams (sm : SymbolMapper) (coinIDs : list string) : option (list string) :=
  match omap (StreamName sm) coinIDs with [] => None | streams => Some streams end.

(** ** Subscribe and Close

    A connection and a context are numbers; the effects on them are recorded. *)
Inductive stream_action := ActCancel (n : nat) | ActClose (conn : nat) | ActRead (n conn : nat).
#[export] Instance stream_action_eq_dec : EqDecision stream_action.
Proof. solve_decision. Defined.
Record StreamProvider := mkStream {
  st_conn : option nat; st_cancel : option nat; st_next : nat; st_actions : list stream_action }.
Definition NewProvider : StreamProvider := mkStream None None 0 [].

Definition act (a : list stream_action) (p : StreamProvider) : StreamProvider :=
  mkStream (st_conn p) (st_cancel p) (st_next p) (st_actions p ++ a).
Definition close_current (p : StreamProvider) : StreamProvider :=
  act (match st_cancel p with Some n => [ActCancel n] | None => [] end ++
       match st_conn p with Some c => [ActClose c] | None => [] end) p.

(** [Subscribe] takes the lock three times: to close what there is, to set the
    connection it dialed, to set the function that cancels its read loop. *)
Definition sub_begin (coinIDs : list string) (p : StreamProvider) : (list string + error) * StreamProvider :=
  let p := close_current p in
  match valid_streams NewSymbolMapper coinIDs with
  | None => (inr (Errorf "no valid streams for coins"), p)
  | Some streams => (inl streams, p)
  end.
Definition sub_dialed (r : option error) (p : StreamProvider) : (nat + error) * StreamProvider :=
  match r with
  | Some e => (inr (Wrapf "connecting to binance ws: " e ""), p)
  | None => let c := st_next p in (inl c, mkStream (Some c) (st_cancel p) (S c) (st_actions p))
  end.
Definition sub_written (c : nat) (r : option error) (p : StreamProvider) : option error * StreamProvider :=
  match r with
  | Some e => (Some (Wrapf "sending subscribe: " e ""), act [ActClose c] p)
  | None => (None, p)
  end.
Definition sub_start (c : nat) (p : StreamProvider) : StreamProvider :=
  act [ActRead c c] (mkStream (st_conn p) (Some c) (st_next p) (st_actions p)).

(** Without anything in between; [dialed] and [written] are the outcomes of
    the dial and of the write. *)
Definition Subscribe (coinIDs : list string) (dialed written : option error) (p : StreamProvider) :
    option error * StreamProvider :=
  match sub_begin coinIDs p with
  | (inr e, p) => (Some e, p)
  | (inl streams, p) =>
      match sub_dialed dialed p with
      | (inr e, p) => (Some e, p)
      | (inl c, p) =>
          match sub_written c written p with
          | (Some e, p) => (Some e, p)
          | (None, p) => (None, sub_start c p)
          end
      end
  end.
Definition Stream_Close (p : StreamProvider) : StreamProvider := close_current p.

(** ** readLoop *)
Record miniTicker := mkTicker { tk_Event : string; tk_Symbol : string; tk_Close : string; tk_Time : Z }.

Definition miniTicker_zero : miniTicker := mkTicker "" "" "" 0.
Definition miniTicker_fields : list (field miniTicker) := [
  fld "e" dec_string tk_Event (fun x k => mkTicker x (tk_Symbol k) (tk_Close k) (tk_Time k));
  fld "s" dec_string tk_Symbol (fun x k => mkTicker (tk_Event k) x (tk_Close k) (tk_Time k));
  fld "c" dec_string tk_Close (fun x k => mkTicker (tk_Event k) (tk_Symbol k) x (tk_Time k));
  fld "E" dec_int64 tk_Time (fun x k => mkTicker (tk_Event k) (tk_Symbol k) (tk_Close k) x)].
Definition decode_ticker (msg : option jvalue) : option miniTicker :=
  match decode miniTicker_zero (dec_struct miniTicker_fields) msg with inl ticker => Some ticker | inr _ => None end.

(** The price a message yields, if any. *)
Definition ticker_price (currency : string) (now : Time) (msg : option jvalue) : option Price :=
  ticker ← decode_ticker msg;
  if negb (bool_decide (tk_Event ticker = "24hrMiniTicker"%string)) then None else
  coinID ← ToCoinID NewSymbolMapper (ToLower (tk_Symbol ticker));
  price ← dec_NewFromString (tk_Close ticker);
  Some (basicPrice coinID currency price "binance" (from_UnixMilli (tk_Time ticker)) now).

Definition streamCap : nat := 100.
(** A turn of the loop on the output channel; the send does not block. *)
Definition read_turn (currency : string) (now : Time) (msg : option jvalue) (ch : list Price) : list Price :=
  match ticker_price currency now msg with
  | Some p => if (length ch <? streamCap)%nat then ch ++ [p] else ch
  | None => ch
  end.

(** ** Properties *)
Definition table_ok (x : string * string) : bool :=
  is_ascii x.1 && is_ascii x.2 && bool_decide (map_bytes ascii_lower x.1 = x.1) &&
  bool_decide (map_bytes ascii_lower x.2 = x.2) &&
  bool_decide (toSymbol NewSymbolMapper !! x.1 = Some x.2) &&
  bool_decide (toCoinID NewSymbolMapper !! x.2 = Some x.1).

Lemma table_all_ok x : x ∈ defaultSymbols -> table_ok x = true.
Proof.
  intros Hx. assert (forallb table_ok defaultSymbols = true) as Hall by (vm_compute; reflexivity).
  rewrite forallb_forall in Hall. by apply Hall, list_elem_of_In.
Qed.

Lemma toSymbol_in k s : toSymbol NewSymbolMapper !! k = Some s -> (k, s) ∈ defaultSymbols.
Proof.
  intros Hk. assert (toSymbol NewSymbolMapper = list_to_map (reverse defaultSymbols)) as Heq
    by (apply (bool_decide_unpack _); vm_compute; exact I).
  rewrite Heq in Hk. apply elem_of_list_to_map_2 in Hk. by rewrite elem_of_reverse in Hk.
Qed.
Lemma toCoinID_in s k : toCoinID NewSymbolMapper !! s = Some k -> (k, s) ∈ defaultSymbols.
Proof.
  intros Hk. assert (toCoinID NewSymbolMapper = list_to_map (reverse (prod_swap <$> defaultSymbols))) as Heq
    by (apply (bool_decide_unpack _); vm_compute; exact I).
  rewrite Heq in Hk. apply elem_of_list_to_map_2 in Hk.
  rewrite elem_of_reverse in Hk. apply list_elem_of_fmap in Hk as ([k' s'] & Heq' & Hin).
  unfold prod_swap in Heq'. by injection Heq' as -> ->.
Qed.

Lemma table_lookup x : x ∈ defaultSymbols ->
  ToLower x.1 = x.1 /\ ToLower x.2 = x.2 /\
  toSymbol NewSymbolMapper !! x.1 = Some x.2 /\ toCoinID NewSymbolMapper !! x.2 = Some x.1.
Proof.
  intros Hx%table_all_ok. unfold table_ok in Hx. rewrite !andb_true_iff, !bool_decide_eq_true in Hx.
  destruct Hx as [[[[[H1 H2] H3] H4] H5] H6]. rewrite !ToLower_ascii by done. done.
Qed.

(** The symbol tables are inverse of each other, whatever the case of what
    is asked: the symbol of a coin maps back to the coin's lower-case ID, and
    the coin of a symbol to the lower-case symbol. *)
Theorem symbol_roundtrip a b :
  (ToSymbol NewSymbolMapper a = Some b -> ToCoinID NewSymbolMapper b = Some (ToLower a)) /\
  (ToCoinID NewSymbolMapper b = Some a -> ToSymbol NewSymbolMapper a = Some (ToLower b)).
Proof.
  unfold ToSymbol, ToCoinID. split.
  - intros Ha%toSymbol_in. destruct (table_lookup _ Ha) as (H1 & H2 & H3 & H4). cbn [fst snd] in *. by rewrite H2.
  - intros Hb%toCoinID_in. destruct (table_lookup _ Hb) as (H1 & H2 & H3 & H4). cbn [fst snd] in *. by rewrite H1.
Qed.

(** The output channel never holds more than its capacity, a full channel
    drops the price, and whatever is sent is the price of a known coin from a
    ticker event, labelled with the stream's currency. *)
Theorem read_turn_spec currency now msg (ch : list Price) : (length ch <= streamCap)%nat ->
  (length (read_turn currency now msg ch) <= streamCap)%nat /\
  (read_turn currency now msg ch = ch \/
   exists p tk symbol, read_turn currency now msg ch = ch ++ [p] /\ decode_ticker msg = Some tk /\
     (CoinID p, symbol) ∈ defaultSymbols /\ symbol = ToLower (ToLower (tk_Symbol tk)) /\
     dec_NewFromString (tk_Close tk) = Some (Value p) /\ Currency p = currency /\
     PProvider p = "binance"%string /\ tk_Event tk = "24hrMiniTicker"%string).
Proof.
  intros Hl. unfold read_turn. destruct (ticker_price currency now msg) as [p|] eqn:E; [|by split; [|left]].
  destruct (length ch <? streamCap)%nat eqn:El; [|by split; [|left]].
  apply Nat.ltb_lt in El. split; [rewrite length_snoc; lia|]. right.
  unfold ticker_price in E. destruct (decode_ticker msg) as [tk|]; [|done]. cbn [mbind option_bind] in E.
  destruct (bool_decide (tk_Event tk = _)) eqn:Ev; [|done]. apply bool_decide_eq_true in Ev.
  cbn [negb] in E. destruct (ToCoinID _ _) as [coin|] eqn:Ec; cbn [mbind option_bind] in E; [|done].
  destruct (dec_NewFromString _) as [v|] eqn:Ed; cbn [mbind option_bind] in E; [|done].
  injection E as <-. apply toCoinID_in in Ec. eexists _, tk, _.
  split; [reflexivity|]. split; [reflexivity|]. split; [exact Ec|]. by split_and!.
Qed.

(** The connections still being read: the loop reads until the connection is
    closed, which makes [ReadMessage] fail. *)
Definition reading (p : StreamProvider) (c : nat) : Prop :=
  ActRead c c ∈ st_actions p /\ ActClose c ∉ st_actions p.
(** The helper goroutine of a loop closes the connection once the context is cancelled. *)
Definition helper_close (c : nat) (p : StreamProvider) : StreamProvider := act [ActClose c] p.

(** One [Subscribe] at a time, at each of its stages, while [Close] may be
    called, the context [Subscribe] was given cancelled and a helper run at any
    moment. *)
Inductive sub_stage := SIdle | SDialing | SWriting (c : nat) | SStarting (c : nat).
Inductive stream_step : sub_stage * StreamProvider -> sub_stage * StreamProvider -> Prop :=
  | sst_begin coins p :
      stream_step (SIdle, p) (match sub_begin coins p with (inl _, p) => (SDialing, p) | (inr _, p) => (SIdle, p) end)
  | sst_dialed r p :
      stream_step (SDialing, p) (match sub_dialed r p with (inl c, p) => (SWriting c, p) | (inr _, p) => (SIdle, p) end)
  | sst_written c r p :
      stream_step (SWriting c, p) (match sub_written c r p with (None, p) => (SStarting c, p) | (Some _, p) => (SIdle, p) end)
  | sst_start c p : stream_step (SStarting c, p) (SIdle, sub_start c p)
  | sst_close st p : stream_step (st, p) (st, Stream_Close p)
  | sst_context st c p : ActRead c c ∈ st_actions p -> stream_step (st, p) (st, act [ActCancel c] p)
  | sst_helper st c p : ActRead c c ∈ st_actions p -> ActCancel c ∈ st_actions p ->
      stream_step (st, p) (st, helper_close c p).
Definition reachable (s : sub_stage * StreamProvider) : Prop := rtc stream_step (SIdle, NewProvider) s.

Lemma Subscribe_steps coins dialed written p :
  rtc stream_step (SIdle, p) (SIdle, snd (Subscribe coins dialed written p)).
Proof.
  unfold Subscribe. pose proof (sst_begin coins p) as Hb.
  destruct (sub_begin coins p) as [[streams|e] p1]; [|by apply rtc_once].
  eapply rtc_l; [exact Hb|]. pose proof (sst_dialed dialed p1) as Hd.
  destruct (sub_dialed dialed p1) as [[c|e] p2]; [|by apply rtc_once].
  eapply rtc_l; [exact Hd|]. pose proof (sst_written c written p2) as Hw.
  destruct (sub_written c written p2) as [[e|] p3]; [by apply rtc_once|].
  eapply rtc_l; [exact Hw|]. apply rtc_once, sst_start.
Qed.

(** Each connection dialed is closed but the current one, and that one is too
    while the next is dialed; each loop started is cancelled but the last. *)
Record stream_inv (s : sub_stage * StreamProvider) : Prop := {
  sti_conn c : (c < st_next s.2)%nat -> ActClose c ∈ st_actions s.2 \/ s.1 <> SDialing /\ st_conn s.2 = Some c;
  sti_read c : ActRead c c ∈ st_actions s.2 -> (c < st_next s.2)%nat /\
    (ActCancel c ∈ st_actions s.2 \/ s.1 = SIdle /\ st_cancel s.2 = Some c);
  sti_stage c : s.1 = SWriting c \/ s.1 = SStarting c -> (c < st_next s.2)%nat }.

Lemma close_current_read p c : ActRead c c ∈ st_actions (close_current p) <-> ActRead c c ∈ st_actions p.
Proof. unfold close_current, act. destruct (st_cancel p), (st_conn p); set_solver. Qed.
Lemma close_current_cancels p c :
  ActCancel c ∈ st_actions p \/ st_cancel p = Some c -> ActCancel c ∈ st_actions (close_current p).
Proof. unfold close_current, act. intros [?|Hc]; [set_solver|]. rewrite Hc. set_solver. Qed.
Lemma close_current_closes p c :
  ActClose c ∈ st_actions p \/ st_conn p = Some c -> ActClose c ∈ st_actions (close_current p).
Proof. unfold close_current, act. intros [?|Hc]; [set_solver|]. rewrite Hc. set_solver. Qed.

(** After [Close] every connection dialed is closed and every loop cancelled. *)
Definition all_closed (p : StreamProvider) : Prop :=
  (forall c, (c < st_next p)%nat -> ActClose c ∈ st_actions p) /\
  (forall c, ActRead c c ∈ st_actions p -> (c < st_next p)%nat /\ ActCancel c ∈ st_actions p).
Lemma close_current_all s : stream_inv s -> all_closed (close_current s.2).
Proof.
  intros [Hc Hr _]. split.
  - intros c Hlt. apply close_current_closes. destruct (Hc c Hlt) as [?|[_ ?]]; auto.
  - intros c [Hlt Hcan]%close_current_read%Hr. split; [done|]. apply close_current_cancels. destruct Hcan as [?|[_ ?]]; auto.
Qed.
Lemma all_closed_inv st p : all_closed p -> (forall c, st = SWriting c \/ st = SStarting c -> (c < st_next p)%nat) ->
  stream_inv (st, p).
Proof. intros [Hc Hr] Hst. split; [|intros c [? ?]%Hr; auto|exact Hst]. intros c Hlt. left. by apply Hc. Qed.

Lemma stream_step_inv s s' : stream_step s s' -> stream_inv s -> stream_inv s'.
Proof.
  intros Hs Hinv. pose proof (close_current_all s Hinv) as Hall.
  destruct Hs as [coins p|r p|c r p|c p|st p|st d p Hd|st d p Hd Hd']; destruct Hinv as [Hc Hr Hst]; cbn [fst snd] in *.
  - unfold sub_begin. destruct (valid_streams _ _); apply all_closed_inv; try done; by intros c [?|?].
  - destruct r as [e|]; cbn [sub_dialed].
    + split; cbn; [|intros c Hin; destruct (Hr c Hin) as [? [?|[? _]]]; auto; done|by intros c [?|?]].
      intros c Hlt. destruct (Hc c Hlt) as [?|[? _]]; [by left|done].
    + split; cbn; [|intros c Hin; destruct (Hr c Hin) as [? [?|[? _]]]; auto; done|intros c [[= ->]|?]; [lia|done]].
      intros c Hlt. destruct (decide (c = st_next p)) as [->|Hne]; [by right|].
      destruct (Hc c) as [?|[? _]]; [lia|by left|done].
  - destruct r as [e|]; cbn [sub_written]; split; cbn.
    + intros d Hlt. destruct (Hc d Hlt) as [?|[_ ?]]; [left; set_solver|by right].
    + intros d Hin. destruct (Hr d) as [? [?|[? _]]]; [set_solver|split; [done|left; set_solver]|done].
    + by intros d [?|?].
    + intros d Hlt. destruct (Hc d Hlt) as [?|[_ ?]]; [by left|by right].
    + intros d Hin. destruct (Hr d Hin) as [? [?|[? _]]]; [auto|done].
    + intros d [?|[= ->]]; [done|]. apply Hst. by left.
  - split; cbn.
    + intros d Hlt. destruct (Hc d Hlt) as [?|[_ ?]]; [left; set_solver|by right].
    + intros d [Hin|Hin]%elem_of_app.
      * destruct (Hr d Hin) as [? [?|[? _]]]; [split; [done|left; set_solver]|done].
      * assert (d = c) as -> by set_solver. split; [apply Hst; by right|by right].
    + by intros d [?|?].
  - by apply all_closed_inv.
  - split; cbn; [|intros c Hin; destruct (Hr c) as [? [?|?]]; [set_solver|split; [done|left; set_solver]|auto]|done].
    intros c Hlt. destruct (Hc c Hlt) as [?|?]; [left; set_solver|by right].
  - split; cbn; [|intros c Hin; destruct (Hr c) as [? [?|?]]; [set_solver|split; [done|left; set_solver]|auto]|done].
    intros c Hlt. destruct (Hc c Hlt) as [?|?]; [left; set_solver|by right].
Qed.
Lemma reachable_inv s : reachable s -> stream_inv s.
Proof.
  unfold reachable. intros Hr. assert (stream_inv (SIdle, NewProvider)) as Hinit.
  { split; cbn; [lia|set_solver|by intros c [?|?]]. }
  revert Hinit. induction Hr as [|s1 s2 s3 Hs _ IH]; [done|]. eauto using stream_step_inv.
Qed.

(** What was done to the connections is not undone. *)
Lemma stream_step_actions s s' a : stream_step s s' -> a ∈ st_actions s.2 -> a ∈ st_actions s'.2.
Proof.
  intros Hs Ha. destruct Hs as [coins p|r p|c r p|c p|st p|st d p _|st d p _ _]; cbn [fst snd] in *.
  - unfold sub_begin. destruct (valid_streams _ _); cbn; set_solver.
  - by destruct r.
  - destruct r; cbn; set_solver.
  - cbn. set_solver.
  - cbn. set_solver.
  - cbn. set_solver.
  - cbn. set_solver.
Qed.
Lemma stream_steps_actions s s' a : rtc stream_step s s' -> a ∈ st_actions s.2 -> a ∈ st_actions s'.2.
Proof. induction 1; eauto using stream_step_actions. Qed.

(** C32. As long as the calls of [Subscribe] do not overlap, and whenever
    [Close] comes, at most one connection is read at a time.  After a [Close],
    whatever is done next, a connection that is read was dialed after it: none
    of those before is, and all the loops started before were cancelled, so
    that their helper goroutines end.  (A [Subscribe] that is dialing when
    [Close] comes is not stopped: [late_stream].) *)
Theorem one_stream st p : reachable (st, p) ->
  (forall c c', reading p c -> reading p c' -> c = c') /\
  (forall c, ActRead c c ∈ st_actions p -> ActCancel c ∈ st_actions (Stream_Close p)) /\
  (forall st' p' c, rtc stream_step (st, Stream_Close p) (st', p') -> reading p' c -> (st_next p <= c)%nat).
Proof.
  intros Hr%reachable_inv. pose proof (close_current_all _ Hr) as [Hclosed Hcancelled]. destruct Hr as [Hc Hr _]. split_and!.
  - intros c c' [H1 H2] [H3 H4]. destruct (Hc c) as [?|[_ Hcur]]; [by apply Hr|done|].
    destruct (Hc c') as [?|[_ Hcur']]; [by apply Hr|done|]. simpl in *. congruence.
  - intros c Hin. apply (Hcancelled c). by apply close_current_read.
  - intros st' p' c Hs [_ Hopen]. apply Nat.nlt_ge. intros Hlt. apply Hopen.
    apply (stream_steps_actions _ _ _ Hs). by apply Hclosed.
Qed.
End binance.

(** ** Witnesses *)
#[local] Existing Instance QDec.ops.
#[local] Existing Instance ascii_Unicode.
#[local] Existing Instance plain_GoJSON.
Definition bitcoin_ticker : option jvalue :=
  Some (VObj [("e", VStr "24hrMiniTicker"); ("s", VStr "BTCUSDT"); ("c", VStr "67432"); ("E", VNum "0")]%string).
Lemma read_turn_spec_witness : (length (read_turn "usd" 7 bitcoin_ticker []) = 1)%nat /\
  (length (read_turn "usd" 7 bitcoin_ticker []) <= streamCap)%nat.
Proof.
  split; [vm_compute; reflexivity|]. assert (length (@nil Price) <= streamCap)%nat as Hl by (apply Nat.le_0_l).
  destruct (read_turn_spec "usd" 7 bitcoin_ticker [] Hl) as [Hr _].
  exact Hr.
Defined.

(** Subscribed twice, closed while the second connection is dialed: it is read
    all the same. *)
Definition demo_sub (coin : string) (closes : bool) (p : StreamProvider) : StreamProvider :=
  let p := snd (sub_begin [coin] p) in
  let p := if closes then Stream_Close p else p in
  sub_start (st_next p) (snd (sub_dialed None p)).
Lemma demo_sub_reachable coin closes p : is_Some (valid_streams NewSymbolMapper [coin]) -> reachable (SIdle, p) ->
  reachable (SIdle, demo_sub coin closes p).
Proof.
  intros [streams Hv] Hr. unfold demo_sub, reachable. set (p1 := snd (sub_begin [coin] p)).
  assert (reachable (SDialing, p1)) as H1.
  { eapply rtc_r; [exact Hr|]. pose proof (sst_begin [coin] p) as Hs. unfold p1, sub_begin in *. rewrite Hv in *. exact Hs. }
  set (p2 := if closes then Stream_Close p1 else p1).
  assert (reachable (SDialing, p2)) as H2 by (destruct closes; [eapply rtc_r; [exact H1|apply sst_close]|exact H1]).
  eapply rtc_r; [|apply sst_start]. eapply rtc_r; [|exact (sst_written (st_next p2) None (snd (sub_dialed None p2)))].
  eapply rtc_r; [exact H2|]. exact (sst_dialed None p2).
Qed.
Definition demo_stream : StreamProvider := demo_sub "ethereum" true (demo_sub "bitcoin" false NewProvider).
Lemma demo_stream_reachable : reachable (SIdle, demo_stream).
Proof.
  apply demo_sub_reachable; [vm_compute; eauto|]. apply demo_sub_reachable; [vm_compute; eauto|apply rtc_refl].
Qed.
Example late_stream : reading demo_stream 1.
Proof. split; apply (bool_decide_unpack _); vm_compute; exact I. Qed.

Lemma one_stream_witness : exists c, reading demo_stream c /\ forall c', reading demo_stream c' -> c = c'.
Proof.
  exists 1%nat. split; [exact late_stream|].
  intros c' Hc'. exact (proj1 (one_stream SIdle demo_stream demo_stream_reachable) 1%nat c' late_stream Hc').
Defined.

(** Two calls that overlap: the first connection is never closed. *)
Definition overlapped_stream : StreamProvider :=
  let p := snd (sub_begin ["ethereum"%string] (snd (sub_begin ["bitcoin"%string] NewProvider))) in
  let p := snd (sub_dialed None (snd (sub_dialed None p))) in
  sub_start 1 (sub_start 0 p).
Theorem overlapping_streams : reading overlapped_stream 0 /\ reading overlapped_stream 1.
Proof. split; (split; apply (bool_decide_unpack _); vm_compute; exact I). Qed.
