(* ===== verification/Admin.v ===== *)
(** * internal/app: admin_service.go, analytics_service.go, reloader.go

    The admin service over the services it is given, and the log level a reload
    sets. *)
From S2P Require Import Prelude GoLib GoStrings Decimal Model Ports Poller Demo.
From S2P Require Alerts.
Open Scope Z_scope.

Record Stats := mkAdminStats {
  TotalRequests : Z; CacheHits : Z; CacheHitRate : float64; UptimeSeconds : Z;
  HealthyProviders : nat; TotalProviders : nat; ActiveSubscriptions : nat;
  ActiveAlerts : nat; TriggeredAlerts : nat }.

Section admin.
Context {O : DecimalOps} `{!MapRange}.

(** What the admin routes ask of the subscription service, and of the router. *)
Definition GetProviderStatuses {W} `{!ProviderStatusGetter W} : M W (list ProviderStatus) := sg_ProviderStatuses.
Definition GetSubscriptions (s : SubscriptionService) : list Subscription := Service_Subscriptions s.
Definition AddSubscription (coinID currency : string) (interval : Duration)
    (s : SubscriptionService) : SubscriptionService := Service_Subscribe coinID currency interval s.
Definition RemoveSubscription (coinID currency : string) (s : SubscriptionService) :
    option error * SubscriptionService := Service_Unsubscribe coinID currency s.

(** The loop over the alerts: active ones, and triggered ones. *)
Definition count_alert (n : nat * nat) (a : Alert) : nat * nat :=
  if AActive a then (S n.1, n.2)
  else match ATriggeredAt a with Some _ => (n.1, S n.2) | None => n end.

(** A service that may be nil is an option; the price service is what its
    [Stats] returned. *)
Definition GetStats (price : option (Z * Z * Duration)) (statuses : list ProviderStatus)
    (subs : option Poller) (alerts : option Alerts.AlertService) : Stats :=
  let '(total, hits, uptime) := match price with
    | Some (t, h, u) => (t, h, f_to_int (Duration_Seconds u)) | None => (0, 0, 0) end in
  let rate := if total >? 0 then fdiv (f_of_int hits) (f_of_int total) else fzero in
  let '(active, triggered) := match alerts with
    | Some s => fold_left count_alert (Alerts.List s) (0, 0)%nat | None => (0, 0)%nat end in
  mkAdminStats total hits rate uptime (length (bfilter SHealthy statuses)) (length statuses)
    (match subs with Some p => length (Subscriptions p) | None => 0%nat end) active triggered.

Lemma count_alerts_spec l : forall n,
  fold_left count_alert l n =
    ((n.1 + length (bfilter AActive l))%nat,
     (n.2 + length (bfilter (fun a => negb (AActive a) && bool_decide (is_Some (ATriggeredAt a))) l))%nat).
Proof.
  unfold bfilter. induction l as [|a l IH]; intros n; simpl; [by rewrite !Nat.add_0_r; destruct n|].
  rewrite IH. unfold count_alert. destruct (AActive a); simpl; [f_equal; lia|].
  destruct (ATriggeredAt a); simpl; [f_equal; lia|done].
Qed.

Context `{!Alerts.NetParse} `{!Unicode}.

Lemma all_lookups (s : Alerts.AlertService) : Alerts.as_wf s ->
  length (Alerts.List s) = size (Alerts.as_alerts s) /\
  Forall (fun a => AActive a = false -> is_Some (ATriggeredAt a)) (Alerts.List s).
Proof.
  intros Hs. unfold Alerts.List.
  rewrite <- (length_map_to_list (Alerts.as_alerts s)), <- (Permutation_length (map_range_perm (Alerts.as_alerts s))).
  assert (forall id i, (id, i) ∈ map_range (Alerts.as_alerts s) -> exists a, Alerts.as_heap s !! i = Some a) as Hl.
  { intros id i Hin. apply elem_of_map_range in Hin.
    destruct (Alerts.wf_map _ Hs _ _ Hin) as (a & Ha & _). eauto. }
  induction (map_range (Alerts.as_alerts s)) as [|[id i] l IH]; simpl; [by split|].
  destruct (Hl id i) as [a Ha]; [set_solver|]. rewrite Ha. simpl.
  destruct IH as [IH1 IH2]; [intros id' j Hj; apply (Hl id' j); set_solver|]. split; [f_equal; exact IH1|].
  constructor; [|done]. by apply (Alerts.wf_inactive _ Hs i).
Qed.

(** The admin statistics count every registered alert once, as active or
    as triggered, in every reachable state of the alert service; and no more
    providers are healthy than there are. *)
Theorem admin_counts price statuses subs (s : Alerts.AlertService) : Alerts.reachable s ->
  let st := GetStats price statuses subs (Some s) in
  (ActiveAlerts st + TriggeredAlerts st = size (Alerts.as_alerts s))%nat /\
  (HealthyProviders st <= TotalProviders st)%nat.
Proof.
  intros Hs%Alerts.alerts_reachable_wf. apply all_lookups in Hs as [Hlen Hall]. unfold GetStats.
  rewrite count_alerts_spec. rewrite <- Hlen.
  assert (length (bfilter SHealthy statuses) <= length statuses)%nat as Hh.
  { unfold bfilter. induction statuses; simpl; [lia|]. case_match; simpl; lia. }
  destruct price as [[[t h] u]|]; simpl; (split; [|done]); clear Hlen;
    induction Hall as [|a l Ha _ IH]; try done; unfold bfilter in *; simpl;
    destruct (AActive a) eqn:E; simpl; try lia;
    rewrite bool_decide_eq_true_2 by (by apply Ha); simpl; lia.
Qed.

(** ** analytics_service.go: the service forwards to the store. *)
Context {W : Type} `{!AnalyticsStore W}.
Definition GetProviderAccuracy (from to : Time) := as_ProviderAccuracy (W := W) from to.
Definition GetAnomalies (coin cur : string) (minDev : float64) (from to : Time) :=
  as_PriceAnomalies (W := W) coin cur minDev from to.
Definition GetVolumeByProvider (from to : Time) := as_VolumeByProvider (W := W) from to.
Definition GetPriceStats (coin cur : string) (from to : Time) := as_PriceStats (W := W) coin cur from to.
End admin.

(** ** reloader.go, and setupLogger of cmd/server/wiring.go *)
Inductive Level := LevelDebug | LevelInfo | LevelWarn | LevelError.
Definition level_of (s : string) : Level :=
  if bool_decide (s = "debug"%string) then LevelDebug
  else if bool_decide (s = "warn"%string) then LevelWarn
  else if bool_decide (s = "error"%string) then LevelError
  else LevelInfo.
(** [loaded] is the log level of the configuration read again, or the error. *)
Definition Reload (loaded : string + error) (levelVar : option Level) : option error * option Level :=
  match loaded with
  | inr e => (Some e, levelVar)
  | inl s => (None, match levelVar with Some _ => Some (level_of s) | None => None end)
  end.

Lemma admin_counts_witness :
  let s := List.last Alerts.alert_states Alerts.NewAlertService in
  (ActiveAlerts (GetStats None [] None (Some s)) + TriggeredAlerts (GetStats None [] None (Some s)))%nat =
    size (Alerts.as_alerts s).
Proof.
  intros s. assert (s ∈ Alerts.alert_states) as Hin
    by (unfold s, Alerts.alert_states; cbn [List.last]; do 4 apply list_elem_of_further; apply list_elem_of_here).
  destruct (admin_counts None [] None s (Alerts.alert_states_reachable _ Hin)) as [Hc _]. exact Hc.
Defined.
