(* ===== verification/Config.v ===== *)
(** * internal/config/config.go

    The configuration, its defaults and its validation.  Reading the file and
    the environment is viper's. *)
From S2P Require Import Prelude GoLib Model Poller.
Open Scope Z_scope.

Record RegistryConfig := mkRegistryConfig { rgc_Enabled : bool; rgc_RefreshInterval : Duration; rgc_Chains : list string }.
Record RateLimitConfig := mkRateLimitConfig { rlc_Enabled : bool; rlc_RequestsPerSecond : float64; rlc_Burst : Z }.
Record CORSConfig := mkCORSConfig { cors_Enabled : bool; cors_AllowedOrigins : list string }.
Record ServerConfig := mkServerConfig {
  sv_Host : string; sv_Port : Z; sv_ReadTimeout : Duration; sv_WriteTimeout : Duration;
  sv_AdminAPIKey : string; sv_RateLimit : RateLimitConfig; sv_CORS : CORSConfig; sv_ForceHTTPS : bool }.
Record ValidationConfig := mkValidationConfig {
  vc_Enabled : bool; vc_MaxStaleness : Duration; vc_MaxDeviationPercent : float64;
  vc_ConsensusProviders : Z; vc_ConsensusMinProviders : Z; vc_ConsensusTimeout : Duration;
  vc_ResponseMode : string; vc_StablecoinDeviation : float64; vc_MajorCoinDeviation : float64;
  vc_AltcoinDeviation : float64 }.
Record PricingConfig := mkPricingConfig {
  pc_DefaultCurrency : string; pc_CacheTTL : Duration; pc_MaxRetries : Z; pc_StoreHistory : bool;
  pc_Validation : ValidationConfig }.
Record PollingConfig := mkPollingConfig { plc_DefaultInterval : Duration; plc_MinInterval : Duration }.
Record ClickHouseConfig := mkClickHouseConfig {
  chc_Enabled : bool; chc_Addr : string; chc_Database : string; chc_Username : string;
  chc_Password : string; chc_BatchSize : Z; chc_BatchInterval : Duration }.
Record PostgresConfig := mkPostgresConfig { pgc_Enabled : bool; pgc_DSN : string; pgc_MaxConns : Z; pgc_MinConns : Z }.
Record RedisConfig := mkRedisConfig { rdc_Enabled : bool; rdc_Addr : string; rdc_Password : string; rdc_DB : Z }.
Record StorageConfig := mkStorageConfig {
  stc_Postgres : PostgresConfig; stc_Redis : RedisConfig; stc_ClickHouse : ClickHouseConfig }.
Record WeightsConfig := mkWeightsConfig { wc_RateRemaining : float64; wc_Latency : float64; wc_Cost : float64 }.
Record RoutingConfig := mkRoutingConfig {
  rc_Strategy : string; rc_AllowPaid : bool; rc_MonthlyBudget : float64; rc_Weights : WeightsConfig }.
Record CBConfig := mkCBConfig { cbc_FailureThreshold : Z; cbc_RecoveryTimeout : Duration }.
Record ProviderConfig := mkProviderConfig {
  pvc_Enabled : bool; pvc_Tier : string; pvc_Priority : Z; pvc_RateLimit : Z; pvc_APIKey : string;
  pvc_BaseURL : string; pvc_WSURL : string; pvc_CircuitBreaker : CBConfig }.
Record LogsConfig := mkLogsConfig { lgc_Enabled : bool; lgc_Level : string; lgc_Format : string }.
Record MetricsConfig := mkMetricsConfig { mc_Enabled : bool; mc_Exporter : string; mc_Port : Z }.
Record TracesConfig := mkTracesConfig { tc_Enabled : bool; tc_Exporter : string; tc_Endpoint : string; tc_SampleRate : float64 }.
Record TelemetryConfig := mkTelemetryConfig { tlc_Logs : LogsConfig; tlc_Metrics : MetricsConfig; tlc_Traces : TracesConfig }.
Record Config := mkConfig {
  Server : ServerConfig; Pricing : PricingConfig; Polling : PollingConfig; Storage : StorageConfig;
  Routing : RoutingConfig; Providers : gmap string ProviderConfig; Registry : RegistryConfig;
  Telemetry : TelemetryConfig }.

Definition set_MaxRetries (n : Z) (c : Config) : Config :=
  mkConfig (Server c)
    (mkPricingConfig (pc_DefaultCurrency (Pricing c)) (pc_CacheTTL (Pricing c)) n
       (pc_StoreHistory (Pricing c)) (pc_Validation (Pricing c)))
    (Polling c) (Storage c) (Routing c) (Providers c) (Registry c) (Telemetry c).

Section config.
Context `{!GoFmt}.

(** [Validate]: the error, and the configuration, which it may correct. *)
Definition Config_Validate (c : Config) : option error * Config :=
  let s := Server c in
  if (sv_Port s <=? 0) || (sv_Port s >? 65535)
  then (Some (Errorf ("invalid server port: " +:+ fmt_d (sv_Port s))), c) else
  if sv_ReadTimeout s <=? 0 then (Some (Errorf "server.read_timeout must be positive"), c) else
  if sv_WriteTimeout s <=? 0 then (Some (Errorf "server.write_timeout must be positive"), c) else
  if pc_CacheTTL (Pricing c) <=? 0 then (Some (Errorf "pricing.cache_ttl must be positive"), c) else
  let c := if pc_MaxRetries (Pricing c) <=? 0 then set_MaxRetries 1 c else c in
  if rlc_Enabled (sv_RateLimit s) && fleb (rlc_RequestsPerSecond (sv_RateLimit s)) fzero
  then (Some (Errorf "rate_limit.requests_per_second must be positive"), c) else
  if rlc_Enabled (sv_RateLimit s) && (rlc_Burst (sv_RateLimit s) <=? 0)
  then (Some (Errorf "rate_limit.burst must be positive"), c) else
  (None, c).
End config.

(** [setDefaults]: what an empty file and environment give. *)
Definition defaults : Config := mkConfig
  (mkServerConfig "0.0.0.0" 8080 (5 * Second) (10 * Second) ""
     (mkRateLimitConfig false (f_of_int 10) 20) (mkCORSConfig false ["*"%string]) false)
  (mkPricingConfig "usd" (30 * Second) 3 true
     (mkValidationConfig true (5 * Minute) (f_of_int 5) 3 2 (3 * Second) "validated"
        (f_of_int 2) (f_of_int 10) (f_of_int 20)))
  (mkPollingConfig (60 * Second) (10 * Second))
  (mkStorageConfig (mkPostgresConfig false "" 0 0) (mkRedisConfig false "" "" 0)
     (mkClickHouseConfig false "localhost:9000" "cpa" "default" "" 1000 (5 * Second)))
  (mkRoutingConfig "smart" false fzero (mkWeightsConfig (f_lit 4 10) (f_lit 3 10) (f_lit 3 10)))
  ∅
  (mkRegistryConfig true Hour ["ethereum"; "binance-smart-chain"; "polygon-pos"; "arbitrum-one";
     "optimistic-ethereum"; "avalanche"; "base"; "solana"; "tron"]%string)
  (mkTelemetryConfig (mkLogsConfig true "info" "json") (mkMetricsConfig false "" 0)
     (mkTracesConfig false "" "" fzero)).

(** [Load].  Viper reads the file [config.yaml] of a directory, and decodes it
    over the defaults, under the variables of the environment that start with
    CPA_. *)
Record viper_settings := mkViper {
  vp_ConfigName : string; vp_ConfigType : string; vp_ConfigPath : string; vp_EnvPrefix : string; vp_EnvKeySep : string;
  vp_Defaults : Config }.
Class Viper := {
  v_ReadInConfig : viper_settings -> option error;
  v_Unmarshal : viper_settings -> Config + error }.
Definition Load `{!Viper} (configPath : string) : Config + error :=
  let v := mkViper "config" "yaml" configPath "CPA" "_" defaults in
  match v_ReadInConfig v with
  | Some e => inr (Wrapf "reading config: " e "")
  | None =>
      match v_Unmarshal v with
      | inr e => inr (Wrapf "unmarshaling config: " e "")
      | inl cfg => inl cfg
      end
  end.

Section properties.
Context `{!GoFmt}.

(** A configuration that passes validation has a port of 1 to 65535,
    positive server timeouts and cache time, at least one retry whatever the
    file said, and a positive rate and burst when the limiter is on; nothing
    but the retries was changed. *)
Theorem validate_ok (c c' : Config) : Config_Validate c = (None, c') ->
  1 <= sv_Port (Server c') <= 65535 /\ 0 < sv_ReadTimeout (Server c') /\
  0 < sv_WriteTimeout (Server c') /\ 0 < pc_CacheTTL (Pricing c') /\
  1 <= pc_MaxRetries (Pricing c') /\
  (rlc_Enabled (sv_RateLimit (Server c')) = true ->
     fleb (rlc_RequestsPerSecond (sv_RateLimit (Server c'))) fzero = false /\
     0 < rlc_Burst (sv_RateLimit (Server c'))) /\
  c' = set_MaxRetries (Z.max 1 (pc_MaxRetries (Pricing c))) c.
Proof.
  unfold Config_Validate. intros Hv.
  destruct (_ || _) eqn:Ep; [done|]. destruct (sv_ReadTimeout _ <=? 0) eqn:Er; [done|].
  destruct (sv_WriteTimeout _ <=? 0) eqn:Ew; [done|]. destruct (pc_CacheTTL _ <=? 0) eqn:Et; [done|].
  set (c1 := if pc_MaxRetries (Pricing c) <=? 0 then set_MaxRetries 1 c else c) in *.
  assert (c1 = set_MaxRetries (Z.max 1 (pc_MaxRetries (Pricing c))) c) as Hc1.
  { unfold c1. destruct (pc_MaxRetries (Pricing c) <=? 0) eqn:E; to_prop; [by rewrite Z.max_l by lia|].
    rewrite Z.max_r by lia. by destruct c as [? []]. }
  destruct (rlc_Enabled (sv_RateLimit (Server c)) && fleb _ _) eqn:E1; [done|]. destruct (rlc_Enabled (sv_RateLimit (Server c)) && (_ <=? _)) eqn:E2; [done|].
  injection Hv as <-. rewrite Hc1. simpl. to_prop. split_and!; try lia; [|done].
  intros He. rewrite He in *. simpl in *. to_prop. by split.
Qed.

(** Validation does not look at the intervals that drive the tickers: a
    configuration whose polling minimum is zero passes, and with it the first
    subscription with a zero interval panics its goroutine. *)
Theorem validate_misses_intervals : exists c c',
  Config_Validate c = (None, c') /\ plc_MinInterval (Polling c') = 0 /\
  rgc_RefreshInterval (Registry c') = 0 /\
  po_panicked (poll_start 0 (Subscribe (mkSub "bitcoin" "usd" 0) (NewPoller (plc_MinInterval (Polling c'))))) = true.
Proof.
  eexists (mkConfig (Server defaults) (Pricing defaults) (mkPollingConfig 0 0) (Storage defaults)
    (Routing defaults) ∅ (mkRegistryConfig true 0 []) (Telemetry defaults)), _.
  split_and!; reflexivity.
Qed.
End properties.

Lemma validate_ok_witness : Config_Validate (H := plain_GoFmt) defaults = (None, defaults) /\
  1 <= pc_MaxRetries (Pricing defaults).
Proof.
  assert (Config_Validate (H := plain_GoFmt) defaults = (None, defaults)) as Hv by reflexivity.
  split; [exact Hv|].
  destruct (validate_ok (H := plain_GoFmt) defaults defaults Hv) as (_ & _ & _ & _ & Hr & _). exact Hr.
Defined.
