(* ===== verification/Telemetry.v ===== *)
(** * internal/telemetry/otel.go

    Setting up the OpenTelemetry providers and shutting them down.  The SDK is
    a parameter: each call of it succeeds or fails, a provider is a handle. *)
From S2P Require Import Prelude GoLib GoStrings Decimal Model Demo.
Open Scope Z_scope.

Record telemetry_Config := mkTelemetry {
  TracesEnabled : bool; TracesExporter : string; SampleRate : float64;
  MetricsEnabled : bool; MetricsExporter : string; MetricsPort : Z }.

Inductive exporter := ExpStdoutTrace | ExpPrometheus | ExpStdoutMetric.
Class Otel (W Hd : Type) := {
  resource_New : M W (option error);
  SetTextMapPropagator : M W unit;
  exporter_New : exporter -> M W (option error);
  NewTracerProvider : float64 -> M W Hd; (* the sampling ratio *)
  NewMeterProvider : exporter -> M W Hd;
  SetTracerProvider : Hd -> M W unit;
  SetMeterProvider : Hd -> M W unit;
  ListenMetrics : string -> M W unit; (* the goroutine that serves /metrics *)
  provider_Shutdown : Hd -> M W (option error) }.

Section telemetry.
Context `{!GoFmt} {W Hd : Type} `{!Otel W Hd}.

Definition setupTraces (cfg : telemetry_Config) : M W (Hd + error) :=
  e <- (if bool_decide (TracesExporter cfg = "stdout"%string)
        then exporter_New ExpStdoutTrace else exporter_New ExpStdoutTrace) ;;
  match e with
  | Some e => ret (inr (Wrapf "creating trace exporter: " e ""))
  | None => tp <- NewTracerProvider (SampleRate cfg) ;; ret (inl tp)
  end.
Definition setupMetrics (cfg : telemetry_Config) : M W (Hd + error) :=
  if bool_decide (MetricsExporter cfg = "prometheus"%string) then
    e <- exporter_New ExpPrometheus ;;
    match e with
    | Some e => ret (inr (Wrapf "creating prometheus exporter: " e ""))
    | None => mp <- NewMeterProvider ExpPrometheus ;; ret (inl mp)
    end
  else if bool_decide (MetricsExporter cfg = "stdout"%string) then
    e <- exporter_New ExpStdoutMetric ;;
    match e with
    | Some e => ret (inr (Wrapf "creating stdout metric exporter: " e ""))
    | None => mp <- NewMeterProvider ExpStdoutMetric ;; ret (inl mp)
    end
  else ret (inr (Errorf ("unknown metrics exporter: " +:+ MetricsExporter cfg))).

(** The returned shutdown function is the list of the providers it stops;
    [noopShutdown] is the empty one. *)
Definition noopShutdown : list Hd := [].
Definition serve_metrics (cfg : telemetry_Config) : M W unit :=
  if bool_decide (MetricsExporter cfg = "prometheus"%string) && (MetricsPort cfg >? 0)
  then ListenMetrics (":" +:+ fmt_d (MetricsPort cfg)) else ret tt.
Definition Setup_metrics (cfg : telemetry_Config) (shutdowns : list Hd) : M W (list Hd * option error) :=
  if MetricsEnabled cfg then
    r <- setupMetrics cfg ;;
    match r with
    | inr e => ret (noopShutdown, Some (Wrapf "setting up metrics: " e ""))
    | inl mp => SetMeterProvider mp ;;; serve_metrics cfg ;;; ret (shutdowns ++ [mp], None)
    end
  else ret (shutdowns, None).
Definition Setup (cfg : telemetry_Config) : M W (list Hd * option error) :=
  e <- resource_New ;;
  match e with
  | Some e => ret (noopShutdown, Some (Wrapf "creating resource: " e ""))
  | None =>
      SetTextMapPropagator ;;;
      if TracesEnabled cfg then
        r <- setupTraces cfg ;;
        match r with
        | inr e => ret (noopShutdown, Some (Wrapf "setting up traces: " e ""))
        | inl tp => SetTracerProvider tp ;;; Setup_metrics cfg [tp]
        end
      else Setup_metrics cfg []
  end.
(** Every provider is stopped; the first error is returned. *)
Fixpoint run_Shutdown (shutdowns : list Hd) (firstErr : option error) : M W (option error) :=
  match shutdowns with
  | [] => ret firstErr
  | fn :: shutdowns =>
      e <- provider_Shutdown fn ;;
      run_Shutdown shutdowns (match e, firstErr with Some e, None => Some e | _, _ => firstErr end)
  end.

(** *** Behaviour *)
Fixpoint shutdown_each (shutdowns : list Hd) : M W (list (option error)) :=
  match shutdowns with
  | [] => ret []
  | fn :: shutdowns => e <- provider_Shutdown fn ;; es <- shutdown_each shutdowns ;; ret (e :: es)
  end.
Lemma run_Shutdown_first shutdowns : forall first w,
  run_Shutdown shutdowns first w =
    let '(es, w') := shutdown_each shutdowns w in
    (match first with Some e => Some e | None => head (omap id es) end, w').
Proof.
  induction shutdowns as [|fn fns IH]; intros first w; simpl; [by destruct first|].
  unfold bind, ret. destruct (provider_Shutdown fn w) as [e w1]. rewrite IH.
  destruct (shutdown_each fns w1) as [es w2]. by destruct e, first.
Qed.

(** Shutting down stops every provider, in order, whatever the others answer,
    and returns the first error. *)
Theorem Shutdown_stops_all shutdowns w :
  run_Shutdown shutdowns None w =
    let '(es, w') := shutdown_each shutdowns w in (head (omap id es), w').
Proof. apply run_Shutdown_first. Qed.

(** The set-up that succeeds returns a shutdown for each provider enabled; one
    that fails returns one that does nothing, although the tracer provider may
    be running by then. *)
Theorem Setup_shutdowns cfg w hs e w' : Setup cfg w = ((hs, e), w') ->
  match e with
  | None => length hs = ((if TracesEnabled cfg then 1 else 0) + (if MetricsEnabled cfg then 1 else 0))%nat
  | Some _ => hs = []
  end.
Proof.
  unfold Setup, Setup_metrics, bind, ret. destruct (resource_New w) as [[e0|] w0]; [by intros [= <- <- <-]|].
  destruct (SetTextMapPropagator w0) as [[] w1].
  destruct (TracesEnabled cfg).
  - destruct (setupTraces cfg w1) as [[tp|e1] w2]; [|by intros [= <- <- <-]].
    destruct (SetTracerProvider tp w2) as [[] w3]. destruct (MetricsEnabled cfg); [|by intros [= <- <- <-]].
    destruct (setupMetrics cfg w3) as [[mp|e2] w4]; [|by intros [= <- <- <-]].
    destruct (SetMeterProvider mp w4) as [[] w5], (serve_metrics cfg w5) as [[] w6]. by intros [= <- <- <-].
  - destruct (MetricsEnabled cfg); [|by intros [= <- <- <-]].
    destruct (setupMetrics cfg w1) as [[mp|e2] w4]; [|by intros [= <- <- <-]].
    destruct (SetMeterProvider mp w4) as [[] w5], (serve_metrics cfg w5) as [[] w6]. by intros [= <- <- <-].
Qed.

(** Traces go to the standard output whatever exporter is configured. *)
Theorem traces_exporter_ignored cfg exporter :
  setupTraces (mkTelemetry (TracesEnabled cfg) exporter (SampleRate cfg) (MetricsEnabled cfg)
    (MetricsExporter cfg) (MetricsPort cfg)) = setupTraces cfg.
Proof. unfold setupTraces. simpl. by destruct (bool_decide (exporter = _)), (bool_decide (TracesExporter cfg = _)). Qed.
End telemetry.
