(* ===== verification/Implementations.v ===== *)
(** * The implementations of the adapters

    One record for each package under internal/adapter/provider: its [Config],
    the timeout of its HTTP client, its [New], [Name] and [Status], and how it
    answers (the loop of [Exchange], the single request of [Single], or one of
    its own, in [Providers]).  What the packages repeat word for word, the state
    and its recording of successes and errors, is in [Exchange]. *)
From S2P Require Import Prelude GoLib GoStrings Decimal Model GoJSON Ports.
From S2P Require Import Exchange Exchanges Aggregators Single Providers.
Open Scope Z_scope.

Section implementations.
Context {O : DecimalOps} `{!GoJSON} `{!Unicode} `{!GoParse} `{!GoFmt}.

(** How an adapter answers. *)
Inductive impl :=
  | Looping (ex : Exchange) | Asking (sg : Single) | Gecko | CMC | Blockchain | Paprika | Compare.
Definition impl_name (i : impl) : string :=
  match i with
  | Looping ex => ex_name ex
  | Asking sg => sg_name sg
  | Gecko => "coingecko" | CMC => "coinmarketcap" | Blockchain => "blockchain"
  | Paprika => "coinpaprika" | Compare => "cryptocompare"
  end.
Definition implementations : list impl :=
  [Gecko; CMC; Paprika; Compare; Asking coincap; Asking coinlore; Asking coinranking; Asking kucoin;
   Asking kraken; Asking bitfinex; Looping okx; Looping bybit; Looping mexc; Looping gateio; Looping htx;
   Blockchain; Looping messari; Looping livecoinwatch; Looping dia; Looping twelvedata;
   Looping freecryptoapi; Looping coincodex; Looping coinbase; Looping gemini; Looping cryptodotcom;
   Looping poloniex; Looping btse; Looping xtcom; Looping lbank; Looping bingx; Looping alternativeme;
   Looping wazirx; Looping cryptorank; Looping upbit; Looping bithumb; Looping woox; Looping phemex;
   Looping dexscreener; Looping bitstamp; Looping dydx].

(** The fields of an adapter's [Config]. *)
Inductive config_field := FBaseURL | FAPIKey | FRateLimit.
#[export] Instance config_field_eq : EqDecision config_field.
Proof. solve_decision. Defined.

Record Implementation := {
  im_Config : list config_field;
  im_Timeout : Duration;
  im_New : prov unit;
  im_Name : string;
  im_Status : Config -> prov unit -> ProviderStatus;
  im_impl : impl }.

Definition coingecko_Provider : Implementation := {|
  im_Config := [FBaseURL; FAPIKey; FRateLimit]; im_Timeout := 10 * Second; im_New := New tt; im_Name := "coingecko";
  im_Status cfg p := Status "coingecko" TierFree (cfg_RateLimit cfg) p; im_impl := Gecko |}.
Definition coinmarketcap_Provider : Implementation := {|
  im_Config := [FBaseURL; FAPIKey; FRateLimit]; im_Timeout := 10 * Second; im_New := New tt; im_Name := "coinmarketcap";
  im_Status cfg p := Status "coinmarketcap" TierFree 0 p; im_impl := CMC |}.
Definition coinpaprika_Provider : Implementation := {|
  im_Config := [FBaseURL; FRateLimit]; im_Timeout := 10 * Second; im_New := New tt; im_Name := "coinpaprika";
  im_Status cfg p := Status "coinpaprika" TierFree 0 p; im_impl := Paprika |}.
Definition cryptocompare_Provider : Implementation := {|
  im_Config := [FBaseURL; FRateLimit]; im_Timeout := 10 * Second; im_New := New tt; im_Name := "cryptocompare";
  im_Status cfg p := Status "cryptocompare" TierFree 0 p; im_impl := Compare |}.
Definition coincap_Provider : Implementation := {|
  im_Config := [FBaseURL; FRateLimit]; im_Timeout := 10 * Second; im_New := New tt; im_Name := "coincap";
  im_Status cfg p := Status "coincap" TierFree (cfg_RateLimit cfg) p; im_impl := Asking coincap |}.
Definition coinlore_Provider : Implementation := {|
  im_Config := [FBaseURL; FRateLimit]; im_Timeout := 10 * Second; im_New := New tt; im_Name := "coinlore";
  im_Status cfg p := Status "coinlore" TierFree (cfg_RateLimit cfg) p; im_impl := Asking coinlore |}.
Definition coinranking_Provider : Implementation := {|
  im_Config := [FBaseURL; FAPIKey; FRateLimit]; im_Timeout := 10 * Second; im_New := New tt; im_Name := "coinranking";
  im_Status cfg p := Status "coinranking" TierFree (cfg_RateLimit cfg) p; im_impl := Asking coinranking |}.
Definition kucoin_Provider : Implementation := {|
  im_Config := [FBaseURL; FRateLimit]; im_Timeout := 10 * Second; im_New := New tt; im_Name := "kucoin";
  im_Status cfg p := Status "kucoin" TierFree (cfg_RateLimit cfg) p; im_impl := Asking kucoin |}.
Definition kraken_Provider : Implementation := {|
  im_Config := [FBaseURL; FRateLimit]; im_Timeout := 10 * Second; im_New := New tt; im_Name := "kraken";
  im_Status cfg p := Status "kraken" TierFree (cfg_RateLimit cfg) p; im_impl := Asking kraken |}.
Definition bitfinex_Provider : Implementation := {|
  im_Config := [FBaseURL; FRateLimit]; im_Timeout := 10 * Second; im_New := New tt; im_Name := "bitfinex";
  im_Status cfg p := Status "bitfinex" TierFree (cfg_RateLimit cfg) p; im_impl := Asking bitfinex |}.
Definition okx_Provider : Implementation := {|
  im_Config := [FBaseURL; FRateLimit]; im_Timeout := 10 * Second; im_New := New tt; im_Name := "okx";
  im_Status cfg p := Status "okx" TierFree (cfg_RateLimit cfg) p; im_impl := Looping okx |}.
Definition bybit_Provider : Implementation := {|
  im_Config := [FBaseURL; FRateLimit]; im_Timeout := 10 * Second; im_New := New tt; im_Name := "bybit";
  im_Status cfg p := Status "bybit" TierFree (cfg_RateLimit cfg) p; im_impl := Looping bybit |}.
Definition mexc_Provider : Implementation := {|
  im_Config := [FBaseURL; FRateLimit]; im_Timeout := 10 * Second; im_New := New tt; im_Name := "mexc";
  im_Status cfg p := Status "mexc" TierFree (cfg_RateLimit cfg) p; im_impl := Looping mexc |}.
Definition gateio_Provider : Implementation := {|
  im_Config := [FBaseURL; FRateLimit]; im_Timeout := 10 * Second; im_New := New tt; im_Name := "gateio";
  im_Status cfg p := Status "gateio" TierFree (cfg_RateLimit cfg) p; im_impl := Looping gateio |}.
Definition htx_Provider : Implementation := {|
  im_Config := [FBaseURL; FRateLimit]; im_Timeout := 10 * Second; im_New := New tt; im_Name := "htx";
  im_Status cfg p := Status "htx" TierFree (cfg_RateLimit cfg) p; im_impl := Looping htx |}.
Definition blockchain_Provider : Implementation := {|
  im_Config := [FBaseURL; FRateLimit]; im_Timeout := 10 * Second; im_New := New tt; im_Name := "blockchain";
  im_Status cfg p := Status "blockchain" TierFree (cfg_RateLimit cfg) p; im_impl := Blockchain |}.
Definition messari_Provider : Implementation := {|
  im_Config := [FBaseURL; FAPIKey; FRateLimit]; im_Timeout := 10 * Second; im_New := New tt; im_Name := "messari";
  im_Status cfg p := Status "messari" TierFree (cfg_RateLimit cfg) p; im_impl := Looping messari |}.
Definition livecoinwatch_Provider : Implementation := {|
  im_Config := [FBaseURL; FAPIKey; FRateLimit]; im_Timeout := 10 * Second; im_New := New tt; im_Name := "livecoinwatch";
  im_Status cfg p := Status "livecoinwatch" TierFree (cfg_RateLimit cfg) p; im_impl := Looping livecoinwatch |}.
Definition dia_Provider : Implementation := {|
  im_Config := [FBaseURL; FRateLimit]; im_Timeout := 10 * Second; im_New := New tt; im_Name := "dia";
  im_Status cfg p := Status "dia" TierFree (cfg_RateLimit cfg) p; im_impl := Looping dia |}.
Definition twelvedata_Provider : Implementation := {|
  im_Config := [FBaseURL; FAPIKey; FRateLimit]; im_Timeout := 10 * Second; im_New := New tt; im_Name := "twelvedata";
  im_Status cfg p := Status "twelvedata" TierFree (cfg_RateLimit cfg) p; im_impl := Looping twelvedata |}.
Definition freecryptoapi_Provider : Implementation := {|
  im_Config := [FBaseURL; FAPIKey; FRateLimit]; im_Timeout := 10 * Second; im_New := New tt; im_Name := "freecryptoapi";
  im_Status cfg p := Status "freecryptoapi" TierFree (cfg_RateLimit cfg) p; im_impl := Looping freecryptoapi |}.
Definition coincodex_Provider : Implementation := {|
  im_Config := [FBaseURL; FRateLimit]; im_Timeout := 10 * Second; im_New := New tt; im_Name := "coincodex";
  im_Status cfg p := Status "coincodex" TierFree (cfg_RateLimit cfg) p; im_impl := Looping coincodex |}.
Definition coinbase_Provider : Implementation := {|
  im_Config := [FBaseURL; FRateLimit]; im_Timeout := 10 * Second; im_New := New tt; im_Name := "coinbase";
  im_Status cfg p := Status "coinbase" TierFree (cfg_RateLimit cfg) p; im_impl := Looping coinbase |}.
Definition gemini_Provider : Implementation := {|
  im_Config := [FBaseURL; FRateLimit]; im_Timeout := 10 * Second; im_New := New tt; im_Name := "gemini";
  im_Status cfg p := Status "gemini" TierFree (cfg_RateLimit cfg) p; im_impl := Looping gemini |}.
Definition cryptodotcom_Provider : Implementation := {|
  im_Config := [FBaseURL; FRateLimit]; im_Timeout := 10 * Second; im_New := New tt; im_Name := "cryptodotcom";
  im_Status cfg p := Status "cryptodotcom" TierFree (cfg_RateLimit cfg) p; im_impl := Looping cryptodotcom |}.
Definition poloniex_Provider : Implementation := {|
  im_Config := [FBaseURL; FRateLimit]; im_Timeout := 10 * Second; im_New := New tt; im_Name := "poloniex";
  im_Status cfg p := Status "poloniex" TierFree (cfg_RateLimit cfg) p; im_impl := Looping poloniex |}.
Definition btse_Provider : Implementation := {|
  im_Config := [FBaseURL; FRateLimit]; im_Timeout := 10 * Second; im_New := New tt; im_Name := "btse";
  im_Status cfg p := Status "btse" TierFree (cfg_RateLimit cfg) p; im_impl := Looping btse |}.
Definition xtcom_Provider : Implementation := {|
  im_Config := [FBaseURL; FRateLimit]; im_Timeout := 10 * Second; im_New := New tt; im_Name := "xtcom";
  im_Status cfg p := Status "xtcom" TierFree (cfg_RateLimit cfg) p; im_impl := Looping xtcom |}.
Definition lbank_Provider : Implementation := {|
  im_Config := [FBaseURL; FRateLimit]; im_Timeout := 10 * Second; im_New := New tt; im_Name := "lbank";
  im_Status cfg p := Status "lbank" TierFree (cfg_RateLimit cfg) p; im_impl := Looping lbank |}.
Definition bingx_Provider : Implementation := {|
  im_Config := [FBaseURL; FRateLimit]; im_Timeout := 10 * Second; im_New := New tt; im_Name := "bingx";
  im_Status cfg p := Status "bingx" TierFree (cfg_RateLimit cfg) p; im_impl := Looping bingx |}.
Definition alternativeme_Provider : Implementation := {|
  im_Config := [FBaseURL; FRateLimit]; im_Timeout := 10 * Second; im_New := New tt; im_Name := "alternativeme";
  im_Status cfg p := Status "alternativeme" TierFree (cfg_RateLimit cfg) p; im_impl := Looping alternativeme |}.
Definition wazirx_Provider : Implementation := {|
  im_Config := [FBaseURL; FRateLimit]; im_Timeout := 10 * Second; im_New := New tt; im_Name := "wazirx";
  im_Status cfg p := Status "wazirx" TierFree (cfg_RateLimit cfg) p; im_impl := Looping wazirx |}.
Definition cryptorank_Provider : Implementation := {|
  im_Config := [FBaseURL; FRateLimit; FAPIKey]; im_Timeout := 10 * Second; im_New := New tt; im_Name := "cryptorank";
  im_Status cfg p := Status "cryptorank" TierFree (cfg_RateLimit cfg) p; im_impl := Looping cryptorank |}.
Definition upbit_Provider : Implementation := {|
  im_Config := [FBaseURL; FRateLimit]; im_Timeout := 10 * Second; im_New := New tt; im_Name := "upbit";
  im_Status cfg p := Status "upbit" TierFree (cfg_RateLimit cfg) p; im_impl := Looping upbit |}.
Definition bithumb_Provider : Implementation := {|
  im_Config := [FBaseURL; FRateLimit]; im_Timeout := 10 * Second; im_New := New tt; im_Name := "bithumb";
  im_Status cfg p := Status "bithumb" TierFree (cfg_RateLimit cfg) p; im_impl := Looping bithumb |}.
Definition woox_Provider : Implementation := {|
  im_Config := [FBaseURL; FRateLimit]; im_Timeout := 10 * Second; im_New := New tt; im_Name := "woox";
  im_Status cfg p := Status "woox" TierFree (cfg_RateLimit cfg) p; im_impl := Looping woox |}.
Definition phemex_Provider : Implementation := {|
  im_Config := [FBaseURL; FRateLimit]; im_Timeout := 10 * Second; im_New := New tt; im_Name := "phemex";
  im_Status cfg p := Status "phemex" TierFree (cfg_RateLimit cfg) p; im_impl := Looping phemex |}.
Definition dexscreener_Provider : Implementation := {|
  im_Config := [FBaseURL; FRateLimit]; im_Timeout := 10 * Second; im_New := New tt; im_Name := "dexscreener";
  im_Status cfg p := Status "dexscreener" TierFree (cfg_RateLimit cfg) p; im_impl := Looping dexscreener |}.
Definition bitstamp_Provider : Implementation := {|
  im_Config := [FBaseURL; FRateLimit]; im_Timeout := 10 * Second; im_New := New tt; im_Name := "bitstamp";
  im_Status cfg p := Status "bitstamp" TierFree (cfg_RateLimit cfg) p; im_impl := Looping bitstamp |}.
Definition dydx_Provider : Implementation := {|
  im_Config := [FBaseURL; FRateLimit]; im_Timeout := 10 * Second; im_New := New tt; im_Name := "dydx";
  im_Status cfg p := Status "dydx" TierFree (cfg_RateLimit cfg) p; im_impl := Looping dydx |}.
Definition providers : list Implementation :=
  [coingecko_Provider; coinmarketcap_Provider; coinpaprika_Provider; cryptocompare_Provider; coincap_Provider;
   coinlore_Provider; coinranking_Provider; kucoin_Provider; kraken_Provider; bitfinex_Provider; okx_Provider;
   bybit_Provider; mexc_Provider; gateio_Provider; htx_Provider; blockchain_Provider; messari_Provider;
   livecoinwatch_Provider; dia_Provider; twelvedata_Provider; freecryptoapi_Provider; coincodex_Provider;
   coinbase_Provider; gemini_Provider; cryptodotcom_Provider; poloniex_Provider; btse_Provider;
   xtcom_Provider; lbank_Provider; bingx_Provider; alternativeme_Provider; wazirx_Provider;
   cryptorank_Provider; upbit_Provider; bithumb_Provider; woox_Provider; phemex_Provider;
   dexscreener_Provider; bitstamp_Provider; dydx_Provider].

(** The implementation of a name. *)
Definition provider_of (name : string) : option Implementation :=
  snd <$> list_find (fun im => im_Name im = name) providers.

(** ** What the forty packages agree on *)
Definition has_field (f : config_field) (im : Implementation) : bool := bool_decide (f ∈ im_Config im).

Lemma providers_implementations : im_impl <$> providers = implementations.
Proof. reflexivity. Qed.
Lemma providers_names : im_Name <$> providers = impl_name <$> implementations.
Proof. reflexivity. Qed.

(** What every package keeps to: the name of [Name] is the one of [Status] and
    of the prices; a new adapter is healthy; the status is free of charge and
    repeats the adapter's health; a request is given up after ten seconds. *)
Definition uniform (im : Implementation) : Prop :=
  im_Name im = impl_name (im_impl im) /\ im_New im = New tt /\ im_Timeout im = 10 * Second /\
  FBaseURL ∈ im_Config im /\ FRateLimit ∈ im_Config im /\
  forall cfg p, exists rate, im_Status im cfg p = Status (im_Name im) TierFree rate p /\
    (rate = 0 \/ rate = cfg_RateLimit cfg).
Lemma providers_uniform im : im ∈ providers -> uniform im.
Proof.
  unfold providers. intros Hi.
  repeat (apply elem_of_cons in Hi as [->|Hi];
    [split_and!; try reflexivity; [solve [repeat constructor]..|];
     intros cfg p; eexists; split; [reflexivity|auto]|]).
  by apply not_elem_of_nil in Hi.
Qed.
Lemma provider_of_spec name im : provider_of name = Some im -> im ∈ providers /\ im_Name im = name.
Proof.
  unfold provider_of. intros ([k im'] & (Hk & Hn & _)%list_find_Some & ->)%fmap_Some.
  split; [by eapply list_elem_of_lookup_2|done].
Qed.
Lemma provider_of_known name : name ∈ impl_name <$> implementations -> is_Some (provider_of name).
Proof.
  rewrite <- providers_names. intros (im & -> & Hi)%list_elem_of_fmap. unfold provider_of.
  rewrite fmap_is_Some. by eapply list_find_elem_of.
Qed.
End implementations.
