(* ===== verification/Adapters.v ===== *)
(** * The adapters by name

    The switch of createProvider in cmd/server/wiring.go: every adapter behind
    the [PriceProvider] port, its health kept per adapter, and what all of them
    promise to the services. *)
From S2P Require Import Prelude GoLib GoStrings Decimal Model GoJSON Ports Demo Config.
From S2P Require Import Exchange Exchanges Aggregators Single Providers Implementations.
Open Scope Z_scope.

Section adapters.
Context {O : DecimalOps} `{!GoJSON} `{!Unicode} `{!GoParse} `{!GoFmt}.

(** The case of the switch. *)
Definition adapter_of (name : string) : option impl :=
  snd <$> list_find (fun i => impl_name i = name) implementations.

(** ** createProvider: the adapters by name, with what each is given *)
Definition known_providers : list string := impl_name <$> implementations.
Definition keyed_providers : list string :=
  ["coingecko"; "coinmarketcap"; "coinranking"; "messari"; "livecoinwatch"; "twelvedata";
   "freecryptoapi"; "cryptorank"]%string.
(** The adapters whose own configuration has a rate limit. *)
Definition rated_providers : list string :=
  ["coingecko"; "coinmarketcap"; "coinpaprika"; "cryptocompare"]%string.
Record Adapter := mkAdapter { ad_name : string; ad_cfg : Config }.
Definition createProvider (name : string) (pcfg : ProviderConfig) : option Adapter :=
  match adapter_of name with
  | Some _ => Some (mkAdapter name (mkConfig (pvc_BaseURL pcfg)
      (if bool_decide (name ∈ keyed_providers) then pvc_APIKey pcfg else "")
      (if bool_decide (name ∈ rated_providers) then pvc_RateLimit pcfg else 0)))
  | None => None
  end.

(** [Status], each package its own. *)
Definition adapter_Status (a : Adapter) (h : prov unit) : ProviderStatus :=
  match provider_of (ad_name a) with
  | Some im => im_Status im (ad_cfg a) h
  | None => Status (ad_name a) TierFree 0 h
  end.

Section calls.
Context {W : Type} `{!ClockOps W} `{!HTTPClient W}.
Definition impl_GetPrice (i : impl) (cfg : Config) (coinID currency : string) : PM (prov W) (Price + error) :=
  match i with
  | Looping ex => GetPrice ex cfg coinID currency
  | Asking sg => single_GetPrice sg cfg coinID currency
  | Gecko => gecko_GetPrice cfg coinID currency
  | CMC => cmc_GetPrice cfg coinID currency
  | Blockchain => blockchain_GetPrice cfg coinID currency
  | Paprika => paprika_GetPrice cfg coinID currency
  | Compare => compare_GetPrice cfg coinID currency
  end.
Definition impl_GetPrices (i : impl) (cfg : Config) (coinIDs : list string) (currency : string) :
    PM (prov W) (list Price + error) :=
  match i with
  | Looping ex => GetPrices ex cfg coinIDs currency
  | Asking sg => single_GetPrices sg cfg coinIDs currency
  | Gecko => gecko_GetPrices cfg coinIDs currency
  | CMC => cmc_GetPrices cfg coinIDs currency
  | Blockchain => blockchain_GetPrices cfg coinIDs currency
  | Paprika => paprika_GetPrices cfg coinIDs currency
  | Compare => compare_GetPrices cfg coinIDs currency
  end.

(** *** Behind the port

    The state of an adapter, its health, is kept in the world under its name.
    A name without a case has no adapter: [createProvider] makes none. *)
Class AdapterStates := { ad_get : string -> W -> prov unit; ad_set : string -> prov unit -> W -> W }.
Context `{!AdapterStates}.
Definition ad_enter (name : string) (w : W) : prov W :=
  let h := ad_get name w in mkProv w (pv_healthy h) (pv_lastError h) (pv_lastSuccessAt h).
Definition ad_leave (name : string) (s : prov W) : W :=
  ad_set name (mkProv tt (pv_healthy s) (pv_lastError s) (pv_lastSuccessAt s)) (pv_world s).
Definition run_adapter (a : Adapter) (coinID currency : string) : PM W (Price + error) := fun w =>
  match adapter_of (ad_name a) with
  | None => (Some (inr ErrProviderDown), w)
  | Some i =>
      let '(o, s) := impl_GetPrice i (ad_cfg a) coinID currency (ad_enter (ad_name a) w) in
      (o, ad_leave (ad_name a) s)
  end.
#[export] Instance adapter_port : PriceProvider W Adapter :=
  {| pp_Name := ad_name; pp_GetPrice := run_adapter |}.
End calls.

(** *** The token providers behind theirs; neither panics *)
Inductive TokenAdapter := GeckoToken (baseURL : string) | DexToken (baseURL : string).
Section tokens.
Context {W : Type} `{!ClockOps W} `{!HTTPClient W}.
Definition token_SupportsChain (t : TokenAdapter) (chain : string) : bool :=
  match t with GeckoToken _ => gecko_SupportsChain chain | DexToken _ => dex_SupportsChain chain end.
Definition token_GetPriceByAddress (t : TokenAdapter) (chain address currency : string) : PM W (Price + error) :=
  match t with
  | GeckoToken baseURL => gecko_GetPriceByAddress baseURL chain address currency
  | DexToken baseURL => dex_GetPriceByAddress baseURL chain address currency
  end.
#[export] Instance token_port : TokenPriceProvider W TokenAdapter := {
  tp_SupportsChain := token_SupportsChain; tp_GetPriceByAddress := token_GetPriceByAddress }.
End tokens.
End adapters.
Arguments AdapterStates : clear implicits.

(** ** The names *)
Section names.
Context {O : DecimalOps} `{!GoJSON} `{!Unicode} `{!GoParse} `{!GoFmt}.

Lemma known_NoDup : NoDup known_providers.
Proof. apply (bool_decide_unpack _). vm_compute. exact I. Qed.
Lemma adapter_of_spec name i : adapter_of name = Some i -> i ∈ implementations /\ impl_name i = name.
Proof.
  unfold adapter_of. intros ([k i'] & (Hk & Hn & _)%list_find_Some & ->)%fmap_Some.
  split; [by eapply list_elem_of_lookup_2|done].
Qed.
Lemma adapter_of_known name : is_Some (adapter_of name) <-> name ∈ known_providers.
Proof.
  unfold known_providers. rewrite list_elem_of_fmap. split.
  - intros [i Hi]. apply adapter_of_spec in Hi as [? ?]. by exists i.
  - intros (i & -> & Hi). unfold adapter_of. rewrite fmap_is_Some. by eapply list_find_elem_of.
Qed.

Lemma known_lookup_inj k k' i i' : implementations !! k = Some i -> implementations !! k' = Some i' ->
  impl_name i = impl_name i' -> i = i'.
Proof.
  intros Hk Hk' Hn. assert (k = k') as ->; [|congruence].
  eapply (NoDup_lookup _ _ _ _ known_NoDup); unfold known_providers; rewrite list_lookup_fmap, ?Hk, ?Hk';
    [reflexivity|simpl; by rewrite Hn].
Qed.
Lemma adapter_of_complete k i : implementations !! k = Some i -> adapter_of (impl_name i) = Some i.
Proof.
  intros Hk. assert (is_Some (adapter_of (impl_name i))) as [i' Hi'].
  { apply adapter_of_known. unfold known_providers. apply list_elem_of_fmap. exists i.
    split; [done|by eapply list_elem_of_lookup_2]. }
  rewrite Hi'. apply adapter_of_spec in Hi' as [Hin Hn]. apply list_elem_of_lookup_1 in Hin as [k' Hk'].
  f_equal. by eapply known_lookup_inj.
Qed.

(** The switch hands a key to exactly the adapters whose [Config] has a field
    for one. *)
Lemma keyed_providers_fields : keyed_providers = im_Name <$> bfilter (has_field FAPIKey) providers.
Proof. vm_compute. reflexivity. Qed.

(** The switch makes an adapter exactly for the forty names of its cases, each
    of them its own implementation, with the address, key and limit of the
    configuration. *)
Theorem createProvider_spec name pcfg :
  (is_Some (createProvider name pcfg) <-> name ∈ known_providers) /\
  length known_providers = 40%nat /\ NoDup known_providers /\
  forall a, createProvider name pcfg = Some a -> ad_name a = name /\ cfg_BaseURL (ad_cfg a) = pvc_BaseURL pcfg /\
    (cfg_APIKey (ad_cfg a) = if bool_decide (name ∈ keyed_providers) then pvc_APIKey pcfg else ""%string) /\
    exists i, adapter_of (ad_name a) = Some i /\ impl_name i = name.
Proof.
  unfold createProvider. split; [|split; [done|split; [apply known_NoDup|]]].
  - rewrite <- adapter_of_known. destruct (adapter_of name); split; intros [? Hs]; (discriminate || by eexists).
  - intros a. destruct (adapter_of name) as [i|] eqn:Ei; [|done]. intros [= <-]. split_and!; [done..|].
    exists i. split; [done|]. by apply adapter_of_spec in Ei as [_ ?].
Qed.
End names.

(** ** The token providers' answers: the coin is the address *)
Section token_answers.
Context {O : DecimalOps} {L : DecimalLaws O} `{!GoJSON} `{!Unicode} `{!GoParse} `{!GoFmt}.
Context {W : Type} `{!ClockOps W} `{!HTTPClient W}.
Lemma token_runs t chain address currency (w : W) : exists r w',
  tp_GetPriceByAddress t chain address currency w = (Some r, w') /\ forall p, r = inl p -> CoinID p = ToLower address.
Proof.
  destruct t as [baseURL|baseURL]; simpl.
  - destruct (token_providers_spec baseURL chain address currency currency w) as [(r & w' & Hr & Hp) _].
    exists r, w'. split; [done|]. by intros p []%Hp.
  - destruct (token_providers_spec baseURL chain address currency currency w) as (_ & (r & w' & Hr & Hp) & _).
    exists r, w'. split; [done|]. by intros p []%Hp.
Qed.
End token_answers.

(** ** All of them keep the promise of the interface *)
Section promise.
Context {O : DecimalOps} {L : DecimalLaws O} `{!GoJSON} `{!Unicode} `{!GoParse} `{!GoFmt}.
Context {W : Type} `{!ClockOps W} `{!HTTPClient W}.
Implicit Types s : prov W.

(** Every adapter but coincodex, and coincodex as long as the numbers it
    parses are finite. *)
Definition safe (name : string) : Prop := name = "coincodex"%string -> parse_finite.
Definition answers s s' (name coin cur : string) (r : Price + error) : Prop :=
  match r with inl p => priced name coin cur p /\ up s' | inr _ => down_or_same s s' end.

Lemma price_answer_answers s s' name coin cur r : price_answer name s s' coin cur r -> answers s s' name coin cur r.
Proof. destruct r as [p|e]; [done|]. apply failed_down_or_same. Qed.
Lemma runs_answers name (m : PM (prov W) (Price + error)) coin cur s :
  runs m s (fun r s' => price_answer name s s' coin cur r) -> runs m s (fun r s' => answers s s' name coin cur r).
Proof. apply runs_mono. intros r s'. apply price_answer_answers. Qed.

Lemma looping_answers ex cfg coin cur s : ExchangeLaws ex ->
  runs (impl_GetPrice (Looping ex) cfg coin cur) s (fun r s' => answers s s' (ex_name ex) coin cur r).
Proof.
  intros HL. by apply runs_answers, exchange_GetPrice_runs.
Qed.
Lemma asking_answers sg cfg coin cur s : SingleLaws sg ->
  runs (impl_GetPrice (Asking sg) cfg coin cur) s (fun r s' => answers s s' (sg_name sg) coin cur r).
Proof. intros HL. by apply runs_answers, single_GetPrice_runs. Qed.

Lemma cmc_answers cfg coin cur s :
  runs (cmc_GetPrice cfg coin cur) s (fun r s' => price_answer "coinmarketcap" s s' coin cur r).
Proof.
  unfold cmc_GetPrice. apply runs_bindp. eapply runs_mono; [|apply cmc_GetPrices_runs].
  intros [ps|e] s' Hb; apply runs_retp; [|done]. by apply batch_first in Hb as (p & ps' & -> & Hp).
Qed.

Lemma impl_answers i cfg coin cur s : i ∈ implementations -> safe (impl_name i) ->
  runs (impl_GetPrice i cfg coin cur) s (fun r s' => answers s s' (impl_name i) coin cur r).
Proof.
  unfold implementations. intros Hi Hsafe.
  repeat (apply elem_of_cons in Hi as [->|Hi];
    [first [ apply looping_answers, _ | apply asking_answers, _
           | by apply looping_answers, coincodex_laws, Hsafe
           | apply runs_answers, cmc_answers
           | apply runs_answers, paprika_GetPrice_runs
           | apply runs_answers, first_of_batch, gecko_GetPrices_runs
           | apply runs_answers, first_of_batch, blockchain_GetPrices_runs
           | apply compare_GetPrice_runs ]|]).
  by apply not_elem_of_nil in Hi.
Qed.

(** *** Coins an adapter does not know *)
Definition impl_knows (i : impl) (coin : string) : Prop :=
  match i with
  | Looping ex => is_Some (ex_lookup ex coin)
  | Asking sg => is_Some (sg_lookup sg coin)
  | Blockchain => ToLower coin = "bitcoin"%string
  | _ => True
  end.
Lemma impl_unknown i cfg coin cur s : ~ impl_knows i coin ->
  exists s', impl_GetPrice i cfg coin cur s = (Some (inr ErrCoinNotFound), s') /\
    (pv_world s' = pv_world s \/ pv_world s' = snd (w_Now (pv_world s))).
Proof.
  destruct i as [ex|sg| | | | |]; simpl; intros Hk; try by destruct Hk.
  - destruct (GetPrice_unknown ex cfg coin cur s) as (s' & ? & ?); [|eauto]. destruct (ex_lookup ex coin); [|done].
    destruct Hk. eauto.
  - destruct (single_GetPrice_unknown sg cfg coin cur s) as (s' & ? & ?); [|eauto]. destruct (sg_lookup sg coin); [|done].
    destruct Hk. eauto.
  - unfold blockchain_GetPrice, blockchain_GetPrices. rewrite filter_cons_False by done. simpl. eauto.
Qed.

(** *** What coincodex answers when it does not panic *)
Definition guard (ex : Exchange) : Exchange := {|
  ex_name := ex_name ex; ex_lookup := ex_lookup ex; ex_quote := ex_quote ex; ex_stamped := ex_stamped ex;
  ex_request := ex_request ex; ex_zero := ex_zero ex; ex_dec := ex_dec ex;
  ex_price sym coin cur now raw := Some (default Skip (ex_price ex sym coin cur now raw)) |}.
Lemma GetPrice_guard ex cfg coin cur s r s' : GetPrice ex cfg coin cur s = (Some r, s') ->
  GetPrice (guard ex) cfg coin cur s = (Some r, s').
Proof.
  unfold GetPrice, bindp, GetPrices. rewrite !bind_unfold. cbn [GetPrices_loop guard ex_lookup].
  destruct (ex_lookup ex coin) as [sym|]; [|done]. unfold bindp. rewrite !bind_unfold.
  cbn [guard ex_stamped ex_request ex_quote ex_zero ex_dec ex_price].
  destruct (fetch _ _ _ _) as [[raw|e] s3]; [|done]. cbn [fst snd]. rewrite !bind_unfold.
  unfold of_option. cbn [ret fst snd]. by destruct (ex_price ex _ _ _ _ _).
Qed.
Lemma coincodex_guard_laws : ExchangeLaws (guard coincodex).
Proof.
  split. intros j raw sym coin cur now _. eexists. split; [reflexivity|].
  cbn [guard ex_name ex_price coincodex]. destruct (float_string (cx_Cap raw)) as [mc|]; [|exact I]. cbn [mbind option_bind].
  destruct (float_string (cx_Volume raw)) as [vol|]; [|exact I]. cbn [mbind option_bind]. destruct (dec_NewFromFloat _); [done|exact I].
Qed.

(** Without a condition on the numbers it parses: coincodex keeps the promise
    when it returns, and panics only on one that is not finite. *)
Definition may_panic (name : string) : Prop := name = "coincodex"%string /\ ~ parse_finite.
Lemma impl_answers_unless name i cfg coin cur s : adapter_of name = Some i ->
  runs_unless (may_panic name) (impl_GetPrice i cfg coin cur) s (fun r s' => answers s s' name coin cur r).
Proof.
  intros (Hi & <-)%adapter_of_spec. destruct (decide (impl_name i = "coincodex"%string)) as [Hc|Hc].
  - assert (i = Looping coincodex) as ->.
    { apply list_elem_of_lookup_1 in Hi as [k Hk]. by eapply (known_lookup_inj k 21 _ (Looping coincodex)). }
    unfold runs_unless. cbn [impl_GetPrice]. destruct (GetPrice coincodex cfg coin cur s) as [[r|] s'] eqn:Hr.
    + apply GetPrice_guard in Hr. pose proof (exchange_GetPrice_runs (XL := coincodex_guard_laws) (guard coincodex) cfg coin cur s) as Hp.
      eapply runs_value in Hp; [|exact Hr]. by apply price_answer_answers.
    + split; [done|]. intros Hf. pose proof (impl_answers (Looping coincodex) cfg coin cur s Hi (fun _ => Hf)) as Hp.
      unfold runs_unless in Hp. cbn [impl_GetPrice] in Hp. by rewrite Hr in Hp.
  - eapply runs_weaken; [|exact (impl_answers i cfg coin cur s Hi (fun E => match Hc E with end))]. done.
Qed.

(** A price any adapter answers is the coin's, under the currency and the
    adapter's name; and only coincodex panics. *)
Lemma port_priced `{!AdapterStates W} a coin cur w p w' :
  pp_GetPrice (PriceProvider := adapter_port) a coin cur w = (Some (inl p), w') ->
  ad_name a ∈ known_providers /\ priced (ad_name a) coin cur p.
Proof.
  simpl. unfold run_adapter. destruct (adapter_of (ad_name a)) as [i|] eqn:Ei; [|done].
  destruct (impl_GetPrice _ _ _ _ _) as [o s] eqn:E; simpl; intros [= -> <-].
  split; [by apply adapter_of_known; eexists|].
  pose proof (impl_answers_unless _ i (ad_cfg a) coin cur (ad_enter (ad_name a) w) Ei) as Hp.
  eapply runs_value in Hp; [|exact E]. apply Hp.
Qed.
Lemma port_panics `{!AdapterStates W} a coin cur w w' :
  pp_GetPrice (PriceProvider := adapter_port) a coin cur w = (None, w') -> may_panic (ad_name a).
Proof.
  simpl. unfold run_adapter. destruct (adapter_of (ad_name a)) as [i|] eqn:Ei; [|done].
  destruct (impl_GetPrice _ _ _ _ _) as [o s] eqn:E; simpl; intros [= -> <-].
  pose proof (impl_answers_unless _ i (ad_cfg a) coin cur (ad_enter (ad_name a) w) Ei) as Hp.
  unfold runs_unless in Hp. by rewrite E in Hp.
Qed.

(** C22. Whatever a server sends, each of the forty adapters the program can be
    configured with meets the promise of the provider interface: a [GetPrice]
    that returns returns exactly one of a price of the coin asked for, under the
    currency asked for and the adapter's own name, leaving the adapter healthy,
    and an error, leaving it down or as it was; a coin it has no symbol for is
    [ErrCoinNotFound] without a request.  Thirty-nine of them always return;
    coincodex may panic, because [strconv.ParseFloat] has results that are not
    finite. *)
Theorem adapters_answer name i cfg coin cur s : adapter_of name = Some i ->
  match impl_GetPrice i cfg coin cur s with
  | (Some r, s') => answers s s' name coin cur r
  | (None, _) => name = "coincodex"%string /\ ~ parse_finite
  end /\
  (~ impl_knows i coin -> exists s', impl_GetPrice i cfg coin cur s = (Some (inr ErrCoinNotFound), s') /\
     (pv_world s' = pv_world s \/ pv_world s' = snd (w_Now (pv_world s)))).
Proof. intros Hi. split; [exact (impl_answers_unless name i cfg coin cur s Hi)|apply impl_unknown]. Qed.
End promise.

(** ** Adapters that price in dollars whatever the currency *)
Section dollars.
Context {O : DecimalOps} `{!GoJSON} `{!Unicode} `{!GoParse} `{!GoFmt}.
Context {W : Type} `{!ClockOps W} `{!HTTPClient W}.
Implicit Types s : prov W.

Definition dollar_adapters : list string :=
  ["coincap"; "coinlore"; "coinranking"; "kraken"; "bitfinex"; "messari"; "livecoinwatch"; "dia";
   "freecryptoapi"; "coincodex"; "alternativeme"; "cryptorank"; "woox"; "phemex"; "dexscreener"; "dydx"]%string.

Lemma not_dollar name : bool_decide (name ∈ dollar_adapters) = false -> name ∉ dollar_adapters.
Proof. apply bool_decide_eq_false_1. Qed.
Lemma relabel_volume cur v p : relabel cur (with_volume v p) = with_volume v (relabel cur p).
Proof. by destruct v. Qed.
Lemma relabel_change cur c p : relabel cur (with_change c p) = with_change c (relabel cur p).
Proof. by destruct c. Qed.
Lemma relabel_cap cur m p : relabel cur (with_cap m p) = with_cap m (relabel cur p).
Proof. by destruct m. Qed.
(** Two runs of a body that differ in the label only. *)
Ltac same_body := repeat first
  [ reflexivity
  | progress rewrite ?relabel_volume, ?relabel_change, ?relabel_cap
  | match goal with
    | |- context [?x ≫= _] => destruct x; cbn [mbind option_bind]
    | |- context [match ?x with _ => _ end] =>
        lazymatch x with context [match _ with _ => _ end] => fail | _ => destruct x end
    end
  | progress cbn [fmap option_fmap option_map relabel_outcome found mbind option_bind] ].
(** One goal per implementation whose name is listed. *)
Ltac all_implementations Hi Hn :=
  repeat (apply elem_of_cons in Hi as [Hi|Hi];
    [first [ discriminate Hi
           | injection Hi as ->; first [ exfalso; refine (not_dollar _ _ Hn); vm_compute; reflexivity | clear Hn ] ]|]);
    try by apply not_elem_of_nil in Hi.
Lemma looping_dollars ex : Looping ex ∈ implementations -> ex_name ex ∈ dollar_adapters ->
  forall sym coin cur cur' now raw, ex_quote ex cur = ex_quote ex cur' /\
    ex_price ex sym coin cur now raw = relabel_outcome cur <$> ex_price ex sym coin cur' now raw.
Proof.
  unfold implementations. intros Hi Hn. all_implementations Hi Hn.
  all: intros; split; [reflexivity|].
  all: cbn [ex_price messari livecoinwatch dia freecryptoapi coincodex alternativeme cryptorank woox phemex
    dexscreener dydx]; cbv zeta; same_body.
Qed.
Lemma asking_dollars sg cfg : Asking sg ∈ implementations -> sg_name sg ∈ dollar_adapters ->
  forall sym coin cur cur' raw, sg_request sg cfg coin sym cur = sg_request sg cfg coin sym cur' /\
    match sg_price sg sym coin cur raw, sg_price sg sym coin cur' raw with
    | Some (inr p), Some (inr p') => forall now, p now = relabel cur (p' now)
    | r, r' => r = r'
    end.
Proof.
  unfold implementations. intros Hi Hn. all_implementations Hi Hn.
  all: intros; split; [reflexivity|].
  all: cbn [sg_price kraken bitfinex coincap coinlore coinranking]; unfold kraken_price; cbv zeta; same_body.
  all: intros; rewrite relabel_change, relabel_volume, relabel_cap; reflexivity.
Qed.

(** C31. Sixteen of the forty adapters price in dollars whatever currency is
    asked for: their request and their price do not depend on the currency,
    which is only the label of the answer, so a price in dollars is served as
    one in euros. *)
Theorem dollar_adapters_ignore_currency name i cfg coin cur cur' s :
  adapter_of name = Some i -> name ∈ dollar_adapters ->
  impl_GetPrice i cfg coin cur s =
    let '(r, s') := impl_GetPrice i cfg coin cur' s in (relabel_answer cur <$> r, s').
Proof.
  intros (Hi & <-)%adapter_of_spec Hn. destruct i as [ex|sg| | | | |]; cbn [impl_GetPrice impl_name] in *;
    try (exfalso; refine (not_dollar _ _ Hn); reflexivity).
  - apply GetPrice_relabel; [apply (looping_dollars ex Hi Hn "" coin cur cur' 0 (ex_zero ex))|].
    intros sym now raw. by apply looping_dollars.
  - apply single_relabel; [intros sym; apply (asking_dollars sg cfg Hi Hn sym coin cur cur' (sg_zero sg))|].
    intros sym raw. by apply (asking_dollars sg cfg).
Qed.
End dollars.

(** ** The health an adapter reports

    The states of the adapters are fields of their own: requests and the clock
    do not touch them. *)
Class AdapterStatesLaws (W : Type) `{!ClockOps W} `{!HTTPClient W} `{!AdapterStates W} := {
  ad_get_set : forall name h w, ad_get name (ad_set name h w) = h;
  ad_get_set_ne : forall name name' h w, name <> name' -> ad_get name' (ad_set name h w) = ad_get name' w;
  ad_get_http : forall name rq w, ad_get name (snd (http_Do rq w)) = ad_get name w;
  ad_get_now : forall name w, ad_get name (snd (w_Now w)) = ad_get name w }.

Section frame.
Context {O : DecimalOps} `{!GoJSON} `{!Unicode} `{!GoParse} `{!GoFmt}.
Context {W : Type} `{!ClockOps W} `{!HTTPClient W} (R : W -> W -> Prop) `{!PreOrder R}.
Hypothesis http_R : forall rq, keeps R (http_Do rq).
Hypothesis now_R : keeps R w_Now.
Definition worlds (s s' : prov W) : Prop := R (pv_world s) (pv_world s').
#[local] Instance worlds_preorder : PreOrder worlds.
Proof. split; [by intros ?; unfold worlds|intros ???; unfold worlds; by etrans]. Qed.

Lemma keeps_on_w {A} (m : M W A) : keeps R m -> keeps worlds (on_w m).
Proof. intros Hm s. unfold on_w, worlds. specialize (Hm (pv_world s)). by destruct (m (pv_world s)). Qed.
Lemma keeps_retp {A} (a : A) : keeps worlds (retp a).
Proof. intros s. by unfold worlds. Qed.
Lemma keeps_of_option {A} (o : option A) : keeps worlds (of_option o).
Proof. intros s. by unfold worlds. Qed.
Lemma keeps_fail {A} e e' : keeps worlds (fail_with (A := A) e e').
Proof. intros s. by unfold worlds. Qed.
Lemma keeps_liftp {A} (m : M (prov W) A) : keeps worlds m -> keeps worlds (liftp m).
Proof. intros Hm. apply keeps_bind; [exact _|done|]. intros a. apply keeps_retp. Qed.
Lemma keeps_bindp {A B} (m : PM (prov W) A) (k : A -> PM (prov W) B) :
  keeps worlds m -> (forall a, keeps worlds (k a)) -> keeps worlds (bindp m k).
Proof.
  intros Hm Hk. apply keeps_bind; [exact _|done|]. intros [a|]; [apply Hk|intros s; by unfold worlds].
Qed.
Lemma keeps_success : keeps worlds RecordSuccess.
Proof. intros s. unfold RecordSuccess. rewrite bind_unfold. exact (keeps_on_w w_Now now_R s). Qed.
Lemma keeps_fetch {A} st rq (zero : A) d : keeps worlds (fetch_with st rq zero d).
Proof.
  apply keeps_bind; [exact _|by apply keeps_on_w|]. intros [e| |code body]; [by intros s; unfold worlds|apply keeps_fail|].
  destruct (st code); [apply keeps_fail|]. destruct (decode _ _ _); [by intros s; unfold worlds|apply keeps_fail].
Qed.
#[local] Hint Resolve keeps_on_w keeps_retp keeps_of_option keeps_fail keeps_liftp keeps_success keeps_fetch : keeps.
#[local] Hint Extern 2 (keeps worlds (bindp _ _)) => apply keeps_bindp; [|intros ?] : keeps.
#[local] Hint Extern 2 (keeps worlds (bind _ _)) => apply keeps_bind; [exact _| |intros ?] : keeps.
#[local] Hint Extern 3 (keeps worlds (match ?x with _ => _ end)) => destruct x : keeps.
#[local] Hint Extern 3 (keeps worlds (ret _)) => apply keeps_ret; exact _ : keeps.

Lemma keeps_finish coinIDs prices : keeps worlds (finish coinIDs prices).
Proof. unfold finish. auto 8 with keeps. Qed.
Lemma keeps_first r : keeps worlds (first_recorded r).
Proof. unfold first_recorded. auto 8 with keeps. Qed.
#[local] Hint Resolve keeps_finish keeps_first : keeps.
Lemma keeps_loop ex cfg coinIDs cur quote now : forall prices,
  keeps worlds (GetPrices_loop ex cfg coinIDs cur quote now prices).
Proof.
  induction coinIDs as [|coin coinIDs IH]; intros prices; cbn [GetPrices_loop]; unfold fetch; auto 12 with keeps.
Qed.
Lemma keeps_single sg cfg coin cur : keeps worlds (single_GetPrice sg cfg coin cur).
Proof. unfold single_GetPrice. auto 12 with keeps. Qed.
Lemma keeps_gecko raw coinIDs cur now : forall prices, keeps worlds (gecko_loop raw coinIDs cur now prices).
Proof. induction coinIDs as [|coin coinIDs IH]; intros prices; cbn [gecko_loop]; auto 12 with keeps. Qed.
Lemma keeps_compare cfg coinIDs cur : forall prices, keeps worlds (compare_loop cfg coinIDs cur prices).
Proof.
  induction coinIDs as [|coin coinIDs IH]; intros prices; cbn [compare_loop]; unfold compare_fetchOne; auto 12 with keeps.
Qed.
#[local] Hint Resolve keeps_loop keeps_single keeps_gecko keeps_compare : keeps.
Lemma keeps_impl i cfg coin cur : keeps worlds (impl_GetPrice i cfg coin cur).
Proof.
  destruct i as [ex|sg| | | | |]; cbn [impl_GetPrice];
    unfold GetPrice, GetPrices, gecko_GetPrice, gecko_GetPrices, cmc_GetPrice, cmc_GetPrices, blockchain_GetPrice,
      blockchain_GetPrices, paprika_GetPrice, compare_GetPrice, compare_GetPrices, fetch; auto 14 with keeps.
Qed.
End frame.

Section health.
Context {O : DecimalOps} {L : DecimalLaws O} `{!GoJSON} `{!Unicode} `{!GoParse} `{!GoFmt}.
Context {W : Type} `{!ClockOps W} `{!HTTPClient W} `{!AdapterStates W} `{!AdapterStatesLaws W}.
Definition same_states (w w' : W) : Prop := forall name, ad_get name w' = ad_get name w.
#[local] Instance same_states_preorder : PreOrder same_states.
Proof. split; [done|]. intros w1 w2 w3 H12 H23 name. by rewrite H23, H12. Qed.
Lemma health_eta (h : prov unit) : mkProv tt (pv_healthy h) (pv_lastError h) (pv_lastSuccessAt h) = h.
Proof. by destruct h as [[] ???]. Qed.

Lemma adapter_Status_spec a h : exists rate, adapter_Status a h = Status (ad_name a) TierFree rate h.
Proof.
  unfold adapter_Status. destruct (provider_of (ad_name a)) as [im|] eqn:E; [|by eexists].
  apply provider_of_spec in E as [Hi <-]. destruct (providers_uniform im Hi) as (_ & _ & _ & _ & _ & Hs).
  destruct (Hs (ad_cfg a) h) as (rate & -> & _). by exists rate.
Qed.

End health.

(** ** Witnesses: a server that answers every request with one document *)
#[local] Existing Instance plain_GoJSON.
#[local] Instance demo_GoParse : GoParse := {
  time_ParseRFC3339 _ := None; time_ParseDuration _ := None; strconv_ParseFloat _ := None }.
#[local] Instance demo_clock_ops : ClockOps Clock := { w_Now := tick }.
#[local] Instance demo_http : HTTPClient Clock := {
  http_Do _ := ret (HResponse 200 (Some (VObj
    [("data", VObj [("priceUsd", VStr "135000")])]%string))) }.
Definition demo_cfg : Config := mkConfig "https://example.org" "" 10.
Definition demo_state : prov Clock := New demo_clock.

Lemma adapters_answer_witness : exists r s',
  impl_GetPrice (Asking coincap) demo_cfg "bitcoin" "usd" demo_state = (Some r, s') /\
  answers demo_state s' "coincap" "bitcoin" "usd" r.
Proof.
  pose proof (adapters_answer "coincap" (Asking coincap) demo_cfg "bitcoin" "usd" demo_state
    (adapter_of_complete 4 (Asking coincap) eq_refl)) as [Ha _].
  destruct (impl_GetPrice (Asking coincap) demo_cfg "bitcoin" "usd" demo_state) as [[r|] s'].
  - exists r, s'. split; [reflexivity|exact Ha].
  - destruct Ha as [Ha _]. discriminate Ha.
Defined.

Lemma dollar_adapters_witness :
  impl_GetPrice (Asking coincap) demo_cfg "bitcoin" "eur" demo_state =
    let '(r, s') := impl_GetPrice (Asking coincap) demo_cfg "bitcoin" "usd" demo_state in (relabel_answer "eur" <$> r, s').
Proof.
  apply (dollar_adapters_ignore_currency "coincap" (Asking coincap)); [exact (adapter_of_complete 4 (Asking coincap) eq_refl)|].
  apply (bool_decide_unpack _). vm_compute. exact I.
Defined.
