(* ===== verification/Consensus.v ===== *)
(** * internal/app/consensus.go

    The consensus price: several providers are asked concurrently and the
    median of their answers is taken. *)
From S2P Require Import Prelude GoLib Decimal Model Ports Validator Strategies World Demo.
From Stdlib Require Import QArith Qabs Lqa.
Open Scope Z_scope.

Record ConsensusConfig := mkCConfig {
  cc_Enabled : bool;
  cc_MinProviders : Z;
  cc_MaxDeviation : float64;
  cc_Timeout : Duration }.
Record ConsensusEngine := NewConsensusEngine { ce_cfg : ConsensusConfig }.

Section consensus.
Context {O : DecimalOps} `{SortSlice}.

Record ConsensusResult := mkCR {
  cr_MedianPrice : decimal;
  cr_Prices : list Price;
  cr_Outliers : list Price;
  cr_Confidence : float64 }.

(** [median] of a sorted slice; [None] is a panic. *)
Definition median (prices : list Price) : option decimal :=
  let n := length prices in
  match n with
  | 0%nat => Some dec_Zero
  | _ =>
      if Nat.odd n then p ← prices !! (n / 2)%nat; Some (Value p)
      else
        a ← prices !! (n / 2 - 1)%nat;
        b ← prices !! (n / 2)%nat;
        dec_Div (dec_Add (Value a) (Value b)) (dec_NewFromInt 2)
  end.

Definition sort_prices (prices : list Price) : list Price :=
  sort_slice (fun a b => dec_LessThan (Value a) (Value b)) prices.

(** The loop that splits the prices around the median. *)
Fixpoint split_outliers (median maxDev : decimal) (prices : list Price) :
    option (list Price * list Price) :=
  match prices with
  | [] => Some ([], [])
  | p :: ps =>
      dev ← deviation_pct (Value p) median;
      r ← split_outliers median maxDev ps;
      Some (if dec_GreaterThan dev maxDev then (r.1, p :: r.2) else (p :: r.1, r.2))
  end.

Definition confidence_ratio (valid total : nat) : float64 :=
  fdiv (f_of_int (Z.of_nat valid)) (f_of_int (Z.of_nat total)).

Definition computeResult (e : ConsensusEngine) (prices : list Price) : option ConsensusResult :=
  let prices := sort_prices prices in
  med ← median prices;
  if dec_IsZero med then Some (mkCR med prices [] fzero) else
  maxDev ← dec_NewFromFloat (cc_MaxDeviation (ce_cfg e));
  r ← split_outliers med maxDev prices;
  Some (mkCR med prices r.2 (confidence_ratio (length r.1) (length prices))).
Definition ComputeResultPublic (e : ConsensusEngine) (prices : list Price) : option ConsensusResult :=
  computeResult e prices.

(** ** Compute

    The goroutines share the slice [prices] under the mutex [mu], and [wg]
    counts those that are not done.  A goroutine is in one of the states below;
    a step runs it to the next point where another goroutine may run. *)
Context {W P : Type} `{!ClockOps W} `{!Scheduler W}
  `{PP : !PriceProvider W P} `{PR : !ProviderRouter W P}.

Inductive goroutine :=
  | GoStart (p : P)
  | GoCall (p : P) (start : Time)
  | GoReturned (p : P) (start : Time) (r : Price + error)
  | GoReport (p : P) (elapsed : Duration) (r : Price + error)
  | GoLock (price : Price)
  | GoAppend (price : Price)
  | GoUnlock
  | GoDone.
Record pool := mkPool { pl_gos : list goroutine; pl_wg : Z; pl_mu : bool; pl_prices : list Price }.
Definition NewPool : pool := mkPool [] 0 false [].
Definition set_go (i : nat) (g : goroutine) (s : pool) : pool :=
  mkPool (<[i := g]> (pl_gos s)) (pl_wg s) (pl_mu s) (pl_prices s).
(** [wg.Add(1)] and the [go] statement. *)
Definition spawn_go (p : P) (s : pool) : pool :=
  mkPool (pl_gos s ++ [GoStart p]) (pl_wg s + 1) (pl_mu s) (pl_prices s).

(** A step of the [i]-th goroutine, [None] for a panic: of the provider, or of
    [wg.Done()] when the counter would be negative. *)
Definition go_step (coinID currency : string) (i : nat) (g : goroutine) (s : pool) : PM W pool :=
  match g with
  | GoStart p => start <- w_Now ;; retp (set_go i (GoCall p start) s)
  | GoCall p start => r <~ pp_GetPrice p coinID currency ;; retp (set_go i (GoReturned p start r) s)
  | GoReturned p start r => now <- w_Now ;; retp (set_go i (GoReport p (time_Since now start) r) s)
  | GoReport p elapsed (inr e) => rt_ReportFailure (pp_Name p) e ;;; retp (set_go i GoDone s)
  | GoReport p elapsed (inl price) =>
      rt_ReportSuccess (pp_Name p) elapsed ;;; retp (set_go i (GoLock price) s)
  | GoLock price => retp (mkPool (<[i := GoAppend price]> (pl_gos s)) (pl_wg s) true (pl_prices s))
  | GoAppend price => retp (mkPool (<[i := GoUnlock]> (pl_gos s)) (pl_wg s) (pl_mu s) (pl_prices s ++ [price]))
  | GoUnlock => retp (mkPool (<[i := GoDone]> (pl_gos s)) (pl_wg s) false (pl_prices s))
  | GoDone =>
      if pl_wg s - 1 <? 0 then ret None
      else retp (mkPool (delete i (pl_gos s)) (pl_wg s - 1) (pl_mu s) (pl_prices s))
  end.
Definition step_nth (coinID currency : string) (i : nat) (s : pool) : PM W pool :=
  match pl_gos s !! i with Some g => go_step coinID currency i g s | None => retp s end.

(** A goroutine waits as long as another holds the mutex. *)
Definition may_step (mu : bool) (g : goroutine) : bool :=
  match g with GoLock _ => negb mu | _ => true end.
Definition runnable (s : pool) : list nat :=
  bfilter (fun i => match pl_gos s !! i with Some g => may_step (pl_mu s) g | None => false end)
    (seq 0 (length (pl_gos s))).

(** Let goroutines step until the scheduler comes back to the caller. *)
Fixpoint run_some (coinID currency : string) (fuel : nat) (s : pool) : PM W pool :=
  match fuel with
  | 0%nat => retp s
  | S fuel =>
      pick <- sch_pick (length (runnable s)) ;;
      match pick with
      | None => retp s
      | Some k =>
          match runnable s !! k with
          | Some i => s <~ step_nth coinID currency i s ;; run_some coinID currency fuel s
          | None => run_some coinID currency fuel s
          end
      end
  end.

(** [wg.Wait()] returns when the counter is zero; until then the caller waits
    for goroutines to step, for ever when none can.  [None]: it does not return. *)
Fixpoint wait_all (coinID currency : string) (fuel : nat) (s : pool) : PM W pool :=
  if pl_wg s =? 0 then retp s else
  match fuel with
  | 0%nat => ret None
  | S fuel =>
      pick <- sch_pick (length (runnable s)) ;;
      match runnable s !! (default 0%nat pick mod length (runnable s))%nat with
      | Some i => s <~ step_nth coinID currency i s ;; wait_all coinID currency fuel s
      | None => ret None
      end
  end.

Definition go_steps (g : goroutine) : nat :=
  match g with
  | GoStart _ => 8 | GoCall _ _ => 7 | GoReturned _ _ _ => 6 | GoReport _ _ _ => 5
  | GoLock _ => 4 | GoAppend _ => 3 | GoUnlock => 2 | GoDone => 1
  end%nat.
(** The steps that are left: the fuel that is enough. *)
Definition pool_steps (s : pool) : nat := sum_list_with go_steps (pl_gos s).

Fixpoint select_loop (coinID currency : string) (n : nat) (selected : gset string) (s : pool) :
    M W (called pool) :=
  match n with
  | 0%nat => retc s
  | S n =>
      s <! in_goroutine (run_some coinID currency (pool_steps s) s) ;;
      r <- rt_Select coinID ;;
      match r with
      | (_, Some _) => retc s
      | (None, None) => ret Panics (* a nil provider: [provider.Name()] panics *)
      | (Some p, None) =>
          if bool_decide (pp_Name p ∈ selected)
          then select_loop coinID currency n selected s
          else select_loop coinID currency n ({[pp_Name p]} ∪ selected) (spawn_go p s)
      end
  end.

Definition Compute (e : ConsensusEngine) (coinID currency : string) (maxProviders : Z) :
    M W (called (result ConsensusResult)) :=
  if negb (cc_Enabled (ce_cfg e)) || (maxProviders <=? 1) then retc (None, None) else
  s <! select_loop coinID currency (Z.to_nat maxProviders) ∅ NewPool ;;
  s <! in_goroutine (wait_all coinID currency (pool_steps s) s) ;;
  let prices := pl_prices s in
  if Z.of_nat (length prices) <? cc_MinProviders (ce_cfg e) then
    match prices with
    | [] => retc (err ErrNoHealthyProvider)
    | p :: _ => retc (ok (mkCR (Value p) prices [] fzero))
    end
  else r <! in_caller (of_option (computeResult e prices)) ;; retc (ok r).
End consensus.

(** ** The median *)
Section median_lemmas.
Context {O : DecimalOps} {L : DecimalLaws O} `{SortSlice}.
Implicit Types (l : list Price) (lo hi : Q).

Definition price_le (a b : Price) : Prop := (dval (Value a) <= dval (Value b))%Q.

Lemma sort_prices_perm l : sort_prices l ≡ₚ l.
Proof. apply sort_slice_perm. Qed.

Lemma sort_prices_sorted l : StronglySorted price_le (sort_prices l).
Proof.
  pose proof (sort_slice_sorted _ l (strict_weak_dec (fun p : Price => Value p))) as Hs.
  unfold sort_prices. induction Hs as [|a l' _ IH Ha]; constructor; [done|].
  eapply Forall_impl; [exact Ha|]. simpl. intros x Hx. by apply dec_LessThan_false.
Qed.

Lemma sorted_lookup l i j a b : StronglySorted price_le l ->
  (i <= j)%nat -> l !! i = Some a -> l !! j = Some b -> price_le a b.
Proof.
  intros Hs. revert i j. induction Hs as [|x l Hl IH Hx]; intros i j Hij Ha Hb; [done|].
  destruct i as [|i], j as [|j]; simplify_eq/=; [unfold price_le; lra| |lia|].
  - eapply Forall_lookup_1 in Hx; [exact Hx|done].
  - apply (IH i j); [lia|done|done].
Qed.

Lemma two_not_zero : dec_IsZero (dec_NewFromInt 2) = false.
Proof. apply dec_IsZero_false. rewrite dval_NewFromInt. discriminate. Qed.

Lemma half_between (a b m : decimal) lo hi :
  (lo <= dval a <= hi)%Q -> (lo <= dval b <= hi)%Q ->
  dec_Div (dec_Add a b) (dec_NewFromInt 2) = Some m ->
  (lo - div_ulp <= dval m <= hi + div_ulp)%Q.
Proof.
  intros Ha Hb Hm. apply dec_Div_spec in Hm. rewrite dval_Add, dval_NewFromInt in Hm.
  change (inject_Z 2) with 2%Q in Hm. apply Qabs_Qle_condition in Hm as [H1 H2].
  assert ((dval a + dval b) / 2 == (1 # 2) * (dval a + dval b))%Q as Heq by field.
  rewrite Heq in H1, H2. split; lra.
Qed.

(** The one or two middle prices. *)
Lemma median_spec l : l <> [] ->
  exists i j p q m, l !! i = Some p /\ l !! j = Some q /\ median l = Some m /\
    (i <= j)%nat /\ (length l <= 2 * S i)%nat /\ (2 * j <= length l)%nat /\
    (m = Value p /\ m = Value q \/ dec_Div (dec_Add (Value p) (Value q)) (dec_NewFromInt 2) = Some m).
Proof.
  intros Hl. unfold median. destruct (length l) as [|n] eqn:E.
  { by apply nil_length_inv in E. }
  rewrite <- E in *. pose proof (Nat.div_mod_eq (length l) 2) as Hd.
  pose proof (Nat.mod_upper_bound (length l) 2) as Hm.
  destruct (Nat.odd (length l)) eqn:Eo.
  - assert (length l mod 2 = 1)%nat as H1.
    { rewrite <- Nat.bit0_mod. by rewrite Nat.bit0_odd, Eo. }
    destruct (lookup_lt_is_Some_2 l (length l / 2)) as [p Hp]; [lia|].
    exists (length l / 2)%nat, (length l / 2)%nat, p, p, (Value p). rewrite Hp.
    split_and!; try done; [lia|lia|by left].
  - assert (length l mod 2 = 0)%nat as H1.
    { rewrite <- Nat.bit0_mod. by rewrite Nat.bit0_odd, Eo. }
    destruct (lookup_lt_is_Some_2 l (length l / 2 - 1)) as [p Hp]; [lia|].
    destruct (lookup_lt_is_Some_2 l (length l / 2)) as [q Hq]; [lia|].
    destruct (dec_Div_defined (dec_Add (Value p) (Value q)) _ two_not_zero) as [m Hdiv].
    exists (length l / 2 - 1)%nat, (length l / 2)%nat, p, q, m. rewrite Hp, Hq.
    split_and!; try done; [lia..|by right].
Qed.

Lemma median_defined l : exists m, median l = Some m.
Proof.
  destruct l as [|x l]; [by eexists|].
  destruct (median_spec (x :: l)) as (?&?&?&?&m&?&?&?&_); [done|eauto].
Qed.

(** *** Counting *)
Definition within lo hi (p : Price) : bool :=
  Qle_bool lo (dval (Value p)) && Qle_bool (dval (Value p)) hi.
Definition count (f : Price -> bool) l : nat := length (bfilter f l).

#[export] Instance count_perm f : Proper ((≡ₚ) ==> (=)) (count f).
Proof. unfold count, bfilter. induction 1; simpl; repeat case_match; simpl in *; lia. Qed.

Lemma count_disjoint f g l :
  (forall p, f p = true -> g p = false) -> (count f l + count g l <= length l)%nat.
Proof.
  intros Hfg. unfold count, bfilter. induction l as [|x l IH]; simpl; [lia|].
  destruct (f x) eqn:E; [rewrite (Hfg x E)|destruct (g x)]; simpl; lia.
Qed.

Lemma count_prefix f l k : (k <= length l)%nat ->
  (forall i p, (i < k)%nat -> l !! i = Some p -> f p = true) -> (k <= count f l)%nat.
Proof.
  unfold count, bfilter. revert k. induction l as [|x l IH]; intros [|k] Hk Hf; simpl in *; try lia.
  rewrite (Hf 0%nat x) by (lia || done). simpl. apply le_n_S, IH; [lia|].
  intros i p Hi Hp. apply (Hf (S i) p); [lia|done].
Qed.

Lemma count_suffix f l k :
  (forall i p, (k <= i)%nat -> l !! i = Some p -> f p = true) -> (length l - k <= count f l)%nat.
Proof.
  unfold count, bfilter. revert k. induction l as [|x l IH]; intros k Hf; simpl in *; [lia|].
  destruct k as [|k]; simpl.
  - rewrite (Hf 0%nat x) by (lia || done). simpl.
    specialize (IH 0%nat). rewrite Nat.sub_0_r in IH. apply le_n_S, IH.
    intros i p _ Hp. by apply (Hf (S i) p); [lia|].
  - etrans; [apply (IH k)|].
    + intros i p Hi Hp. apply (Hf (S i) p); [lia|done].
    + destruct (f x); simpl; lia.
Qed.

(** In a sorted list most of whose prices lie within an interval, the price at
    a middle position does. *)
Lemma sorted_middle l lo hi i p : StronglySorted price_le l ->
  (length l < 2 * count (within lo hi) l)%nat ->
  l !! i = Some p -> (length l <= 2 * S i)%nat -> (2 * i <= length l)%nat ->
  (lo <= dval (Value p) <= hi)%Q.
Proof.
  intros Hs Hc Hp Hi1 Hi2. split; apply Qnot_lt_le; intros Hlt.
  - set (f := fun q => negb (Qle_bool lo (dval (Value q)))).
    assert (S i <= count f l)%nat.
    { apply count_prefix; [by apply lookup_lt_Some in Hp|]. intros j q Hj Hq.
      unfold f. apply negb_true_iff, not_true_is_false. rewrite Qle_bool_iff.
      assert (price_le q p) as Hle by by (eapply (sorted_lookup l j i); [|lia|..]).
      unfold price_le in Hle. lra. }
    assert (count (within lo hi) l + count f l <= length l)%nat; [|lia].
    apply count_disjoint. intros q. unfold within, f. by intros [-> _]%andb_true_iff.
  - set (f := fun q => negb (Qle_bool (dval (Value q)) hi)).
    assert (length l - i <= count f l)%nat.
    { apply count_suffix. intros j q Hj Hq.
      unfold f. apply negb_true_iff, not_true_is_false. rewrite Qle_bool_iff.
      assert (price_le p q) as Hle by by (eapply (sorted_lookup l i j); [|lia|..]).
      unfold price_le in Hle. lra. }
    assert (count (within lo hi) l + count f l <= length l)%nat; [|lia].
    apply count_disjoint. intros q. unfold within, f. by intros [_ ->]%andb_true_iff.
Qed.

(** *** The split around the median *)
Definition is_outlier (med maxDev : decimal) (p : Price) : bool :=
  match deviation_pct (Value p) med with Some d => dec_GreaterThan d maxDev | None => false end.

Lemma split_outliers_spec med maxDev l : dec_IsZero med = false ->
  split_outliers med maxDev l =
    Some (bfilter (fun p => negb (is_outlier med maxDev p)) l, bfilter (is_outlier med maxDev) l).
Proof.
  intros Hm. unfold bfilter, is_outlier. induction l as [|p l IH]; simpl; [done|].
  destruct (deviation_pct_defined (Value p) med Hm) as [d Hd]. rewrite Hd. simpl. rewrite IH. simpl.
  by destruct (dec_GreaterThan d maxDev).
Qed.

Lemma computeResult_defined e l : float_finite (cc_MaxDeviation (ce_cfg e)) = true ->
  exists r, computeResult e l = Some r /\ cr_Prices r = sort_prices l /\
    median (sort_prices l) = Some (cr_MedianPrice r).
Proof.
  intros Hf. unfold computeResult. destruct (median_defined (sort_prices l)) as [m Hm].
  rewrite Hm. cbn [mbind option_bind]. destruct (dec_IsZero m) eqn:Ez; [eauto|].
  destruct (NewFromFloat_finite _ Hf) as [d ->]. cbn [mbind option_bind].
  rewrite split_outliers_spec by done. cbn [mbind option_bind]. eauto.
Qed.
End median_lemmas.

Section properties.
Context {O : DecimalOps} {L : DecimalLaws O} `{SortSlice}.

(** C6. A minority cannot move the median: if more than half of the collected
    prices lie in an interval, so does the consensus price, up to one unit of
    division, whatever the others are. *)
Theorem median_robust (e : ConsensusEngine) (prices : list Price) r (lo hi : Q) :
  computeResult e prices = Some r ->
  (length prices < 2 * count (within lo hi) prices)%nat ->
  (lo - div_ulp <= dval (cr_MedianPrice r) <= hi + div_ulp)%Q.
Proof.
  intros Hr Hc. assert (median (sort_prices prices) = Some (cr_MedianPrice r)) as Hm.
  { unfold computeResult in Hr. destruct (median_defined (sort_prices prices)) as [m Hm].
    rewrite Hm in *. cbn [mbind option_bind] in Hr. destruct (dec_IsZero m); [by simplify_eq|].
    destruct (dec_NewFromFloat _); [|done]. cbn [mbind option_bind] in Hr.
    destruct (split_outliers _ _ _); [|done]. cbn [mbind option_bind] in Hr. by simplify_eq. }
  rewrite <- (sort_prices_perm prices) in Hc.
  destruct (median_spec (sort_prices prices)) as (i&j&p&q&m&Hi&Hj&Hmed&Hij&Hb1&Hb2&Hval).
  { intros Heq. rewrite Heq in Hc. simpl in Hc. lia. }
  rewrite Hm in Hmed. simplify_eq.
  pose proof (sort_prices_sorted prices) as Hs.
  pose proof (lookup_lt_Some _ _ _ Hj).
  assert (lo <= dval (Value p) <= hi)%Q as Hp by (eapply sorted_middle; eauto; lia).
  assert (lo <= dval (Value q) <= hi)%Q as Hq by (eapply sorted_middle; eauto; lia).
  destruct Hval as [[-> _]|Hdiv].
  { pose proof div_ulp_pos. destruct Hp. split; lra. }
  by apply (half_between (Value p) (Value q)).
Qed.

(** C20. The consensus computation panics for no slice of prices when its
    threshold is a number.  Its outliers are the prices whose deviation from a
    non-zero median exceeds the threshold, and its confidence the share of the
    others. *)
Theorem computeResult_spec (e : ConsensusEngine) (prices : list Price) :
  float_finite (cc_MaxDeviation (ce_cfg e)) = true ->
  exists r, computeResult e prices = Some r /\
    cr_Prices r ≡ₚ prices /\ StronglySorted price_le (cr_Prices r) /\
    (dval (cr_MedianPrice r) == 0 -> cr_Outliers r = [] /\ cr_Confidence r = fzero)%Q /\
    (~ dval (cr_MedianPrice r) == 0 -> exists maxDev,
       dec_NewFromFloat (cc_MaxDeviation (ce_cfg e)) = Some maxDev /\
    (forall p, p ∈ cr_Outliers r <-> p ∈ prices /\ is_outlier (cr_MedianPrice r) maxDev p = true) /\
    exists valid, valid ++ cr_Outliers r ≡ₚ prices /\
    Forall (fun p => is_outlier (cr_MedianPrice r) maxDev p = false) valid /\
    cr_Confidence r = confidence_ratio (length valid) (length prices))%Q.
Proof.
  intros Hf. unfold computeResult. destruct (median_defined (sort_prices prices)) as [m Hm].
  rewrite Hm. cbn [mbind option_bind]. destruct (dec_IsZero m) eqn:Ez.
  { eexists. split_and!; [done|apply sort_prices_perm|apply sort_prices_sorted|done|].
    simpl. apply dec_IsZero_spec in Ez. done. }
  destruct (NewFromFloat_finite _ Hf) as [d Hd]. rewrite Hd. cbn [mbind option_bind].
  rewrite split_outliers_spec by done. cbn [mbind option_bind].
  pose proof (bfilter_partition (is_outlier m d) (sort_prices prices)) as Hpart.
  eexists. split_and!; [done|apply sort_prices_perm|apply sort_prices_sorted|..]; simpl.
  { apply dec_IsZero_false in Ez. done. }
  intros _. exists d. split_and!; [done| |eexists; split_and!].
  - intros p. rewrite elem_of_bfilter, (sort_prices_perm prices). tauto.
  - rewrite Permutation_app_comm, Hpart. apply sort_prices_perm.
  - apply Forall_forall. intros p. rewrite elem_of_bfilter. intros [Hp _]. by to_prop.
  - by rewrite (Permutation_length (sort_prices_perm prices)).
Qed.
End properties.

(** ** The goroutines *)
Section pool.
Context {P : Type} {O : DecimalOps}.
Notation goroutine := (goroutine (P := P)).
Notation pool := (pool (P := P)).
Implicit Types (s : pool) (g : goroutine) (f : goroutine -> nat) (l : list goroutine).

Lemma sum_insert f l k g g' : l !! k = Some g ->
  (sum_list_with f (<[k := g']> l) + f g = sum_list_with f l + f g')%nat.
Proof.
  revert k. induction l as [|x l IH]; intros [|k] Hk; simplify_eq/=; [lia|]. specialize (IH k Hk). lia.
Qed.
Lemma sum_delete f l k g : l !! k = Some g ->
  (sum_list_with f (delete k l) + f g = sum_list_with f l)%nat.
Proof.
  revert k. induction l as [|x l IH]; intros [|k] Hk; simplify_eq/=; [lia|]. specialize (IH k Hk). lia.
Qed.
Lemma sum_snoc f l g : sum_list_with f (l ++ [g]) = (sum_list_with f l + f g)%nat.
Proof. rewrite sum_list_with_app. simpl. lia. Qed.
Lemma sum_positive f l : sum_list_with f l <> 0%nat -> exists k g, l !! k = Some g /\ f g <> 0%nat.
Proof.
  induction l as [|x l IH]; [done|]. simpl. intros Hs. destruct (decide (f x = 0%nat)) as [Hx|Hx].
  - destruct IH as (k & g & Hk & Hg); [lia|]. by exists (S k), g.
  - by exists 0%nat, x.
Qed.

(** The counter of [wg] is the number of goroutines, and the mutex is held by
    one of them, or free. *)
Definition holds g : nat := match g with GoAppend _ | GoUnlock => 1 | _ => 0 end.
Definition pool_ok s : Prop :=
  pl_wg s = Z.of_nat (length (pl_gos s)) /\
  sum_list_with holds (pl_gos s) = (if pl_mu s then 1 else 0)%nat.

Lemma elem_of_runnable i s : i ∈ runnable s <-> exists g, pl_gos s !! i = Some g /\ may_step (pl_mu s) g = true.
Proof.
  unfold runnable. rewrite elem_of_bfilter, elem_of_seq. split.
  - intros [Hg _]. destruct (pl_gos s !! i) as [g|]; [by exists g|done].
  - intros (g & Hi & Hg). rewrite Hi. split; [done|]. apply lookup_lt_Some in Hi. lia.
Qed.
(** As long as there are goroutines one of them can step: the one that holds
    the mutex, or any when it is free. *)
Lemma pool_live s : pool_ok s -> pl_gos s <> [] -> runnable s <> [].
Proof.
  intros [_ Hh] Hne. assert (exists i, i ∈ runnable s) as [i Hi]; [|by intros E; rewrite E in Hi; apply not_elem_of_nil in Hi].
  destruct (pl_mu s) eqn:Hmu.
  - destruct (sum_positive holds (pl_gos s)) as (i & g & Hi & Hg); [lia|].
    exists i. apply elem_of_runnable. exists g. split; [done|]. by destruct g.
  - destruct (pl_gos s) as [|g gs] eqn:E; [done|]. exists 0%nat. apply elem_of_runnable. rewrite E, Hmu.
    exists g. by destruct g.
Qed.
Lemma pool_idle s : pool_ok s -> pl_wg s = 0 -> pl_gos s = [].
Proof. intros [Hw _] H0. apply nil_length_inv. lia. Qed.
Lemma pool_steps_nil s : pool_steps s = 0%nat -> pl_gos s = [].
Proof. unfold pool_steps. by destruct (pl_gos s) as [|[] l]; simpl; [|lia..]. Qed.
Lemma NewPool_ok : pool_ok NewPool.
Proof. done. Qed.
Lemma spawn_go_ok p s : pool_ok s -> pool_ok (spawn_go p s).
Proof. intros [Hw Hh]. split; simpl; [rewrite length_app; simpl; lia|rewrite sum_snoc; simpl; lia]. Qed.
End pool.

Section compute.
Context {O : DecimalOps} {L : DecimalLaws O} `{SortSlice}.
Context {W P : Type} `{!ClockOps W} `{!Scheduler W}
  `{PP : !PriceProvider W P} `{PR : !ProviderRouter W P}.
Notation pool := (pool (P := P)).
Notation goroutine := (goroutine (P := P)).
Implicit Types (s : pool) (g : goroutine).
Variables (coinID currency : string).

(** The ports keep [inv]; the router selects [allowed] providers, whose answers
    are [good]; when one of them panics, [E]. *)
Variables (inv : W -> Prop) (allowed : P -> Prop) (good : Price -> Prop) (E : Prop).
Hypothesis inv_now : maintains inv (w_Now (W := W)) any.
Hypothesis inv_pick : forall n, maintains inv (sch_pick (W := W) n) any.
Hypothesis inv_select : maintains inv (rt_Select (P := P) coinID) (fun r =>
  match r with (Some p, None) => allowed p | (None, None) => False | _ => True end).
Hypothesis inv_success : forall name d, maintains inv (rt_ReportSuccess (P := P) name d) any.
Hypothesis inv_failure : forall name e, maintains inv (rt_ReportFailure (P := P) name e) any.
Hypothesis inv_price : forall p, allowed p -> maintains inv (pp_GetPrice p coinID currency)
  (or_panic E (fun r => match r with inl pr => good pr | inr _ => True end)).

Definition good_goroutine g : Prop :=
  match g with
  | GoStart p | GoCall p _ => allowed p
  | GoReturned _ _ (inl pr) | GoReport _ _ (inl pr) | GoLock pr | GoAppend pr => good pr
  | _ => True
  end.
Definition unappended g : nat := match g with GoUnlock | GoDone => 0 | _ => 1 end.
(** Of at most [n] goroutines, no price comes from elsewhere. *)
Record pool_inv (n : nat) s : Prop := {
  pi_ok : pool_ok s;
  pi_gos : Forall good_goroutine (pl_gos s);
  pi_prices : Forall good (pl_prices s);
  pi_count : (sum_list_with unappended (pl_gos s) + length (pl_prices s) <= n)%nat }.
Definition closer (n : nat) s s' : Prop := pool_inv n s' /\ (pool_steps s' < pool_steps s)%nat.

Lemma set_go_closer n i g g' s : pool_inv n s -> pl_gos s !! i = Some g -> good_goroutine g' ->
  holds g' = holds g -> (unappended g' <= unappended g)%nat -> (go_steps g' < go_steps g)%nat -> closer n s (set_go i g' s).
Proof.
  intros [[Hw Hh] Hg Hp Hn] Hi Hgood Hho Hun Hst.
  pose proof (sum_insert holds _ _ _ g' Hi). pose proof (sum_insert unappended _ _ _ g' Hi).
  pose proof (sum_insert go_steps _ _ _ g' Hi). unfold closer, pool_steps. split; [split; [split|..]|]; simpl.
  - by rewrite length_insert.
  - lia.
  - by apply Forall_insert.
  - done.
  - lia.
  - lia.
Qed.

(** A goroutine that may step keeps the pool good and comes closer to its end,
    or its provider panics. *)
Lemma go_step_maintains n i g s : pool_inv n s -> pl_gos s !! i = Some g -> may_step (pl_mu s) g = true ->
  maintains inv (go_step coinID currency i g s) (or_panic E (closer n s)).
Proof.
  intros Hs Hi Hmay. pose proof (Forall_lookup_1 _ _ _ _ (pi_gos _ _ Hs) Hi) as Hg.
  assert (forall g', good_goroutine g' -> holds g' = holds g -> (unappended g' <= unappended g)%nat ->
    (go_steps g' < go_steps g)%nat -> maintains inv (retp (set_go i g' s)) (or_panic E (closer n s))) as Hset.
  { intros. apply maintains_retp. by apply (set_go_closer n i g). }
  assert (forall g', (sum_list_with holds (<[i := g']> (pl_gos s)) + holds g = sum_list_with holds (pl_gos s) + holds g' /\
    sum_list_with unappended (<[i := g']> (pl_gos s)) + unappended g = sum_list_with unappended (pl_gos s) + unappended g' /\
    sum_list_with go_steps (<[i := g']> (pl_gos s)) + go_steps g = sum_list_with go_steps (pl_gos s) + go_steps g')%nat) as Hsum.
  { intros g'. by split_and!; apply sum_insert. }
  destruct Hs as [[Hw Hh] Hgs Hp Hn].
  destruct g as [p|p start|p start res|p el [pr|e]|pr|pr| |]; cbn [go_step] in *.
  - eapply maintains_bind; [apply inv_now|]. intros. by apply Hset; [|done|simpl; lia..].
  - eapply maintains_bindp; [by apply inv_price|]. intros r Hr. by apply Hset; [|done|simpl; lia..].
  - eapply maintains_bind; [apply inv_now|]. intros. by apply Hset; [|done|simpl; lia..].
  - eapply maintains_bind; [apply inv_success|]. intros. by apply Hset; [|done|simpl; lia..].
  - eapply maintains_bind; [apply inv_failure|]. intros. by apply Hset; [|done|simpl; lia..].
  - apply maintains_retp. destruct (Hsum (GoAppend pr)) as (H1 & H2 & H3). simpl in *.
    destruct (pl_mu s); [done|]. unfold closer, pool_steps.
    split; [split; [split|..]|]; simpl; [by rewrite length_insert|lia|by apply Forall_insert|done|lia|lia].
  - apply maintains_retp. destruct (Hsum GoUnlock) as (H1 & H2 & H3). simpl in *. unfold closer, pool_steps.
    split; [split; [split|..]|]; simpl; [by rewrite length_insert|lia|by apply Forall_insert|by apply Forall_snoc| |lia].
    rewrite length_snoc. lia.
  - apply maintains_retp. destruct (Hsum GoDone) as (H1 & H2 & H3). simpl in *. unfold closer, pool_steps.
    split; [split; [split|..]|]; simpl; [by rewrite length_insert|destruct (pl_mu s); lia|by apply Forall_insert|done|lia|lia].
  - pose proof (lookup_lt_Some _ _ _ Hi). destruct (_ <? 0) eqn:Ez; to_prop; [lia|]. apply maintains_retp.
    pose proof (sum_delete holds _ _ _ Hi). pose proof (sum_delete unappended _ _ _ Hi).
    pose proof (sum_delete go_steps _ _ _ Hi). simpl in *. unfold closer, pool_steps.
    split; [split; [split|..]|]; simpl; [|lia|by apply Forall_delete|done|lia|lia].
    rewrite length_delete by (by eexists). lia.
Qed.
Lemma step_nth_maintains n i s : pool_inv n s -> i ∈ runnable s ->
  maintains inv (step_nth coinID currency i s) (or_panic E (closer n s)).
Proof.
  intros Hs (g & Hi & Hg)%elem_of_runnable. unfold step_nth. rewrite Hi. by apply go_step_maintains.
Qed.

Lemma run_some_maintains n fuel : forall s, pool_inv n s ->
  maintains inv (run_some coinID currency fuel s) (or_panic E (pool_inv n)).
Proof.
  induction fuel as [|fuel IH]; intros s Hs; simpl; [by apply maintains_retp|].
  eapply maintains_bind; [apply inv_pick|]. intros [k|] _; [|by apply maintains_retp].
  destruct (runnable s !! k) as [i|] eqn:Ek; [|by apply IH].
  eapply maintains_bindp; [by eapply step_nth_maintains, list_elem_of_lookup_2|]. intros s' [Hs' _]. by apply IH.
Qed.

(** [wg.Wait()] returns: whoever is scheduled, no goroutine is left waiting. *)
Lemma wait_all_maintains n fuel : forall s, pool_inv n s -> (pool_steps s <= fuel)%nat ->
  maintains inv (wait_all coinID currency fuel s) (or_panic E (fun s' => pool_inv n s' /\ pl_gos s' = [])).
Proof.
  induction fuel as [|fuel IH]; intros s Hs Hf; simpl; destruct (pl_wg s =? 0) eqn:Ew; to_prop.
  1,3: apply maintains_retp; split; [done|]; apply pool_idle; [apply Hs|done].
  { exfalso. apply Ew. destruct (pi_ok _ _ Hs) as [-> _]. by rewrite (pool_steps_nil s) by lia. }
  assert (runnable s <> []) as Hne.
  { apply pool_live; [apply Hs|]. intros Hnil. destruct (pi_ok _ _ Hs) as [Hw _]. by rewrite Hnil in Hw. }
  eapply maintains_bind; [apply inv_pick|]. intros pick _.
  destruct (lookup_lt_is_Some_2 (runnable s) (default 0%nat pick mod length (runnable s))) as [i Hi].
  { apply Nat.mod_upper_bound. by intros ?%nil_length_inv. }
  rewrite Hi. eapply maintains_bindp; [by eapply step_nth_maintains, list_elem_of_lookup_2|].
  intros s' [Hs' Hlt]. apply IH; [done|lia].
Qed.

Lemma spawn_go_inv n p s : allowed p -> pool_inv n s -> pool_inv (S n) (spawn_go p s).
Proof.
  intros Hp [Hok Hg Hps Hn]. split; simpl; [by apply spawn_go_ok|by apply Forall_snoc|done|]. rewrite sum_snoc. simpl. lia.
Qed.
Lemma pool_inv_mono n m s : (n <= m)%nat -> pool_inv n s -> pool_inv m s.
Proof. intros Hnm [Hok Hg Hp Hn]. split; [done..|lia]. Qed.
Lemma NewPool_inv : pool_inv 0 NewPool.
Proof. by split. Qed.

Lemma select_loop_maintains n : forall k sel s, pool_inv k s ->
  maintains inv (select_loop coinID currency n sel s) (or_gone False E (pool_inv (k + n))).
Proof.
  induction n as [|n IH]; intros k sel s Hs; simpl.
  { apply maintains_retc. by rewrite Nat.add_0_r. }
  assert (forall s, pool_inv k s -> pool_inv (k + S n) s) as Hmono by (intros s'; apply pool_inv_mono; lia).
  eapply maintains_bindc; [by eapply maintains_in_goroutine, run_some_maintains|]. intros s1 Hs1.
  eapply maintains_bind; [apply inv_select|]. intros [[p|] [e|]] Hr; try (apply maintains_retc; auto); [|done].
  replace (k + S n)%nat with (S k + n)%nat by lia. case_bool_decide.
  - apply IH. by apply (pool_inv_mono k); [lia|].
  - by apply IH, spawn_go_inv.
Qed.

(** What the price service relies on: a consensus whose confidence is positive
    was taken over enough prices, at least one, all of them answers of
    providers, no more than were asked. *)
Definition consensus_sound (e : ConsensusEngine) (n : Z) (r : result ConsensusResult) : Prop :=
  match r with
  | (None, None) => cc_Enabled (ce_cfg e) = false \/ n <= 1
  | (None, Some er) => er = ErrNoHealthyProvider /\ cc_Enabled (ce_cfg e) = true /\ 1 < n
  | (Some cr, None) =>
      Forall good (cr_Prices cr) /\ Z.of_nat (length (cr_Prices cr)) <= n /\
      (fgtb (cr_Confidence cr) fzero = true ->
        cr_Prices cr <> [] /\ cc_MinProviders (ce_cfg e) <= Z.of_nat (length (cr_Prices cr)) /\
        median (cr_Prices cr) = Some (cr_MedianPrice cr) /\
        dec_IsZero (cr_MedianPrice cr) = false)
  | (Some _, Some _) => False
  end.

Lemma computeResult_inv e l r : computeResult e l = Some r ->
  cr_Prices r = sort_prices l /\ median (sort_prices l) = Some (cr_MedianPrice r) /\
  (fgtb (cr_Confidence r) fzero = true -> dec_IsZero (cr_MedianPrice r) = false).
Proof.
  unfold computeResult. destruct (median _) as [m|]; [|done]. cbn [mbind option_bind].
  destruct (dec_IsZero m) eqn:Ez; [intros; by simplify_eq/=|].
  destruct (dec_NewFromFloat _); [|done]. cbn [mbind option_bind].
  destruct (split_outliers _ _ _); [|done]. cbn [mbind option_bind]. intros. by simplify_eq/=.
Qed.

Lemma computeResult_sound e l cr n : computeResult e l = Some cr -> Forall good l ->
  Z.of_nat (length l) <= n -> cc_MinProviders (ce_cfg e) <= Z.of_nat (length l) -> consensus_sound e n (Some cr, None).
Proof.
  intros Hr Hl Hn Hmin. apply computeResult_inv in Hr as (Hps & Hmed & Hz).
  pose proof (Permutation_length (sort_prices_perm l)) as Hlen. simpl. rewrite Hps, Hlen.
  split_and!; [by rewrite sort_prices_perm|done|]. intros Hc. specialize (Hz Hc). split_and!; [|done|done|done].
  intros Hnil. rewrite Hnil in Hmed. injection Hmed as Hmed.
  rewrite <- Hmed in Hz. by rewrite (proj2 (dec_IsZero_spec _) dval_Zero) in Hz.
Qed.

(** The call returns, unless one of its goroutines panics; the caller itself
    panics only on a threshold that is not a number. *)
Lemma Compute_maintains e n Ep : float_finite (cc_MaxDeviation (ce_cfg e)) = true \/ Ep ->
  maintains inv (Compute e coinID currency n) (or_gone Ep E (consensus_sound e n)).
Proof.
  intros Hf. unfold Compute. destruct (cc_Enabled (ce_cfg e)) eqn:En; simpl; [|apply maintains_retc; by left].
  destruct (n <=? 1) eqn:E1; to_prop; [apply maintains_retc; by right|].
  eapply (maintains_bindc _ _ _ _ _ (pool_inv (Z.to_nat n))).
  { eapply maintains_mono; [apply (select_loop_maintains _ 0), NewPool_inv|]. by intros []. }
  intros s Hs. eapply maintains_bindc; [by apply maintains_in_goroutine, (wait_all_maintains (Z.to_nat n))|].
  intros s' [[_ _ Hp Hc] Hnil]. rewrite Hnil in Hc. simpl in Hc. destruct (_ <? _) eqn:Em; to_prop.
  - destruct (pl_prices s') as [|p ps] eqn:E2; apply maintains_retc; simpl; [done|].
    split_and!; [done|simpl in Hc; lia|done].
  - eapply (maintains_bindc _ _ _ _ _ (fun cr => computeResult e (pl_prices s') = Some cr)).
    + apply maintains_in_caller, maintains_of_option. destruct (computeResult e (pl_prices s')) eqn:Er; [done|].
      destruct Hf as [Hf|?]; [|done]. destruct (computeResult_defined e (pl_prices s') Hf) as (r & Hr & _). simpl. congruence.
    + intros cr Hr. apply maintains_retc. apply (computeResult_sound e (pl_prices s')); [done|done|lia|lia].
Qed.
End compute.

Section compute_properties.
Context {O : DecimalOps} {L : DecimalLaws O} `{SortSlice}.
Context {W P : Type} `{!ClockOps W} `{!Scheduler W}
  `{PP : !PriceProvider W P} `{PR : !ProviderRouter W P} `{RL : !RouterLaws W P}.

(** Some provider panics when it is asked for the pair. *)
Definition provider_panics (coinID currency : string) : Prop :=
  exists (p : P) (w w' : W), pp_GetPrice p coinID currency w = (None, w').
Lemma maintains_nothing {A} (m : M W A) (Q : A -> Prop) : (forall w, Q (fst (m w))) -> maintains any m Q.
Proof. by intros HQ w _. Qed.
Lemma panics_or_answers (p : P) coinID currency (good : Price -> Prop) :
  (forall p w pr w', pp_GetPrice (W := W) (P := P) p coinID currency w = (Some (inl pr), w') -> good pr) ->
  maintains any (pp_GetPrice (W := W) p coinID currency)
    (or_panic (provider_panics coinID currency) (fun r => match r with inl pr => good pr | inr _ => True end)).
Proof.
  intros Hgood. apply maintains_nothing. intros w.
  destruct (pp_GetPrice p coinID currency w) as [[[pr|e]|] w'] eqn:Ep; simpl; [by eapply Hgood|done|by exists p, w, w'].
Qed.
Lemma select_shape coinID : maintains any (rt_Select (P := P) coinID) (fun r =>
  match r with (Some p, None) => any p | (None, None) => False | _ => True end).
Proof.
  apply maintains_nothing. intros w. destruct (rt_Select_shape (P := P) coinID w) as [[p Hp]|He]; [by rewrite Hp|by rewrite He].
Qed.

Lemma Compute_total good e coinID currency n w :
  (forall p w pr w', pp_GetPrice (W := W) (P := P) p coinID currency w = (Some (inl pr), w') -> good pr) ->
  float_finite (cc_MaxDeviation (ce_cfg e)) = true ->
  or_gone False (provider_panics coinID currency) (consensus_sound good e n) (fst (Compute e coinID currency n w)).
Proof.
  intros Hgood Hf. refine (proj2 (Compute_maintains coinID currency any any good (provider_panics coinID currency)
    _ _ (select_shape coinID) _ _ _ e n False (or_introl Hf) w I)).
  1,2,3,4: intros; by apply maintains_nothing.
  intros p _. by apply panics_or_answers.
Qed.

(** C19. However its goroutines are scheduled, [Compute] returns, without a
    panic, unless a provider it asked panics: nothing when it is disabled,
    [ErrNoHealthyProvider] when no provider answered, and otherwise prices the
    providers answered, at most as many as it may ask; a positive confidence
    means enough prices and a median that is not zero. *)
Theorem Compute_sound good e coinID currency n w :
  (forall p w pr w', pp_GetPrice p coinID currency w = (Some (inl pr), w') -> good pr) ->
  float_finite (cc_MaxDeviation (ce_cfg e)) = true ->
  match fst (Compute e coinID currency n w) with
  | Returns r => consensus_sound good e n r
  | Panics => False
  | Gone => provider_panics coinID currency
  end.
Proof. apply Compute_total. Qed.

(** The steps of the goroutines one by one: the caller starts one, one that
    may run takes its next step, the world changes in between. *)
Inductive pool_step (coinID currency : string) : pool (P := P) * W -> pool (P := P) * W -> Prop :=
  | ps_spawn p s w : pool_step coinID currency (s, w) (spawn_go p s, w)
  | ps_go i s s' w w' : i ∈ runnable s -> step_nth coinID currency i s w = (Some s', w') ->
      pool_step coinID currency (s, w) (s', w')
  | ps_world s w w' : pool_step coinID currency (s, w) (s, w').

Lemma step_nth_any coinID currency n i s w : pool_inv any any n s -> i ∈ runnable s ->
  or_panic (provider_panics coinID currency) (closer any any n s) (fst (step_nth coinID currency i s w)).
Proof.
  intros Hs Hi. refine (proj2 (step_nth_maintains coinID currency any any any (provider_panics coinID currency)
    _ _ _ _ n i s Hs Hi w I)).
  1,2,3: intros; by apply maintains_nothing.
  intros p _. by apply panics_or_answers.
Qed.
Lemma pool_step_inv coinID currency c c' : pool_step coinID currency c c' ->
  (exists n, pool_inv any any n c.1) -> exists n, pool_inv any any n c'.1.
Proof.
  intros Hc [n Hn]. destruct Hc as [p s w|i s s' w w' Hi Hs|s w w']; simpl in *; [| |by exists n].
  - exists (S n). by apply spawn_go_inv.
  - exists n. pose proof (step_nth_any coinID currency n i s w Hn Hi) as Hc. rewrite Hs in Hc. apply Hc.
Qed.

(** C3. The goroutines of a consensus never wait for each other for ever: after
    any steps of any of them, while the caller starts more and the world
    changes, [wg] counts exactly the goroutines that are not done and at most one holds
    the mutex; while the caller has to wait some goroutine can step, and every
    step that does not panic in a provider's call brings the goroutines closer
    to their end, by a measure that bounds the steps they have left. *)
Theorem pool_never_stuck coinID currency w0 (s : pool) (w : W) :
  rtc (pool_step coinID currency) (NewPool, w0) (s, w) ->
  pool_ok s /\ (pl_wg s <> 0 -> runnable s <> []) /\
  forall i, i ∈ runnable s ->
    match fst (step_nth coinID currency i s w) with
    | Some s' => (pool_steps s' < pool_steps s)%nat
    | None => provider_panics coinID currency
    end.
Proof.
  intros Hr. assert (exists n, pool_inv any any n s) as [n Hn].
  { assert (exists n, pool_inv (P := P) any any n (NewPool, w0).1) as H0 by (exists 0%nat; apply NewPool_inv).
    change s with (s, w).1. revert H0. induction Hr as [|c1 c2 c3 Hc _ IH]; [done|]. eauto using pool_step_inv. }
  pose proof (pi_ok _ _ _ _ Hn) as Hok. split_and!; [done| |].
  - intros Hw. apply pool_live; [done|]. intros Hnil. apply Hw. destruct Hok as [-> _]. by rewrite Hnil.
  - intros i Hi. pose proof (step_nth_any coinID currency n i s w Hn Hi) as Hc.
    destruct (fst (step_nth coinID currency i s w)); [apply Hc|done].
Qed.
End compute_properties.

(** The three providers of [Demo]: two agree, so the third cannot matter. *)
Definition demo_engine : ConsensusEngine := NewConsensusEngine (mkCConfig true 2 (f_of_int 5) Second).
Definition demo_prices : list Price :=
  (fun v => basicPrice "bitcoin" "usd" (dec_NewFromInt v) "" 0 0) <$> [5000; 100; 101].

Lemma median_robust_witness : exists r, computeResult demo_engine demo_prices = Some r /\
  (99 - div_ulp <= dval (cr_MedianPrice r) <= 102 + div_ulp)%Q.
Proof.
  destruct (computeResult_defined demo_engine demo_prices eq_refl) as (r & Hr & _).
  exists r. split; [exact Hr|]. apply (median_robust demo_engine demo_prices r 99 102 Hr).
  apply Nat.ltb_lt. vm_compute. reflexivity.
Defined.

Lemma computeResult_spec_witness : exists r, computeResult demo_engine demo_prices = Some r /\
  cr_Prices r ≡ₚ demo_prices.
Proof.
  destruct (computeResult_spec demo_engine demo_prices eq_refl) as (r & Hr & Hp & _).
  exists r. split; assumption.
Defined.

Lemma Compute_sound_witness : exists r,
  fst (Compute demo_engine "bitcoin" "usd" 5 demo_world) = Returns r /\
  consensus_sound (fun p => CoinID p = "bitcoin"%string) demo_engine 5 r.
Proof.
  pose proof (Compute_sound (W := World.world provider RoundRobinStrategy) (P := provider)
    (fun p => CoinID p = "bitcoin"%string) demo_engine "bitcoin" "usd" 5 demo_world) as Hs.
  destruct (fst (Compute demo_engine "bitcoin" "usd" 5 demo_world)) as [r| |] eqn:E.
  - exists r. split; [reflexivity|]. apply Hs; [|reflexivity]. intros p w pr w' Hp. by apply demo_answers in Hp as [? _].
  - exfalso. apply Hs; [|reflexivity]. intros p w pr w' Hp. by apply demo_answers in Hp as [? _].
  - exfalso. destruct Hs as (p & w & w' & Hp); [|reflexivity|by apply demo_no_panic in Hp].
    intros p w pr w' Hp. by apply demo_answers in Hp as [? _].
Defined.

(** Two goroutines are started; the first one steps. *)
Lemma pool_never_stuck_witness : exists s w,
  rtc (pool_step "bitcoin" "usd") (NewPool, demo_world) (s, w) /\ pl_wg s <> 0 /\ runnable s <> [].
Proof.
  destruct (step_nth "bitcoin" "usd" 0 (spawn_go gemini (spawn_go kraken NewPool)) demo_world) as [[s|] w] eqn:E.
  2:{ exfalso. apply (f_equal (fun x => match x.1 with Some _ => true | None => false end)) in E. vm_compute in E. discriminate E. }
  assert (rtc (pool_step "bitcoin" "usd") (NewPool, demo_world) (s, w)) as Hr.
  { eapply rtc_l; [apply (ps_spawn _ _ kraken)|]. eapply rtc_l; [apply (ps_spawn _ _ gemini)|].
    apply rtc_once. eapply ps_go; [|exact E]. left. }
  exists s, w. assert (pl_wg s <> 0) as Hw.
  { intros Hw. apply (f_equal (fun x => match x.1 with Some s => pl_wg s | None => 0 end)) in E.
    cbn [fst] in E. rewrite Hw in E. vm_compute in E. discriminate E. }
  split; [exact Hr|]. split; [exact Hw|].
  exact (proj1 (proj2 (pool_never_stuck "bitcoin" "usd" demo_world s w Hr)) Hw).
Defined.
