(* ===== verification/PriceService.v ===== *)
(** * internal/app: price_service.go, price_service_convert.go, price_service_address.go

    The price service against the interfaces of [Ports].  Its state is the
    world, its two counters, the metric points it recorded and the goroutines
    it started.  A [None] is a panic, which the caller may recover from, unless
    [crashed] says that a goroutine of a consensus has panicked, which nobody
    recovers from: the process has ended. *)
From S2P Require Import Prelude GoLib GoStrings Decimal Model Strategies MemCache MemStore Registry.
From S2P Require Import Ports World Demo Validator Consensus.
From Stdlib Require Import QArith Lqa.
Open Scope Z_scope.

Section service.
Context {O : DecimalOps} `{!SortSlice} `{!GoFmt} `{!Unicode}.
Context {W P T : Type} `{!ClockOps W} `{!Scheduler W}.
Context `{PP : !PriceProvider W P} `{PR : !ProviderRouter W P} `{CO : !CacheOps W}
  `{PS : !PriceStore W} `{TP : !TokenPriceProvider W T} `{RG : !RegistryOps W}.

(** The counters and histograms of the meter. *)
Inductive metric :=
  | MRequest
  | MCacheHit
  | MProviderError (name : string)
  | MProviderLatency (name : string) (elapsed : Duration).
(** The goroutines it starts and does not wait for. *)
Inductive task := TaskSave (p : Price) | TaskNotify (p : Price).

(** [PriceServiceDeps]; a dependency that may be nil is an option, or a flag
    when its operations come from an interface. *)
Record PriceServiceDeps := mkDeps {
  d_Cache : bool;
  d_Store : bool;
  d_CacheTTL : Duration;
  d_MaxRetries : Z;
  d_Listener : bool;
  d_Validator : option PriceValidator;
  d_Outlier : option OutlierDetector;
  d_Consensus : option ConsensusEngine;
  d_ResponseMode : string;
  d_Registry : bool;
  d_TokenProviders : list T }.

Record PriceService := mkPriceService {
  s_cache : bool;
  s_store : bool;
  s_cacheTTL : Duration;
  s_maxRetries : Z;
  s_listener : bool;
  s_validator : option PriceValidator;
  s_outlier : option OutlierDetector;
  s_consensus : option ConsensusEngine;
  s_responseMode : string;
  s_registry : bool;
  s_tokenProviders : list T;
  s_startTime : Time }.

Definition NewPriceService (now : Time) (deps : PriceServiceDeps) : PriceService :=
  let retries := d_MaxRetries deps in
  let retries := if retries <=? 0 then 1 else retries in
  mkPriceService (d_Cache deps) (d_Store deps) (d_CacheTTL deps) retries (d_Listener deps)
    (d_Validator deps) (d_Outlier deps) (d_Consensus deps) (d_ResponseMode deps)
    (d_Registry deps) (d_TokenProviders deps) now.

Record svc := mkSvc {
  world : W;
  requestCount : Z;
  cacheHitCount : Z;
  metrics : list metric;
  tasks : list task;
  crashed : bool }.

Definition on_world {A} (m : M W A) : M svc A := fun s =>
  let '(a, w) := m (world s) in
  (a, mkSvc w (requestCount s) (cacheHitCount s) (metrics s) (tasks s) (crashed s)).
Definition emit (x : metric) : M svc unit := fun s =>
  (tt, mkSvc (world s) (requestCount s) (cacheHitCount s) (metrics s ++ [x]) (tasks s) (crashed s)).
Definition spawn (b : bool) (x : task) : M svc unit := fun s =>
  (tt, mkSvc (world s) (requestCount s) (cacheHitCount s) (metrics s)
         (if b then tasks s ++ [x] else tasks s) (crashed s)).
Definition count_request : M svc unit := fun s =>
  (tt, mkSvc (world s) (wrap64 (requestCount s + 1)) (cacheHitCount s) (metrics s) (tasks s) (crashed s)).
Definition count_cache_hit : M svc unit := fun s =>
  (tt, mkSvc (world s) (requestCount s) (wrap64 (cacheHitCount s + 1)) (metrics s) (tasks s) (crashed s)).
Definition crash : M svc unit := fun s =>
  (tt, mkSvc (world s) (requestCount s) (cacheHitCount s) (metrics s) (tasks s) true).
(** A call that waits for goroutines. *)
Definition on_called {A} (m : M W (called A)) : PM svc A :=
  o <- on_world m ;;
  match o with Returns a => retp a | Panics => ret None | Gone => crash ;;; ret None end.
(** Run a call whose result the code drops, when a dependency is present. *)
Definition when_dep {A} (b : bool) (m : M W A) : M svc unit :=
  if b then on_world m ;;; ret tt else ret tt.

Definition cache_lookup (s : PriceService) (coinID currency : string) : M svc (option Price) :=
  if s_cache s then
    r <- on_world (cache_Get coinID currency) ;;
    ret (match r with (Some p, None) => Some p | _ => None end)
  else ret None.

Definition consensusPrice (coinID currency : string) (now : Time) (cr : ConsensusResult) : Price :=
  basicPrice coinID currency (cr_MedianPrice cr) "consensus" now now.

(** The consensus branch; [None] falls through to a single provider. *)
Definition consensus_mode (s : PriceService) (coinID currency : string) :
    PM svc (option Price) :=
  match s_consensus s with
  | Some e =>
      if bool_decide (s_responseMode s = "consensus"%string) then
        r <~ on_called (Compute e coinID currency 5) ;;
        match r with
        | (Some cr, None) =>
            if fgtb (cr_Confidence cr) fzero then
              now <- on_world w_Now ;;
              let price := consensusPrice coinID currency now cr in
              when_dep (s_cache s) (cache_Set price (s_cacheTTL s)) ;;;
              spawn (s_store s) (TaskSave price) ;;;
              spawn (s_listener s) (TaskNotify price) ;;;
              retp (Some price)
            else retp None
        | _ => retp None
        end
      else retp None
  | None => retp None
  end.

(** The checks on a provider's answer: [Some e] rejects it.  The comparison
    with the cached price is only logged, but it may panic. *)
Definition check_price (s : PriceService) (coinID currency : string) (price : Price) :
    PM svc (option error) :=
  match s_validator s with
  | None => retp None
  | Some v =>
      now <- on_world w_Now ;;
      match Validate now v price with
      | Some e => retp (Some e)
      | None =>
          if s_cache s then
            ref <- on_world (cache_Get coinID currency) ;;
            now <- on_world w_Now ;;
            _ <~ of_option (ValidateAgainstReference now v price ref.1) ;;
            retp None
          else retp None
      end
  end.

(** One turn of the retry loop. *)
Inductive attempt := Answered (p : Price) | Failed (e : error).

Definition try_provider (s : PriceService) (coinID currency : string) (provider : P) :
    PM svc attempt :=
  let name := pp_Name provider in
  start <- on_world w_Now ;;
  r <~ on_world (pp_GetPrice provider coinID currency) ;;
  stop <- on_world w_Now ;;
  let elapsed := time_Since stop start in
  match r with
  | inr e =>
      on_world (rt_ReportFailure name e) ;;;
      emit (MProviderError name) ;;;
      retp (Failed e)
  | inl price =>
      emit (MProviderLatency name elapsed) ;;;
      on_world (rt_ReportSuccess name elapsed) ;;;
      v <~ check_price s coinID currency price ;;
      match v with
      | Some e => on_world (rt_ReportFailure name e) ;;; retp (Failed e)
      | None =>
          when_dep (s_cache s) (cache_Set price (s_cacheTTL s)) ;;;
          when_dep (s_store s) (ps_Save price) ;;;
          spawn (s_listener s) (TaskNotify price) ;;;
          retp (Answered price)
      end
  end.

(** The retry loop: the price, or the last error. *)
Fixpoint retry_loop (s : PriceService) (coinID currency : string) (attempts : nat)
    (tried : gset string) (lastErr : option error) : PM svc (Price + option error) :=
  match attempts with
  | 0%nat => retp (inr lastErr)
  | S attempts =>
      r <- on_world (rt_Select coinID) ;;
      match r with
      | (_, Some e) => retp (inr (Some e))
      | (None, None) => ret None (* a nil provider: [provider.Name()] panics *)
      | (Some provider, None) =>
          if bool_decide (pp_Name provider ∈ tried) then retp (inr lastErr) else
          a <~ try_provider s coinID currency provider ;;
          match a with
          | Answered p => retp (inl p)
          | Failed e =>
              retry_loop s coinID currency attempts ({[pp_Name provider]} ∪ tried) (Some e)
          end
      end
  end.

Definition GetPrice (s : PriceService) (coinID currency : string) : PM svc (result Price) :=
  count_request ;;;
  emit MRequest ;;;
  cached <- cache_lookup s coinID currency ;;
  match cached with
  | Some p => count_cache_hit ;;; emit MCacheHit ;;; retp (ok p)
  | None =>
      c <~ consensus_mode s coinID currency ;;
      match c with
      | Some p => retp (ok p)
      | None =>
          r <~ retry_loop s coinID currency (Z.to_nat (s_maxRetries s)) ∅ None ;;
          match r with
          | inl p => retp (ok p)
          | inr lastErr =>
              if s_store s then
                latest <- on_world (ps_GetLatest coinID currency) ;;
                match latest.1 with
                | Some p => retp (ok p)
                | None => retp (None, lastErr)
                end
              else retp (None, lastErr)
          end
      end
  end.

Fixpoint GetPrices_loop (s : PriceService) (coinIDs : list string) (currency : string)
    (results : list Price) (errs : gmap string error) :
    PM svc (list Price * gmap string error) :=
  match coinIDs with
  | [] => retp (results, errs)
  | id :: coinIDs =>
      r <~ GetPrice s id currency ;;
      match r with
      | (_, Some e) => GetPrices_loop s coinIDs currency results (<[id := e]> errs)
      | (Some p, None) => GetPrices_loop s coinIDs currency (results ++ [p]) errs
      | (None, None) => ret None
      end
  end.
Definition GetPrices (s : PriceService) (coinIDs : list string) (currency : string) :=
  GetPrices_loop s coinIDs currency [] ∅.

Definition GetOHLC (s : PriceService) (coinID currency : string) (from to : Time)
    (interval : Duration) : M svc (list OHLC * option error) :=
  if s_store s then on_world (ps_GetOHLC coinID currency from to interval)
  else ret ([], Some (Errorf "price store not configured")).

Definition Stats (s : PriceService) : M svc (Z * Z * Duration) :=
  now <- on_world w_Now ;;
  fun st => ((requestCount st, cacheHitCount st, time_Since now (s_startTime s)), st).

(** ** price_service_convert.go *)
Record ConvertResult := mkConvert {
  cv_From : string; cv_To : string; cv_Amount : decimal; cv_Result : decimal;
  cv_Rate : decimal; cv_ViaCurrency : string }.

Definition Convert (s : PriceService) (fromCoin toCoin : string) (amount : decimal)
    (viaCurrency : string) : PM svc (result ConvertResult) :=
  fp <~ GetPrice s fromCoin viaCurrency ;;
  match fp with
  | (_, Some e) => retp (err (Wrapf ("getting " +:+ fromCoin +:+ " price: ") e ""))
  | (fp, None) =>
      tp <~ GetPrice s toCoin viaCurrency ;;
      match tp with
      | (_, Some e) => retp (err (Wrapf ("getting " +:+ toCoin +:+ " price: ") e ""))
      | (tp, None) =>
          fromPrice <~ of_option fp ;;
          if dec_IsZero (Value fromPrice)
          then retp (err (Errorf ("price for " +:+ fromCoin +:+ " is zero"))) else
          toPrice <~ of_option tp ;;
          if dec_IsZero (Value toPrice)
          then retp (err (Errorf ("price for " +:+ toCoin +:+ " is zero"))) else
          rate <~ of_option (dec_Div (Value fromPrice) (Value toPrice)) ;;
          retp (ok (mkConvert fromCoin toCoin amount (dec_Mul amount rate) rate viaCurrency))
      end
  end.

(** ** price_service_address.go *)
Record AddressPriceResult := mkAddressPrice { ap_Price : option Price; ap_ResolvedVia : string }.

Fixpoint ask_token_providers (s : PriceService) (tps : list T) (chain address currency : string) :
    PM svc (result AddressPriceResult) :=
  match tps with
  | [] => retp (err ErrCoinNotFound)
  | tp :: tps =>
      if tp_SupportsChain tp chain then
        r <~ on_world (tp_GetPriceByAddress tp chain address currency) ;;
        match r with
        | inr _ => ask_token_providers s tps chain address currency
        | inl price =>
            when_dep (s_registry s) (rg_Add chain address (CoinID price)) ;;;
            retp (ok (mkAddressPrice (Some price) "direct"))
        end
      else ask_token_providers s tps chain address currency
  end.

Definition GetPriceByAddress (s : PriceService) (chain address currency : string) :
    PM svc (result AddressPriceResult) :=
  let address := ToLower address in
  let chain := ToLower chain in
  found <- (if s_registry s then on_world (rg_Resolve chain address) else ret None) ;;
  match found with
  | Some coinID =>
      r <~ GetPrice s coinID currency ;;
      match r with
      | (_, Some e) => retp (err e)
      | (price, None) => retp (ok (mkAddressPrice price "registry"))
      end
  | None => ask_token_providers s (s_tokenProviders s) chain address currency
  end.
End service.

(** ** Behaviour *)
Section behaviour.
Context {O : DecimalOps} {L : DecimalLaws O} `{!SortSlice} `{!GoFmt} `{!Unicode}.
Context {W P T : Type} `{!ClockOps W} `{!Scheduler W}.
Context `{PP : !PriceProvider W P} `{PR : !ProviderRouter W P} `{CO : !CacheOps W}
  `{PS : !PriceStore W} `{TP : !TokenPriceProvider W T} `{RG : !RegistryOps W}.
Context `{RL : !RouterLaws W P}.
Variables (s : PriceService (T := T)) (coinID currency : string).
Notation svc := (svc (W := W)).
Implicit Types st : svc.

(** The thresholds of the configuration are numbers, as every configuration
    file's are. *)
Definition finite_service : Prop :=
  (forall v, s_validator s = Some v -> finite_config (pv_cfg v)) /\
  (forall e, s_consensus s = Some e -> float_finite (cc_MaxDeviation (ce_cfg e)) = true).

(** Some provider answered this price for the pair. *)
Definition answered (p : Price) : Prop :=
  exists prov w w', pp_GetPrice (W := W) (P := P) prov coinID currency w = (Some (inl p), w').
Definition validated (p : Price) : Prop :=
  forall v, s_validator s = Some v -> exists now, Validate now v p = None.

(** Where a price may come from. *)
Inductive provenance : Price -> Prop :=
  | FromCache p w w' :
      s_cache s = true -> cache_Get (W := W) coinID currency w = ((Some p, None), w') -> provenance p
  | FromConsensus now cr :
      s_responseMode s = "consensus"%string ->
      Forall answered (cr_Prices cr) -> cr_Prices cr <> [] ->
      median (cr_Prices cr) = Some (cr_MedianPrice cr) -> dec_IsZero (cr_MedianPrice cr) = false ->
      provenance (consensusPrice coinID currency now cr)
  | FromProvider p : answered p -> validated p -> provenance p
  | FromStore p w r w' :
      s_store s = true -> ps_GetLatest (W := W) coinID currency w = ((Some p, r), w') -> provenance p.

(** The providers whose answer or error was recorded, in order. *)
Definition provider_names (ms : list metric) : list string :=
  omap (fun m => match m with
    | MProviderError n | MProviderLatency n _ => Some n | _ => None end) ms.

(** The call panics only when a provider does. *)
Notation panics := (provider_panics (W := W) (P := P) coinID currency).

(** A step that records nothing. *)
Definition quiet (st st' : svc) : Prop :=
  metrics st' = metrics st /\ requestCount st' = requestCount st /\
  cacheHitCount st' = cacheHitCount st.
#[local] Instance quiet_preorder : PreOrder quiet.
Proof. split; red; unfold quiet; [done|]. intuition congruence. Qed.

Lemma on_world_quiet {A} (m : M W A) : keeps quiet (on_world m).
Proof. intros st. unfold on_world. by destruct (m (world st)). Qed.
Lemma spawn_quiet b x : keeps quiet (spawn b x).
Proof. by intros st. Qed.
Lemma when_dep_quiet {A} b (m : M W A) : keeps quiet (when_dep b m).
Proof.
  unfold when_dep. destruct b; [|by apply keeps_ret, _].
  apply keeps_bind; [apply _|apply on_world_quiet|]. intros. apply keeps_ret, _.
Qed.
Lemma on_world_fst {A} (m : M W A) st : fst (on_world m st) = fst (m (world st)).
Proof. unfold on_world. by destruct (m (world st)). Qed.

(** Step over a recording-free call, remembering that it is one. *)
Lemma runs_quiet {A B} E (m : M svc A) (k : A -> PM svc B) st0 st Q :
  keeps quiet m -> quiet st0 st ->
  (forall st', quiet st0 st' -> runs_unless E (k (fst (m st))) st' Q) -> runs_unless E (bind m k) st Q.
Proof. intros Hm Hq Hk. apply runs_bind, Hk. etrans; [exact Hq|apply Hm]. Qed.

Hint Resolve on_world_quiet spawn_quiet when_dep_quiet : keeps.
Hint Extern 1 (quiet _ _) => reflexivity : keeps.

Tactic Notation "quiet_step" ident(st) ident(Hq) :=
  eapply runs_quiet; [solve [eauto with keeps]|eassumption|]; intros st Hq.

Lemma check_price_spec price st : finite_service ->
  runs (check_price s coinID currency price) st (fun r st' => quiet st st' /\
    match r with
    | None => validated price
    | Some e => exists v now, s_validator s = Some v /\ Validate now v price = Some e
    end).
Proof.
  intros [Hv _]. unfold check_price, validated. assert (quiet st st) as Hq by reflexivity.
  destruct (s_validator s) as [v|]; [|by apply runs_retp].
  quiet_step st1 Hq1. rewrite on_world_fst. destruct (Validate _ v price) eqn:E.
  { apply runs_retp. split; [done|]. eauto. }
  destruct (s_cache s); [|apply runs_retp; split; [done|]; intros; simplify_eq; eauto].
  quiet_step st2 Hq2. quiet_step st3 Hq3. apply runs_bindp. unfold of_option, runs_unless at 1, ret.
  match goal with |- context [ValidateAgainstReference ?n ?v ?p ?r] =>
    destruct (ValidateAgainstReference_defined n v p r (Hv _ eq_refl)) as [x ->] end.
  split; [done|]. intros; simplify_eq; eauto.
Qed.

(** A turn of the loop asks one provider, once. *)
Lemma try_provider_spec p st : finite_service ->
  runs_unless panics (try_provider s coinID currency p) st (fun a st' =>
    requestCount st' = requestCount st /\ cacheHitCount st' = cacheHitCount st /\
    (exists m, metrics st' = metrics st ++ [m] /\
       match m with MProviderError n | MProviderLatency n _ => n = pp_Name p | _ => False end) /\
    match a with Answered price => answered price /\ validated price | Failed _ => True end).
Proof.
  intros Hf. unfold try_provider. assert (quiet st st) as Hq by reflexivity.
  quiet_step st0 Hq0.
  apply runs_bind. rewrite on_world_fst.
  assert (quiet st (snd (on_world (pp_GetPrice p coinID currency) st0))) as Hq1
    by (etrans; [exact Hq0|apply on_world_quiet]).
  destruct (pp_GetPrice p coinID currency (world st0)) as [[r|] w1] eqn:Er; cbn [fst]; [|by exists p, (world st0), w1].
  quiet_step st1 Hq2. destruct r as [price|e].
  - apply runs_bind. set (st2 := snd (emit _ _)).
    assert (quiet st2 st2) as Hq3 by reflexivity.
    quiet_step st3 Hq4. apply runs_bindp.
    eapply runs_mono; [|eapply runs_weaken; [|apply (check_price_spec price st3 Hf)]; done].
    intros v st4 [Hq5 Hv]. assert (quiet st2 st4) as Hq6 by (by etrans).
    assert (answered price) by (unfold answered; eauto).
    assert (forall st', quiet st2 st' -> requestCount st' = requestCount st /\
      cacheHitCount st' = cacheHitCount st /\
      exists m, metrics st' = metrics st ++ [m] /\ match m with
        MProviderError n | MProviderLatency n _ => n = pp_Name p | _ => False end) as Hend.
    { intros st' (-> & -> & ->). unfold st2, emit. simpl. destruct Hq2 as (-> & -> & ->). 
      split_and!; [done..|]. eexists. split; [reflexivity|done]. }
    destruct v as [e|].
    + quiet_step st5 Hq7. apply runs_retp. destruct (Hend _ Hq7) as (?&?&?). split_and!; eauto.
    + quiet_step st5 Hq7. quiet_step st6 Hq8. quiet_step st7 Hq9. apply runs_retp.
      destruct (Hend _ Hq9) as (?&?&?). split_and!; eauto.
  - quiet_step st2 Hq3. apply runs_bind, runs_retp. unfold emit. simpl.
    destruct Hq3 as (-> & -> & ->). split_and!; [done..| |done].
    eexists. split; [reflexivity|done].
Qed.

Lemma provider_names_snoc ms m : provider_names (ms ++ [m]) = provider_names ms ++ provider_names [m].
Proof. unfold provider_names. by rewrite omap_app. Qed.

(** What the loop did: it asked the providers [names], each once, none of them
    tried before. *)
Definition asked (tried : gset string) (n : nat) st st' (names : list string) : Prop :=
  requestCount st' = requestCount st /\ cacheHitCount st' = cacheHitCount st /\
  provider_names (metrics st') = provider_names (metrics st) ++ names /\
  NoDup names /\ (forall x, x ∈ names -> x ∉ tried) /\ (length names <= n)%nat.

Lemma asked_nil tried n st st' : quiet st st' -> asked tried n st st' [].
Proof.
  intros (Hm & Hr & Hc). unfold asked. rewrite Hm, Hr, Hc, app_nil_r.
  split_and!; [done|done|done|constructor|set_solver|simpl; lia].
Qed.

Lemma retry_loop_spec n : forall tried lastErr st, finite_service ->
  runs_unless panics (retry_loop s coinID currency n tried lastErr) st (fun r st' =>
    (exists names, asked tried n st st' names) /\
    match r with
    | inl p => answered p /\ validated p
    | inr lastErr' => (n <> 0%nat /\ tried = ∅ \/ is_Some lastErr) -> is_Some lastErr'
    end).
Proof.
  induction n as [|n IH]; intros tried lastErr st Hf; simpl.
  { apply runs_retp. split; [exists []; by apply asked_nil|]. naive_solver. }
  assert (quiet st st) as Hq by reflexivity.
  quiet_step st1 Hq1. rewrite on_world_fst.
  destruct (rt_Select_shape (P := P) coinID (world st)) as [[p ->]| ->].
  2:{ apply runs_retp. split; [exists []; by apply asked_nil|done]. }
  simpl. case_bool_decide as Ht.
  { apply runs_retp. split; [exists []; by apply asked_nil|].
    intros [[_ ->]|?]; [set_solver|done]. }
  apply runs_bindp. eapply runs_mono; [|by apply try_provider_spec].
  intros a st2 (Hr & Hc & (m & Hm & Hn) & Ha). destruct Hq1 as (Hm1 & Hr1 & Hc1).
  assert (provider_names (metrics st2) = provider_names (metrics st) ++ [pp_Name p]) as Hnames.
  { rewrite Hm, Hm1, provider_names_snoc. destruct m; try done; simpl; by subst. }
  destruct a as [price|e].
  - apply runs_retp. split; [|done]. exists [pp_Name p]. unfold asked.
    rewrite Hnames, Hr, Hc. split_and!; [done|done|done|apply NoDup_singleton|set_solver|simpl; lia].
  - eapply runs_mono; [|by apply IH]. intros r st3 [(names & Ha1 & Ha2 & Ha3 & Ha4 & Ha5 & Ha6) Hres].
    split.
    + exists (pp_Name p :: names). unfold asked. rewrite Ha1, Ha2, Ha3, Hnames, Hr, Hc, Hr1, Hc1.
      split_and!; [done|done|by rewrite <- app_assoc|constructor; [|done]|set_solver|simpl; lia].
      intros Hin%Ha5. set_solver.
    + destruct r; [done|]. intros _. apply Hres. right. eauto.
Qed.

Lemma consensus_mode_spec st : finite_service ->
  runs_unless panics (consensus_mode s coinID currency) st (fun r st' => quiet st st' /\
    match r with Some p => provenance p | None => True end).
Proof.
  intros [_ Hf]. unfold consensus_mode. assert (quiet st st) as Hq by reflexivity.
  destruct (s_consensus s) as [e|]; [|by apply runs_retp].
  case_bool_decide as Hmode; [|by apply runs_retp].
  apply runs_bindp. unfold on_called.
  pose proof (Compute_total (W := W) (P := P) answered e coinID currency 5 (world st)) as Hs.
  quiet_step st1 Hq1. rewrite on_world_fst.
  destruct (fst (Compute e coinID currency 5 (world st))) as [r| |]; simpl in Hs.
  2:{ exfalso. apply Hs; [unfold answered; eauto|by apply Hf]. }
  2:{ apply Hs; [unfold answered; eauto|by apply Hf]. }
  apply runs_retp. specialize (Hs (fun p w pr w' Hp => ex_intro _ p (ex_intro _ w (ex_intro _ w' Hp))) (Hf _ eq_refl)).
  destruct r as [[cr|] [er|]]; try (by apply runs_retp).
  destruct (fgtb _ _) eqn:Ec; [|by apply runs_retp].
  destruct Hs as (Hall & _ & Hpos). destruct (Hpos Ec) as (Hne & _ & Hmed & Hz).
  quiet_step st2 Hq2. quiet_step st3 Hq3. quiet_step st4 Hq4. quiet_step st5 Hq5.
  apply runs_retp. split; [done|]. by apply FromConsensus.
Qed.

(** The whole of [GetPrice]: exactly one of a price and an error, the price
    from one of the four places, and the providers asked along the way. *)
Definition served st (r : result Price) (st' : svc) : Prop :=
  requestCount st' = wrap64 (requestCount st + 1) /\
  (exists names, provider_names (metrics st') = provider_names (metrics st) ++ names /\
     NoDup names /\ Z.of_nat (length names) <= s_maxRetries s) /\
  match r with
  | (Some p, None) => provenance p
  | (None, Some _) => True
  | _ => False
  end.

Lemma quiet_names st st' : quiet st st' -> 1 <= s_maxRetries s -> exists names,
  provider_names (metrics st') = provider_names (metrics st) ++ names /\
  NoDup names /\ Z.of_nat (length names) <= s_maxRetries s.
Proof.
  intros (-> & _ & _) Hm. exists []. rewrite app_nil_r. split_and!; [done|constructor|simpl; lia].
Qed.

Lemma cache_lookup_spec st : keeps quiet (cache_lookup s coinID currency) /\
  forall p, fst (cache_lookup s coinID currency st) = Some p -> provenance p.
Proof.
  unfold cache_lookup. split.
  - destruct (s_cache s); [|apply keeps_ret, _].
    apply keeps_bind; [apply _|apply on_world_quiet|]. intros. apply keeps_ret, _.
  - intros p. destruct (s_cache s) eqn:Ec; [|done]. unfold bind, on_world, ret. simpl.
    destruct (cache_Get coinID currency (world st)) as [[[q|] [e|]] w] eqn:E; intros; simplify_eq/=.
    by eapply FromCache.
Qed.

Lemma GetPrice_cached st p w : s_cache s = true -> cache_Get coinID currency (world st) = (ok p, w) ->
  GetPrice (P := P) s coinID currency st = (Some (ok p),
    mkSvc w (wrap64 (requestCount st + 1)) (wrap64 (cacheHitCount st + 1))
      (metrics st ++ [MRequest; MCacheHit]) (tasks st) (crashed st)).
Proof.
  intros Hc Hg. unfold GetPrice, bind, cache_lookup. rewrite Hc.
  unfold on_world, count_request, count_cache_hit, emit, retp, ret. simpl. unfold bind. simpl. rewrite Hg. simpl.
  by rewrite <- app_assoc.
Qed.

Lemma GetPrice_spec st : finite_service -> 1 <= s_maxRetries s ->
  runs_unless panics (GetPrice s coinID currency) st (served st).
Proof.
  intros Hf Hm. unfold GetPrice. apply runs_bind, runs_bind. set (st1 := snd (emit _ _)).
  assert (quiet st1 st1) as Hq by reflexivity.
  assert (requestCount st1 = wrap64 (requestCount st + 1)) as Hr1 by done.
  assert (provider_names (metrics st1) = provider_names (metrics st)) as Hn1.
  { unfold st1. simpl. by rewrite provider_names_snoc, app_nil_r. }
  destruct (cache_lookup_spec st1) as [Hck Hcp].
  eapply runs_quiet; [exact Hck|exact Hq|]. intros st2 Hq2.
  destruct (fst (cache_lookup s coinID currency st1)) as [p|].
  { apply runs_bind, runs_bind, runs_retp. destruct Hq2 as (Hm2 & Hr2 & _). unfold served.
    simpl. rewrite Hr2, Hm2, provider_names_snoc, app_nil_r, Hn1. split_and!; [done| |by apply Hcp].
    exists []. rewrite app_nil_r. split_and!; [done|constructor|simpl; lia]. }
  apply runs_bindp. eapply runs_mono; [|by apply consensus_mode_spec].
  intros c st3 [Hq3 Hc]. assert (quiet st1 st3) as Hq13 by (by etrans). destruct c as [p|].
  { apply runs_retp. unfold served. rewrite (proj1 (proj2 Hq13)), (proj1 Hq13), Hr1, Hn1.
    split_and!; [done| |done]. exists []. rewrite app_nil_r. split_and!; [done|constructor|simpl; lia]. }
  apply runs_bindp. eapply runs_mono; [|by apply retry_loop_spec].
  intros r st4 [(names & Hr & Hh & Hn & Hnd & _ & Hl) Hres].
  assert (forall st5 q, quiet st4 st5 ->
    match q with (Some p, None) => provenance p | (None, Some _) => True | _ => False end ->
    served st q st5) as Hend.
  { intros st5 q (Hm5 & Hr5 & _) Hq5. unfold served. rewrite Hm5, Hr5, Hr, (proj1 (proj2 Hq13)), Hr1.
    split_and!; [done| |done]. exists names.
    rewrite Hn, (proj1 Hq13), Hn1. split_and!; [done|done|lia]. }
  assert (quiet st4 st4) as Hq4 by reflexivity.
  destruct r as [p|lastErr].
  { apply runs_retp, Hend; [done|]. destruct Hres. by apply FromProvider. }
  destruct Hres as [e ->]; [left; split; [lia|done]|].
  destruct (s_store s) eqn:Es; [|by apply runs_retp, Hend].
  quiet_step st5 Hq5. rewrite on_world_fst.
  destruct (ps_GetLatest coinID currency (world st4)) as [[[p|] ex] w] eqn:El; simpl;
    apply runs_retp, Hend; try done. by eapply FromStore.
Qed.
End behaviour.

Section properties.
Context {O : DecimalOps} {L : DecimalLaws O} `{!SortSlice} `{!GoFmt} `{!Unicode}.
Context {W P T : Type} `{!ClockOps W} `{!Scheduler W}.
Context `{PP : !PriceProvider W P} `{PR : !ProviderRouter W P} `{CO : !CacheOps W}
  `{PS : !PriceStore W} `{TP : !TokenPriceProvider W T} `{RG : !RegistryOps W}.
Context `{RL : !RouterLaws W P}.
Variables (now : Time) (deps : PriceServiceDeps (T := T)).
Notation s := (NewPriceService now deps).
Notation panics := (provider_panics (W := W) (P := P)).
Implicit Types st : svc (W := W).

Lemma NewPriceService_retries : 1 <= s_maxRetries s.
Proof. simpl. destruct (_ <=? 0) eqn:E; to_prop; lia. Qed.

Lemma GetPrice_runs coinID currency st : finite_service s ->
  runs_unless (panics coinID currency) (GetPrice s coinID currency) st (served s coinID currency st).
Proof. intros. apply GetPrice_spec; [done|apply NewPriceService_retries]. Qed.

(** C4. Every price the service returns has one of four origins: the cache; a
    consensus whose value is the non-zero median of a non-empty list of
    provider answers for this coin and currency, in consensus mode; the answer
    of a provider for this coin and currency that the validator accepted; or
    the store's latest price. *)
Theorem GetPrice_provenance coinID currency st p st' : finite_service s ->
  GetPrice s coinID currency st = (Some (ok p), st') -> provenance (P := P) (W := W) s coinID currency p.
Proof.
  intros Hf Hg. apply (runs_value _ _ _ _ _ (GetPrice_runs coinID currency st Hf)) in Hg.
  by destruct Hg as (_ & _ & ?).
Qed.


(** A price in the cache is returned as it is: no provider is asked, no
    goroutine is started, and the hit is counted. *)
Theorem GetPrice_cache_hit coinID currency st p w :
  s_cache s = true -> cache_Get coinID currency (world st) = (ok p, w) ->
  GetPrice (P := P) s coinID currency st = (Some (ok p),
    mkSvc w (wrap64 (requestCount st + 1)) (wrap64 (cacheHitCount st + 1))
      (metrics st ++ [MRequest; MCacheHit]) (tasks st) (crashed st)).
Proof. apply GetPrice_cached. Qed.

Lemma GetPrices_loop_spec currency : finite_service s ->
  forall coinIDs results errs st,
  runs_unless (exists id, id ∈ coinIDs /\ panics id currency) (GetPrices_loop s coinIDs currency results errs) st (fun r _ =>
    exists failed ps, r = (results ++ ps, list_to_map failed ∪ errs) /\
      (length ps + length failed = length coinIDs)%nat /\
      (forall id e, (id, e) ∈ failed -> id ∈ coinIDs) /\
      Forall (fun p => exists id, id ∈ coinIDs /\ provenance (P := P) (W := W) s id currency p) ps).
Proof.
  intros Hf coinIDs. induction coinIDs as [|id ids IH]; intros results errs st; simpl.
  { apply runs_retp. exists [], []. rewrite app_nil_r. simpl. rewrite (left_id_L ∅ (∪)).
    split_and!; [done|done|set_solver|constructor]. }
  apply runs_bindp. eapply runs_mono; [|eapply runs_weaken; [|by apply GetPrice_runs]; set_solver].
  intros r st1 (_ & _ & Hr). destruct r as [[p|] [e|]]; try done.
  - eapply runs_mono; [|eapply runs_weaken; [|apply IH]; set_solver]. intros r _ (failed & ps & -> & Hl & Hfa & Hps).
    exists failed, (p :: ps). rewrite <- app_assoc. split_and!; [done|simpl; lia|set_solver|].
    constructor; [set_solver|]. eapply Forall_impl; [exact Hps|]. set_solver.
  - eapply runs_mono; [|eapply runs_weaken; [|apply IH]; set_solver]. intros r _ (failed & ps & -> & Hl & Hfa & Hps).
    exists (failed ++ [(id, e)]), ps. split_and!.
    + rewrite list_to_map_app. simpl. rewrite insert_empty, insert_union_singleton_l.
      by rewrite (assoc_L (∪)).
    + rewrite length_app. simpl. lia.
    + intros id' e' [?|?]%elem_of_app; set_solver.
    + eapply Forall_impl; [exact Hps|]. set_solver.
Qed.

(** A batch panics only when a provider does; every coin asked for either adds a
    price of its own to the result or is recorded with an error, and the map of
    errors holds nothing else. *)
Theorem GetPrices_spec coinIDs currency st : finite_service s ->
  match GetPrices s coinIDs currency st with
  | (Some (ps, errs), _) => exists failed, errs = list_to_map failed /\
      (length ps + length failed = length coinIDs)%nat /\
      (forall id e, (id, e) ∈ failed -> id ∈ coinIDs) /\
      Forall (fun p => exists id, id ∈ coinIDs /\ provenance (P := P) (W := W) s id currency p) ps
  | (None, _) => exists id, id ∈ coinIDs /\ panics id currency
  end.
Proof.
  intros Hf. pose proof (GetPrices_loop_spec currency Hf coinIDs [] ∅ st) as Hr. unfold runs_unless in Hr.
  unfold GetPrices. destruct (GetPrices_loop _ _ _ _ _ _) as [[[ps errs]|] st']; [|done].
  destruct Hr as (failed & ps' & [= -> ->] & Hl & Hfa & Hps). exists failed. by rewrite (right_id_L ∅ (∪)).
Qed.


(** The first provider, in order, that supports the chain and answers. *)
Definition token_answer (r : result AddressPriceResult) (tps : list T) (chain address currency : string) : Prop :=
  match r with
  | (Some a, None) => ap_ResolvedVia a = "direct"%string /\
      exists pre tp post p w w', tps = pre ++ tp :: post /\ ap_Price a = Some p /\
        tp_SupportsChain (W := W) tp chain = true /\
        tp_GetPriceByAddress tp chain address currency w = (Some (inl p), w') /\
        Forall (fun t => tp_SupportsChain (W := W) t chain = false \/
          exists e w w', tp_GetPriceByAddress t chain address currency w = (Some (inr e), w')) pre
  | (None, Some e) => e = ErrCoinNotFound /\
      Forall (fun t => tp_SupportsChain (W := W) t chain = false \/
        exists e w w', tp_GetPriceByAddress t chain address currency w = (Some (inr e), w')) tps
  | _ => False
  end.

(** Some token provider panics when it is asked for the contract. *)
Definition token_panics (chain address currency : string) : Prop :=
  exists (t : T) (w w' : W), tp_GetPriceByAddress t chain address currency w = (None, w').

Lemma ask_token_providers_spec chain address currency : forall tps st,
  runs_unless (token_panics chain address currency) (ask_token_providers s tps chain address currency) st
    (fun r _ => token_answer r tps chain address currency).
Proof.
  induction tps as [|tp tps IH]; intros st; simpl; [by apply runs_retp|].
  assert (forall r, tp_SupportsChain (W := W) tp chain = false \/
      (exists e w w', tp_GetPriceByAddress tp chain address currency w = (Some (inr e), w')) ->
    token_answer r tps chain address currency -> token_answer r (tp :: tps) chain address currency) as Hcons.
  { intros [[a|] [e|]] Hno; simpl; try done.
    - intros (Hv & pre & tp' & post & p & w & w' & -> & ? & ? & ? & ?). split; [done|].
      exists (tp :: pre), tp', post, p, w, w'. split_and!; try done. by constructor.
    - intros [-> ?]. split; [done|]. by constructor. }
  destruct (tp_SupportsChain tp chain) eqn:Es; [|eapply runs_mono; [|apply IH]; cbv beta; auto].
  apply runs_bind. rewrite on_world_fst.
  destruct (tp_GetPriceByAddress tp chain address currency (world st)) as [[[p|e]|] w'] eqn:Ep; cbn [fst];
    [| |by exists tp, (world st), w'].
  - apply runs_bind, runs_retp. split; [done|]. by exists [], tp, tps, p, (world st), w'.
  - eapply runs_mono; [|apply IH]. cbv beta. intros r _. apply Hcons. right. eauto.
Qed.

End properties.

(** ** Witnesses *)
Definition demo_validator : PriceValidator :=
  NewPriceValidator (mkPVConfig true Minute (f_of_int 10) (f_of_int 1) (f_of_int 10) (f_of_int 50)).
Definition demo_deps : PriceServiceDeps (T := unit) :=
  mkDeps true true (30 * Second) 3 true (Some demo_validator) None (Some demo_engine) "single" true [tt].
Definition demo_service : PriceService := NewPriceService 0 demo_deps.
Definition demo_state : svc := mkSvc demo_world 0 0 [] [] false.

Lemma demo_finite : finite_service demo_service.
Proof. split; intros x Hx; injection Hx as <-; repeat split. Qed.

Lemma GetPrice_provenance_witness : exists p st',
  GetPrice demo_service "bitcoin" "usd" demo_state = (Some (ok p), st') /\
  provenance (P := provider) (W := World.world provider RoundRobinStrategy) demo_service "bitcoin" "usd" p.
Proof.
  destruct (GetPrice demo_service "bitcoin" "usd" demo_state) as [[[[p|] [e|]]|] st'] eqn:E.
  2:{ exists p, st'. split; [reflexivity|].
      exact (GetPrice_provenance 0 demo_deps "bitcoin" "usd" demo_state p st' demo_finite E). }
  all: exfalso; apply (f_equal (fun x => match x.1 with Some (Some _, None) => true | _ => false end)) in E;
    vm_compute in E; discriminate E.
Defined.

(** None of the providers of [Demo] panics. *)
Lemma demo_answers_all coin cur :
  ~ provider_panics (W := World.world provider RoundRobinStrategy) (P := provider) coin cur.
Proof. intros (p & w & w' & Hp). exact (demo_no_panic _ _ _ _ _ Hp). Qed.


(** A world whose cache holds a price. *)
Definition cached_world : World.world provider RoundRobinStrategy :=
  mkWorld demo_router demo_clock (Cache_Set 0 sample_price Minute NewCache) NewStore New [].

Lemma GetPrice_cache_hit_witness : exists w,
  GetPrice demo_service "bitcoin" "usd" (mkSvc cached_world 7 2 [] [] false) =
    (Some (ok sample_price), mkSvc w 8 3 [MRequest; MCacheHit] [] false).
Proof.
  eexists. apply (GetPrice_cache_hit 0 demo_deps "bitcoin" "usd" (mkSvc cached_world 7 2 [] [] false) sample_price
    (snd (cache_Get "bitcoin"%string "usd"%string cached_world))); reflexivity.
Defined.

Lemma GetPrices_spec_witness : exists ps failed st',
  GetPrices demo_service ["bitcoin"; "dogecoin"]%string "usd" demo_state = (Some (ps, list_to_map failed), st') /\
  (length ps + length failed = 2)%nat.
Proof.
  pose proof (GetPrices_spec 0 demo_deps ["bitcoin"; "dogecoin"]%string "usd" demo_state demo_finite) as Hs.
  change (NewPriceService 0 demo_deps) with demo_service in Hs.
  destruct (GetPrices demo_service ["bitcoin"; "dogecoin"]%string "usd" demo_state) as [[[ps errs]|] st'].
  - destruct Hs as (failed & -> & Hl & _). exists ps, failed, st'. split; [reflexivity|exact Hl].
  - destruct Hs as (id & _ & Hp). destruct (demo_answers_all _ _ Hp).
Defined.


