(* ===== verification/Asked.v ===== *)
(** * internal/app: which providers a price request asks

    The theorems of [PriceService] say what [GetPrice] returns.  Here the world
    also keeps a log of the calls of [PriceProvider.GetPrice], so that what can
    be said is how often it is called, and of whom: by the goroutines of a
    consensus and by the retry loop. *)
From S2P Require Import Prelude GoLib GoStrings Decimal Model Strategies Ports World Demo Validator Consensus PriceService.
From stdpp Require Import gmap strings.
Open Scope Z_scope.

(** ** Computations and what they log *)
Section logs_section.
Context {S : Type} (lg : S -> list string).

(** [logs m Q]: a run of [m] adds a list [l] to the log, and [Q l] holds of its value. *)
Definition logs {A} (m : M S A) (Q : list string -> A -> Prop) : Prop :=
  forall s, exists l, lg (snd (m s)) = lg s ++ l /\ Q l (fst (m s)).
Notation silent m := (logs m (fun l _ => l = [])).

Lemma logs_ret {A} (a : A) (Q : list string -> A -> Prop) : Q [] a -> logs (ret a) Q.
Proof. intros HQ s. exists []. by rewrite app_nil_r. Qed.
Lemma logs_mono {A} (m : M S A) (R Q : list string -> A -> Prop) :
  logs m R -> (forall l a, R l a -> Q l a) -> logs m Q.
Proof. intros Hm HQ s. destruct (Hm s) as (l & ? & ?). eauto. Qed.
Lemma logs_bind {A B} (m : M S A) (k : A -> M S B) R Q :
  logs m R -> (forall l a, R l a -> logs (k a) (fun l' b => Q (l ++ l') b)) -> logs (bind m k) Q.
Proof.
  intros Hm Hk s. rewrite bind_unfold. destruct (Hm s) as (l & Hl & HR).
  destruct (Hk l _ HR (snd (m s))) as (l' & -> & HQ). exists (l ++ l'). by rewrite Hl, app_assoc.
Qed.
Lemma logs_silent {A B} (m : M S A) (k : A -> M S B) Q :
  silent m -> (forall a, logs (k a) Q) -> logs (bind m k) Q.
Proof. intros Hm Hk. eapply logs_bind; [exact Hm|]. intros l a ->. apply Hk. Qed.
Lemma logs_bindp {A B} (m : PM S A) (k : A -> PM S B) R Q :
  logs m R -> (forall l a, R l (Some a) -> logs (k a) (fun l' b => Q (l ++ l') b)) ->
  (forall l, R l None -> Q l None) -> logs (bindp m k) Q.
Proof.
  intros Hm Hk Hn. eapply logs_bind; [exact Hm|]. intros l [a|] HR; [by apply Hk|].
  apply logs_ret. rewrite app_nil_r. by apply Hn.
Qed.
Lemma silent_bindp {A B} (m : PM S A) (k : A -> PM S B) :
  silent m -> (forall a, silent (k a)) -> silent (bindp m k).
Proof. intros Hm Hk. apply logs_silent; [exact Hm|]. intros [a|]; [apply Hk|by apply logs_ret]. Qed.
Lemma logs_silentp {A B} (m : PM S A) (k : A -> PM S B) (Q : list string -> option B -> Prop) :
  silent m -> (forall a, logs (k a) Q) -> Q [] None -> logs (bindp m k) Q.
Proof. intros Hm Hk Hn. apply logs_silent; [exact Hm|]. intros [a|]; [apply Hk|by apply logs_ret]. Qed.
End logs_section.
Notation silent lg m := (logs lg m (fun l _ => l = [])).

(** A world with a log of the providers asked: only their [GetPrice] writes to it. *)
Class CallLog (W P T : Type) {O : DecimalOps} `{!ClockOps W} `{!Scheduler W} `{!PriceProvider W P}
    `{!ProviderRouter W P} `{!CacheOps W} `{!PriceStore W} `{!TokenPriceProvider W T} `{!RegistryOps W} := {
  log : W -> list string;
  log_ask (p : P) coin cur : logs log (pp_GetPrice p coin cur) (fun l _ => l = [pp_Name p]);
  log_now : silent log w_Now;
  log_pick n : silent log (sch_pick n);
  log_select coin : silent log (rt_Select coin);
  log_success name d : silent log (rt_ReportSuccess name d);
  log_failure name e : silent log (rt_ReportFailure name e);
  log_cache_get coin cur : silent log (cache_Get coin cur);
  log_cache_set p d : silent log (cache_Set p d);
  log_save p : silent log (ps_Save p);
  log_latest coin cur : silent log (ps_GetLatest coin cur) }.

Section consensus_calls.
Context {O : DecimalOps} `{!SortSlice} {W P T : Type} `{!ClockOps W} `{!Scheduler W} `{!PriceProvider W P}
  `{!ProviderRouter W P} `{!CacheOps W} `{!PriceStore W} `{!TokenPriceProvider W T} `{!RegistryOps W}
  `{CL : !CallLog W P T}.
Variables (coinID currency : string).
Implicit Types (s : pool (P := P)) (l new : list string).
Notation asks := (logs (log (CallLog := CL))).

(** The goroutines that have not made their call yet. *)
Definition to_ask (g : goroutine (P := P)) : list string :=
  match g with GoStart p | GoCall p _ => [pp_Name (W := W) p] | _ => [] end.
Definition pending s : list string := pl_gos s ≫= to_ask.

Lemma pending_at i g s : pl_gos s !! i = Some g ->
  pending s = (take i (pl_gos s) ≫= to_ask) ++ to_ask g ++ (drop (S i) (pl_gos s) ≫= to_ask).
Proof.
  intros Hg. unfold pending. transitivity ((take i (pl_gos s) ++ g :: drop (S i) (pl_gos s)) ≫= to_ask);
    [by rewrite take_drop_middle|]. by rewrite bind_app.
Qed.
Lemma pending_set i g g' s s' : pl_gos s !! i = Some g -> pl_gos s' = <[i := g']> (pl_gos s) ->
  to_ask g ++ pending s' ≡ₚ to_ask g' ++ pending s.
Proof.
  intros Hg Hs'. rewrite (pending_at i g s Hg). unfold pending.
  rewrite Hs', insert_take_drop by by eapply lookup_lt_Some. rewrite bind_app. csimpl. solve_Permutation.
Qed.
Lemma pending_delete i s s' : pl_gos s !! i = Some GoDone -> pl_gos s' = delete i (pl_gos s) -> pending s' = pending s.
Proof. intros Hg Hs'. rewrite (pending_at i _ s Hg). unfold pending. by rewrite Hs', delete_take_drop, bind_app. Qed.
Lemma pending_spawn p s : pending (spawn_go p s) = pending s ++ [pp_Name (W := W) p].
Proof. unfold pending, spawn_go. simpl. by rewrite bind_app. Qed.

(** The calls [l] made on the way from [s] to the pool that is left, if one is,
    are of goroutines of [s] or of the ones started for [new]. *)
Definition left_to_ask (o : option (pool (P := P))) : list string :=
  match o with Some s' => pending s' | None => [] end.
Definition calls s new l (o : option (pool (P := P))) : Prop := l ++ left_to_ask o ⊆+ pending s ++ new.

Lemma calls_refl s : calls s [] [] (Some s).
Proof. unfold calls. simpl. by rewrite app_nil_r. Qed.
Lemma calls_trans s s' new new' l l' o : calls s new l (Some s') -> calls s' new' l' o ->
  calls s (new ++ new') (l ++ l') o.
Proof.
  unfold calls. simpl. intros H1 H2. rewrite <- app_assoc.
  etrans; [by apply submseteq_skips_l|]. rewrite !app_assoc. by apply submseteq_skips_r.
Qed.

Lemma step_nth_calls i s : asks (step_nth coinID currency i s) (calls s []).
Proof.
  assert (forall g g' s', pl_gos s !! i = Some g -> pl_gos s' = <[i := g']> (pl_gos s) -> to_ask g' = to_ask g ->
    asks (retp (S := W) s') (calls s [])) as Hsame.
  { intros g g' s' Hg Hs' He. apply logs_ret. unfold calls. simpl. rewrite app_nil_r.
    pose proof (pending_set i g g' s s' Hg Hs') as Hp. rewrite He in Hp. apply Permutation_app_inv_l in Hp. by rewrite Hp. }
  unfold step_nth. destruct (pl_gos s !! i) as [g|] eqn:Hg; [|apply logs_ret, calls_refl].
  destruct g as [p|p start|p start r|p elapsed [price|e]|price|price| |]; simpl.
  - eapply logs_silent; [apply log_now|]. intros. by eapply Hsame.
  - eapply logs_bindp; [apply log_ask| |].
    + intros l r ->. apply logs_ret. unfold calls. simpl. rewrite app_nil_r.
      pose proof (pending_set i _ (GoReturned p start r) s (set_go i (GoReturned p start r) s) Hg eq_refl) as Hp. simpl in Hp. by rewrite Hp.
    + intros l ->. unfold calls. simpl. rewrite (pending_at i _ s Hg). simpl. apply singleton_submseteq_l. set_solver.
  - eapply logs_silent; [apply log_now|]. intros. by eapply Hsame.
  - eapply logs_silent; [apply log_success|]. intros. by eapply Hsame.
  - eapply logs_silent; [apply log_failure|]. intros. by eapply Hsame.
  - by eapply Hsame.
  - by eapply Hsame.
  - by eapply Hsame.
  - destruct (_ <? 0); apply logs_ret; unfold calls; simpl; [apply submseteq_nil_l|].
    by erewrite app_nil_r, pending_delete.
Qed.

Lemma run_some_calls fuel : forall s, asks (run_some coinID currency fuel s) (calls s []).
Proof.
  induction fuel as [|fuel IH]; intros s; simpl; [apply logs_ret, calls_refl|].
  eapply logs_silent; [apply log_pick|]. intros [k|]; [|apply logs_ret, calls_refl].
  destruct (runnable s !! k) as [i|]; [|apply IH].
  eapply logs_bindp; [apply step_nth_calls| |done].
  intros l s' Hl. eapply logs_mono; [apply IH|]. intros l' o. by apply (calls_trans s s' [] []).
Qed.
Lemma wait_all_calls fuel : forall s, asks (wait_all coinID currency fuel s) (calls s []).
Proof.
  induction fuel as [|fuel IH]; intros s; simpl; (destruct (_ =? 0); [apply logs_ret, calls_refl|]);
    [apply logs_ret, submseteq_nil_l|].
  eapply logs_silent; [apply log_pick|]. intros pick.
  destruct (runnable s !! _) as [i|]; [|apply logs_ret, submseteq_nil_l].
  eapply logs_bindp; [apply step_nth_calls| |done].
  intros l s' Hl. eapply logs_mono; [apply IH|]. intros l' o. by apply (calls_trans s s' [] []).
Qed.

Definition returned {A} (o : called A) : option A := match o with Returns a => Some a | _ => None end.
Lemma asks_bindc {A B} (m : M W (called A)) (k : A -> M W (called B)) R Q :
  asks m (fun l o => R l (returned o)) -> (forall l a, R l (Some a) -> asks (k a) (fun l' o => Q (l ++ l') (returned o))) ->
  (forall l, R l None -> Q l None) -> asks (bindc m k) (fun l o => Q l (returned o)).
Proof.
  intros Hm Hk Hn. eapply logs_bind; [exact Hm|]. intros l [a| |] HR; [by apply Hk|..];
    (apply logs_ret; rewrite app_nil_r; by apply Hn).
Qed.
Lemma asks_in_goroutine {A} (m : PM W A) Q : asks m Q -> asks (in_goroutine m) (fun l o => Q l (returned o)).
Proof. intros Hm. eapply logs_bind; [exact Hm|]. intros l [a|] HR; apply logs_ret; by rewrite app_nil_r. Qed.
Lemma asks_in_caller {A} (m : PM W A) Q : asks m Q -> asks (in_caller m) (fun l o => Q l (returned o)).
Proof. intros Hm. eapply logs_bind; [exact Hm|]. intros l [a|] HR; apply logs_ret; by rewrite app_nil_r. Qed.

(** The goroutines started are of providers not selected before. *)
Definition fresh (sel : gset string) (n : nat) new : Prop :=
  NoDup new /\ (forall x, x ∈ new -> x ∉ sel) /\ (length new <= n)%nat.
Lemma fresh_nil sel n : fresh sel n [].
Proof. split_and!; [constructor|set_solver|simpl; lia]. Qed.
Lemma fresh_cons x sel n new : x ∉ sel -> fresh ({[x]} ∪ sel) n new -> fresh sel (S n) (x :: new).
Proof. intros Hx (Hn & Hs & Hl). split_and!; [constructor; set_solver|set_solver|simpl; lia]. Qed.
Lemma fresh_mono sel n new : fresh sel n new -> fresh sel (S n) new.
Proof. intros (? & ? & ?). split_and!; [done|done|lia]. Qed.

Lemma select_loop_calls n : forall sel s, asks (select_loop coinID currency n sel s)
  (fun l o => exists new, fresh sel n new /\ calls s new l (returned o)).
Proof.
  induction n as [|n IH]; intros sel s; simpl.
  { apply logs_ret. exists []. split; [apply fresh_nil|apply calls_refl]. }
  eapply (asks_bindc _ _ (calls s []) (fun l o => exists new, fresh sel (S n) new /\ calls s new l o)).
  { apply asks_in_goroutine, run_some_calls. }
  2:{ intros l Hl. exists []. split; [apply fresh_nil|done]. }
  intros l s1 Hl. assert (forall o : called (pool (P := P)), left_to_ask (returned o) ⊆+ pending s1 ->
    exists new, fresh sel (S n) new /\ calls s new (l ++ []) (returned o)) as Hstop.
  { intros o Ho. exists []. split; [apply fresh_nil|]. apply (calls_trans s s1 [] []); [done|].
    unfold calls. by rewrite app_nil_r. }
  eapply logs_silent; [apply log_select|]. intros [[p|] [e|]]; try (apply logs_ret, Hstop; done || apply submseteq_nil_l).
  case_bool_decide as Hp.
  - eapply logs_mono; [apply IH|]. intros l' o (new & Hn & Hc). exists new.
    split; [by apply fresh_mono|by apply (calls_trans s s1 [])].
  - eapply logs_mono; [apply IH|]. intros l' o (new & Hn & Hc). exists (pp_Name (W := W) p :: new).
    split; [by apply fresh_cons|]. apply (calls_trans s s1 []); [done|].
    unfold calls in *. rewrite pending_spawn, <- app_assoc in Hc. done.
Qed.

(** Calls of different providers, [n] at most. *)
Definition distinct (n : nat) l : Prop := NoDup l /\ (length l <= n)%nat.
Lemma distinct_nil n : distinct n [].
Proof. split; [constructor|simpl; lia]. Qed.
Lemma fresh_distinct n new l : fresh ∅ n new -> l ⊆+ new -> distinct n l.
Proof.
  intros (Hn & _ & Hl) Hs. pose proof (submseteq_length _ _ Hs) as Hlen.
  apply submseteq_Permutation in Hs as [k Hk]. split; [|lia]. rewrite Hk in Hn. by apply NoDup_app in Hn as [? _].
Qed.

Lemma Compute_calls e n : asks (Compute e coinID currency n) (fun l _ => distinct (Z.to_nat n) l).
Proof.
  unfold Compute. destruct (_ || _); [apply logs_ret, distinct_nil|].
  eapply (asks_bindc _ _ (fun l o => exists new, fresh ∅ (Z.to_nat n) new /\ calls NewPool new l o)
    (fun l _ => distinct (Z.to_nat n) l)); [apply select_loop_calls| |].
  2:{ intros l (new & Hf & Hc). eapply fresh_distinct; [done|]. unfold calls in Hc. simpl in Hc. by rewrite app_nil_r in Hc. }
  intros l s (new & Hf & Hc).
  assert (forall l' o, calls s [] l' o -> distinct (Z.to_nat n) (l ++ l')) as Hend.
  { intros l' o Hl'. eapply fresh_distinct; [exact Hf|]. pose proof (calls_trans _ _ _ _ _ _ _ Hc Hl') as Ht.
    unfold calls in Ht. rewrite app_nil_r in Ht. etrans; [|exact Ht]. by apply submseteq_inserts_r. }
  eapply (asks_bindc _ _ (calls s []) (fun l' _ => distinct (Z.to_nat n) (l ++ l'))); [apply asks_in_goroutine, wait_all_calls| |].
  2:{ intros l' Hl'. by eapply Hend. }
  intros l' s' Hl'%Hend. destruct (_ <? _); [destruct (pl_prices s')|].
  1,2: apply logs_ret; by rewrite app_nil_r.
  eapply (asks_bindc _ _ (fun l _ => l = []) (fun l'' _ => distinct (Z.to_nat n) (l ++ l' ++ l''))).
  - apply (asks_in_caller _ (fun l _ => l = [])). by apply logs_ret.
  - intros ? r ->. apply logs_ret. by rewrite !app_nil_r.
  - intros ? ->. by rewrite app_nil_r.
Qed.
End consensus_calls.

Section service_calls.
Context {O : DecimalOps} `{!SortSlice} {W P T : Type} `{!ClockOps W} `{!Scheduler W} `{!PriceProvider W P}
  `{!ProviderRouter W P} `{!CacheOps W} `{!PriceStore W} `{!TokenPriceProvider W T} `{!RegistryOps W}
  `{CL : !CallLog W P T}.
Variables (s : PriceService (T := T)) (coinID currency : string).
Definition svc_log (st : svc (W := W)) : list string := log (CallLog := CL) (world st).
Notation asks := (logs svc_log).
Notation mute m := (asks m (fun l _ => l = [])).

Lemma asks_on_world {A} (m : M W A) Q : logs (log (CallLog := CL)) m Q -> asks (on_world m) Q.
Proof.
  intros Hm st. destruct (Hm (world st)) as (l & Hl & HQ). exists l. unfold on_world, svc_log.
  destruct (m (world st)). done.
Qed.
Lemma silent_emit x : mute (emit (W := W) x).
Proof. intros st. exists []. by rewrite app_nil_r. Qed.
Lemma silent_spawn b x : mute (spawn (W := W) b x).
Proof. intros st. exists []. by rewrite app_nil_r. Qed.
Lemma silent_count_request : mute (count_request (W := W)).
Proof. intros st. exists []. by rewrite app_nil_r. Qed.
Lemma silent_count_cache_hit : mute (count_cache_hit (W := W)).
Proof. intros st. exists []. by rewrite app_nil_r. Qed.
Lemma silent_crash : mute (crash (W := W)).
Proof. intros st. exists []. by rewrite app_nil_r. Qed.
Lemma silent_when_dep {A} b (m : M W A) : silent (log (CallLog := CL)) m -> mute (when_dep b m).
Proof.
  intros Hm. destruct b; simpl; [|by apply logs_ret]. apply logs_silent; [by apply asks_on_world|]. intros _. by apply logs_ret.
Qed.
Lemma asks_on_called {A} (m : M W (called A)) (Q : list string -> Prop) :
  logs (log (CallLog := CL)) m (fun l _ => Q l) -> asks (on_called m) (fun l _ => Q l).
Proof.
  intros Hm. eapply logs_bind; [apply asks_on_world, Hm|]. intros l [a| |] HQ; [apply logs_ret; by rewrite app_nil_r..|].
  apply logs_silent; [apply silent_crash|]. intros _. apply logs_ret. by rewrite app_nil_r.
Qed.
Create HintDb silent.
Hint Resolve asks_on_world silent_emit silent_spawn silent_when_dep log_now log_select log_success log_failure
  log_cache_get log_cache_set log_save log_latest : silent.
Ltac quietly := apply logs_silent; [solve [eauto with silent]|]; intros.

Lemma check_price_silent price : mute (check_price s coinID currency price).
Proof.
  unfold check_price. destruct (s_validator s); [|by apply logs_ret]. quietly. destruct (Validate _ _ _); [by apply logs_ret|].
  destruct (s_cache s); [|by apply logs_ret]. quietly. quietly.
  apply silent_bindp; [by apply logs_ret|]. intros. by apply logs_ret.
Qed.
(** One turn of the retry loop asks its provider, once. *)
Lemma try_provider_asks p : asks (try_provider s coinID currency p) (fun l _ => l = [pp_Name (W := W) p]).
Proof.
  unfold try_provider. quietly. eapply logs_bindp; [apply asks_on_world, log_ask| |done].
  intros l r ->. apply logs_mono with (R := fun l _ => l = []); [|by intros ? ? ->]. quietly. destruct r as [price|e].
  - quietly. quietly. apply silent_bindp; [apply check_price_silent|]. intros [e|]; repeat quietly; by apply logs_ret.
  - quietly. quietly. by apply logs_ret.
Qed.
Lemma retry_loop_asks n : forall tried lastErr, asks (retry_loop s coinID currency n tried lastErr) (fun l _ => fresh tried n l).
Proof.
  induction n as [|n IH]; intros tried lastErr; simpl; [apply logs_ret, fresh_nil|]. quietly.
  destruct a as [[p|] [e|]]; try apply logs_ret, fresh_nil. case_bool_decide as Hp; [apply logs_ret, fresh_nil|].
  assert (fresh tried (S n) [pp_Name (W := W) p]) as Hone by (apply fresh_cons; [done|apply fresh_nil]).
  eapply logs_bindp; [apply try_provider_asks| |by intros l ->].
  intros l [price|e] ->; [apply logs_ret; by rewrite app_nil_r|].
  eapply logs_mono; [apply IH|]. intros l b Hl. by apply fresh_cons.
Qed.

Lemma consensus_mode_asks : asks (consensus_mode s coinID currency) (fun l _ => distinct 5 l /\
  ((s_consensus s = None \/ s_responseMode s <> "consensus"%string) -> l = [])).
Proof.
  unfold consensus_mode. destruct (s_consensus s) as [e|]; [|by apply logs_ret; split; [apply distinct_nil|]].
  case_bool_decide as Hm; [|by apply logs_ret; split; [apply distinct_nil|]].
  eapply (logs_mono _ _ (fun l _ => distinct 5 l)); [|intros l _ Hl; split; [done|]; intros [?|?]; done].
  eapply (logs_bindp _ _ _ (fun l _ => distinct 5 l)); [apply asks_on_called, (Compute_calls coinID currency e 5)| |done].
  intros l r Hl. apply logs_mono with (R := fun l _ => l = []); [|intros ? ? ->; by rewrite app_nil_r].
  destruct r as [[cr|] [?|]]; try by apply logs_ret. destruct (fgtb _ _); [|by apply logs_ret].
  repeat quietly. by apply logs_ret.
Qed.
Lemma cache_lookup_silent : mute (cache_lookup s coinID currency).
Proof. unfold cache_lookup. destruct (s_cache s); [|by apply logs_ret]. quietly. by apply logs_ret. Qed.
Lemma cache_lookup_world st st' : world st' = world st ->
  fst (cache_lookup s coinID currency st') = fst (cache_lookup s coinID currency st).
Proof. intros Hw. unfold cache_lookup. destruct (s_cache s); [|done]. by rewrite !bind_unfold, !on_world_fst, Hw. Qed.

(** The calls of a request without a cached price. *)
Definition uncached_calls l : Prop := exists l1 l2, l = l1 ++ l2 /\ distinct 5 l1 /\
  distinct (Z.to_nat (s_maxRetries s)) l2 /\ ((s_consensus s = None \/ s_responseMode s <> "consensus"%string) -> l1 = []).

(** C15. [GetPrice] asks no more of the providers than it may, and none when the
    price is cached.  The calls it makes, in any outcome and under any schedule
    of the goroutines, are those of a consensus, to different providers and five
    at most (none unless the service is in consensus mode), followed by those of
    the retry loop, again to different providers and at most [maxRetries].  A
    provider may be called in both. *)
Theorem GetPrice_asks st : exists l, svc_log (snd (GetPrice s coinID currency st)) = svc_log st ++ l /\
  uncached_calls l /\ (is_Some (fst (cache_lookup s coinID currency st)) -> l = []).
Proof.
  set (hit := is_Some (fst (cache_lookup s coinID currency st))).
  assert (asks (cache_lookup s coinID currency) (fun l c => l = [])) as Hc by apply cache_lookup_silent.
  unfold GetPrice. rewrite !bind_unfold. set (st1 := snd (emit MRequest _)).
  assert (world st1 = world st) as Hw by done. destruct (Hc st1) as (l0 & Hl0 & ->).
  rewrite app_nil_r in Hl0. assert (svc_log st = svc_log st1) as -> by (unfold svc_log; by rewrite Hw). rewrite <- Hl0.
  pose proof (cache_lookup_world st st1 Hw) as Hhit. set (st2 := snd (cache_lookup _ _ _ st1)). clearbody st2. clear Hl0.
  destruct (fst (cache_lookup s coinID currency st1)) as [p|].
  - exists []. rewrite app_nil_r. split_and!; [done| |done]. exists [], []. split_and!; try done; apply distinct_nil.
  - assert (~ hit) as Hno by (unfold hit; rewrite <- Hhit; by intros [? ?]).
    match goal with |- context [snd (?m st2)] => assert (asks m (fun l _ => uncached_calls l)) as Hm end.
    2:{ destruct (Hm st2) as (l & Hl & Hu). by exists l. }
    eapply logs_bindp; [apply consensus_mode_asks| |].
    2:{ intros l1 [Hl1 Hm]. exists l1, []. rewrite app_nil_r. split_and!; try done. apply distinct_nil. }
    intros l1 c [Hl1 Hm].
    apply logs_mono with (R := fun l _ => distinct (Z.to_nat (s_maxRetries s)) l); [|intros l2 b Hl2; by exists l1, l2].
    destruct c as [p|]; [apply logs_ret, distinct_nil|].
    eapply (logs_bindp _ _ _ (fun l _ => distinct (Z.to_nat (s_maxRetries s)) l)); [| |done].
    { eapply logs_mono; [apply retry_loop_asks|]. intros l b Hl. by apply (fresh_distinct _ l). }
    intros l r Hl. apply logs_mono with (R := fun l _ => l = []); [|intros ? ? ->; by rewrite app_nil_r].
    destruct r as [p|e]; [by apply logs_ret|]. destruct (s_store s); [|by apply logs_ret].
    quietly. destruct (fst a); by apply logs_ret.
Qed.
End service_calls.

(** ** Any world can be given such a log *)
Section logged.
Context {O : DecimalOps} {W P T : Type} `{!ClockOps W} `{!Scheduler W} `{!PriceProvider W P}
  `{!ProviderRouter W P} `{!CacheOps W} `{!PriceStore W} `{!TokenPriceProvider W T} `{!RegistryOps W}.
Definition logged : Type := W * list string.
Definition unlogged {A} (m : M W A) : M logged A := fun w => let '(a, w') := m w.1 in (a, (w', w.2)).
Definition logged_ask {A} (name : string) (m : M W A) : M logged A :=
  fun w => let '(a, w') := m w.1 in (a, (w', w.2 ++ [name])).

#[export] Instance logged_clock : ClockOps logged := { w_Now := unlogged w_Now }.
#[export] Instance logged_sched : Scheduler logged := { sch_pick n := unlogged (sch_pick n) }.
#[export] Instance logged_provider : PriceProvider logged P := {
  pp_Name := pp_Name (W := W);
  pp_GetPrice p coin cur := logged_ask (pp_Name (W := W) p) (pp_GetPrice p coin cur) }.
#[export] Instance logged_router : ProviderRouter logged P := {
  rt_Select coin := unlogged (rt_Select coin);
  rt_ReportSuccess name d := unlogged (rt_ReportSuccess name d);
  rt_ReportFailure name e := unlogged (rt_ReportFailure name e) }.
#[export] Instance logged_cache : CacheOps logged := {
  cache_Get coin cur := unlogged (cache_Get coin cur);
  cache_Set p d := unlogged (cache_Set p d);
  cache_Delete coin cur := unlogged (cache_Delete coin cur) }.
#[export] Instance logged_store : PriceStore logged := {
  ps_Save p := unlogged (ps_Save p);
  ps_SaveBatch ps := unlogged (ps_SaveBatch ps);
  ps_GetLatest coin cur := unlogged (ps_GetLatest coin cur);
  ps_GetHistory coin cur from to := unlogged (ps_GetHistory coin cur from to);
  ps_GetOHLC coin cur from to i := unlogged (ps_GetOHLC coin cur from to i) }.
#[export] Instance logged_token : TokenPriceProvider logged T := {
  tp_SupportsChain := tp_SupportsChain (W := W);
  tp_GetPriceByAddress t chain address cur := unlogged (tp_GetPriceByAddress t chain address cur) }.
#[export] Instance logged_registry : RegistryOps logged := {
  rg_Resolve chain addr := unlogged (rg_Resolve chain addr);
  rg_Add chain addr coin := unlogged (rg_Add chain addr coin) }.

Lemma unlogged_silent {A} (m : M W A) : silent snd (unlogged m).
Proof. intros w. exists []. rewrite app_nil_r. unfold unlogged. by destruct (m w.1). Qed.
#[export] Instance logged_log : CallLog logged P T.
Proof.
  refine {| log := snd |}; try (intros; apply unlogged_silent); try apply unlogged_silent.
  intros p coin cur w. exists [pp_Name (W := W) p]. unfold pp_GetPrice, logged_provider, logged_ask.
  by destruct (PriceProvider0.(pp_GetPrice) p coin cur w.1).
Defined.
End logged.
Arguments logged : clear implicits.

Definition consensus_service : PriceService (T := unit) :=
  NewPriceService 0 (mkDeps true true (30 * Second) 3 true (Some demo_validator) None (Some demo_engine) "consensus" true [tt]).
Definition logged_state : svc (W := logged (World.world provider RoundRobinStrategy)) :=
  mkSvc (demo_world, []) 0 0 [] [] false.

(** A consensus asks the three providers; single mode asks the first. *)
Example consensus_asks_three :
  svc_log (snd (GetPrice (P := provider) consensus_service "bitcoin" "usd" logged_state)) =
    ["kraken"; "bybit"; "gemini"]%string /\
  svc_log (snd (GetPrice (P := provider) demo_service "bitcoin" "usd" logged_state)) = ["kraken"]%string.
Proof. split; vm_compute; reflexivity. Qed.

Lemma GetPrice_asks_witness : exists l,
  svc_log (snd (GetPrice (P := provider) consensus_service "bitcoin" "usd" logged_state)) = l /\
  uncached_calls consensus_service l.
Proof.
  destruct (GetPrice_asks (P := provider) consensus_service "bitcoin" "usd" logged_state) as (l & Hl & Hu & _).
  exists l. split; [exact Hl|exact Hu].
Defined.
