(* ===== verification/Provenance.v ===== *)
(** * Where prices come from

    The price service against ports that keep an invariant: if the answers of
    providers are [served], the cache and the store give back what was put into
    them and nothing but [traced] prices is put into them, then nothing but
    traced prices is put into them by the service, and its answers and the
    goroutines it starts carry traced prices, each under the key of the pair
    asked for.  [Interleave] applies this to requests that run at the same
    time. *)
From S2P Require Import Prelude GoLib GoStrings Decimal Model MemCache Ports Validator Strategies Consensus PriceService.
Open Scope Z_scope.

(** ** What a price may be traced to *)
Section traced.
Context {O : DecimalOps}.
(** The answers of providers for a coin and a currency, the answers that were
    found acceptable, and the prices of the stream. *)
Variables (served : string -> string -> Price -> Prop) (accepted streamed : Price -> Prop).

Inductive traced : Price -> Prop :=
  | TServed coin cur p : served coin cur p -> accepted p -> traced p
  | TConsensus coin cur now cr :
      cr_Prices cr <> [] -> Forall (served coin cur) (cr_Prices cr) ->
      median (cr_Prices cr) = Some (cr_MedianPrice cr) -> dec_IsZero (cr_MedianPrice cr) = false ->
      traced (consensusPrice coin cur now cr)
  | TStreamed p : streamed p -> traced p.
(** A price found under the key of a pair. *)
Definition fits (coin cur : string) (p : Price) : Prop :=
  cacheKey (CoinID p) (Currency p) = cacheKey coin cur.
Definition found_price (coin cur : string) (p : Price) : Prop := traced p /\ fits coin cur p.
Definition price_answer (coin cur : string) (r : result Price) : Prop :=
  match r.1 with Some p => found_price coin cur p | None => True end.

(** A pair without a colon is found under its own names. *)
Lemma fits_same coin cur p : no_colon coin = true -> no_colon cur = true -> fits coin cur p ->
  CoinID p = coin /\ Currency p = cur.
Proof. apply cacheKey_unique. Qed.
End traced.

(** ** The ports *)
Section ports.
Context {O : DecimalOps} {V P T : Type} `{!ClockOps V} `{!Scheduler V}.
Context `{PP : !PriceProvider V P} `{PR : !ProviderRouter V P} `{CO : !CacheOps V}
  `{PS : !PriceStore V} `{TP : !TokenPriceProvider V T} `{RG : !RegistryOps V}.

(** What the ports promise about an invariant [inv] of the world: which
    providers the router hands out, what they answer, and that only traced
    prices have to be kept; [panicked] holds if one of them panics. *)
Class Traceable (inv : V -> Prop) (allowed : P -> Prop) (served : string -> string -> Price -> Prop)
    (token_served accepted streamed : Price -> Prop) (panicked : Prop) := {
  tc_labels : forall coin cur p, served coin cur p -> CoinID p = coin /\ Currency p = cur;
  tc_now : maintains inv w_Now any;
  tc_pick : forall n, maintains inv (sch_pick n) any;
  tc_select : forall coin, maintains inv (rt_Select coin) (fun r : result P =>
    match r with (Some p, None) => allowed p | (None, None) => False | _ => True end);
  tc_success : forall name d, maintains inv (rt_ReportSuccess name d) any;
  tc_failure : forall name e, maintains inv (rt_ReportFailure name e) any;
  tc_price : forall p coin cur, allowed p ->
    maintains inv (pp_GetPrice p coin cur)
      (or_panic panicked (fun r => match r with inl q => served coin cur q | inr _ => True end));
  tc_get : forall coin cur, maintains inv (cache_Get coin cur) (price_answer served accepted streamed coin cur);
  tc_set : forall p ttl, traced served accepted streamed p -> maintains inv (cache_Set p ttl) any;
  tc_save : forall p, traced served accepted streamed p -> maintains inv (ps_Save p) any;
  tc_latest : forall coin cur, maintains inv (ps_GetLatest coin cur) (price_answer served accepted streamed coin cur);
  tc_token : forall t chain address cur, maintains inv (tp_GetPriceByAddress (T := T) t chain address cur)
    (or_panic panicked (fun r => match r with inl q => token_served q | inr _ => True end));
  tc_resolve : forall chain address, maintains inv (rg_Resolve chain address) any;
  tc_add : forall chain address coin, maintains inv (rg_Add chain address coin) any }.

Lemma traceable_weaken inv allowed served token_served accepted streamed (E E' : Prop) : (E -> E') ->
  Traceable inv allowed served token_served accepted streamed E ->
  Traceable inv allowed served token_served accepted streamed E'.
Proof.
  intros HE TC. split; try apply TC.
  - intros p coin cur Hp. eapply maintains_panics; [exact HE|]. by apply TC.
  - intros t chain address cur. eapply maintains_panics; [exact HE|]. apply TC.
Qed.
End ports.


#[export] Hint Resolve maintains_ret maintains_retp maintains_panic : maintains.

Section service.
Context {O : DecimalOps} {L : DecimalLaws O} `{!SortSlice} `{!GoFmt} `{!Unicode}.
Context {V P T : Type} `{!ClockOps V} `{!Scheduler V}.
Context `{PP : !PriceProvider V P} `{PR : !ProviderRouter V P} `{CO : !CacheOps V}
  `{PS : !PriceStore V} `{TP : !TokenPriceProvider V T} `{RG : !RegistryOps V}.
Variables (inv : V -> Prop) (allowed : P -> Prop) (served : string -> string -> Price -> Prop)
  (token_served accepted streamed : Price -> Prop) (panicked : Prop).
Context `{TC : !Traceable inv allowed served token_served accepted streamed panicked}.
Notation traced := (traced served accepted streamed).
Notation price_answer := (price_answer served accepted streamed).

(** ** The service *)
Definition task_price (t : task) : Price := match t with TaskSave p | TaskNotify p => p end.
Definition svc_inv (st : svc (W := V)) : Prop := inv (world st) /\ Forall (fun t => traced (task_price t)) (tasks st).

Lemma on_world_maintains {A} (m : M V A) Q : maintains inv m Q -> maintains svc_inv (on_world m) Q.
Proof.
  intros Hm [w n1 n2 ms ts] [Hw Ht]. unfold on_world. specialize (Hm w Hw). simpl in *.
  destruct (m w) as [a w']. simpl in *. unfold svc_inv. simpl. tauto.
Qed.
Lemma emit_maintains x : maintains svc_inv (emit x) any.
Proof. by intros [] []. Qed.
Lemma count_request_maintains : maintains svc_inv count_request any.
Proof. by intros [] []. Qed.
Lemma count_cache_hit_maintains : maintains svc_inv count_cache_hit any.
Proof. by intros [] []. Qed.
Lemma spawn_maintains b x : traced (task_price x) -> maintains svc_inv (spawn b x) any.
Proof.
  intros Hx [] [Hw Ht]. split; [|done]. split; [done|]. simpl in *. destruct b; [by apply Forall_snoc|done].
Qed.
Lemma when_dep_maintains {A} b (m : M V A) Q : maintains inv m Q -> maintains svc_inv (when_dep b m) any.
Proof.
  intros Hm. unfold when_dep. destruct b; [|by apply maintains_ret].
  eapply maintains_bind; [by apply on_world_maintains|]. intros. by apply maintains_ret.
Qed.

Hint Resolve emit_maintains count_request_maintains count_cache_hit_maintains spawn_maintains : maintains.
Hint Resolve tc_now tc_pick tc_select tc_success tc_failure tc_price tc_get tc_set tc_save tc_latest tc_token
  tc_resolve tc_add : maintains.
Hint Extern 1 (maintains svc_inv (on_world _) _) => eapply on_world_maintains : maintains.
Hint Extern 1 (maintains svc_inv (when_dep _ _) _) => eapply when_dep_maintains : maintains.
(** Over a call whose result does not matter, or matters as [x]. *)
Ltac over := eapply maintains_bind; [solve [eauto 6 with maintains]|]; intros ? _.
Tactic Notation "take" simple_intropattern(x) simple_intropattern(Hx) :=
  eapply maintains_bind; [solve [eauto 6 with maintains]|]; intros x Hx.

Variable s : PriceService (T := T).
(** The answers it accepts are those its validator lets pass; and with
    thresholds that are numbers it only panics when a provider does. *)
Hypothesis validated_accepted : forall p, validated s p -> accepted p.
Hypothesis finite_or : finite_service s \/ panicked.
Hypothesis retries : 1 <= s_maxRetries s.

Lemma cache_lookup_maintains coinID currency :
  maintains svc_inv (cache_lookup s coinID currency) (fun o => forall p, o = Some p -> found_price served accepted streamed coinID currency p).
Proof.
  unfold cache_lookup. destruct (s_cache s); [|by apply maintains_ret].
  take [[p|] [e|]] Hr; apply maintains_ret; try done. intros ? [= <-]. exact Hr.
Qed.

Lemma on_called_maintains {A} (m : M V (called A)) Q : maintains inv m (or_gone panicked panicked Q) ->
  maintains svc_inv (on_called m) (or_panic panicked Q).
Proof.
  intros Hm. eapply maintains_bind; [by apply on_world_maintains|]. intros [a| |] Ha; [by apply maintains_retp|by apply maintains_panic|].
  eapply maintains_bind; [by instantiate (1 := any); intros [] []|]. intros. by apply maintains_panic.
Qed.
Lemma Compute_traced coinID currency e n : s_consensus s = Some e ->
  maintains inv (Compute e coinID currency n) (or_gone panicked panicked (consensus_sound (served coinID currency) e n)).
Proof.
  intros He. apply (Compute_maintains coinID currency inv allowed); try apply TC.
  - intros p Hp. by apply tc_price.
  - destruct finite_or as [[_ Hf]|?]; [left; by apply Hf|by right].
Qed.
Lemma consensus_mode_maintains coinID currency :
  maintains svc_inv (consensus_mode s coinID currency)
    (or_panic panicked (fun o => forall p, o = Some p -> found_price served accepted streamed coinID currency p)).
Proof.
  unfold consensus_mode. destruct (s_consensus s) as [e|] eqn:Ee; [|by apply maintains_retp].
  case_bool_decide; [|by apply maintains_retp].
  eapply maintains_bindp; [by apply on_called_maintains, Compute_traced|].
  intros [[cr|] [er|]] Hr; try by apply maintains_retp.
  destruct (fgtb _ _) eqn:Ec; [|by apply maintains_retp]. destruct Hr as (Hall & _ & Hr). destruct (Hr Ec) as (Hne & _ & Hm & Hz).
  take now _. assert (traced (consensusPrice coinID currency now cr)) as Ht by by apply TConsensus.
  over. over. over. apply maintains_retp. intros p [= <-]. by split.
Qed.

Lemma check_price_maintains coinID currency price :
  maintains svc_inv (check_price s coinID currency price) (or_panic panicked (fun r => r = None -> accepted price)).
Proof.
  unfold check_price. destruct (s_validator s) as [v|] eqn:Ev.
  2:{ apply maintains_retp. intros _. apply validated_accepted. intros v. by rewrite Ev. }
  take now _. destruct (Validate _ _ _) eqn:Eval; [by apply maintains_retp|].
  assert (accepted price) as Ha.
  { apply validated_accepted. intros v'. rewrite Ev. intros [= <-]. by exists now. }
  destruct (s_cache s); [|by apply maintains_retp]. take r _. take now' _.
  eapply (maintains_bindp _ _ _ any); [apply maintains_of_option|intros; by apply maintains_retp].
  destruct finite_or as [[Hf _]|?]; [|by destruct (ValidateAgainstReference _ _ _ _)].
  by destruct (ValidateAgainstReference_defined now' v price r.1 (Hf _ Ev)) as [x ->].
Qed.

Definition attempt_traced (coinID currency : string) (a : attempt) : Prop :=
  match a with Answered p => found_price served accepted streamed coinID currency p | Failed _ => True end.

Lemma try_provider_maintains coinID currency p : allowed p ->
  maintains svc_inv (try_provider s coinID currency p) (or_panic panicked (attempt_traced coinID currency)).
Proof.
  intros Hp. unfold try_provider. over.
  eapply maintains_bindp; [by eapply on_world_maintains, tc_price|]. intros r Hr. over. destruct r as [price|e].
  - over. over. eapply maintains_bindp; [apply check_price_maintains|]. intros [e|] Hv.
    + over. by apply maintains_retp.
    + assert (found_price served accepted streamed coinID currency price) as [Ht Hf].
      { split; [eapply TServed; [done|by apply Hv]|]. unfold fits. by destruct (tc_labels _ _ _ Hr) as [-> ->]. } over. over. over. by apply maintains_retp.
  - over. over. by apply maintains_retp.
Qed.

(** The loop: a price, or an error unless it was not entered. *)
Lemma retry_loop_maintains coinID currency n : forall tried lastErr,
  maintains svc_inv (retry_loop s coinID currency n tried lastErr)
    (or_panic panicked (fun r => match r with
      | inl p => found_price served accepted streamed coinID currency p
      | inr lastErr' => n <> 0%nat /\ tried = ∅ \/ is_Some lastErr -> is_Some lastErr'
      end)).
Proof.
  induction n as [|n IH]; intros tried lastErr; simpl; [apply maintains_retp; naive_solver|].
  take [[p|] [e|]] Hp; try by (apply maintains_retp || destruct Hp).
  case_bool_decide as Ht; [apply maintains_retp; intros [[_ ->]|?]; [set_solver|done]|].
  eapply maintains_bindp; [by apply try_provider_maintains|].
  intros [price|e] Ha; [by apply maintains_retp|].
  eapply maintains_mono; [apply IH|]. intros [[q|le]|] Hq; simpl in *; [done| |done]. intros _. apply Hq. right. eauto.
Qed.

(** Exactly one of a price found for the pair and an error. *)
Definition one_answer (coinID currency : string) (r : result Price) : Prop :=
  match r with
  | (Some p, None) => found_price served accepted streamed coinID currency p
  | (None, Some _) => True
  | _ => False
  end.
Lemma GetPrice_maintains coinID currency :
  maintains svc_inv (GetPrice s coinID currency) (or_panic panicked (one_answer coinID currency)).
Proof.
  unfold GetPrice. over. over. eapply maintains_bind; [apply cache_lookup_maintains|].
  intros [p|] Hp. { over. over. apply maintains_retp. by apply Hp. }
  eapply maintains_bindp; [apply consensus_mode_maintains|]. intros [q|] Hq.
  { apply maintains_retp. by apply Hq. }
  eapply maintains_bindp; [apply retry_loop_maintains|]. intros [q|lastErr] Hr; [by apply maintains_retp|].
  destruct Hr as [e ->]; [left; split; [lia|done]|].
  destruct (s_store s); [|by apply maintains_retp]. take r Hl. unfold Provenance.price_answer in *.
  destruct r.1; by apply maintains_retp.
Qed.

(** A batch, a conversion, a price by address. *)
Definition prices_answer (coinIDs : list string) (currency : string) (ps : list Price) : Prop :=
  Forall (fun p => exists id, id ∈ coinIDs /\ found_price served accepted streamed id currency p) ps.

Lemma GetPrices_loop_maintains currency coinIDs : forall results errs,
  maintains svc_inv (GetPrices_loop s coinIDs currency results errs)
    (or_panic panicked (fun r => exists ps, r.1 = results ++ ps /\ prices_answer coinIDs currency ps)).
Proof.
  unfold prices_answer. induction coinIDs as [|id ids IH]; intros results errs; simpl.
  { apply maintains_retp. exists []. by rewrite app_nil_r. }
  eapply maintains_bindp; [apply GetPrice_maintains|].
  assert (forall ps, Forall (fun p => exists id, id ∈ ids /\ found_price served accepted streamed id currency p) ps ->
    Forall (fun p => exists id', id' ∈ id :: ids /\ found_price served accepted streamed id' currency p) ps) as Hup.
  { intros ps Hps. eapply Forall_impl; [exact Hps|]. set_solver. }
  intros [[p|] [e|]] Hp; try done.
  - eapply maintains_mono; [apply IH|]. intros [r|]; [|done]. intros (ps & Hr & Hps). exists (p :: ps).
    rewrite Hr, <- app_assoc. split; [done|]. constructor; [|auto]. exists id. split; [set_solver|exact Hp].
  - eapply maintains_mono; [apply IH|]. intros [r|]; [|done]. intros (ps & Hr & Hps). exists ps. auto.
Qed.
Lemma GetPrices_maintains coinIDs currency :
  maintains svc_inv (GetPrices s coinIDs currency) (or_panic panicked (fun r => prices_answer coinIDs currency r.1)).
Proof.
  eapply maintains_mono; [apply GetPrices_loop_maintains|]. intros [r|]; [|done]. simpl. intros (ps & Hr & Hps). by rewrite Hr.
Qed.

(** The rate of a conversion is the quotient of two prices found. *)
Definition convert_answer (fromCoin toCoin via : string) (r : result ConvertResult) : Prop :=
  forall c, r.1 = Some c -> exists a b, found_price served accepted streamed fromCoin via a /\ found_price served accepted streamed toCoin via b /\
    dec_Div (Value a) (Value b) = Some (cv_Rate c).
Lemma Convert_maintains fromCoin toCoin amount via :
  maintains svc_inv (Convert s fromCoin toCoin amount via) (or_panic panicked (convert_answer fromCoin toCoin via)).
Proof.
  unfold Convert. eapply maintains_bindp; [apply GetPrice_maintains|]. intros [[a|] [e|]] Ha; try done.
  eapply maintains_bindp; [apply GetPrice_maintains|]. intros [[b|] [e|]] Hb; try done.
  eapply (maintains_bindp _ _ _ (fun x => a = x)); [by apply maintains_of_option|]. intros ? <-.
  destruct (dec_IsZero _); [by apply maintains_retp|].
  eapply (maintains_bindp _ _ _ (fun x => b = x)); [by apply maintains_of_option|]. intros ? <-.
  destruct (dec_IsZero (Value b)) eqn:Eb; [by apply maintains_retp|].
  destruct (dec_Div_defined (Value a) (Value b) Eb) as [q Hq]. rewrite Hq.
  eapply (maintains_bindp _ _ _ (fun x => q = x)); [by apply maintains_of_option|]. intros ? <-.
  apply maintains_retp. intros c [= <-]. by exists a, b.
Qed.

(** A price by address is found under the coin of the registry, or is the
    answer of a token provider. *)
Definition address_answer (currency : string) (r : result AddressPriceResult) : Prop :=
  forall a p, r.1 = Some a -> ap_Price a = Some p ->
    (ap_ResolvedVia a = "registry"%string /\ exists coin, found_price served accepted streamed coin currency p) \/
    (ap_ResolvedVia a = "direct"%string /\ token_served p).

Lemma ask_token_providers_maintains chain address currency : forall tps,
  maintains svc_inv (ask_token_providers s tps chain address currency) (or_panic panicked (address_answer currency)).
Proof.
  induction tps as [|tp tps IH]; simpl; [by apply maintains_retp|].
  destruct (tp_SupportsChain tp chain); [|apply IH].
  eapply maintains_bindp; [by eapply on_world_maintains, tc_token|]. intros [price|e] Hr; [|apply IH].
  over. apply maintains_retp. intros b q [= <-] [= <-]. right. by split.
Qed.
Lemma GetPriceByAddress_maintains chain address currency :
  maintains svc_inv (GetPriceByAddress s chain address currency) (or_panic panicked (address_answer currency)).
Proof.
  unfold GetPriceByAddress. cbv zeta. eapply (maintains_bind _ _ _ any).
  { destruct (s_registry s); [eauto with maintains|by apply maintains_ret]. }
  intros [coin|] _; [|apply ask_token_providers_maintains].
  eapply maintains_bindp; [apply GetPrice_maintains|]. intros [p [e|]] Hp; apply maintains_retp; [done|].
  intros a q [= <-] Hq. left. split; [done|]. exists coin. simpl in Hq. by rewrite Hq in Hp.
Qed.
End service.
