(* ===== verification/Interleave.v ===== *)
(** * Requests that run at the same time

    The services are written against ports whose calls take effect at once: the
    cache, the store, the router and the registry hold a lock during a call.
    Between two calls of one request the other goroutines make theirs.  A
    request run by itself is therefore run in a world that changes between its
    calls: [view] gives the [n]-th call the [n]-th world of a sequence and
    writes down what the call leaves.  An execution is a sequence of such calls
    by any number of requests, each continuing its own run on the worlds it has
    found so far. *)
From S2P Require Import Prelude GoLib GoStrings Decimal Model MemCache Ports Validator Strategies Consensus PriceService Provenance.
Open Scope Z_scope.

(** ** A world that changes between the calls *)
Record view (W : Type) := mkView { vw_env : nat -> W; vw_log : list W }.
Arguments mkView {W} _ _.
Arguments vw_env {W} _ _.
Arguments vw_log {W} _.

(** A call: it finds the next world of the sequence. *)
Definition atomic {W A} (m : M W A) : M (view W) A := fun v =>
  let '(a, w') := m (vw_env v (length (vw_log v))) in
  (a, mkView (vw_env v) (vw_log v ++ [w'])).

Section ports.
Context {O : DecimalOps} {W P T : Type}.
#[export] Instance view_clock `{!ClockOps W} : ClockOps (view W) := { w_Now := atomic w_Now }.
#[export] Instance view_sched `{!Scheduler W} : Scheduler (view W) := { sch_pick n := atomic (sch_pick n) }.
#[export] Instance view_provider `{PP : !PriceProvider W P} : PriceProvider (view W) P := {
  pp_Name := pp_Name (W := W); pp_GetPrice p coin cur := atomic (pp_GetPrice p coin cur) }.
#[export] Instance view_router `{PR : !ProviderRouter W P} : ProviderRouter (view W) P := {
  rt_Select coin := atomic (rt_Select coin);
  rt_ReportSuccess name d := atomic (rt_ReportSuccess name d);
  rt_ReportFailure name e := atomic (rt_ReportFailure name e) }.
#[export] Instance view_cache `{CO : !CacheOps W} : CacheOps (view W) := {
  cache_Get coin cur := atomic (cache_Get coin cur);
  cache_Set p ttl := atomic (cache_Set p ttl);
  cache_Delete coin cur := atomic (cache_Delete coin cur) }.
#[export] Instance view_store `{PS : !PriceStore W} : PriceStore (view W) := {
  ps_Save p := atomic (ps_Save p);
  ps_SaveBatch ps := atomic (ps_SaveBatch ps);
  ps_GetLatest coin cur := atomic (ps_GetLatest coin cur);
  ps_GetHistory coin cur from to := atomic (ps_GetHistory coin cur from to);
  ps_GetOHLC coin cur from to i := atomic (ps_GetOHLC coin cur from to i) }.
#[export] Instance view_token `{TP : !TokenPriceProvider W T} : TokenPriceProvider (view W) T := {
  tp_SupportsChain := tp_SupportsChain (W := W);
  tp_GetPriceByAddress t chain address cur := atomic (tp_GetPriceByAddress t chain address cur) }.
#[export] Instance view_registry `{RG : !RegistryOps W} : RegistryOps (view W) := {
  rg_Resolve chain address := atomic (rg_Resolve chain address);
  rg_Add chain address coin := atomic (rg_Add chain address coin) }.
#[export] Instance view_router_laws `{RL : RouterLaws W P} : RouterLaws (view W) P.
Proof.
  split. intros coin v. cbn [rt_Select view_router]. unfold atomic.
  pose proof (rt_Select_shape (P := P) coin (vw_env v (length (vw_log v)))) as Hs.
  by destruct (rt_Select coin (vw_env v (length (vw_log v)))).
Qed.
End ports.

Section interleave.
Context {O : DecimalOps} {L : DecimalLaws O} `{!SortSlice} `{!GoFmt} `{!Unicode}.
Context {W P T : Type} `{!ClockOps W} `{!Scheduler W}.
Context `{PP : !PriceProvider W P} `{PR : !ProviderRouter W P} `{CO : !CacheOps W}
  `{PS : !PriceStore W} `{TP : !TokenPriceProvider W T} `{RG : !RegistryOps W}.

(** What is kept by every call is kept by a call on a view. *)
Definition view_inv (clean : W -> Prop) (v : view W) : Prop :=
  (forall n, clean (vw_env v n)) /\ Forall clean (vw_log v).
Lemma atomic_maintains {A} clean (m : M W A) Q : maintains clean m Q -> maintains (view_inv clean) (atomic m) Q.
Proof.
  intros Hm [env log] [He Hl]. unfold atomic. simpl in *. specialize (Hm _ (He (length log))).
  destruct (m (env (length log))) as [a w']. simpl in *. unfold view_inv. simpl. rewrite Forall_snoc. tauto.
Qed.
#[export] Instance view_traceable clean allowed served token_served accepted streamed panicked :
  Traceable clean allowed served token_served accepted streamed panicked (P := P) (T := T) ->
  Traceable (view_inv clean) allowed served token_served accepted streamed panicked (P := P) (T := T).
Proof.
  intros TC. split; intros; try (apply atomic_maintains; by apply TC). by apply TC.
Qed.

(** ** The work of a goroutine

    A request to the price service, a price saved in the background, a price of
    the stream. *)
Inductive work :=
  | WPrice (coinID currency : string)
  | WPrices (coinIDs : list string) (currency : string)
  | WConvert (fromCoin toCoin : string) (amount : decimal) (via : string)
  | WAddress (chain address currency : string)
  | WSave (p : Price)
  | WStream (ttl : Duration) (p : Price).
Inductive answer :=
  | APrice (r : result Price)
  | APrices (r : list Price * gmap string error)
  | AConvert (r : result ConvertResult)
  | AAddress (r : result AddressPriceResult)
  | ADone.

Variable s : PriceService (T := T).
Notation run := (svc (W := view W)).
Definition run_work (w : work) : PM run answer :=
  match w with
  | WPrice coinID currency => r <~ GetPrice s coinID currency ;; retp (APrice r)
  | WPrices coinIDs currency => r <~ GetPrices s coinIDs currency ;; retp (APrices r)
  | WConvert fromCoin toCoin amount via => r <~ Convert s fromCoin toCoin amount via ;; retp (AConvert r)
  | WAddress chain address currency => r <~ GetPriceByAddress s chain address currency ;; retp (AAddress r)
  | WSave p => on_world (ps_Save p) ;;; retp ADone
  | WStream ttl p => on_world (cache_Set p ttl) ;;; on_world (ps_Save p) ;;; retp ADone
  end.

(** Its run on a sequence of worlds. *)
Definition fresh (env : nat -> W) : run := mkSvc (mkView env []) 0 0 [] [] false.
Definition replay (w : work) (env : nat -> W) : option answer * run := run_work w (fresh env).
Definition calls_made (st : run) : list W := vw_log (world st).

(** A goroutine and the worlds its calls have found. *)
Record thread := mkThread { th_work : work; th_seen : list W }.
Definition extends (seen : list W) (env : nat -> W) : Prop := forall i w, seen !! i = Some w -> env i = w.
(** What it does is what its run does, whatever worlds come after. *)
Definition after (t : thread) (Q : option answer -> run -> Prop) : Prop :=
  forall env, extends (th_seen t) env -> Q (fst (replay (th_work t) env)) (snd (replay (th_work t) env)).
(** Its next call turns the world it finds into [w']. *)
Definition next_call (t : thread) (w w' : W) : Prop :=
  after (mkThread (th_work t) (th_seen t ++ [w])) (fun _ st => calls_made st !! length (th_seen t) = Some w').
Definition finished (t : thread) (a : option answer) : Prop :=
  after t (fun r st => r = a /\ length (calls_made st) = length (th_seen t)).
(** A goroutine it has started, or is bound to start. *)
Definition starts (t : thread) (x : task) : Prop := after t (fun _ st => x ∈ tasks st).

(** The first call of the stream's loop on a price caches it. *)
Lemma stream_first_call ttl p w : next_call (mkThread (WStream ttl p) []) w (snd (cache_Set p ttl w)).
Proof.
  intros env He. specialize (He 0%nat w eq_refl). unfold replay, calls_made. cbn [th_work run_work].
  rewrite !bind_unfold. unfold on_world, fresh. cbn. unfold atomic. cbn. rewrite He.
  destruct (cache_Set p ttl w) as [r w']. cbn. by destruct (ps_Save p (env 1%nat)).
Qed.

(** A request for a cached price makes one call and is finished. *)
Lemma cached_run coinID currency p w w' env : s_cache s = true -> cache_Get coinID currency w = (ok p, w') -> env 0%nat = w ->
  exists st, replay (WPrice coinID currency) env = (Some (APrice (ok p)), st) /\ calls_made st = [w'].
Proof.
  intros Hs Hc He. unfold replay. cbn [run_work]. unfold bindp. rewrite bind_unfold.
  rewrite (GetPrice_cached (P := P) s coinID currency (fresh env) p (mkView env [w']) Hs); [by eexists|].
  cbn. unfold atomic. cbn. by rewrite He, Hc.
Qed.
Lemma cached_call coinID currency p w w' : s_cache s = true -> cache_Get coinID currency w = (ok p, w') ->
  next_call (mkThread (WPrice coinID currency) []) w w' /\
  finished (mkThread (WPrice coinID currency) [w]) (Some (APrice (ok p))).
Proof.
  intros Hs Hc. split; intros env He; destruct (cached_run coinID currency p w w' env Hs Hc) as (st & Hr & Hl);
    try (by apply (He 0%nat)); cbn [th_work th_seen length]; rewrite Hr; cbn [fst snd]; by rewrite Hl.
Qed.

(** ** Executions *)
Record execution := mkExec { ex_world : W; ex_threads : list thread }.
(** [outside] is what the rest of the program does to the world, [fed] the
    prices that come out of the stream. *)
Inductive ex_step (outside : W -> W -> Prop) (fed : Price -> Prop) : execution -> execution -> Prop :=
  | ex_request w e : (forall p, w <> WSave p) -> (forall ttl p, w <> WStream ttl p) ->
      ex_step outside fed e (mkExec (ex_world e) (ex_threads e ++ [mkThread w []]))
  | ex_save t p e : t ∈ ex_threads e -> starts t (TaskSave p) ->
      ex_step outside fed e (mkExec (ex_world e) (ex_threads e ++ [mkThread (WSave p) []]))
  | ex_stream ttl p e : fed p ->
      ex_step outside fed e (mkExec (ex_world e) (ex_threads e ++ [mkThread (WStream ttl p) []]))
  | ex_call k t w' e : ex_threads e !! k = Some t -> next_call t (ex_world e) w' ->
      ex_step outside fed e (mkExec w' (<[k := mkThread (th_work t) (th_seen t ++ [ex_world e])]> (ex_threads e)))
  | ex_outside w' e : outside (ex_world e) w' -> ex_step outside fed e (mkExec w' (ex_threads e)).
End interleave.

(** ** Traced prices *)
Section traced.
Context {O : DecimalOps} {L : DecimalLaws O} `{!SortSlice} `{!GoFmt} `{!Unicode}.
Context {W P T : Type} `{!ClockOps W} `{!Scheduler W}.
Context `{PP : !PriceProvider W P} `{PR : !ProviderRouter W P} `{CO : !CacheOps W}
  `{PS : !PriceStore W} `{TP : !TokenPriceProvider W T} `{RG : !RegistryOps W}.
Variables (clean : W -> Prop) (allowed : P -> Prop) (served : string -> string -> Price -> Prop)
  (token_served accepted streamed : Price -> Prop) (panicked : Prop).
Context `{TC : !Traceable clean allowed served token_served accepted streamed panicked (P := P) (T := T)}.
Variable s : PriceService (T := T).
Hypothesis validated_accepted : forall p, validated s p -> accepted p.
Hypothesis finite_or : finite_service s \/ panicked.
Hypothesis retries : 1 <= s_maxRetries s.
Notation traced := (traced served accepted streamed).
Notation replay := (replay s (P := P)).
Notation after := (after s (P := P)).

Definition work_traced (w : work) : Prop :=
  match w with WSave p | WStream _ p => traced p | _ => True end.
Definition answer_traced (w : work) (a : answer) : Prop :=
  match w, a with
  | WPrice coinID currency, APrice r => one_answer served accepted streamed coinID currency r
  | WPrices coinIDs currency, APrices r => prices_answer served accepted streamed coinIDs currency r.1
  | WConvert fromCoin toCoin _ via, AConvert r => convert_answer served accepted streamed fromCoin toCoin via r
  | WAddress _ _ currency, AAddress r => address_answer served token_served accepted streamed currency r
  | (WSave _ | WStream _ _), ADone => True
  | _, _ => False
  end.
Notation run_inv := (svc_inv (view_inv clean) served accepted streamed).

Lemma run_work_maintains w : work_traced w ->
  maintains run_inv (run_work s w) (or_panic panicked (answer_traced w)).
Proof.
  intros Hw. destruct w; cbn [run_work].
  - eapply maintains_bindp; [apply (GetPrice_maintains (view_inv clean) allowed served token_served accepted streamed panicked s validated_accepted finite_or retries)|].
    intros r Hr. by apply maintains_retp.
  - eapply maintains_bindp; [apply (GetPrices_maintains (view_inv clean) allowed served token_served accepted streamed panicked s validated_accepted finite_or retries)|].
    intros r Hr. by apply maintains_retp.
  - eapply maintains_bindp; [apply (Convert_maintains (view_inv clean) allowed served token_served accepted streamed panicked s validated_accepted finite_or retries)|].
    intros r Hr. by apply maintains_retp.
  - eapply maintains_bindp; [apply (GetPriceByAddress_maintains (view_inv clean) allowed served token_served accepted streamed panicked s validated_accepted finite_or retries)|].
    intros r Hr. by apply maintains_retp.
  - eapply maintains_bind; [by apply on_world_maintains, (tc_save (allowed := allowed) (token_served := token_served) (panicked := panicked))|]. intros. by apply maintains_retp.
  - eapply maintains_bind; [by apply on_world_maintains, (tc_set (allowed := allowed) (token_served := token_served) (panicked := panicked))|]. intros.
    eapply maintains_bind; [by apply on_world_maintains, (tc_save (allowed := allowed) (token_served := token_served) (panicked := panicked))|]. intros. by apply maintains_retp.
Qed.

Definition thread_clean (t : thread) : Prop := work_traced (th_work t) /\ Forall clean (th_seen t).
(** What is certain about a clean goroutine is so on a sequence of clean
    worlds, and there its run keeps the invariant. *)
Lemma after_clean t (w : W) Q : clean w -> thread_clean t -> after t Q ->
  exists r st, Q r st /\ Forall clean (calls_made st) /\ Forall (fun x => traced (task_price x)) (tasks st) /\
    or_panic panicked (answer_traced (th_work t)) r.
Proof.
  intros Hw [Hwork Hseen] HQ. set (env := fun i => default w (th_seen t !! i)).
  assert (forall n, clean (env n)) as Henv.
  { intros n. unfold env. destruct (th_seen t !! n) eqn:E; [|done]. by eapply Forall_lookup_1. }
  specialize (HQ env). do 2 eexists. split; [apply HQ; intros i x Hx; unfold env; by rewrite Hx|].
  destruct (run_work_maintains (th_work t) Hwork (fresh env)) as [[Hv Ht] Ha]; [by repeat constructor|].
  split_and!; [apply Hv|exact Ht|exact Ha].
Qed.

Definition ex_clean (e : execution) : Prop := clean (ex_world e) /\ Forall thread_clean (ex_threads e).
Variables (outside : W -> W -> Prop) (fed : Price -> Prop).
Hypothesis outside_clean : forall w w', outside w w' -> clean w -> clean w'.
Hypothesis fed_streamed : forall p, fed p -> streamed p.

Lemma ex_step_clean e e' : ex_step s (P := P) outside fed e e' -> ex_clean e -> ex_clean e'.
Proof.
  intros Hstep [Hw Hts]. destruct Hstep as [w e Hs Hst|t p e Ht Hs|ttl p e Hp|k t w' e Hk Hn|w' e Ho]; split; simpl in *;
    try apply Forall_snoc; try done.
  - split; [done|]. split; [|constructor]. destruct w; simpl; solve [done | exfalso; by eapply Hs | exfalso; by eapply Hst].
  - split; [done|]. split; [|constructor]. simpl. eapply Forall_forall in Hts; [|exact Ht].
    destruct (after_clean _ _ _ Hw Hts Hs) as (r & st & Hin & _ & Hall & _).
    by eapply Forall_forall in Hall; [|exact Hin].
  - split; [done|]. split; [|constructor]. by apply TStreamed, fed_streamed.
  - eapply Forall_lookup_1 in Hts as [Hwork Hseen]; [|exact Hk].
    destruct (after_clean _ _ _ Hw (conj Hwork (proj2 (Forall_snoc _ _ _) (conj Hseen Hw)) :
      thread_clean (mkThread (th_work t) (th_seen t ++ [ex_world e]))) Hn) as (r & st & Hl & Hall & _).
    by eapply Forall_lookup_1 in Hall.
  - apply Forall_insert; [done|]. eapply Forall_lookup_1 in Hts as [Hwork Hseen]; [|exact Hk].
    split; [done|]. by apply Forall_snoc.
  - eauto.
Qed.
Lemma executions_clean e e' : rtc (ex_step s (P := P) outside fed) e e' -> ex_clean e -> ex_clean e'.
Proof. induction 1; eauto using ex_step_clean. Qed.

Lemma ex_clean_answers e t : ex_clean e -> t ∈ ex_threads e ->
  (forall r, finished s (P := P) t r -> or_panic panicked (answer_traced (th_work t)) r) /\
  (forall x, starts s (P := P) t x -> traced (task_price x)).
Proof.
  intros [Hw Hts] Ht. eapply Forall_forall in Hts; [|exact Ht]. split.
  - intros a Ha. destruct (after_clean _ _ _ Hw Hts Ha) as (r & st & [-> _] & _ & _ & Hres). exact Hres.
  - intros x Hx. destruct (after_clean _ _ _ Hw Hts Hx) as (r & st & Hin & _ & Hall & _).
    by eapply Forall_forall in Hall; [|exact Hin].
Qed.
End traced.
