(* ===== verification/Causality.v ===== *)
(** * A request depends on the worlds it has found, and on no other

    Two runs of a request that find the same worlds up to some point make the
    same calls up to there: so the next call of [Interleave] is well defined,
    and a goroutine that is not finished has one, whatever world it finds. *)
From S2P Require Import Prelude GoLib GoStrings Decimal Model Ports Consensus PriceService Interleave.
Open Scope Z_scope.

(** ** Computations over a state with a view in it *)
Section causal.
Context {W S : Type} (get : S -> view W) (put : (nat -> W) -> S -> S).
Class ViewLens := {
  get_put : forall env st, get (put env st) = mkView env (vw_log (get st)) }.
Context `{!ViewLens}.
Implicit Types st : S.

Notation made st := (length (vw_log (get st))).
(** Calls are written down at the end; the worlds to come do not change. *)
Definition grows st st' : Prop :=
  vw_env (get st') = vw_env (get st) /\ vw_log (get st) `prefix_of` vw_log (get st').
#[export] Instance grows_preorder : PreOrder grows.
Proof.
  split; [by intros st; split|]. intros st1 st2 st3 [He1 Hl1] [He2 Hl2].
  split; [congruence|by etrans].
Qed.
Definition past (n : nat) st st' : Prop :=
  (n < made st)%nat /\ (n < made st')%nat /\ take n (vw_log (get st)) = take n (vw_log (get st')).
Lemma past_grows n st1 st2 st1' st2' : past n st1 st2 -> grows st1 st1' -> grows st2 st2' -> past n st1' st2'.
Proof.
  intros (Hl1 & Hl2 & Ht) [_ [k1 H1]] [_ [k2 H2]]. unfold past. rewrite H1, H2, !length_app.
  split_and!; [lia|lia|]. by rewrite !take_app_le by lia.
Qed.

(** Run on sequences that agree up to the [n]-th world, it either ends the
    same way, with no more than [n] calls made, or has made more in both. *)
Definition causal {A} (m : M S A) : Prop :=
  keeps grows m /\
  forall n env st, (forall i, (i < n)%nat -> vw_env (get st) i = env i) -> (made st <= n)%nat ->
    (fst (m (put env st)) = fst (m st) /\ snd (m (put env st)) = put env (snd (m st)) /\ (made (snd (m st)) <= n)%nat) \/
    past n (snd (m st)) (snd (m (put env st))).

Lemma causal_ret {A} (a : A) : causal (ret a).
Proof. split; [apply keeps_ret, _|]. intros n env st _ Hl. by left. Qed.
Lemma causal_bind {A B} (m : M S A) (k : A -> M S B) : causal m -> (forall a, causal (k a)) -> causal (bind m k).
Proof.
  intros [Hg Hm] Hk. split; [apply keeps_bind; [apply _|done|intros a; apply Hk]|].
  intros n env st He Hl. rewrite !bind_unfold. destruct (Hm n env st He Hl) as [(Ha & Hs & Hl')|Hp].
  - rewrite Ha, Hs. apply Hk; [|done]. intros i Hi. destruct (Hg st) as [-> _]. by apply He.
  - right. eapply past_grows; [exact Hp|apply Hk|apply Hk].
Qed.
(** A step that leaves the view alone. *)
Lemma causal_local {A} (m : M S A) : (forall st, get (snd (m st)) = get st) ->
  (forall env st, m (put env st) = (fst (m st), put env (snd (m st)))) -> causal m.
Proof.
  intros Hm He. split; [intros st; split; by rewrite Hm|]. intros n env st _ Hl. left. by rewrite He, Hm.
Qed.
Lemma causal_bindp {A B} (m : PM S A) (k : A -> PM S B) : causal m -> (forall a, causal (k a)) -> causal (bindp m k).
Proof. intros Hm Hk. apply causal_bind; [done|]. intros [a|]; [apply Hk|apply causal_ret]. Qed.
Lemma causal_liftp {A} (m : M S A) : causal m -> causal (liftp m).
Proof. intros Hm. apply causal_bind; [done|]. intros a. apply causal_ret. Qed.
Lemma causal_bindc {A B} (m : M S (called A)) (k : A -> M S (called B)) :
  causal m -> (forall a, causal (k a)) -> causal (bindc m k).
Proof. intros Hm Hk. apply causal_bind; [done|]. intros [a| |]; [apply Hk|apply causal_ret..]. Qed.
Lemma causal_in_goroutine {A} (m : PM S A) : causal m -> causal (in_goroutine m).
Proof. intros Hm. apply causal_bind; [done|]. intros a. apply causal_ret. Qed.
Lemma causal_in_caller {A} (m : PM S A) : causal m -> causal (in_caller m).
Proof. intros Hm. apply causal_bind; [done|]. intros a. apply causal_ret. Qed.
End causal.
Arguments ViewLens {W S} _ _.

Create HintDb causal.
#[export] Hint Resolve causal_ret causal_bind causal_bindp causal_liftp causal_bindc causal_in_goroutine
  causal_in_caller : causal.
#[export] Hint Extern 1 (causal _ _ (match ?x with _ => _ end)) => destruct x : causal.
#[export] Hint Extern 1 (causal _ _ (retp _)) => apply causal_ret : causal.
#[export] Hint Extern 1 (causal _ _ (retc _)) => apply causal_ret : causal.
#[export] Hint Extern 1 (causal _ _ (of_option _)) => apply causal_ret : causal.

(** ** The two states: the view itself, and the service over it *)
Section states.
Context {O : DecimalOps} {W : Type}.
Definition of_view (v : view W) : view W := v.
Definition put_view (env : nat -> W) (v : view W) : view W := mkView env (vw_log v).
#[export] Instance view_lens : ViewLens of_view put_view.
Proof. done. Qed.
Lemma causal_atomic {A} (m : M W A) : causal of_view put_view (atomic m).
Proof.
  split.
  - intros [env log]. unfold atomic, grows, of_view. simpl. destruct (m (env (length log))). simpl.
    split; [done|]. by eexists.
  - intros n env' [env log] He Hl. unfold atomic, of_view, put_view, past in *. simpl in *.
    destruct (decide (length log < n)%nat) as [Hlt|Hge].
    + left. rewrite <- (He _ Hlt). destruct (m (env (length log))). simpl. rewrite length_app. simpl. split_and!; [done..|lia].
    + right. destruct (m (env (length log))), (m (env' (length log))). simpl. rewrite !length_app. simpl.
      split_and!; [lia..|]. by rewrite !take_app_le by lia.
Qed.

Notation run := (svc (W := view W)).
Definition put_run (env : nat -> W) (st : run) : run :=
  mkSvc (put_view env (world st)) (requestCount st) (cacheHitCount st) (metrics st) (tasks st) (crashed st).
#[export] Instance run_lens : ViewLens (S := run) world put_run.
Proof. done. Qed.
Lemma causal_on_world {A} (m : M (view W) A) : causal of_view put_view m -> causal world put_run (on_world m).
Proof.
  intros [Hg Hm]. split.
  - intros [v n1 n2 ms ts]. unfold on_world, grows. simpl. specialize (Hg v). by destruct (m v).
  - intros n env [v n1 n2 ms ts] He Hl. unfold on_world, put_run, past in *. simpl in *.
    specialize (Hm n env v He Hl). unfold past, of_view in Hm.
    destruct (m v) as [a v1], (m (put_view env v)) as [b v2]. simpl in *.
    destruct Hm as [(-> & -> & ?)|?]; [by left|by right].
Qed.
End states.
#[export] Hint Resolve causal_atomic causal_on_world : causal.

(** ** The service *)
Section service.
Context {O : DecimalOps} {L : DecimalLaws O} `{!SortSlice} `{!GoFmt} `{!Unicode}.
Context {W P T : Type} `{!ClockOps W} `{!Scheduler W}.
Context `{PP : !PriceProvider W P} `{PR : !ProviderRouter W P} `{CO : !CacheOps W}
  `{PS : !PriceStore W} `{TP : !TokenPriceProvider W T} `{RG : !RegistryOps W}.
Notation V := (view W).
Notation run := (svc (W := V)).
Notation vcausal := (causal (W := W) of_view put_view).
Notation rcausal := (causal (W := W) (world (W := V)) put_run).

(** *** The ports *)
Lemma causal_now : vcausal (w_Now (W := V)).
Proof. apply causal_atomic. Qed.
Lemma causal_pick n : vcausal (sch_pick (W := V) n).
Proof. apply causal_atomic. Qed.
Lemma causal_price (p : P) coin cur : vcausal (pp_GetPrice (W := V) p coin cur).
Proof. apply causal_atomic. Qed.
Lemma causal_select coin : vcausal (rt_Select (W := V) (P := P) coin).
Proof. apply causal_atomic. Qed.
Lemma causal_success name d : vcausal (rt_ReportSuccess (W := V) (P := P) name d).
Proof. apply causal_atomic. Qed.
Lemma causal_failure name e : vcausal (rt_ReportFailure (W := V) (P := P) name e).
Proof. apply causal_atomic. Qed.
Lemma causal_get coin cur : vcausal (cache_Get (W := V) coin cur).
Proof. apply causal_atomic. Qed.
Lemma causal_set p ttl : vcausal (cache_Set (W := V) p ttl).
Proof. apply causal_atomic. Qed.
Lemma causal_save p : vcausal (ps_Save (W := V) p).
Proof. apply causal_atomic. Qed.
Lemma causal_latest coin cur : vcausal (ps_GetLatest (W := V) coin cur).
Proof. apply causal_atomic. Qed.
Lemma causal_token (t : T) chain address cur : vcausal (tp_GetPriceByAddress (W := V) t chain address cur).
Proof. apply causal_atomic. Qed.
Lemma causal_resolve chain address : vcausal (rg_Resolve (W := V) chain address).
Proof. apply causal_atomic. Qed.
Lemma causal_add chain address coin : vcausal (rg_Add (W := V) chain address coin).
Proof. apply causal_atomic. Qed.
Hint Resolve causal_now causal_pick causal_price causal_select causal_success causal_failure causal_get causal_set
  causal_save causal_latest causal_token causal_resolve causal_add : causal.

(** *** The consensus *)
Lemma causal_go_step coin cur i g s : vcausal (go_step (W := V) (P := P) coin cur i g s).
Proof. unfold go_step. auto 8 with causal. Qed.
Hint Resolve causal_go_step : causal.
Lemma causal_step_nth coin cur k s : vcausal (step_nth (W := V) (P := P) coin cur k s).
Proof. unfold step_nth. auto 8 with causal. Qed.
Hint Resolve causal_step_nth : causal.
Lemma causal_run_some coin cur fuel : forall s, vcausal (run_some (W := V) (P := P) coin cur fuel s).
Proof. induction fuel as [|fuel IH]; intros s; simpl; auto 8 with causal. Qed.
Lemma causal_wait_all coin cur fuel : forall s, vcausal (wait_all (W := V) (P := P) coin cur fuel s).
Proof. induction fuel as [|fuel IH]; intros s; simpl; auto 8 with causal. Qed.
Hint Resolve causal_run_some causal_wait_all : causal.
Lemma causal_select_loop coin cur n : forall sel s, vcausal (select_loop (W := V) (P := P) coin cur n sel s).
Proof. induction n as [|n IH]; intros sel s; simpl; auto 8 with causal. Qed.
Hint Resolve causal_select_loop : causal.
Lemma causal_Compute e coin cur n : vcausal (Compute (W := V) (P := P) e coin cur n).
Proof. unfold Compute. auto 8 with causal. Qed.
Hint Resolve causal_Compute : causal.

(** *** The price service *)
Lemma causal_crash : rcausal crash.
Proof. by apply causal_local. Qed.
Lemma causal_on_called {A} (m : M V (called A)) : vcausal m -> rcausal (on_called m).
Proof.
  intros Hm. unfold on_called. apply causal_bind; [by apply causal_on_world|].
  intros [a| |]; [apply causal_ret..|]. apply causal_bind; [apply causal_crash|]. intros. apply causal_ret.
Qed.
Lemma causal_emit x : rcausal (emit x).
Proof. by apply causal_local. Qed.
Lemma causal_spawn b x : rcausal (spawn b x).
Proof. by apply causal_local. Qed.
Lemma causal_count_request : rcausal count_request.
Proof. by apply causal_local. Qed.
Lemma causal_count_cache_hit : rcausal count_cache_hit.
Proof. by apply causal_local. Qed.
Lemma causal_when_dep {A} b (m : M V A) : vcausal m -> rcausal (when_dep b m).
Proof. unfold when_dep. auto 8 with causal. Qed.
Hint Resolve causal_on_called causal_emit causal_spawn causal_count_request causal_count_cache_hit causal_when_dep : causal.

Variable s : PriceService (T := T).
Lemma causal_cache_lookup coin cur : rcausal (cache_lookup s coin cur).
Proof. unfold cache_lookup. auto 8 with causal. Qed.
Lemma causal_consensus_mode coin cur : rcausal (consensus_mode s (P := P) coin cur).
Proof. unfold consensus_mode. cbv zeta. auto 12 with causal. Qed.
Lemma causal_check_price coin cur price : rcausal (check_price s coin cur price).
Proof. unfold check_price. auto 12 with causal. Qed.
Hint Resolve causal_cache_lookup causal_consensus_mode causal_check_price : causal.
Lemma causal_try_provider coin cur (p : P) : rcausal (try_provider s coin cur p).
Proof. unfold try_provider. cbv zeta. auto 16 with causal. Qed.
Hint Resolve causal_try_provider : causal.
Lemma causal_retry_loop coin cur n : forall tried lastErr, rcausal (retry_loop s (P := P) coin cur n tried lastErr).
Proof. induction n as [|n IH]; intros tried lastErr; simpl; auto 12 with causal. Qed.
Hint Resolve causal_retry_loop : causal.
Lemma causal_GetPrice coin cur : rcausal (GetPrice s (P := P) coin cur).
Proof. unfold GetPrice. auto 14 with causal. Qed.
Hint Resolve causal_GetPrice : causal.
Lemma causal_GetPrices_loop cur ids : forall results errs, rcausal (GetPrices_loop s (P := P) ids cur results errs).
Proof. induction ids as [|id ids IH]; intros results errs; simpl; auto 8 with causal. Qed.
Lemma causal_Convert a b amount via : rcausal (Convert s (P := P) a b amount via).
Proof. unfold Convert. auto 16 with causal. Qed.
Lemma causal_ask tps chain address cur : rcausal (ask_token_providers s tps chain address cur).
Proof. induction tps as [|tp tps IH]; simpl; auto 8 with causal. Qed.
Hint Resolve causal_GetPrices_loop causal_Convert causal_ask : causal.
Lemma causal_GetPriceByAddress chain address cur : rcausal (GetPriceByAddress s (P := P) chain address cur).
Proof. unfold GetPriceByAddress. cbv zeta. auto 12 with causal. Qed.
Hint Resolve causal_GetPriceByAddress : causal.
Lemma causal_work w : rcausal (run_work s (P := P) w).
Proof. destruct w; cbn [run_work]; unfold GetPrices; auto 8 with causal. Qed.

(** ** The next call *)
Notation replay := (replay s (P := P)).
Notation next_call := (next_call s (P := P)).
Notation finished := (finished s (P := P)).
Lemma replay_agree w n env env' : (forall i, (i < n)%nat -> env i = env' i) ->
  let r := replay w env in let r' := replay w env' in
  (fst r' = fst r /\ calls_made (snd r') = calls_made (snd r) /\ tasks (snd r') = tasks (snd r) /\
   (length (calls_made (snd r)) <= n)%nat) \/
  ((n < length (calls_made (snd r)))%nat /\ (n < length (calls_made (snd r')))%nat /\
   take n (calls_made (snd r)) = take n (calls_made (snd r'))).
Proof.
  intros He. destruct (causal_work w) as [_ Hw].
  destruct (Hw n env' (fresh env)) as [(Hr & Hs & Hl)|Hp]; [exact He|simpl; lia| |right; exact Hp].
  left. change (put_run env' (fresh env)) with (fresh (W := W) env') in Hr, Hs.
  unfold Interleave.replay. rewrite Hr, Hs. split_and!; [done..|exact Hl].
Qed.

(** The calls a goroutine has made are calls of its run. *)
Definition th_ok (t : thread (W := W)) : Prop :=
  after s (P := P) t (fun _ st => (length (th_seen t) <= length (calls_made st))%nat).

Lemma agrees_extends (seen : list W) w env : extends seen env ->
  forall i, (i < length seen)%nat -> default w (seen !! i) = env i.
Proof. intros He i [x Hx]%lookup_lt_is_Some_2. rewrite Hx. simpl. by rewrite (He i x Hx). Qed.
Lemma default_extends (seen : list W) w : extends seen (fun i => default w (seen !! i)).
Proof. intros i x Hx. by rewrite Hx. Qed.

(** A goroutine that is not finished makes its next call, whatever world it
    finds. *)
Lemma thread_progress t w : th_ok t -> (exists r, finished t r) \/ exists w', next_call t w w'.
Proof.
  destruct t as [k seen]. intros Hok. set (env := fun i => default w (seen !! i)).
  pose proof (Hok env (default_extends seen w)) as Hlen. cbn in Hlen.
  destruct (decide (length (calls_made (snd (replay k env))) <= length seen)%nat) as [Hle|Hgt].
  - left. exists (fst (replay k env)). intros env' He'. cbn in *.
    destruct (replay_agree k (length seen) env env') as [(-> & -> & _)|(Hlt & _)]; [by apply agrees_extends| |lia].
    split; [done|lia].
  - right. destruct (lookup_lt_is_Some_2 (calls_made (snd (replay k env))) (length seen)) as [w' Hw']; [lia|].
    exists w'. intros env' He'. cbn in *.
    assert (forall i, (i < S (length seen))%nat -> env i = env' i) as Hag.
    { intros i Hi. unfold env. rewrite <- (agrees_extends (seen ++ [w]) w env' He') by (rewrite length_app; simpl; lia).
      destruct (decide (i < length seen)%nat); [by rewrite lookup_app_l|].
      assert (i = length seen) as -> by lia. by rewrite (lookup_ge_None_2 seen), list_lookup_middle. }
    destruct (replay_agree k (S (length seen)) env env' Hag) as [(_ & -> & _)|(_ & _ & Ht)]; [done|].
    rewrite <- Hw'. rewrite <- (lookup_take_lt _ (S (length seen))), <- Ht, lookup_take_lt by lia. done.
Qed.
(** And it can make only that one. *)
Lemma next_call_det t w w1 w2 : next_call t w w1 -> next_call t w w2 -> w1 = w2.
Proof.
  intros Ha Hb. specialize (Ha _ (default_extends _ w)). specialize (Hb _ (default_extends _ w)). cbn in *. congruence.
Qed.
Lemma finished_stops t w w' r : finished t r -> next_call t w w' -> False.
Proof.
  intros Hf Hn. specialize (Hn _ (default_extends _ w)). cbn in Hn. apply lookup_lt_Some in Hn.
  destruct (Hf (fun i => default w ((th_seen t ++ [w]) !! i))) as [_ Hl]; [|cbn in Hl; lia].
  intros i x Hx. by rewrite (lookup_app_l_Some _ _ _ _ Hx).
Qed.

Lemma executions_ok outside streamed e e' : rtc (ex_step s (P := P) outside streamed) e e' ->
  Forall th_ok (ex_threads e) -> Forall th_ok (ex_threads e').
Proof.
  induction 1 as [|e1 e2 e3 Hstep _ IH]; [done|]. intros Hok. apply IH. clear IH e3.
  destruct Hstep as [w e _ _|t p e _ _|ttl p e _|k t w' e Hk Hn|w' e _]; simpl; try apply Forall_snoc; try done.
  1-3: split; [done|]; intros env _; simpl; lia.
  apply Forall_insert; [done|]. intros env He. specialize (Hn env He). cbn in *.
  apply lookup_lt_Some in Hn. rewrite length_app. simpl. lia.
Qed.
End service.
