(* ===== verification/Http.v ===== *)
(** * internal/adapter/transport/http: the request handlers

    handler.go, handler_price.go, handler_alerts.go, handler_admin.go,
    handler_analytics.go, response.go.  A handler runs on the state of the
    services and answers, or panics.  The query and the path parameters are the
    request's, its body a JSON value or none; times, durations and floats in them are
    parsed by a class of the standard library's parsers. *)
From S2P Require Import Prelude GoLib GoStrings Decimal Model Strategies MemCache MemStore Registry.
From S2P Require Import GoJSON Ports World Demo Validator Consensus PriceService.
From S2P Require Alerts Poller Admin.
From Stdlib Require Import Ascii.
Open Scope Z_scope.

(** ** Requests and responses *)
Record createAlertRequest := mkCreateAlert {
  ca_CoinID : string; ca_Currency : string; ca_Condition : string; ca_Threshold : string; ca_WebhookURL : string }.
Record subscribeRequest := mkSubscribe { sr_CoinID : string; sr_Currency : string; sr_Interval : string }.
Section bodies.
Context `{!GoJSON}.
Definition createAlertRequest_zero : createAlertRequest := mkCreateAlert "" "" "" "" "".
Definition createAlertRequest_fields : list (field createAlertRequest) := [
  fld "coin_id" dec_string ca_CoinID (fun x r =>
    mkCreateAlert x (ca_Currency r) (ca_Condition r) (ca_Threshold r) (ca_WebhookURL r));
  fld "currency" dec_string ca_Currency (fun x r =>
    mkCreateAlert (ca_CoinID r) x (ca_Condition r) (ca_Threshold r) (ca_WebhookURL r));
  fld "condition" dec_string ca_Condition (fun x r =>
    mkCreateAlert (ca_CoinID r) (ca_Currency r) x (ca_Threshold r) (ca_WebhookURL r));
  fld "threshold" dec_string ca_Threshold (fun x r =>
    mkCreateAlert (ca_CoinID r) (ca_Currency r) (ca_Condition r) x (ca_WebhookURL r));
  fld "webhook_url" dec_string ca_WebhookURL (fun x r =>
    mkCreateAlert (ca_CoinID r) (ca_Currency r) (ca_Condition r) (ca_Threshold r) x)].
Definition subscribeRequest_zero : subscribeRequest := mkSubscribe "" "" "".
Definition subscribeRequest_fields : list (field subscribeRequest) := [
  fld "coin_id" dec_string sr_CoinID (fun x r => mkSubscribe x (sr_Currency r) (sr_Interval r));
  fld "currency" dec_string sr_Currency (fun x r => mkSubscribe (sr_CoinID r) x (sr_Interval r));
  fld "interval" dec_string sr_Interval (fun x r => mkSubscribe (sr_CoinID r) (sr_Currency r) x)].
Definition decode_alert (body : option jvalue) : createAlertRequest + error :=
  decode createAlertRequest_zero (dec_struct createAlertRequest_fields) body.
Definition decode_subscribe (body : option jvalue) : subscribeRequest + error :=
  decode subscribeRequest_zero (dec_struct subscribeRequest_fields) body.
End bodies.

Record Request := mkRequest {
  rq_Method : string;
  rq_Path : string;
  rq_URLParam : string -> string;
  rq_Query : string -> string;
  rq_Header : string -> string;
  rq_RemoteAddr : string;
  rq_ReqID : string;
  rq_Body : option jvalue }.

Inductive json :=
  | JStr (s : string) | JInt (z : Z) | JFloat (f : float64) | JTime (t : Time) | JBool (b : bool)
  | JNull | JArr (l : list json) | JObj (l : list (string * json)).
(** [json.Encoder] refuses a NaN or an infinity anywhere in the value. *)
Fixpoint json_ok (j : json) : bool :=
  match j with
  | JFloat f => float_finite f
  | JArr l => forallb json_ok l
  | JObj l => forallb (fun kv => json_ok kv.2) l
  | _ => true
  end.

Record Response := mkResponse {
  rs_Status : Z; rs_Headers : gmap string string; rs_Body : option json }.

Definition StatusOK : Z := 200.
Definition StatusCreated : Z := 201.
Definition StatusNoContent : Z := 204.
Definition StatusBadRequest : Z := 400.
Definition StatusUnauthorized : Z := 401.
Definition StatusNotFound : Z := 404.
Definition StatusTooManyRequests : Z := 429.
Definition StatusInternalServerError : Z := 500.
Definition StatusServiceUnavailable : Z := 503.

(** The status line is written before the value is encoded: a value that
    cannot be encoded leaves an empty body. *)
Definition writeJSON (status : Z) (v : json) : Response :=
  mkResponse status {["Content-Type"%string := "application/json"%string]}
    (if json_ok v then Some v else None).
(** [RequestID] is left empty, and omitted. *)
Definition writeError (status : Z) (code message : string) : Response :=
  writeJSON status (JObj [("error", JObj [("code", JStr code); ("message", JStr message)])])%string.

(** ** handler.go *)
Section validation.
Context `{!Unicode}.

Definition valid_rune (c : Z) : bool :=
  u_IsLetter c || u_IsDigit c || (c =? 45) || (c =? 95) || (c =? 46).
Definition isValidCoinID (s : string) : bool :=
  let n := Z.of_nat (String.length s) in
  if (n =? 0) || (n >? 100) then false else forallb valid_rune (runes s).

Definition splitCoins (s : string) : list string :=
  omap (fun c => let c := TrimSpace c in if bool_decide (c = ""%string) then None else Some c)
    (split_byte ","%char s).
End validation.

Definition handlePriceError (e : error) : Response :=
  if errors_Is e SCoinNotFound then writeError StatusNotFound "COIN_NOT_FOUND" (error_Error e)
  else if errors_Is e SNoHealthyProvider
  then writeError StatusServiceUnavailable "NO_HEALTHY_PROVIDER" (error_Error e)
  else if errors_Is e SBudgetExhausted
  then writeError StatusServiceUnavailable "BUDGET_EXHAUSTED" (error_Error e)
  else writeError StatusInternalServerError "INTERNAL_ERROR" "internal server error".

Definition parseInterval (s : string) : Duration :=
  if bool_decide (s = "1m"%string) then Minute
  else if bool_decide (s = "5m"%string) then 5 * Minute
  else if bool_decide (s = "15m"%string) then 15 * Minute
  else if bool_decide (s = "1h"%string) then Hour
  else if bool_decide (s = "4h"%string) then 4 * Hour
  else if bool_decide (s = "1d"%string) then 24 * Hour
  else Hour.

Section handlers.
Context {O : DecimalOps} `{!SortSlice} `{!MapRange} `{!GoFmt} `{!Unicode} `{!Alerts.NetParse} `{!GoParse} `{!GoJSON}.
Context {W P T : Type} `{!ClockOps W} `{!Scheduler W}.
Context `{PP : !PriceProvider W P} `{PR : !ProviderRouter W P} `{CO : !CacheOps W}
  `{PS : !PriceStore W} `{TP : !TokenPriceProvider W T} `{RG : !RegistryOps W}
  `{SG : !ProviderStatusGetter W} `{AS : !AnalyticsStore W}.

Record Handler := NewHandler {
  h_priceSvc : PriceService (T := T);
  h_analytics : bool; (* the analytics service may be nil *)
  h_defaultCurrency : string }.

(** The state of the services the handlers share. *)
Record server := mkServer {
  sv_svc : svc (W := W);
  sv_alerts : Alerts.AlertService;
  sv_poller : Poller.Poller }.

Definition on_svc {A} (m : M (svc (W := W)) A) : M server A := fun s =>
  let '(a, x) := m (sv_svc s) in (a, mkServer x (sv_alerts s) (sv_poller s)).
Definition on_alerts {A} (m : M Alerts.AlertService A) : M server A := fun s =>
  let '(a, x) := m (sv_alerts s) in (a, mkServer (sv_svc s) x (sv_poller s)).
Definition on_poller {A} (m : M Poller.Poller A) : M server A := fun s =>
  let '(a, x) := m (sv_poller s) in (a, mkServer (sv_svc s) (sv_alerts s) x).
Definition on_subs {A} (m : M Poller.SubscriptionService A) : M server A := on_poller (fun p =>
  let '(x, s) := m (Poller.mkSubscriptionService p) in (x, Poller.ss_poller s)).
Definition now : M server Time := on_svc (on_world w_Now).

Definition parseTimeRange (r : Request) : M server (Time * Time) :=
  now <- now ;;
  let from := match time_ParseRFC3339 (rq_Query r "from") with
    | Some t => if bool_decide (rq_Query r "from" = ""%string) then time_Add now (-24 * Hour) else t
    | None => time_Add now (-24 * Hour) end in
  let to := match time_ParseRFC3339 (rq_Query r "to") with
    | Some t => if bool_decide (rq_Query r "to" = ""%string) then now else t
    | None => now end in
  ret (from, to).

Definition currency_of (h : Handler) (r : Request) : string :=
  if bool_decide (rq_Query r "currency" = ""%string) then h_defaultCurrency h else rq_Query r "currency".

(** ** handler_price.go *)
Definition price_response (price : Price) : json := JObj (
  [("coin", JStr (CoinID price)); ("currency", JStr (Currency price));
   ("price", JStr (dec_String (Value price))); ("provider", JStr (PProvider price));
   ("timestamp", JTime (Timestamp price))]%string ++
  (if dec_IsZero (MarketCap price) then [] else [("market_cap"%string, JStr (dec_String (MarketCap price)))]) ++
  (if dec_IsZero (Volume24h price) then [] else [("volume_24h"%string, JStr (dec_String (Volume24h price)))]) ++
  (if feqb (Change24h price) fzero then [] else [("change_24h"%string, JFloat (Change24h price))])).

Definition HandleGetPrice (h : Handler) (r : Request) : PM server Response :=
  let coinID := rq_URLParam r "coinID" in
  if negb (isValidCoinID coinID) then retp (writeError StatusBadRequest "INVALID_PARAM" "invalid coin ID") else
  res <~ on_svc (GetPrice (h_priceSvc h) coinID (currency_of h r)) ;;
  match res with
  | (_, Some e) => retp (handlePriceError e)
  | (Some price, None) => retp (writeJSON StatusOK (price_response price))
  | (None, None) => ret None
  end.

(** A price as encoding/json prints the struct; a nil slice prints as null. *)
Definition price_json (p : Price) : json := JObj
  [("CoinID", JStr (CoinID p)); ("Currency", JStr (Currency p)); ("Value", JStr (dec_String (Value p)));
   ("Provider", JStr (PProvider p)); ("Timestamp", JTime (Timestamp p)); ("ReceivedAt", JTime (ReceivedAt p));
   ("MarketCap", JStr (dec_String (MarketCap p))); ("Volume24h", JStr (dec_String (Volume24h p)));
   ("Change24h", JFloat (Change24h p))]%string.
Definition nil_slice {A} (f : A -> json) (l : list A) : json :=
  match l with [] => JNull | _ => JArr (f <$> l) end.

Definition maxCoins : Z := 50.
Definition HandleGetPrices (h : Handler) (r : Request) : PM server Response :=
  let coinsParam := rq_Query r "coins" in
  if bool_decide (coinsParam = ""%string)
  then retp (writeError StatusBadRequest "MISSING_PARAM" "coins query parameter is required") else
  let coinIDs := splitCoins coinsParam in
  if Z.of_nat (length coinIDs) >? maxCoins
  then retp (writeError StatusBadRequest "TOO_MANY_COINS" "maximum 50 coins per request") else
  res <~ on_svc (GetPrices (h_priceSvc h) coinIDs (currency_of h r)) ;;
  retp (writeJSON StatusOK (JObj
    [("prices"%string, nil_slice price_json res.1);
     ("errors"%string, JObj ((fun '(k, e) => (k, JStr (error_Error e))) <$> map_range res.2))])).

Definition candle_json (c : OHLC) : json := JObj
  [("Time", JTime (OTime c)); ("Open", JStr (dec_String (OOpen c))); ("High", JStr (dec_String (OHigh c)));
   ("Low", JStr (dec_String (OLow c))); ("Close", JStr (dec_String (OClose c)))]%string.

Definition HandleGetOHLC (h : Handler) (r : Request) : PM server Response :=
  let coinID := rq_URLParam r "coinID" in
  if negb (isValidCoinID coinID) then retp (writeError StatusBadRequest "INVALID_PARAM" "invalid coin ID") else
  let currency := currency_of h r in
  if bool_decide (rq_Query r "from" = ""%string) || bool_decide (rq_Query r "to" = ""%string)
  then retp (writeError StatusBadRequest "MISSING_PARAM" "from and to query parameters are required") else
  match time_ParseRFC3339 (rq_Query r "from") with
  | None => retp (writeError StatusBadRequest "INVALID_PARAM" "from must be RFC3339 format")
  | Some from =>
      match time_ParseRFC3339 (rq_Query r "to") with
      | None => retp (writeError StatusBadRequest "INVALID_PARAM" "to must be RFC3339 format")
      | Some to =>
          res <- on_svc (GetOHLC (h_priceSvc h) coinID currency from to (parseInterval (rq_Query r "interval"))) ;;
          match res with
          | (_, Some e) => retp (writeError StatusInternalServerError "INTERNAL_ERROR" "internal server error")
          | (candles, None) =>
              retp (writeJSON StatusOK (JObj
                [("coin"%string, JStr coinID); ("currency"%string, JStr currency);
                 ("interval"%string, JStr (rq_Query r "interval"));
                 ("candles"%string, nil_slice candle_json candles)]))
          end
      end
  end.

Definition HandleConvert (h : Handler) (r : Request) : PM server Response :=
  let from := rq_Query r "from" in
  let to := rq_Query r "to" in
  let amountStr := rq_Query r "amount" in
  if bool_decide (from = ""%string) || bool_decide (to = ""%string)
  then retp (writeError StatusBadRequest "MISSING_PARAM" "from and to query parameters are required") else
  one <~ of_option (dec_NewFromFloat fone) ;;
  match (if bool_decide (amountStr = ""%string) then Some one else dec_NewFromString amountStr) with
  | None => retp (writeError StatusBadRequest "INVALID_PARAM" "invalid amount")
  | Some amount =>
      res <~ on_svc (Convert (h_priceSvc h) from to amount (h_defaultCurrency h)) ;;
      match res with
      | (_, Some e) => retp (handlePriceError e)
      | (Some c, None) =>
          retp (writeJSON StatusOK (JObj
            [("from"%string, JStr (cv_From c)); ("to"%string, JStr (cv_To c));
             ("amount"%string, JStr (dec_String (cv_Amount c)));
             ("result"%string, JStr (dec_StringFixed (cv_Result c) 8));
             ("rate"%string, JStr (dec_StringFixed (cv_Rate c) 8));
             ("via_currency"%string, JStr (cv_ViaCurrency c))]))
      | (None, None) => ret None
      end
  end.

Definition HandleGetPriceByAddress (h : Handler) (r : Request) : PM server Response :=
  let chain := rq_URLParam r "chain" in
  let address := rq_URLParam r "address" in
  res <~ on_svc (GetPriceByAddress (h_priceSvc h) chain address (currency_of h r)) ;;
  match res with
  | (_, Some e) => retp (handlePriceError e)
  | (Some a, None) =>
      price <~ of_option (ap_Price a) ;;
      retp (writeJSON StatusOK (JObj
        [("coin"%string, JStr (CoinID price)); ("chain"%string, JStr chain); ("address"%string, JStr address);
         ("currency"%string, JStr (Currency price)); ("price"%string, JStr (dec_String (Value price)));
         ("provider"%string, JStr (PProvider price)); ("resolved_via"%string, JStr (ap_ResolvedVia a));
         ("timestamp"%string, JTime (Timestamp price))]))
  | (None, None) => ret None
  end.

(** ** handler_alerts.go *)
Definition alert_json (a : Alert) : json := JObj
  [("ID", JStr (AID a)); ("CoinID", JStr (ACoinID a)); ("Currency", JStr (ACurrency a));
   ("Condition", JInt (match ACondition a with ConditionAbove => 0 | ConditionBelow => 1 | ConditionOther n => n end));
   ("Threshold", JStr (dec_String (AThreshold a))); ("WebhookURL", JStr (AWebhookURL a));
   ("Active", JBool (AActive a)); ("CreatedAt", JTime (ACreatedAt a));
   ("TriggeredAt", match ATriggeredAt a with Some t => JTime t | None => JNull end)]%string.

(** [rnd] are the bytes of the alert's ID. *)
Definition HandleCreateAlert (rnd : list Z) (h : Handler) (r : Request) : M server Response :=
  match decode_alert (rq_Body r) with
  | inr _ => ret (writeError StatusBadRequest "INVALID_BODY" "invalid request body")
  | inl req =>
      if bool_decide (ca_CoinID req = ""%string) || bool_decide (ca_Threshold req = ""%string) ||
         bool_decide (ca_WebhookURL req = ""%string)
      then ret (writeError StatusBadRequest "MISSING_PARAM" "coin_id, threshold, and webhook_url are required") else
      match dec_NewFromString (ca_Threshold req) with
      | None => ret (writeError StatusBadRequest "INVALID_PARAM" "invalid threshold value")
      | Some threshold =>
          let condition := if bool_decide (ca_Condition req = "below"%string)
                           then ConditionBelow else ConditionAbove in
          let currency := if bool_decide (ca_Currency req = ""%string)
                          then h_defaultCurrency h else ca_Currency req in
          let alert := mkAlert "" (ca_CoinID req) currency condition threshold (ca_WebhookURL req) false 0 None in
          t <- now ;;
          e <- on_alerts (Alerts.Create rnd t alert) ;;
          match e with
          | Some e => ret (writeError StatusBadRequest "INVALID_WEBHOOK_URL" (error_Error e))
          | None =>
              (* the handler encodes the shared alert object *)
              created <- on_alerts (fun s => (last (Alerts.as_heap s), s)) ;;
              ret (writeJSON StatusCreated (from_option alert_json JNull created))
          end
      end
  end.

Definition HandleListAlerts (h : Handler) (r : Request) : M server Response :=
  alerts <- on_alerts (fun s => (Alerts.List s, s)) ;;
  ret (writeJSON StatusOK (JObj [("alerts"%string, JArr (alert_json <$> alerts))])).

Definition HandleDeleteAlert (h : Handler) (r : Request) : M server Response :=
  e <- on_alerts (Alerts.Delete (rq_URLParam r "id")) ;;
  match e with
  | Some e => ret (writeError StatusNotFound "ALERT_NOT_FOUND" (error_Error e))
  | None => ret (writeJSON StatusOK (JObj [("status"%string, JStr "deleted")]))
  end.

(** ** handler_admin.go *)
Definition status_json (s : ProviderStatus) : json := JObj
  [("Name", JStr (SName s)); ("Healthy", JBool (SHealthy s)); ("RemainingRate", JInt (SRemainingRate s));
   ("ResetAt", JTime (SResetAt s)); ("AvgLatency", JInt (SAvgLatency s));
   ("Tier", JInt (match STier s with TierFree => 0 | TierPaid => 1 end));
   ("LastError", match SLastError s with Some _ => JObj [] | None => JNull end);
   ("LastSuccessAt", JTime (SLastSuccessAt s))]%string.
Definition statuses : M server (list ProviderStatus) := on_svc (on_world Admin.GetProviderStatuses).

Definition HandleGetProviders (h : Handler) (r : Request) : M server Response :=
  ss <- statuses ;;
  ret (writeJSON StatusOK (JObj [("providers"%string, nil_slice status_json ss)])).

Definition sub_json (s : Poller.Subscription) : json := JObj
  [("CoinID", JStr (Poller.sb_CoinID s)); ("Currency", JStr (Poller.sb_Currency s));
   ("Interval", JInt (Poller.sb_Interval s))]%string.
Definition HandleGetSubscriptions (h : Handler) (r : Request) : M server Response :=
  subs <- on_subs (fun s => (Admin.GetSubscriptions s, s)) ;;
  ret (writeJSON StatusOK (JObj [("subscriptions"%string, JArr (sub_json <$> subs))])).

Definition HandlePostSubscription (h : Handler) (r : Request) : M server Response :=
  match decode_subscribe (rq_Body r) with
  | inr _ => ret (writeError StatusBadRequest "INVALID_BODY" "invalid request body")
  | inl req =>
      if bool_decide (sr_CoinID req = ""%string) || bool_decide (sr_Currency req = ""%string)
      then ret (writeError StatusBadRequest "MISSING_PARAM" "coin_id and currency are required") else
      let interval := default (60 * Second) (time_ParseDuration (sr_Interval req)) in
      on_subs (fun s => (tt, Admin.AddSubscription (sr_CoinID req) (sr_Currency req) interval s)) ;;;
      ret (writeJSON StatusCreated (JObj [("status"%string, JStr "subscribed")]))
  end.

Definition HandleDeleteSubscription (h : Handler) (r : Request) : M server Response :=
  e <- on_subs (Admin.RemoveSubscription (rq_URLParam r "coinID") (currency_of h r)) ;;
  match e with
  | Some e => ret (writeError StatusNotFound "SUBSCRIPTION_NOT_FOUND" (error_Error e))
  | None => ret (writeJSON StatusOK (JObj [("status"%string, JStr "unsubscribed")]))
  end.

Definition stats_json (s : Admin.Stats) : json := JObj
  [("total_requests", JInt (Admin.TotalRequests s)); ("cache_hits", JInt (Admin.CacheHits s));
   ("cache_hit_rate", JFloat (Admin.CacheHitRate s)); ("uptime_seconds", JInt (Admin.UptimeSeconds s));
   ("healthy_providers", JInt (Z.of_nat (Admin.HealthyProviders s)));
   ("total_providers", JInt (Z.of_nat (Admin.TotalProviders s)));
   ("active_subscriptions", JInt (Z.of_nat (Admin.ActiveSubscriptions s)));
   ("active_alerts", JInt (Z.of_nat (Admin.ActiveAlerts s)));
   ("triggered_alerts", JInt (Z.of_nat (Admin.TriggeredAlerts s)))]%string.
Definition HandleGetStats (h : Handler) (r : Request) : M server Response :=
  st <- on_svc (Stats (h_priceSvc h)) ;;
  ss <- statuses ;;
  subs <- on_poller (fun p => (p, p)) ;;
  alerts <- on_alerts (fun a => (a, a)) ;;
  ret (writeJSON StatusOK (stats_json (Admin.GetStats (Some st) ss (Some subs) (Some alerts)))).

Definition HandleHealthz (h : Handler) (r : Request) : M server Response :=
  ret (writeJSON StatusOK (JObj [("status"%string, JStr "ok")])).

Definition HandleReadyz (h : Handler) (r : Request) : M server Response :=
  ss <- statuses ;;
  let healthyCount := length (bfilter SHealthy ss) in
  if (healthyCount =? 0)%nat
  then ret (writeJSON StatusServiceUnavailable (JObj [("status"%string, JStr "not ready"); ("providers"%string, JInt 0)]))
  else ret (writeJSON StatusOK (JObj [("status"%string, JStr "ready"); ("providers"%string, JInt (Z.of_nat healthyCount))])).

(** ** handler_analytics.go *)
Definition analytics_answer {A} (key : string) (f : A -> json) (res : list A * option error) : Response :=
  match res with
  | (_, Some e) => writeError StatusInternalServerError "INTERNAL_ERROR" "internal server error"
  | (rows, None) => writeJSON StatusOK (JObj [(key, nil_slice f rows)])
  end.
Definition analytics_disabled : Response :=
  writeError StatusServiceUnavailable "ANALYTICS_DISABLED" "analytics not configured".

Definition accuracy_json (a : ProviderAccuracyReport) : json := JObj
  [("provider", JStr (AccProvider a)); ("total", JInt (AccTotal a));
   ("accurate", JInt (AccAccurate a)); ("accuracy_rate", JFloat (AccRate a))]%string.
Definition HandleProviderAccuracy (h : Handler) (r : Request) : M server Response :=
  if negb (h_analytics h) then ret analytics_disabled else
  range <- parseTimeRange r ;;
  res <- on_svc (on_world (Admin.GetProviderAccuracy range.1 range.2)) ;;
  ret (analytics_answer "providers" accuracy_json res).

Definition anomaly_json (a : PriceAnomaly) : json := JObj
  [("received_at", JTime (AnReceivedAt a)); ("provider", JStr (AnProvider a)); ("coin_id", JStr (AnCoinID a));
   ("currency", JStr (AnCurrency a)); ("value", JStr (dec_String (AnValue a)));
   ("median_value", JStr (dec_String (AnMedian a))); ("deviation_pct", JFloat (AnDeviation a))]%string.
Definition HandlePriceAnomalies (h : Handler) (r : Request) : M server Response :=
  if negb (h_analytics h) then ret analytics_disabled else
  range <- parseTimeRange r ;;
  let deviation := if bool_decide (rq_Query r "deviation" = ""%string) then f_of_int 5
                   else default (f_of_int 5) (strconv_ParseFloat (rq_Query r "deviation")) in
  res <- on_svc (on_world (Admin.GetAnomalies (rq_Query r "coin") (currency_of h r) deviation range.1 range.2)) ;;
  ret (analytics_answer "anomalies" anomaly_json res).

Definition volume_json (v : ProviderVolume) : json := JObj
  [("provider", JStr (VolProvider v)); ("query_count", JInt (VolCount v)); ("percentage", JFloat (VolPercentage v))]%string.
Definition HandleVolumeByProvider (h : Handler) (r : Request) : M server Response :=
  if negb (h_analytics h) then ret analytics_disabled else
  range <- parseTimeRange r ;;
  res <- on_svc (on_world (Admin.GetVolumeByProvider range.1 range.2)) ;;
  ret (analytics_answer "providers" volume_json res).

Definition pstats_json (s : PriceStatsSummary) : json := JObj
  [("coin_id", JStr (StCoin s)); ("currency", JStr (StCurrency s)); ("min", JStr (dec_String (StMin s)));
   ("max", JStr (dec_String (StMax s))); ("avg", JStr (dec_String (StAvg s)));
   ("stddev", JFloat (StStddev s)); ("points", JInt (StPoints s))]%string.
Definition HandlePriceStats (h : Handler) (r : Request) : M server Response :=
  if negb (h_analytics h) then ret analytics_disabled else
  range <- parseTimeRange r ;;
  let coinID := rq_Query r "coin" in
  if bool_decide (coinID = ""%string)
  then ret (writeError StatusBadRequest "MISSING_PARAM" "coin query parameter required") else
  res <- on_svc (on_world (Admin.GetPriceStats coinID (currency_of h r) range.1 range.2)) ;;
  match res with
  | (_, Some e) => ret (writeError StatusInternalServerError "INTERNAL_ERROR" "internal server error")
  | (s, None) => ret (writeJSON StatusOK (from_option pstats_json JNull s))
  end.
End handlers.
Arguments Handler : clear implicits.
Arguments server {_} _.

(** ** Coin IDs *)
Section coin_ids.
Context `{!Unicode}.

(** Decoding a rune past a byte other than the colon drops no colon: the bytes
    of a sequence after the first are at least 128. *)
Lemma no_colon_cons c s : byte_of c <> 58 -> no_colon (String c s) = no_colon s.
Proof. intros Hc. simpl. rewrite bool_decide_eq_false_2; [done|]. by intros ->. Qed.
Lemma in_rng_high lo hi c : 128 <= lo -> in_rng lo hi c = true -> byte_of c <> 58.
Proof. unfold in_rng. intros. to_prop. lia. Qed.

Lemma decode_rune_rest c s r s' : decode_rune c s = (r, s') ->
  (byte_of c = 58 -> r = 58) /\ no_colon s' = no_colon s /\ (String.length s' <= String.length s)%nat.
Proof.
  unfold decode_rune. intros Hd.
  repeat case_hyp Hd; simplify_eq; to_prop; cbn [String.length];
    rewrite ?no_colon_cons by (eapply in_rng_high; [|eassumption]; repeat case_match; lia);
    split_and!; try lia; done.
Qed.

Lemma colon_rune fuel : forall s, (String.length s <= fuel)%nat -> no_colon s = false ->
  58 ∈ runes_fuel fuel s.
Proof.
  induction fuel as [|fuel IH]; intros [|c s] Hl Hs; simpl in Hl; try done; [lia|].
  cbn [runes_fuel]. destruct (decode_rune c s) as [r s'] eqn:E.
  apply decode_rune_rest in E as (Hc & Hn & Hl'). apply elem_of_cons.
  destruct (decide (byte_of c = 58)) as [Hb|Hb]; [left; symmetry; auto|right].
  apply IH; [lia|]. rewrite Hn. by rewrite no_colon_cons in Hs.
Qed.

Lemma valid_no_colon s : isValidCoinID s = true -> no_colon s = true.
Proof.
  unfold isValidCoinID, runes. intros Hs. case_hyp Hs; [done|]. apply not_false_iff_true. intros Hn.
  rewrite forallb_forall in Hs.
  apply (colon_rune (String.length s)), list_elem_of_In, Hs in Hn; [|done].
  unfold valid_rune in Hn. by rewrite u_IsLetter_ascii, u_IsDigit_ascii in Hn.
Qed.

(** A coin ID the routes accept has between 1 and 100 bytes, and two
    accepted IDs that share a cache key, with any two currencies, are the same
    coin in the same currency: the validation is what keeps the cache's
    [coin:currency] keys unambiguous. *)
Theorem valid_coin_keys coin coin' cur cur' :
  isValidCoinID coin = true -> isValidCoinID coin' = true ->
  (1 <= String.length coin <= 100)%nat /\
  (cacheKey coin cur = cacheKey coin' cur' -> coin = coin' /\ cur = cur').
Proof.
  intros Hv Hv'. split.
  - unfold isValidCoinID in Hv. destruct (_ || _) eqn:E in Hv; [done|]. to_prop. lia.
  - apply cacheKey_inj; by apply valid_no_colon.
Qed.
End coin_ids.

(** ** The handlers *)
Section properties.
Context {O : DecimalOps} {L : DecimalLaws O} `{!SortSlice} `{!MapRange} `{!GoFmt} `{!Unicode}
  `{!Alerts.NetParse} `{!GoParse} `{!GoJSON}.
Context {W P T : Type} `{!ClockOps W} `{!Scheduler W}.
Context `{PP : !PriceProvider W P} `{PR : !ProviderRouter W P} `{CO : !CacheOps W}
  `{PS : !PriceStore W} `{TP : !TokenPriceProvider W T} `{RG : !RegistryOps W}
  `{SG : !ProviderStatusGetter W} `{AS : !AnalyticsStore W}.
Context `{RL : !RouterLaws W P}.
Variables (start : Time) (deps : PriceServiceDeps (T := T)).
Notation price_service := (NewPriceService start deps).
Implicit Types (h : Handler T) (r : Request) (sv : server W).

(** The alerts and the poller are not the price service's. *)
Definition same_rest sv sv' : Prop := sv_alerts sv' = sv_alerts sv /\ sv_poller sv' = sv_poller sv.

Lemma runs_on_svc {A E} (m : PM svc A) sv Q :
  runs_unless E m (sv_svc sv) (fun a x => Q a (mkServer x (sv_alerts sv) (sv_poller sv))) ->
  runs_unless E (on_svc m) sv Q.
Proof. unfold runs_unless, on_svc. by destruct (m (sv_svc sv)) as [[a|] x]. Qed.

Definition error_status (e : error) : Z :=
  if errors_Is e SCoinNotFound then 404
  else if errors_Is e SNoHealthyProvider || errors_Is e SBudgetExhausted then 503 else 500.
Lemma handlePriceError_status e : rs_Status (handlePriceError e) = error_status e.
Proof. unfold handlePriceError, error_status. by repeat case_match. Qed.


Lemma splitCoins_nonempty s : Forall (fun c => c <> ""%string) (splitCoins s).
Proof.
  apply Forall_forall. intros c (d & _ & Hc)%list_elem_of_omap. cbv zeta in Hc. case_bool_decide; naive_solver.
Qed.

(** [GET /prices] answers every request for which no provider panics: a 400
    without coins or with more than 50, which does not reach the service;
    otherwise a 200 in which the prices and the failures together are as many as
    the coins asked for, and every price is one of them. *)
Theorem HandleGetPrices_spec h r sv : h_priceSvc h = price_service -> finite_service price_service ->
  let ids := splitCoins (rq_Query r "coins") in
  runs_unless (exists id, id ∈ ids /\ provider_panics (W := W) (P := P) id (currency_of h r)) (HandleGetPrices h r) sv (fun resp sv' =>
  same_rest sv sv' /\
  if bool_decide (rq_Query r "coins" = "")%string || (50 <? Z.of_nat (length ids))
  then rs_Status resp = 400 /\ sv' = sv
  else exists ps failed, (length ps + length failed = length ids)%nat /\ (length ids <= 50)%nat /\
    Forall (fun p => exists id, id ∈ ids /\ id <> ""%string /\
      provenance (P := P) (W := W) price_service id (currency_of h r) p) ps /\
    resp = writeJSON 200 (JObj [("prices"%string, nil_slice price_json ps);
      ("errors"%string, JObj ((fun '(k, e) => (k, JStr (error_Error e))) <$>
         map_range (list_to_map (M := gmap string error) failed)))])).
Proof.
  intros Hh Hf ids. unfold HandleGetPrices. fold ids. unfold maxCoins. rewrite Hh, Z.gtb_ltb.
  case_bool_decide; [by apply runs_retp|]. cbn [orb].
  destruct (50 <? Z.of_nat (length ids)) eqn:En; [by apply runs_retp|]. to_prop.
  apply runs_bindp, runs_on_svc. eapply runs_mono; [|by apply GetPrices_loop_spec].
  intros res st' (failed & ps & -> & Hl & Hfa & Hps). apply runs_retp. split; [done|].
  exists ps, failed. split_and!; [lia|lia| |].
  - eapply Forall_impl; [exact Hps|]. intros p (id & Hid & Hp). exists id. split_and!; [done| |done].
    pose proof (splitCoins_nonempty (rq_Query r "coins")) as Hne. rewrite Forall_forall in Hne. by apply Hne.
  - cbn [fst snd]. by rewrite (right_id_L ∅ (∪)).
Qed.

(** Readiness: 200 exactly when some provider is healthy, and the body
    counts the healthy ones; nothing but the status snapshot is touched. *)
Theorem HandleReadyz_spec h r sv :
  let ss := (statuses sv).1 in
  let n := length (List.filter SHealthy ss) in
  HandleReadyz h r sv =
    (if (n =? 0)%nat
     then writeJSON 503 (JObj [("status", JStr "not ready"); ("providers", JInt 0)]%string)
     else writeJSON 200 (JObj [("status", JStr "ready"); ("providers", JInt (Z.of_nat n))]%string),
     (statuses sv).2) /\
  ((n =? 0)%nat = true <-> Forall (fun x => SHealthy x = false) ss).
Proof.
  intros ss n. unfold HandleReadyz. rewrite bind_unfold. fold ss. fold (bfilter SHealthy ss) in n. fold n.
  split; [by destruct (n =? 0)%nat|]. unfold n. rewrite Nat.eqb_eq. split.
  - intros Hl%nil_length_inv. apply Forall_forall. intros x Hx. apply not_true_iff_false. intros Ht.
    assert (x ∈ bfilter SHealthy ss) as Hin by (by apply elem_of_bfilter). by rewrite Hl in Hin; apply not_elem_of_nil in Hin.
  - intros Hall. unfold bfilter. induction Hall as [|x l Hx _ IH]; [done|]. simpl. by rewrite Hx.
Qed.

(** [POST /alerts] stores an alert only for a complete body with a decimal
    threshold and an accepted webhook, active, above its threshold unless the
    body says below, in the default currency unless it names one, and answers
    with the alert stored; every other request is a 400 that leaves the alerts
    as they were. *)
Theorem HandleCreateAlert_spec rnd h r sv :
  let resp := (HandleCreateAlert rnd h r sv).1 in
  let sv' := (HandleCreateAlert rnd h r sv).2 in
  sv_poller sv' = sv_poller sv /\
  ((exists code msg, resp = writeError 400 code msg) /\ sv_alerts sv' = sv_alerts sv \/
   exists req threshold a, decode_alert (rq_Body r) = inl req /\
     ca_CoinID req <> ""%string /\ dec_NewFromString (ca_Threshold req) = Some threshold /\
     Alerts.validateWebhookURL (ca_WebhookURL req) = None /\
     a = mkAlert (Alerts.generateAlertID rnd) (ca_CoinID req)
       (if bool_decide (ca_Currency req = "")%string then h_defaultCurrency h else ca_Currency req)
       (if bool_decide (ca_Condition req = "below"%string) then ConditionBelow else ConditionAbove)
       threshold (ca_WebhookURL req) true (now sv).1 None /\
     Alerts.as_alerts (sv_alerts sv') !! Alerts.generateAlertID rnd = Some (length (Alerts.as_heap (sv_alerts sv))) /\
     Alerts.as_heap (sv_alerts sv') = Alerts.as_heap (sv_alerts sv) ++ [a] /\
     resp = writeJSON 201 (alert_json a)).
Proof.
  unfold HandleCreateAlert. destruct (decode_alert (rq_Body r)) as [req|]; [|simpl; split; [done|left; eauto]].
  destruct (bool_decide _ || _ || _) eqn:Eb; [simpl; split; [done|left; eauto]|]. to_prop.
  destruct (dec_NewFromString (ca_Threshold req)) as [threshold|] eqn:Et; [|simpl; split; [done|left; eauto]].
  rewrite bind_unfold. set (t := (now sv).1).
  assert (sv_alerts (now sv).2 = sv_alerts sv /\ sv_poller (now sv).2 = sv_poller sv) as [Ha Hp].
  { unfold now, on_svc. by destruct (on_world _ _). }
  set (sv1 := (now sv).2) in *. clearbody sv1. unfold bind, on_alerts, Alerts.Create. rewrite Ha.
  cbn [AWebhookURL AID]. destruct (Alerts.validateWebhookURL (ca_WebhookURL req)) as [e|] eqn:Ew.
  { simpl. split; [done|left; eauto]. }
  simpl. split; [done|right]. rewrite last_snoc. exists req, threshold. eexists.
  rewrite bool_decide_eq_false in *. split_and!; try done. simpl. by rewrite lookup_insert_eq.
Qed.
End properties.

(** ** Witnesses *)
Definition demo_handler : Handler unit := NewHandler demo_service false "usd".
Definition demo_request (coin coins : string) : Request :=
  mkRequest "GET" "/api/v1/price" (fun k => if bool_decide (k = "coinID"%string) then coin else ""%string)
    (fun k => if bool_decide (k = "coins"%string) then coins else ""%string)
    (fun _ => ""%string) "10.0.0.1:4711" "" None.
Definition demo_server : server (World.world provider RoundRobinStrategy) :=
  mkServer demo_state Alerts.NewAlertService (Poller.NewPoller (10 * Second)).

Lemma valid_coin_keys_witness : isValidCoinID "usd-coin" = true /\
  (1 <= String.length "usd-coin" <= 100)%nat.
Proof.
  assert (isValidCoinID "usd-coin" = true) as Hv by reflexivity.
  split; [exact Hv|]. exact (proj1 (valid_coin_keys "usd-coin" "usd-coin" "usd" "usd" Hv Hv)).
Defined.


Lemma HandleGetPrices_spec_witness : exists resp sv',
  HandleGetPrices demo_handler (demo_request "" "bitcoin, dogecoin,") demo_server = (Some resp, sv') /\
  same_rest demo_server sv'.
Proof.
  pose proof (HandleGetPrices_spec 0 demo_deps demo_handler (demo_request "" "bitcoin, dogecoin,") demo_server
    eq_refl demo_finite) as Hs. unfold runs_unless in Hs.
  destruct (HandleGetPrices demo_handler (demo_request "" "bitcoin, dogecoin,") demo_server) as [[resp|] sv'].
  - exists resp, sv'. split; [reflexivity|exact (proj1 Hs)].
  - destruct Hs as (id & _ & Hp). destruct (demo_answers_all _ _ Hp).
Defined.
