(* ===== verification/Middleware.v ===== *)
(** * internal/adapter/transport/http: middleware.go and router.go

    A handler runs with the headers the response has so far and the request; a
    middleware makes a handler from the next one.  The middlewares and the
    router of package chi, the token bucket of x/time/rate and
    [net.SplitHostPort] are parameters with the laws the program relies on. *)
From S2P Require Import Prelude GoLib GoStrings Decimal Model Strategies MemCache MemStore Registry.
From S2P Require Import GoJSON Ports World Demo Validator Consensus PriceService Http.
From S2P Require Alerts Poller Admin.
Open Scope Z_scope.

Notation headers := (gmap string string) (only parsing).
Definition with_headers (hdr : headers) (resp : Response) : Response :=
  mkResponse (rs_Status resp) (rs_Headers resp ∪ hdr) (rs_Body resp).
Definition header_set (k v : string) (hdr : headers) : headers := <[k := v]> hdr.

(** ** The limiters of the rate-limit middleware

    The map holds pointers to limiters: [lm_heap] are the limiters. *)
Class RateLimiter (Lim : Type) := {
  rate_NewLimiter : float64 -> Z -> Lim;
  lim_Allow : Time -> Lim -> bool * Lim }.
Class SplitHostPort := { net_SplitHost : string -> string (* empty on an error *) }.

Section limiters.
Context `{RateLimiter Lim}.
Record ipLimiter := mkIpLimiter { il_limiter : nat; il_lastAccess : Time }.
Record Limiters := mkLimiters { lm_heap : list Lim; lm_map : gmap string ipLimiter }.
Definition NewLimiters : Limiters := mkLimiters [] ∅.

(** One tick of the cleaning goroutine. *)
Definition cleanup (now : Time) (s : Limiters) : Limiters :=
  mkLimiters (lm_heap s)
    (filter (fun kv : string * ipLimiter => (time_Since now (il_lastAccess kv.2) >? 10 * Minute) = false) (lm_map s)).

Definition getLimiter (rps : float64) (burst : Z) (now : Time) (ip : string) (s : Limiters) : nat * Limiters :=
  match lm_map s !! ip with
  | Some lim => (il_limiter lim, mkLimiters (lm_heap s) (<[ip := mkIpLimiter (il_limiter lim) now]> (lm_map s)))
  | None =>
      let n := length (lm_heap s) in
      (n, mkLimiters (lm_heap s ++ [rate_NewLimiter rps burst]) (<[ip := mkIpLimiter n now]> (lm_map s)))
  end.
(** [lim.Allow()] *)
Definition Allow (now : Time) (i : nat) (s : Limiters) : bool * Limiters :=
  match lm_heap s !! i with
  | Some lim => let '(b, lim') := lim_Allow now lim in (b, mkLimiters (<[i := lim']> (lm_heap s)) (lm_map s))
  | None => (false, s)
  end.

(** Every entry has a limiter of its own. *)
Definition limiters_wf (s : Limiters) : Prop :=
  (forall ip l, lm_map s !! ip = Some l -> (il_limiter l < length (lm_heap s))%nat) /\
  (forall ip ip' l l', lm_map s !! ip = Some l -> lm_map s !! ip' = Some l' ->
     il_limiter l = il_limiter l' -> ip = ip').

(** What the state says of one address: its bucket and its last request. *)
Definition view (ip : string) (s : Limiters) : option (Lim * Time) :=
  match lm_map s !! ip with
  | Some l => match lm_heap s !! il_limiter l with Some b => Some (b, il_lastAccess l) | None => None end
  | None => None
  end.

(** The turns of the middleware's requests and of its cleaning goroutine.  A
    request takes the map's lock in getLimiter and the limiter's own in Allow; the
    two are one turn here.  A tick between them could only forget the address if
    it came ten minutes after the [lastSeen] the request has just written. *)
Inductive lim_event := LRequest (ip : string) (t t' : Time) | LTick (now : Time).
Definition lim_step (rps : float64) (burst : Z) (ev : lim_event) (s : Limiters) : option bool * Limiters :=
  match ev with
  | LTick now => (None, cleanup now s)
  | LRequest ip t t' =>
      let '(i, s) := getLimiter rps burst t ip s in
      let '(b, s) := Allow t' i s in (Some b, s)
  end.
Definition event_of (ip : string) (ev : lim_event) : bool :=
  match ev with LRequest ip' _ _ => bool_decide (ip' = ip) | LTick _ => true end.
(** The answers given to one address. *)
Fixpoint decisions (rps : float64) (burst : Z) (ip : string) (evs : list lim_event) (s : Limiters) : list bool :=
  match evs with
  | [] => []
  | ev :: evs =>
      let '(b, s') := lim_step rps burst ev s in
      (if event_of ip ev then match b with Some b => [b] | None => [] end else []) ++
      decisions rps burst ip evs s'
  end.
End limiters.
Arguments Limiters : clear implicits.

Section limiter_properties.
Context `{RateLimiter Lim}.
Implicit Types s : Limiters Lim.

Lemma NewLimiters_wf : limiters_wf (NewLimiters (Lim := Lim)).
Proof. by split. Qed.

Lemma cleanup_wf now s : limiters_wf s -> limiters_wf (cleanup now s).
Proof.
  intros [Hb Hi]. split; simpl; intros *; rewrite !map_lookup_filter_Some; [naive_solver|].
  intros [? _] [? _]. by eapply Hi.
Qed.
Lemma cleanup_view now ip s : view ip (cleanup now s) =
  match view ip s with
  | Some (b, t) => if time_Since now t >? 10 * Minute then None else Some (b, t)
  | None => None
  end.
Proof.
  unfold view, cleanup. cbn [lm_map lm_heap].
  destruct (filter _ (lm_map s) !! ip) as [l|] eqn:Ef.
  - apply map_lookup_filter_Some in Ef as [-> Hk]. simpl in Hk. destruct (lm_heap s !! _); [|done]. by rewrite Hk.
  - apply map_lookup_filter_None in Ef as [->|Hk]; [done|].
    destruct (lm_map s !! ip) as [l|]; [|done]. destruct (lm_heap s !! _); [|done].
    specialize (Hk _ eq_refl). simpl in Hk. by apply not_false_iff_true in Hk as ->.
Qed.

Lemma getLimiter_wf rps burst now ip s : limiters_wf s -> limiters_wf (getLimiter rps burst now ip s).2.
Proof.
  intros [Hb Hi]. unfold getLimiter. destruct (lm_map s !! ip) as [l|] eqn:E; split; simpl.
  - intros ip' l'. rewrite lookup_insert. case_decide as Hd; [intros [= <-]; simpl; eauto|eauto].
  - intros ip1 ip2 l1 l2. rewrite !lookup_insert. repeat case_decide; intros; simplify_eq/=; eauto.
  - intros ip' l'. rewrite lookup_insert, length_app. simpl. case_decide; [intros [= <-]; simpl; lia|].
    intros Hl%Hb. lia.
  - intros ip1 ip2 l1 l2. rewrite !lookup_insert. repeat case_decide; intros; simplify_eq/=; eauto;
      match goal with Hl : lm_map s !! _ = Some _ |- _ => apply Hb in Hl; lia end.
Qed.
Lemma Allow_wf now i s : limiters_wf s -> limiters_wf (Allow now i s).2.
Proof.
  intros [Hb Hi]. unfold Allow. destruct (lm_heap s !! i); [|by split].
  destruct (lim_Allow now _). split; simpl; [|done]. intros. rewrite length_insert. eauto.
Qed.

(** A request's turn, seen from its own address and from another. *)
Definition asked_limiter (rps : float64) (burst : Z) (t' : Time) (v : option (Lim * Time)) : bool * Lim :=
  lim_Allow t' (match v with Some (b, _) => b | None => rate_NewLimiter rps burst end).

Lemma request_own rps burst ip t t' s : limiters_wf s ->
  let '(b, s') := lim_step rps burst (LRequest ip t t') s in
  b = Some (asked_limiter rps burst t' (view ip s)).1 /\
  view ip s' = Some ((asked_limiter rps burst t' (view ip s)).2, t).
Proof.
  intros [Hb Hi]. unfold lim_step, getLimiter, asked_limiter, view at 1 3, Allow.
  destruct (lm_map s !! ip) as [l|] eqn:E; simpl.
  - destruct (lookup_lt_is_Some_2 (lm_heap s) (il_limiter l)) as [b Hl]; [eauto|]. rewrite Hl.
    destruct (lim_Allow t' b) as [r b'] eqn:Er. simpl. unfold view. simpl. rewrite lookup_insert_eq. simpl.
    rewrite list_lookup_insert_eq by eauto. done.
  - rewrite lookup_app_r, Nat.sub_diag by lia. simpl.
    destruct (lim_Allow t' _) as [r b'] eqn:Er. simpl. unfold view. simpl. rewrite lookup_insert_eq. simpl.
    rewrite list_lookup_insert_eq; [done|]. rewrite length_app. simpl. lia.
Qed.

Lemma request_other rps burst ip ip' t t' s : limiters_wf s -> ip' <> ip ->
  view ip (lim_step rps burst (LRequest ip' t t') s).2 = view ip s.
Proof.
  intros [Hb Hi] Hne. unfold lim_step, getLimiter.
  destruct (lm_map s !! ip') as [l'|] eqn:E'; unfold Allow; cbn [lm_heap lm_map].
  - destruct (lm_heap s !! il_limiter l') as [b|] eqn:El; [destruct (lim_Allow t' b) as [r b']|];
      unfold view; simpl; rewrite lookup_insert_ne by done; [|done].
    destruct (lm_map s !! ip) as [l|] eqn:E; [|done].
    rewrite list_lookup_insert_ne; [done|]. intros Heq. by apply Hne; eapply Hi.
  - rewrite lookup_app_r, Nat.sub_diag by lia. simpl. destruct (lim_Allow t' _) as [r b'].
    unfold view. simpl. rewrite lookup_insert_ne by done. destruct (lm_map s !! ip) as [l|] eqn:E; [|done].
    pose proof (Hb _ _ E). rewrite list_lookup_insert_ne by lia. by rewrite lookup_app_l.
Qed.

Lemma lim_step_wf rps burst ev s : limiters_wf s -> limiters_wf (lim_step rps burst ev s).2.
Proof.
  intros Hwf. destruct ev as [ip t t'|now]; simpl; [|by apply cleanup_wf].
  pose proof (getLimiter_wf rps burst t ip s Hwf) as Hg. destruct (getLimiter _ _ _ _ _) as [i s1].
  pose proof (Allow_wf t' i s1 Hg) as Ha. by destruct (Allow t' i s1).
Qed.

Lemma decisions_view rps burst ip evs : forall s s', limiters_wf s -> limiters_wf s' ->
  view ip s = view ip s' ->
  decisions rps burst ip evs s = decisions rps burst ip (List.filter (event_of ip) evs) s'.
Proof.
  induction evs as [|ev evs IH]; intros s s' Hwf Hwf' Hv; [done|].
  pose proof (lim_step_wf rps burst ev s Hwf) as Hw1. pose proof (lim_step_wf rps burst ev s' Hwf') as Hw2.
  destruct ev as [ip' t t'|now].
  - cbn [List.filter event_of]. destruct (decide (ip' = ip)) as [->|Hne].
    + rewrite bool_decide_eq_true_2 by done. cbn [decisions].
      pose proof (request_own rps burst ip t t' s Hwf) as Ho. pose proof (request_own rps burst ip t t' s' Hwf') as Ho'.
      destruct (lim_step rps burst (LRequest ip t t') s) as [b s1].
      destruct (lim_step rps burst (LRequest ip t t') s') as [b' s1']. cbn [event_of].
      rewrite bool_decide_eq_true_2 by done. destruct Ho as [-> Hv1], Ho' as [-> Hv1'].
      rewrite Hv. f_equal. apply IH; [done|done|congruence].
    + rewrite bool_decide_eq_false_2 by done. cbn [decisions].
      pose proof (request_other rps burst ip ip' t t' s Hwf Hne) as Ho.
      destruct (lim_step rps burst (LRequest ip' t t') s) as [b s1]. cbn [event_of].
      rewrite bool_decide_eq_false_2 by done. apply IH; [done|done|]. simpl in Ho. congruence.
  - cbn [List.filter event_of decisions lim_step app]. apply IH; [done|done|]. by rewrite !cleanup_view, Hv.
Qed.

(** C14. One client's requests never use another's allowance: in any
    interleaving of requests from any addresses and of cleaning ticks, the
    answers an address gets are those it would get if it were alone. *)
Theorem rate_limit_per_address rps burst ip evs :
  decisions rps burst ip evs NewLimiters =
  decisions rps burst ip (List.filter (event_of ip) evs) (NewLimiters (Lim := Lim)).
Proof. apply decisions_view; [apply NewLimiters_wf|apply NewLimiters_wf|done]. Qed.

(** A cleaning tick forgets exactly the addresses idle for more than ten
    minutes, and leaves the limiters of the others as they are. *)
Theorem cleanup_spec now ip (s : Limiters Lim) b t : view ip s = Some (b, t) ->
  (view ip (cleanup now s) = Some (b, t) <-> now - t <= 10 * Minute) /\
  (view ip (cleanup now s) = None <-> now - t > 10 * Minute).
Proof.
  intros Hv. rewrite cleanup_view, Hv, time_Since_gt by done.
  destruct (now - t >? 10 * Minute) eqn:E; to_prop; split; split; intros; (done || lia).
Qed.
End limiter_properties.

(** ** Handlers and middlewares *)
Section middlewares.
Context {O : DecimalOps} `{!SortSlice} `{!MapRange} `{!GoFmt} `{!Unicode} `{!Alerts.NetParse} `{!GoParse} `{!GoJSON}.
Context {W P T Lim : Type} `{!ClockOps W} `{!Scheduler W} `{!RateLimiter Lim} `{!SplitHostPort}.

(** The state of the server: its services and the rate limiters. *)
Record web := mkWeb { wb_server : server W; wb_limiters : Limiters Lim }.
Definition http_Handler : Type := headers -> Request -> PM web Response.
Definition middleware : Type := http_Handler -> http_Handler.
Definition on_server {A} (m : M (server W) A) : M web A := fun s =>
  let '(a, x) := m (wb_server s) in (a, mkWeb x (wb_limiters s)).
Definition on_limiters {A} (m : M (Limiters Lim) A) : M web A := fun s =>
  let '(a, x) := m (wb_limiters s) in (a, mkWeb (wb_server s) x).

(** A handler of the other files, behind the writer's headers. *)
Definition HandlerFunc (f : Request -> PM (server W) Response) : http_Handler := fun hdr r =>
  resp <~ on_server (f r) ;; retp (with_headers hdr resp).
Definition HandlerFunc' (f : Request -> M (server W) Response) : http_Handler :=
  HandlerFunc (fun r => liftp (f r)).

Definition CORS_headers (origin : string) (hdr : headers) : headers :=
  header_set "Access-Control-Max-Age" "86400"
    (header_set "Access-Control-Allow-Headers" "Content-Type, X-API-Key, Authorization"
      (header_set "Access-Control-Allow-Methods" "GET, POST, PUT, DELETE, OPTIONS"
        (header_set "Access-Control-Allow-Origin" origin hdr))).
Definition CORSMiddleware (allowedOrigins : list string) : middleware := fun next hdr r =>
  let origin := rq_Header r "Origin" in
  let allowed := (length allowedOrigins =? 0)%nat ||
    existsb (fun o => bool_decide (o = "*"%string) || bool_decide (o = origin)) allowedOrigins in
  let hdr := if allowed && negb (bool_decide (origin = ""%string)) then CORS_headers origin hdr else hdr in
  if bool_decide (rq_Method r = "OPTIONS"%string) then retp (mkResponse StatusNoContent hdr None)
  else next hdr r.

(** [ConstantTimeCompare] is 1 exactly on equal strings. *)
Definition AuthMiddleware (apiKey : string) : middleware := fun next hdr r =>
  if bool_decide (apiKey = ""%string) then next hdr r else
  if negb (bool_decide (rq_Header r "X-API-Key" = apiKey))
  then retp (with_headers hdr (writeError StatusUnauthorized "UNAUTHORIZED" "invalid or missing API key"))
  else next hdr r.

Definition SecurityHeadersMiddleware (forceHTTPS : bool) : middleware := fun next hdr r =>
  let hdr := header_set "X-Content-Type-Options" "nosniff" hdr in
  let hdr := header_set "X-Frame-Options" "DENY" hdr in
  let hdr := header_set "X-XSS-Protection" "1; mode=block" hdr in
  let hdr := if forceHTTPS
    then header_set "Strict-Transport-Security" "max-age=63072000; includeSubDomains" hdr else hdr in
  let hdr := if bool_decide (rq_ReqID r = ""%string) then hdr else header_set "X-Request-ID" (rq_ReqID r) hdr in
  next hdr r.

Definition client_ip (r : Request) : string :=
  if bool_decide (net_SplitHost (rq_RemoteAddr r) = ""%string) then rq_RemoteAddr r
  else net_SplitHost (rq_RemoteAddr r).
Definition RateLimitMiddleware (rps : float64) (burst : Z) : middleware := fun next hdr r =>
  t <- on_server now ;;
  t' <- on_server now ;;
  b <- on_limiters (lim_step rps burst (LRequest (client_ip r) t t')) ;;
  if bool_decide (b = Some true) then next hdr r
  else retp (with_headers (header_set "Retry-After" "1" hdr)
         (writeError StatusTooManyRequests "RATE_LIMITED" "too many requests")).

(** ** Package chi

    A route has a method, or none when it mounts a sub-router on a prefix.
    [chi_match] picks one of the routes for a request and gives the request as
    the route's handler sees it: with its URL parameters, and for a mount
    without the prefix. *)
Definition set_ReqID (id : string) (r : Request) : Request :=
  mkRequest (rq_Method r) (rq_Path r) (rq_URLParam r) (rq_Query r) (rq_Header r) (rq_RemoteAddr r) id
    (rq_Body r).
Definition set_RemoteAddr (a : string) (r : Request) : Request :=
  mkRequest (rq_Method r) (rq_Path r) (rq_URLParam r) (rq_Query r) (rq_Header r) a (rq_ReqID r)
    (rq_Body r).
Definition set_route (path : string) (params : string -> string) (r : Request) : Request :=
  mkRequest (rq_Method r) path params (rq_Query r) (rq_Header r) (rq_RemoteAddr r) (rq_ReqID r)
    (rq_Body r).

(** What is left of [s] after the prefix [p]. *)
Fixpoint drop_prefix (p s : string) : option string :=
  match p, s with
  | EmptyString, _ => Some s
  | String c p, String c' s => if bool_decide (c = c') then drop_prefix p s else None
  | String _ _, EmptyString => None
  end.

(** The methods chi's [methodMap] has: for any other a router answers 405
    before it looks at its routes. *)
Definition known_methods : list string :=
  ["CONNECT"; "DELETE"; "GET"; "HEAD"; "OPTIONS"; "PATCH"; "POST"; "PUT"; "TRACE"]%string.
Inductive routed := Found (i : nat) (path : string) (params : string -> string) | NotFound | MethodNotAllowed.
Class Chi := {
  chi_match : list (option string * string) -> Request -> routed;
  chi_RequestID : middleware; chi_RealIP : middleware; chi_Logger : middleware; chi_Recoverer : middleware;
  (** A match is one of the routes, of the request's method. *)
  chi_match_sound : forall table r i path params, chi_match table r = Found i path params ->
    exists m p, table !! i = Some (m, p) /\ (m = None \/ m = Some (rq_Method r));
  chi_match_unknown : forall table r, rq_Method r ∉ known_methods -> chi_match table r = MethodNotAllowed;
  (** A mount gets every request of a known method below its prefix when neither
      its pattern nor that of another route is a prefix of the other. *)
  chi_match_mount : forall table r i p rest, rq_Method r ∈ known_methods -> table !! i = Some (None, p) ->
    (forall j m q, table !! j = Some (m, q) -> j <> i -> drop_prefix p q = None /\ drop_prefix q p = None) ->
    rq_Path r = (p +:+ "/" +:+ rest)%string ->
    exists params, chi_match table r = Found i ("/" +:+ rest)%string params;
  (** [RequestID] puts an ID in the request's context, [RealIP] changes the
      address, [Logger] only logs, [Recoverer] answers 500 for a panic of the
      handler; nothing answers when the panic of a goroutine ended the process. *)
  chi_RequestID_law : forall next hdr r s, exists id, id <> ""%string /\
    chi_RequestID next hdr r s = next hdr (set_ReqID id r) s;
  chi_RealIP_law : forall next hdr r s, exists a, chi_RealIP next hdr r s = next hdr (set_RemoteAddr a r) s;
  chi_Logger_law : forall next hdr r s, chi_Logger next hdr r s = next hdr r s;
  chi_Recoverer_law : forall next hdr r s, chi_Recoverer next hdr r s =
    match next hdr r s with
    | (Some resp, s') => (Some resp, s')
    | (None, s') =>
        if crashed (sv_svc (wb_server s')) then (None, s')
        else (Some (mkResponse StatusInternalServerError hdr None), s')
    end }.

Record route := mkRoute { ro_method : option string; ro_pattern : string; ro_handler : http_Handler }.
Definition Get (p : string) (h : http_Handler) : route := mkRoute (Some "GET"%string) p h.
Definition Post (p : string) (h : http_Handler) : route := mkRoute (Some "POST"%string) p h.
Definition Delete (p : string) (h : http_Handler) : route := mkRoute (Some "DELETE"%string) p h.
Definition Mount (p : string) (h : http_Handler) : route := mkRoute None p h.

Definition dispatch `{!Chi} (routes : list route) : http_Handler := fun hdr r =>
  match chi_match ((fun x => (ro_method x, ro_pattern x)) <$> routes) r with
  | Found i path params =>
      match routes !! i with
      | Some x => ro_handler x hdr (set_route path params r)
      | None => ret None
      end
  | NotFound => retp (mkResponse StatusNotFound hdr None)
  | MethodNotAllowed => retp (mkResponse 405 hdr None)
  end.
(** The middlewares run in the order of the [Use] calls. *)
Definition NewMux `{!Chi} (uses : list middleware) (routes : list route) : http_Handler :=
  foldr (fun m next => m next) (dispatch routes) uses.
End middlewares.

(** ** NewRouter *)
Record RouterConfig := mkRouterConfig {
  AdminAPIKey : string;
  RateLimitEnabled : bool; RateLimitRPS : float64; RateLimitBurst : Z;
  CORSEnabled : bool; CORSOrigins : list string; ForceHTTPS : bool }.

Section router.
Context {O : DecimalOps} `{!SortSlice} `{!MapRange} `{!GoFmt} `{!Unicode} `{!Alerts.NetParse} `{!GoParse} `{!GoJSON}.
Context {W P T Lim : Type} `{!ClockOps W} `{!Scheduler W} `{!RateLimiter Lim} `{!SplitHostPort}.
Context `{PP : !PriceProvider W P} `{PR : !ProviderRouter W P} `{CO : !CacheOps W}
  `{PS : !PriceStore W} `{TP : !TokenPriceProvider W T} `{RG : !RegistryOps W}
  `{SG : !ProviderStatusGetter W} `{AS : !AnalyticsStore W}.
Context `{CH : !Chi (W := W) (Lim := Lim)}.
Notation http_Handler := (http_Handler (W := W) (Lim := Lim)).
Notation middleware := (middleware (W := W) (Lim := Lim)).
(** The pages of swagger.go and dashboard.go, the WebSocket endpoint, and the
    bytes package crypto/rand returns. *)
Variables (swaggerUI swaggerSpec dashboard : http_Handler) (WSHandler : option http_Handler).
Variables (rnd : server W -> list Z) (h : Handler T) (cfg : RouterConfig).

Definition admin_router : http_Handler := NewMux [AuthMiddleware (AdminAPIKey cfg)]
  [Get "/providers" (HandlerFunc' (HandleGetProviders h));
   Get "/subscriptions" (HandlerFunc' (HandleGetSubscriptions h));
   Post "/subscriptions" (HandlerFunc' (HandlePostSubscription h));
   Delete "/subscriptions/{coinID}" (HandlerFunc' (HandleDeleteSubscription h));
   Get "/stats" (HandlerFunc' (HandleGetStats h))].
Definition analytics_router : http_Handler := NewMux []
  [Get "/provider-accuracy" (HandlerFunc' (HandleProviderAccuracy h));
   Get "/anomalies" (HandlerFunc' (HandlePriceAnomalies h));
   Get "/volume-by-provider" (HandlerFunc' (HandleVolumeByProvider h));
   Get "/price-stats" (HandlerFunc' (HandlePriceStats h))].
Definition api_routes : list route :=
  [Get "/price/{coinID}" (HandlerFunc (HandleGetPrice (P := P) h));
   Get "/price/address/{chain}/{address}" (HandlerFunc (HandleGetPriceByAddress (P := P) h));
   Get "/prices" (HandlerFunc (HandleGetPrices (P := P) h));
   Get "/ohlc/{coinID}" (HandlerFunc (HandleGetOHLC h));
   Get "/convert" (HandlerFunc (HandleConvert (P := P) h));
   Post "/alerts" (HandlerFunc' (fun r s => HandleCreateAlert (rnd s) h r s));
   Get "/alerts" (HandlerFunc' (HandleListAlerts h));
   Delete "/alerts/{id}" (HandlerFunc' (HandleDeleteAlert h));
   Mount "/analytics" analytics_router;
   Mount "/admin" admin_router].
Definition root_routes : list route :=
  [Get "/healthz" (HandlerFunc' (HandleHealthz h));
   Get "/readyz" (HandlerFunc' (HandleReadyz h));
   Get "/swagger" swaggerUI;
   Get "/swagger/openapi.yaml" swaggerSpec;
   Mount "/dashboard" dashboard] ++
  match WSHandler with Some ws => [Get "/ws/prices" ws] | None => [] end ++
  [Mount "/api/v1" (NewMux [] api_routes)].
Definition root_uses : list middleware :=
  (if CORSEnabled cfg then [CORSMiddleware (CORSOrigins cfg)] else []) ++
  [SecurityHeadersMiddleware (ForceHTTPS cfg); chi_RequestID; chi_RealIP; chi_Logger; chi_Recoverer] ++
  (if RateLimitEnabled cfg then [RateLimitMiddleware (RateLimitRPS cfg) (RateLimitBurst cfg)] else []).
Definition NewRouter : http_Handler := NewMux root_uses root_routes.

(** *** The administration routes *)
Definition unauthorized (r : Request) : Prop := rq_Header r "X-API-Key" <> AdminAPIKey cfg.
Implicit Types (s : web (W := W) (Lim := Lim)) (r : Request) (hdr : gmap string string).

(** What a request may do at most: be answered with one of [sts], leaving the
    alerts, the poller and the price service alone but for a reading of the clock. *)
Definition refused (sts : list Z) s (res : option Response * web) : Prop :=
  exists resp s', res = (Some resp, s') /\ rs_Status resp ∈ sts /\
    sv_alerts (wb_server s') = sv_alerts (wb_server s) /\ sv_poller (wb_server s') = sv_poller (wb_server s) /\
    requestCount (sv_svc (wb_server s')) = requestCount (sv_svc (wb_server s)) /\
    tasks (sv_svc (wb_server s')) = tasks (sv_svc (wb_server s)).

Lemma refused_more sts sts' s res : sts ⊆ sts' -> refused sts s res -> refused sts' s res.
Proof. intros Hs (resp & s' & ? & ? & ?). exists resp, s'. set_solver. Qed.

Lemma admin_refuses hdr r s : AdminAPIKey cfg <> ""%string -> unauthorized r ->
  refused [401] s (admin_router hdr r s).
Proof.
  intros Hk Hu. cbn [admin_router NewMux foldr]. unfold AuthMiddleware at 1.
  rewrite bool_decide_eq_false_2, bool_decide_eq_false_2 by done. cbn [negb].
  eexists _, s. split; [reflexivity|]. set_solver.
Qed.

(** The sub-router of a mount, below its prefix. *)
Lemma dispatch_mount (routes : list route) i p x rest hdr r s : routes !! i = Some (Mount p x) ->
  (forall j y, routes !! j = Some y -> j <> i ->
     drop_prefix p (ro_pattern y) = None /\ drop_prefix (ro_pattern y) p = None) ->
  rq_Method r ∈ known_methods -> rq_Path r = (p +:+ "/" +:+ rest)%string ->
  exists params, dispatch routes hdr r s = x hdr (set_route ("/" +:+ rest)%string params r) s.
Proof.
  intros Hi Hp Hknown Hr. unfold dispatch. set (table := (fun x => _) <$> routes).
  destruct (chi_match_mount table r i p rest) as [params Hm].
  - done.
  - unfold table. by rewrite list_lookup_fmap, Hi.
  - intros j m q. unfold table. rewrite list_lookup_fmap. destruct (routes !! j) as [y|] eqn:E; [|done].
    intros [= <- <-]. by apply Hp.
  - done.
  - exists params. by rewrite Hm, Hi.
Qed.

Lemma api_refuses hdr r s rest : AdminAPIKey cfg <> ""%string -> unauthorized r -> rq_Method r ∈ known_methods ->
  rq_Path r = ("/admin/" +:+ rest)%string -> refused [401] s (NewMux [] api_routes hdr r s).
Proof.
  intros Hk Hu Hm Hp. cbn [NewMux foldr].
  destruct (dispatch_mount api_routes 9 "/admin" admin_router rest hdr r s eq_refl) as [params ->].
  - intros j y Hj Hne. do 10 (destruct j as [|j]; [simplify_eq/=; done|]). done.
  - done.
  - done.
  - by apply admin_refuses.
Qed.

(** What a request without the key is answered, by its method. *)
Definition refusal (r : Request) : list Z := if bool_decide (rq_Method r ∈ known_methods) then [401] else [405].
Lemma root_refuses hdr r s rest : AdminAPIKey cfg <> ""%string -> unauthorized r ->
  rq_Path r = ("/api/v1/admin/" +:+ rest)%string -> refused (refusal r) s (dispatch root_routes hdr r s).
Proof.
  intros Hk Hu Hp. unfold refusal. case_bool_decide as Hm.
  2:{ unfold dispatch. rewrite chi_match_unknown by done. eexists _, s. split; [reflexivity|]. set_solver. }
  unfold root_routes.
  destruct WSHandler as [ws|]; cbn [app];
    match goal with |- refused _ _ (dispatch ?l _ _ _) =>
      destruct (dispatch_mount l (pred (length l)) "/api/v1" (NewMux [] api_routes) ("admin/" +:+ rest)%string hdr r s
        eq_refl) as [params ->] end; try done; try by eapply api_refuses.
  all: intros j y Hj Hne; simpl in Hne; do 7 (destruct j as [|j]; [simplify_eq/=; done|]); done.
Qed.

(** A handler that refuses the requests of a kind. *)
Definition refuses (K : Request -> Prop) (sts : list Z) (next : http_Handler) : Prop :=
  forall hdr r s, K r -> refused sts s (next hdr r s).
Definition context_blind (K : Request -> Prop) : Prop :=
  forall r id a, K r -> K (set_ReqID id r) /\ K (set_RemoteAddr a r).

Lemma refuses_CORS K sts origins next : refuses K sts next ->
  refuses (fun r => K r /\ rq_Method r <> "OPTIONS"%string) sts (CORSMiddleware origins next) /\
    refuses K (204 :: sts) (CORSMiddleware origins next).
Proof.
  intros Hn. split; intros hdr r s Hk; unfold CORSMiddleware.
  - destruct Hk as [Hk Hm]. rewrite (bool_decide_eq_false_2 _ Hm). by apply Hn.
  - case_bool_decide; [|eapply refused_more, Hn; [set_solver|done]].
    eexists _, s. split; [reflexivity|]. simpl. set_solver.
Qed.

Lemma refuses_RateLimit K sts rps burst next : refuses K sts next ->
  refuses K (429 :: sts) (RateLimitMiddleware rps burst next).
Proof.
  intros Hn hdr r s Hk. unfold RateLimitMiddleware. rewrite !bind_unfold.
  assert (forall s, let s' := (on_server now s).2 in sv_alerts (wb_server s') = sv_alerts (wb_server s) /\
    sv_poller (wb_server s') = sv_poller (wb_server s) /\
    requestCount (sv_svc (wb_server s')) = requestCount (sv_svc (wb_server s)) /\
    tasks (sv_svc (wb_server s')) = tasks (sv_svc (wb_server s))) as Hnow.
  { intros s0. unfold on_server, now, on_svc, on_world. by destruct (w_Now _). }
  set (s1 := (on_server now s).2). set (s2 := (on_server now s1).2). set (m := on_limiters _).
  destruct (Hnow s) as (Ha & Hb & Hc & Hd), (Hnow s1) as (Ha' & Hb' & Hc' & Hd').
  fold s1 in Ha, Hb, Hc, Hd. fold s2 in Ha', Hb', Hc', Hd'.
  assert (wb_server (m s2).2 = wb_server s2) as Hm.
  { unfold m, on_limiters. by destruct (lim_step _ _ _ _). }
  case_bool_decide.
  - destruct (Hn hdr r (m s2).2 Hk) as (resp & s' & -> & Hst & Hs'). exists resp, s'.
    split; [done|]. split; [set_solver|]. rewrite Hm in Hs'. intuition congruence.
  - eexists _, (m s2).2. split; [reflexivity|]. rewrite Hm. split; [simpl; set_solver|]. intuition congruence.
Qed.

Lemma refuses_chain K sts next : context_blind K -> refuses K sts next ->
  refuses K sts (SecurityHeadersMiddleware (ForceHTTPS cfg)
    (chi_RequestID (chi_RealIP (chi_Logger (chi_Recoverer next))))).
Proof.
  intros Hb Hn hdr r s Hk. unfold SecurityHeadersMiddleware. set (hdr' := if bool_decide _ then _ else _).
  destruct (chi_RequestID_law (chi_RealIP (chi_Logger (chi_Recoverer next))) hdr' r s) as (id & _ & ->).
  destruct (chi_RealIP_law (chi_Logger (chi_Recoverer next)) hdr' (set_ReqID id r) s) as [a ->].
  rewrite chi_Logger_law, chi_Recoverer_law.
  destruct (Hn hdr' (set_RemoteAddr a (set_ReqID id r)) s) as (resp & s' & -> & Hr); [by apply Hb, Hb|].
  by exists resp, s'.
Qed.

(** C11. With an administration key configured, a request below
    [/api/v1/admin/] that does not carry it runs no administration handler,
    known or unknown path, whatever its method: it is answered 401, or 405 when
    chi does not know the method, or 429 by the rate limiter, or 204 when it is
    an OPTIONS and CORS is enabled, and the alerts, the subscriptions, the
    request counters and the goroutines of the services are as they were.  (A
    wrong key is a 401 like a missing one; docs/openapi.yaml documents a 403.) *)
Theorem admin_requires_key rest hdr r s : AdminAPIKey cfg <> ""%string -> unauthorized r ->
  rq_Path r = ("/api/v1/admin/" +:+ rest)%string ->
  refused (if CORSEnabled cfg && bool_decide (rq_Method r = "OPTIONS"%string) then [204; 429; 401]
           else if bool_decide (rq_Method r ∈ known_methods) then [429; 401] else [429; 405]) s (NewRouter hdr r s).
Proof.
  intros Hk Hu Hp.
  set (K := fun q => (unauthorized q /\ rq_Path q = ("/api/v1/admin/" +:+ rest)%string) /\ rq_Method q = rq_Method r).
  assert (context_blind K) as Hb by (intros ?? a [[??] ?]; done).
  assert (refuses K (429 :: refusal r) (foldr (fun m next => m next) (dispatch root_routes)
    (if RateLimitEnabled cfg then [RateLimitMiddleware (RateLimitRPS cfg) (RateLimitBurst cfg)] else []))) as Hroot.
  { assert (refuses K (refusal r) (dispatch root_routes)) as Hd.
    { intros hdr' q s' [[??] Hm]. replace (refusal r) with (refusal q) by (unfold refusal; by rewrite Hm).
      by eapply root_refuses. }
    destruct (RateLimitEnabled cfg); simpl; [by apply refuses_RateLimit|].
    intros ????. eapply refused_more, Hd; [set_solver|done]. }
  unfold NewRouter, NewMux, root_uses. rewrite !foldr_app. cbn [foldr].
  apply (refuses_chain K _ _ Hb) in Hroot. unfold refusal in Hroot.
  assert (forall sts, (if bool_decide (rq_Method r ∈ known_methods) then [429; 401] else [429; 405]) = sts ->
    429 :: (if bool_decide (rq_Method r ∈ known_methods) then [401] else [405]) = sts) as Heq by (intros ? <-; by case_bool_decide).
  rewrite (Heq _ eq_refl) in Hroot. clear Heq.
  destruct (CORSEnabled cfg); cbn [foldr andb]; [|by apply Hroot].
  apply (refuses_CORS _ _ (CORSOrigins cfg)) in Hroot as [H1' H2']. destruct (decide (rq_Method r = "OPTIONS"%string)) as [Ho|Ho].
  - rewrite (bool_decide_eq_true_2 _ Ho). rewrite bool_decide_eq_true_2 in H2' by (rewrite Ho; unfold known_methods; set_solver).
    by apply H2'.
  - rewrite (bool_decide_eq_false_2 _ Ho). by apply H1'.
Qed.
End router.

(** ** The headers of the answers *)
Section response_headers.
Context {O : DecimalOps} `{!SortSlice} `{!MapRange} `{!GoFmt} `{!Unicode} `{!Alerts.NetParse} `{!GoParse} `{!GoJSON}.
Context {W P T Lim : Type} `{!ClockOps W} `{!Scheduler W} `{!RateLimiter Lim} `{!SplitHostPort}.
Context `{PP : !PriceProvider W P} `{PR : !ProviderRouter W P} `{CO : !CacheOps W}
  `{PS : !PriceStore W} `{TP : !TokenPriceProvider W T} `{RG : !RegistryOps W}
  `{SG : !ProviderStatusGetter W} `{AS : !AnalyticsStore W}.
Context `{CH : !Chi (W := W) (Lim := Lim)}.
Notation http_Handler := (http_Handler (W := W) (Lim := Lim)).
Notation request_id := "X-Request-ID"%string.
Implicit Types (h : Handler T) (r : Request).

(** A computation of the services that answers with a content type only. *)
Definition plain {S} (m : PM S Response) : Prop :=
  forall s resp, (m s).1 = Some resp -> rs_Headers resp = {["Content-Type"%string := "application/json"%string]}.
Lemma plain_retp {S} st v : plain (S := S) (retp (writeJSON st v)).
Proof. by intros s resp [= <-]. Qed.
Lemma plain_none {S} : plain (S := S) (ret None).
Proof. by intros s resp ?. Qed.
Lemma plain_bind {S A} (m : M S A) k : (forall a, plain (k a)) -> plain (bind m k).
Proof. intros Hk s resp. rewrite bind_unfold. apply Hk. Qed.
Lemma plain_bindp {S A} (m : PM S A) k : (forall a, plain (k a)) -> plain (bindp m k).
Proof. intros Hk. apply plain_bind. intros [a|]; [apply Hk|apply plain_none]. Qed.

Definition plain' {S} (m : M S Response) : Prop :=
  forall s, rs_Headers (m s).1 = {["Content-Type"%string := "application/json"%string]}.
Lemma plain'_ret {S} st v : plain' (S := S) (ret (writeJSON st v)).
Proof. by intros s. Qed.
Lemma plain'_bind {S A} (m : M S A) k : (forall a, plain' (k a)) -> plain' (bind m k).
Proof. intros Hk s. rewrite bind_unfold. apply Hk. Qed.
Ltac plain := unfold analytics_answer, analytics_disabled, handlePriceError, writeError;
  repeat first
    [ apply plain_retp | apply plain'_ret | apply plain_none
    | apply plain_bindp; intros | apply plain_bind; intros | apply plain'_bind; intros
    | progress intros | case_match ].

(** A handler that, given no request ID header, answers with none. *)
Definition quiet_id (K : Request -> Prop) (x : http_Handler) : Prop :=
  forall hdr r s resp, K r -> hdr !! request_id = None -> (x hdr r s).1 = Some resp ->
    rs_Headers resp !! request_id = None.
Notation any := (fun _ : Request => True).

Lemma quiet_HandlerFunc f : (forall r, plain (f r)) -> quiet_id any (HandlerFunc f).
Proof.
  intros Hf hdr r s resp _ Hh. unfold HandlerFunc, bindp. rewrite bind_unfold. unfold on_server.
  specialize (Hf r (wb_server s)). destruct (f r (wb_server s)) as [[x|] sv]; [|done]. simpl.
  intros [= <-]. simpl. rewrite (Hf x eq_refl). by rewrite lookup_union, Hh.
Qed.
Lemma quiet_HandlerFunc' f : (forall r, plain' (f r)) -> quiet_id any (HandlerFunc' f).
Proof.
  intros Hf. apply quiet_HandlerFunc. intros r s resp. unfold liftp. rewrite bind_unfold.
  intros [= <-]. apply Hf.
Qed.

Lemma quiet_dispatch routes : Forall (fun x => quiet_id any (ro_handler x)) routes -> quiet_id any (dispatch routes).
Proof.
  intros Hr hdr r s resp _ Hh. unfold dispatch. destruct (chi_match _ _) as [i p ps| |]; [|by intros [= <-]..].
  destruct (routes !! i) as [x|] eqn:E; [|done]. apply (Forall_lookup_1 _ _ _ _ Hr E _ _ _ _ I Hh).
Qed.
Lemma quiet_Auth key next : quiet_id any next -> quiet_id any (AuthMiddleware key next).
Proof.
  intros Hn hdr r s resp _ Hh. unfold AuthMiddleware. case_bool_decide; [by apply Hn|].
  case_match; [|by apply Hn]. intros [= <-]. simpl. by rewrite lookup_union, Hh.
Qed.
Lemma quiet_RateLimit rps burst next : quiet_id any next -> quiet_id any (RateLimitMiddleware rps burst next).
Proof.
  intros Hn hdr r s resp _ Hh. unfold RateLimitMiddleware. rewrite !bind_unfold.
  case_bool_decide; [by apply Hn|]. intros [= <-]. unfold header_set. simpl.
  by rewrite lookup_union, lookup_insert_ne, Hh.
Qed.
Lemma quiet_CORS K origins next : quiet_id K next -> quiet_id K (CORSMiddleware origins next).
Proof.
  intros Hn hdr r s resp Hk Hh. unfold CORSMiddleware. set (hdr' := if _ && _ then _ else _).
  assert (hdr' !! request_id = None) as Hh'.
  { unfold hdr', CORS_headers, header_set. case_match; [|done]. by rewrite !lookup_insert_ne. }
  case_bool_decide; [by intros [= <-]|by apply Hn].
Qed.
Lemma quiet_chain https next : quiet_id any next -> quiet_id (fun r => rq_ReqID r = ""%string)
  (SecurityHeadersMiddleware https (chi_RequestID (chi_RealIP (chi_Logger (chi_Recoverer next))))).
Proof.
  intros Hn hdr r s resp Hk Hh. unfold SecurityHeadersMiddleware. rewrite Hk, bool_decide_eq_true_2 by done.
  set (hdr' := if https then _ else _).
  assert (hdr' !! request_id = None) as Hh'.
  { unfold hdr', header_set. case_match; by rewrite !lookup_insert_ne. }
  destruct (chi_RequestID_law (chi_RealIP (chi_Logger (chi_Recoverer next))) hdr' r s) as (id & _ & ->).
  destruct (chi_RealIP_law (chi_Logger (chi_Recoverer next)) hdr' (set_ReqID id r) s) as [a ->].
  rewrite chi_Logger_law, chi_Recoverer_law.
  destruct (next hdr' (set_RemoteAddr a (set_ReqID id r)) s) as [[x|] s'] eqn:E;
    [|destruct (crashed _); by intros [= <-]].
  intros [= <-]. eapply (Hn hdr' _ s x I Hh'). by rewrite E.
Qed.

Lemma HandleCreateAlert_plain rnd h r : plain' (HandleCreateAlert (W := W) rnd h r).
Proof. unfold HandleCreateAlert. plain. Qed.
Ltac route_quiet := cbn [ro_handler Get Post Delete Mount]; first
  [ done
  | apply quiet_HandlerFunc'; intros ? s; apply HandleCreateAlert_plain
  | apply quiet_HandlerFunc'; intros ?; cbv delta [HandleGetProviders HandleGetSubscriptions
      HandlePostSubscription HandleDeleteSubscription HandleGetStats HandleProviderAccuracy
      HandlePriceAnomalies HandleVolumeByProvider HandlePriceStats HandleListAlerts
      HandleDeleteAlert HandleHealthz HandleReadyz] beta; plain
  | apply quiet_HandlerFunc; intros ?; cbv delta [HandleGetPrice HandleGetPriceByAddress HandleGetPrices
      HandleGetOHLC HandleConvert] beta; plain ].

Lemma admin_router_quiet h cfg : quiet_id any (admin_router h cfg).
Proof. apply quiet_Auth, quiet_dispatch. repeat apply Forall_cons_2; [route_quiet..|constructor]. Qed.
Lemma analytics_router_quiet h : quiet_id any (analytics_router h).
Proof. apply quiet_dispatch. repeat apply Forall_cons_2; [route_quiet..|constructor]. Qed.
Lemma api_routes_quiet rnd h cfg : quiet_id any (dispatch (api_routes (P := P) rnd h cfg)).
Proof.
  apply quiet_dispatch. repeat apply Forall_cons_2; cbn [ro_handler Mount];
    try apply analytics_router_quiet; try apply admin_router_quiet; [route_quiet..|constructor].
Qed.
Lemma root_routes_quiet ui spec dash ws rnd h cfg :
  quiet_id any ui -> quiet_id any spec -> quiet_id any dash -> Forall (quiet_id any) (option_list ws) ->
  quiet_id any (dispatch (root_routes (P := P) ui spec dash ws rnd h cfg)).
Proof.
  intros ??? Hw. apply quiet_dispatch. unfold root_routes. rewrite !Forall_app. split_and!.
  - repeat apply Forall_cons_2; [route_quiet..|constructor].
  - destruct ws; simpl in *; [|constructor]. apply Forall_cons in Hw as [? _]. by repeat constructor.
  - apply Forall_cons_2; [|constructor]. apply api_routes_quiet.
Qed.

(** C30. No response carries an [X-Request-ID] header: the middleware that would
    set it runs before the one that makes the request's ID, so the request it
    sees has none (the pages and the WebSocket endpoint set none either). *)
Theorem request_id_never_sent swaggerUI swaggerSpec dashboard WSHandler rnd h cfg hdr r s resp :
  Forall (quiet_id any) ([swaggerUI; swaggerSpec; dashboard] ++ option_list WSHandler) ->
  rq_ReqID r = ""%string -> hdr !! request_id = None ->
  (NewRouter (P := P) swaggerUI swaggerSpec dashboard WSHandler rnd h cfg hdr r s).1 = Some resp ->
  rs_Headers resp !! request_id = None.
Proof.
  intros Hp Hr Hh. apply Forall_app in Hp as [Hp Hw].
  apply Forall_cons in Hp as [Hui Hp]. apply Forall_cons in Hp as [Hspec Hp]. apply Forall_cons in Hp as [Hdash _].
  pose proof (root_routes_quiet swaggerUI swaggerSpec dashboard WSHandler rnd h cfg Hui Hspec Hdash Hw) as Hroot.
  revert resp. unfold NewRouter, NewMux, root_uses. rewrite !foldr_app. cbn [foldr].
  set (inner := foldr _ _ (if RateLimitEnabled cfg then _ else _)).
  assert (quiet_id any inner) as Hin.
  { unfold inner. destruct (RateLimitEnabled cfg); [by apply quiet_RateLimit|done]. }
  apply (quiet_chain (ForceHTTPS cfg)) in Hin. intros resp.
  destruct (CORSEnabled cfg); cbn [foldr]; [apply (quiet_CORS _ (CORSOrigins cfg)) in Hin|]; by apply Hin.
Qed.
End response_headers.

(** ** A router to run the theorems on

    It tries the mounts first, in order, then the routes without parameters. *)
Section demo_chi.
Context {W Lim : Type}.
Fixpoint mount_of (i : nat) (table : list (option string * string)) (path : string) : option (nat * string) :=
  match table with
  | [] => None
  | (None, p) :: table =>
      match drop_prefix (p +:+ "/")%string path with
      | Some rest => Some (i, rest)
      | None => mount_of (S i) table path
      end
  | _ :: table => mount_of (S i) table path
  end.
Definition leaf_of (table : list (option string * string)) (r : Request) : option nat :=
  fst <$> list_find (fun x => x = (Some (rq_Method r), rq_Path r)) table.
Definition simple_match (table : list (option string * string)) (r : Request) : routed :=
  if bool_decide (rq_Method r ∉ known_methods) then MethodNotAllowed else
  match mount_of 0 table (rq_Path r) with
  | Some (i, rest) => Found i ("/" +:+ rest)%string (fun _ => ""%string)
  | None => match leaf_of table r with Some i => Found i (rq_Path r) (fun _ => ""%string) | None => NotFound end
  end.

Lemma drop_prefix_app p s : drop_prefix p (p +:+ s)%string = Some s.
Proof.
  induction p as [|c p IH]; [done|]. change ((String c p +:+ s)%string) with (String c (p +:+ s)%string).
  simpl. by rewrite bool_decide_eq_true_2.
Qed.
Lemma drop_prefix_both p q x s : drop_prefix (q +:+ "/")%string (p +:+ x)%string = Some s ->
  drop_prefix p q = None -> drop_prefix q p = None -> False.
Proof.
  revert q. induction p as [|c p IH]; intros [|d q]; simpl; try done. intros Hd Hp Hq.
  destruct (decide (d = c)) as [->|Hne]; [|by rewrite bool_decide_eq_false_2 in Hd].
  rewrite bool_decide_eq_true_2 in Hd, Hp, Hq by done. by apply (IH q).
Qed.

Lemma mount_of_sound table path i0 i rest : mount_of i0 table path = Some (i, rest) ->
  exists k p, i = (i0 + k)%nat /\ table !! k = Some (None, p) /\ drop_prefix (p +:+ "/")%string path = Some rest.
Proof.
  revert i0. induction table as [|[[m|] p] table IH]; intros i0; simpl; [done| |].
  - intros (k & q & -> & Hk & Hq)%IH. exists (S k), q. split; [lia|done].
  - destruct (drop_prefix _ path) as [x|] eqn:E.
    + intros [= <- <-]. exists 0%nat, p. split; [lia|done].
    + intros (k & q & -> & Hk & Hq)%IH. exists (S k), q. split; [lia|done].
Qed.
Lemma mount_of_complete table path i0 k p rest : table !! k = Some (None, p) ->
  drop_prefix (p +:+ "/")%string path = Some rest -> exists x, mount_of i0 table path = Some x.
Proof.
  intros Hk Hd. revert i0 k Hk. induction table as [|[[m|] q] table IH]; intros i0 [|k] Hk; simpl in *; simplify_eq.
  - by eapply IH.
  - rewrite Hd. eauto.
  - destruct (drop_prefix (q +:+ "/")%string path); [eauto|by eapply IH].
Qed.

Lemma app_slash p rest : (p +:+ "/" +:+ rest = (p +:+ "/") +:+ rest)%string.
Proof.
  induction p as [|c p IH]; [done|].
  change (String c (p +:+ "/" +:+ rest) = String c ((p +:+ "/") +:+ rest))%string. by rewrite IH.
Qed.

Definition demo_Chi : Chi (W := W) (Lim := Lim).
Proof.
  refine {| chi_match := simple_match;
    chi_RequestID := fun next hdr r => next hdr (set_ReqID "host-000001" r);
    chi_RealIP := fun next hdr r => next hdr (set_RemoteAddr (rq_RemoteAddr r) r);
    chi_Logger := fun next => next;
    chi_Recoverer := fun next hdr r s =>
      match next hdr r s with
      | (Some resp, s') => (Some resp, s')
      | (None, s') =>
          if crashed (sv_svc (wb_server s')) then (None, s')
          else (Some (mkResponse StatusInternalServerError hdr None), s')
      end |}; try done.
  - intros table r i path params. unfold simple_match. case_bool_decide; [done|].
    destruct (mount_of 0 table (rq_Path r)) as [[j x]|] eqn:Em.
    + intros [= -> _ _]. apply mount_of_sound in Em as (k & p & -> & Hk & _). eauto.
    + unfold leaf_of. destruct (list_find _ table) as [[j y]|] eqn:Ef; [|done]. intros [= -> _ _].
      apply list_find_Some in Ef as (Hj & -> & _). eauto.
  - intros table r Hm. unfold simple_match. by rewrite bool_decide_eq_true_2.
  - intros table r i p rest Hknown Hi Hothers Hpath. unfold simple_match. rewrite Hpath, bool_decide_eq_false_2 by tauto.
    assert (drop_prefix (p +:+ "/")%string (p +:+ "/" +:+ rest)%string = Some rest) as Hd.
    { rewrite app_slash. apply drop_prefix_app. }
    destruct (mount_of_complete table _ 0 i p rest Hi Hd) as [[j x] Hm]. rewrite Hm.
    apply mount_of_sound in Hm as (k & q & -> & Hk & Hq). simpl. destruct (decide (k = i)) as [->|Hne].
    + assert (p = q) as <- by congruence. rewrite Hd in Hq. simplify_eq. eauto.
    + destruct (Hothers k None q Hk Hne). exfalso. by eapply drop_prefix_both.
  - intros. by exists "host-000001"%string.
  - intros next hdr r s. by exists (rq_RemoteAddr r).
Defined.
End demo_chi.

(** A bucket that counts down. *)
#[local] Instance demo_limiter : RateLimiter nat := {
  rate_NewLimiter _ burst := Z.to_nat burst;
  lim_Allow _ n := (negb (n =? 0)%nat, pred n) }.
#[local] Instance demo_hostport : SplitHostPort := { net_SplitHost _ := "10.0.0.1"%string }.
#[local] Existing Instance demo_Chi.
#[local] Existing Instance plain_GoJSON.
#[local] Instance demo_parse : GoParse := {
  time_ParseRFC3339 _ := None; time_ParseDuration _ := None; strconv_ParseFloat _ := None }.
#[local] Instance demo_netparse : Alerts.NetParse := {
  Alerts.url_Parse _ := inl ("https"%string, "example.org"%string); Alerts.parse_ipv6 _ := None }.
#[local] Instance demo_status : ProviderStatusGetter (World.world provider RoundRobinStrategy) := {
  sg_ProviderStatuses := ret [] }.
#[local] Instance demo_analytics : AnalyticsStore (World.world provider RoundRobinStrategy) := {
  as_ProviderAccuracy _ _ := ret ([], None); as_PriceAnomalies _ _ _ _ _ := ret ([], None);
  as_VolumeByProvider _ _ := ret ([], None); as_PriceStats _ _ _ _ := ret (None, None) }.

Definition demo_web : web (W := World.world provider RoundRobinStrategy) (Lim := nat) :=
  mkWeb demo_server NewLimiters.
Definition demo_page : http_Handler (W := World.world provider RoundRobinStrategy) (Lim := nat) :=
  fun hdr r => retp (mkResponse 200 hdr None).
Definition demo_cfg : RouterConfig := mkRouterConfig "secret" true fone 2 true ["https://example.org"%string] true.
Definition admin_request : Request :=
  mkRequest "DELETE" "/api/v1/admin/subscriptions/bitcoin" (fun _ => ""%string) (fun _ => ""%string)
    (fun _ => ""%string) "10.0.0.1:4711" "" None.
Definition demo_mux : http_Handler :=
  NewRouter (P := provider) demo_page demo_page demo_page (Some demo_page) (fun _ => []) demo_handler demo_cfg.

Lemma admin_requires_key_witness : refused [429; 401] demo_web (demo_mux ∅ admin_request demo_web).
Proof.
  apply (admin_requires_key (P := provider) demo_page demo_page demo_page (Some demo_page) (fun _ => [])
    demo_handler demo_cfg "subscriptions/bitcoin" ∅ admin_request demo_web); [discriminate|discriminate|reflexivity].
Defined.

Definition home_request : Request :=
  mkRequest "GET" "/healthz" (fun _ => ""%string) (fun _ => ""%string)
    (fun _ => ""%string) "10.0.0.1:4711" "" None.
Lemma request_id_never_sent_witness : exists resp, (demo_mux ∅ home_request demo_web).1 = Some resp /\
  rs_Headers resp !! "X-Request-ID"%string = None.
Proof.
  eexists. split; [reflexivity|].
  apply (request_id_never_sent (P := provider) demo_page demo_page demo_page (Some demo_page) (fun _ => [])
    demo_handler demo_cfg ∅ home_request demo_web); [|reflexivity|reflexivity|reflexivity].
  repeat constructor; intros hdr r s resp _ Hh [= <-]; exact Hh.
Defined.
