(* ===== verification/Static.v ===== *)
(** * internal/adapter/transport/http: dashboard.go and swagger.go

    The pages the router serves besides the API, and the router with these
    pages.  The embedded files are a parameter.  A body that is not JSON is
    given as its text. *)
From S2P Require Import Prelude GoLib GoStrings Decimal Model Strategies MemCache MemStore Registry.
From S2P Require Import Ports World Demo Validator Consensus PriceService Http Middleware.
From S2P Require Alerts Poller Admin.
From Stdlib Require Import Ascii.
Open Scope Z_scope.

(** [sub.Open]: [None] is an error; what is opened is a file with its content,
    or a directory, from which nothing can be copied.  The specification of
    swagger/openapi.yaml is embedded too. *)
Class EmbedFS := { fs_Open : string -> option (option string); swaggerSpec : string }.

(** [path.Ext]: from the last dot of the last element. *)
Fixpoint path_Ext_from (s : string) (ext : string) : string :=
  match s with
  | EmptyString => ext
  | String c s' =>
      path_Ext_from s' (if bool_decide (c = "/"%char) then ""%string else if bool_decide (c = "."%char) then s else ext)
  end.
Definition path_Ext (path : string) : string := path_Ext_from path "".

Definition quoted (s : string) : string :=
  let quote := String (Ascii.ascii_of_nat 34) "" in quote +:+ s +:+ quote.
Definition swagger_html : string :=
  "<!DOCTYPE html>
<html>
<head>
    <title>Crypto Price Aggregator - API Docs</title>
    <link rel=" +:+ quoted "stylesheet" +:+ " href=" +:+ quoted "https://unpkg.com/swagger-ui-dist@5/swagger-ui.css" +:+ ">
</head>
<body>
    <div id=" +:+ quoted "swagger-ui" +:+ "></div>
    <script src=" +:+ quoted "https://unpkg.com/swagger-ui-dist@5/swagger-ui-bundle.js" +:+ "></script>
    <script>
        SwaggerUIBundle({
            url: '/swagger/openapi.yaml',
            dom_id: '#swagger-ui',
        });
    </script>
</body>
</html>".

Section pages.
Context `{!EmbedFS} {W Lim : Type}.
Notation http_Handler := (http_Handler (W := W) (Lim := Lim)).

Definition text (s : string) : option json := Some (JStr s).
(** [http.NotFound] *)
Definition http_NotFound (hdr : headers) : Response :=
  mkResponse StatusNotFound
    (header_set "Content-Type" "text/plain; charset=utf-8" (header_set "X-Content-Type-Options" "nosniff" hdr))
    (text "404 page not found").

Definition content_type (path : string) (hdr : headers) : headers :=
  let ext := path_Ext path in
  if bool_decide (ext = ".html"%string) then header_set "Content-Type" "text/html; charset=utf-8" hdr
  else if bool_decide (ext = ".js"%string) then header_set "Content-Type" "application/javascript" hdr
  else if bool_decide (ext = ".css"%string) then header_set "Content-Type" "text/css" hdr
  else hdr.
(** The file of a path: itself, or the index. *)
Definition dashboard_file (path : string) : option (string * option string) :=
  let filePath := default path (drop_prefix "/" path) in
  let filePath := if bool_decide (filePath = ""%string) then "index.html"%string else filePath in
  match fs_Open filePath with
  | Some f => Some (filePath, f)
  | None => match fs_Open "index.html" with Some f => Some ("index.html"%string, f) | None => None end
  end.
(** The path has lost the prefix of the mount. *)
Definition DashboardHandler : http_Handler := fun hdr r =>
  match dashboard_file (rq_Path r) with
  | None => retp (http_NotFound hdr)
  | Some (filePath, f) => retp (mkResponse StatusOK (content_type filePath hdr) (f ≫= text))
  end.

Definition HandleSwaggerSpec : http_Handler := fun hdr r =>
  let hdr := header_set "Content-Type" "application/yaml" hdr in
  let hdr := header_set "Access-Control-Allow-Origin" "*" hdr in
  retp (mkResponse StatusOK hdr (text swaggerSpec)).
Definition HandleSwaggerUI : http_Handler := fun hdr r =>
  retp (mkResponse StatusOK (header_set "Content-Type" "text/html" hdr) (text swagger_html)).

Lemma content_type_index hdr :
  content_type "index.html" hdr !! "Content-Type"%string = Some "text/html; charset=utf-8"%string.
Proof. unfold content_type. rewrite bool_decide_eq_true_2 by done. apply lookup_insert_eq. Qed.

(** With an index, every path of the dashboard is answered with a page: the
    file of that name when there is one, the index, as HTML, otherwise. *)
Theorem dashboard_total index hdr r s : fs_Open "index.html" = Some (Some index) ->
  exists resp, DashboardHandler hdr r s = (Some resp, s) /\ rs_Status resp = StatusOK /\
    match fs_Open (default (rq_Path r) (drop_prefix "/" (rq_Path r))) with
    | Some f => rq_Path r <> "/"%string -> rq_Path r <> ""%string -> rs_Body resp = (f ≫= text)
    | None => rs_Body resp = text index /\
        rs_Headers resp !! "Content-Type"%string = Some "text/html; charset=utf-8"%string
    end.
Proof.
  intros Hi. unfold DashboardHandler, dashboard_file, retp, ret.
  set (p := default (rq_Path r) (drop_prefix "/" (rq_Path r))).
  assert (p = ""%string -> rq_Path r = "/"%string \/ rq_Path r = ""%string) as Hp.
  { unfold p. destruct (rq_Path r) as [|c rest]; [by right|]. simpl. case_bool_decide as Hc; [|done].
    subst c. destruct rest; [by left|done]. }
  destruct (decide (p = ""%string)) as [He|He].
  - rewrite (bool_decide_eq_true_2 _ He), Hi. eexists. split_and!; [done..|].
    destruct (fs_Open p); [intros H1 H2; destruct (Hp He); congruence|]. split; [done|apply content_type_index].
  - rewrite (bool_decide_eq_false_2 _ He). destruct (fs_Open p) as [f|]; [by eexists|].
    rewrite Hi. eexists. split_and!; [done..|apply content_type_index].
Qed.

(** The pages set no request ID. *)
Notation request_id := "X-Request-ID"%string.
Lemma quiet_content_type path hdr : hdr !! request_id = None -> content_type path hdr !! request_id = None.
Proof. intros Hh. unfold content_type, header_set. repeat case_bool_decide; by rewrite ?lookup_insert_ne. Qed.
Lemma quiet_dashboard : quiet_id (fun _ => True) DashboardHandler.
Proof.
  intros hdr r s resp _ Hh. unfold DashboardHandler. destruct (dashboard_file _) as [[p f]|]; intros [= <-]; simpl.
  - by apply quiet_content_type.
  - unfold header_set. by rewrite !lookup_insert_ne.
Qed.
Lemma quiet_swagger_spec : quiet_id (fun _ => True) HandleSwaggerSpec.
Proof. intros hdr r s resp _ Hh [= <-]. unfold header_set. simpl. by rewrite !lookup_insert_ne. Qed.
Lemma quiet_swagger_ui : quiet_id (fun _ => True) HandleSwaggerUI.
Proof. intros hdr r s resp _ Hh [= <-]. unfold header_set. simpl. by rewrite !lookup_insert_ne. Qed.
End pages.
