(* ===== verification/Main.v ===== *)
(** * cmd/server: the life of the process

    [main] from the configuration to the end of the shutdown, and the
    functions of wiring.go it starts with.  What [main] asks of other parts is
    an action; a world answers each with an error or not, and the actions done
    so far are recorded.  [os.Exit(1)] is [None]. *)
From S2P Require Import Prelude GoLib Decimal Model Config Telemetry Admin Http Middleware Demo.
Open Scope Z_scope.

Inductive action :=
  | SetupTelemetry (cfg : telemetry_Config)
  | MigrateOpen (dsn : string) | MigrateDriver | MigrateNew (source : string) | MigrateUp
  | OpenPostgres (dsn : string)
  | OpenRedis (addr password : string) (db : Z)
  | OpenClickHouse (cfg : ClickHouseConfig)
  | StartHub
  | FetchCatalog | StartRefresh (interval : Duration)
  | StartBinance (url : string)
  | StartSubscriptions (minInterval : Duration)
  | Listen (addr : string)
  | ShutdownServer | CloseBinance | StopHub | StopSubscriptions | StopAlerts
  | ShutdownTelemetry | ClosePostgres | CloseRedis | CloseClickHouse.

(** [ErrNoChange] of the migrations is told apart from the other errors. *)
Class Process (W : Type) := {
  perform : action -> M W (option error);
  is_no_change : error -> bool }.

(** ** wiring.go: setupLogger *)
Record logger := mkLogger { lg_text : bool; lg_level : Level }.
Definition setupLogger (cfg : LogsConfig) : logger :=
  mkLogger (bool_decide (lgc_Format cfg = "text"%string)) (level_of (lgc_Level cfg)).

(** ** What main makes of the configuration *)
Inductive store_kind := MemoryStore | PostgresStore | ClickHouseStore.
Inductive cache_kind := MemoryCache | RedisCache.
#[export] Instance cache_kind_eq_dec : EqDecision cache_kind.
Proof. solve_decision. Defined.
Definition main_telemetry (cfg : Config) : telemetry_Config :=
  let t := tlc_Traces (Telemetry cfg) in let m := tlc_Metrics (Telemetry cfg) in
  mkTelemetry (tc_Enabled t) (tc_Exporter t) (tc_SampleRate t) (mc_Enabled m) (mc_Exporter m) (mc_Port m).
(** ClickHouse takes the place of the store chosen before it. *)
Definition main_store (cfg : Config) : store_kind :=
  let store := if pgc_Enabled (stc_Postgres (Storage cfg)) then PostgresStore else MemoryStore in
  if chc_Enabled (stc_ClickHouse (Storage cfg)) then ClickHouseStore else store.
Definition main_cache (cfg : Config) : cache_kind :=
  if rdc_Enabled (stc_Redis (Storage cfg)) then RedisCache else MemoryCache.
Definition main_binance (cfg : Config) : option string :=
  match Providers cfg !! "binance"%string with
  | Some p => if pvc_Enabled p then Some (pvc_WSURL p) else None
  | None => None
  end.
Definition main_RouterConfig (cfg : Config) : RouterConfig :=
  let s := Server cfg in
  mkRouterConfig (sv_AdminAPIKey s) (rlc_Enabled (sv_RateLimit s)) (rlc_RequestsPerSecond (sv_RateLimit s))
    (rlc_Burst (sv_RateLimit s)) (cors_Enabled (sv_CORS s)) (cors_AllowedOrigins (sv_CORS s)) (sv_ForceHTTPS s).

Record http_Server := mkHttpServer { hs_Addr : string; hs_ReadTimeout : Duration; hs_WriteTimeout : Duration }.
(** What runs once the process is up. *)
Record App := mkApp {
  app_logger : logger; app_store : store_kind; app_cache : cache_kind; app_analytics : bool;
  app_postgres : bool; app_registry : bool; app_binance : bool; app_mux : RouterConfig; app_server : http_Server }.

Section main.
Context `{!GoFmt} {W : Type} `{!Process W}.
Notation run := (W * list action)%type.

Definition main_server (cfg : Config) : http_Server :=
  mkHttpServer (sv_Host (Server cfg) +:+ ":" +:+ fmt_d (sv_Port (Server cfg)))
    (sv_ReadTimeout (Server cfg)) (sv_WriteTimeout (Server cfg)).

Definition act (a : action) : M run (option error) := fun s =>
  let '(e, w) := perform a s.1 in (e, (w, s.2 ++ [a])).
(** An action whose error ends the process; one whose error is only logged. *)
Definition must (a : action) : PM run unit :=
  e <- act a ;; match e with None => retp tt | Some _ => ret None end.
Definition may (a : action) : PM run unit := act a ;;; retp tt.
Definition when (b : bool) (m : PM run unit) : PM run unit := if b then m else retp tt.

(** *** wiring.go: runMigrations *)
Definition runMigrations (dsn : string) : PM run unit :=
  _ <~ must (MigrateOpen dsn) ;;
  _ <~ must MigrateDriver ;;
  _ <~ must (MigrateNew "file://migrations") ;;
  e <- act MigrateUp ;;
  match e with Some e => if is_no_change e then retp tt else ret None | None => retp tt end.

(** *** main, up to the wait for a signal *)
Definition main_app (cfg : Config) : App :=
  mkApp (setupLogger (tlc_Logs (Telemetry cfg))) (main_store cfg) (main_cache cfg)
    (chc_Enabled (stc_ClickHouse (Storage cfg))) (pgc_Enabled (stc_Postgres (Storage cfg)))
    (rgc_Enabled (Registry cfg)) (bool_decide (is_Some (main_binance cfg)))
    (main_RouterConfig cfg) (main_server cfg).
(** With a configuration that validates. *)
Definition main_with (cfg : Config) : PM run App :=
  let pg := stc_Postgres (Storage cfg) in
  let rd := stc_Redis (Storage cfg) in
  let ch := stc_ClickHouse (Storage cfg) in
  _ <~ must (SetupTelemetry (main_telemetry cfg)) ;;
  _ <~ when (pgc_Enabled pg) (_ <~ runMigrations (pgc_DSN pg) ;; must (OpenPostgres (pgc_DSN pg))) ;;
  _ <~ when (rdc_Enabled rd) (must (OpenRedis (rdc_Addr rd) (rdc_Password rd) (rdc_DB rd))) ;;
  _ <~ when (chc_Enabled ch) (must (OpenClickHouse ch)) ;;
  _ <~ may StartHub ;;
  _ <~ when (rgc_Enabled (Registry cfg))
         (_ <~ may FetchCatalog ;; may (StartRefresh (rgc_RefreshInterval (Registry cfg)))) ;;
  _ <~ (match main_binance cfg with Some url => may (StartBinance url) | None => retp tt end) ;;
  _ <~ may (StartSubscriptions (plc_MinInterval (Polling cfg))) ;;
  retp (main_app cfg).
Definition main_start (loaded : Config + error) : PM run App :=
  match loaded with
  | inr _ => ret None
  | inl cfg => match Config_Validate cfg with (Some _, _) => ret None | (None, cfg) => main_with cfg end
  end.

(** The goroutine of the server: what it listens to, until the shutdown.  Any
    other end of it exits. *)
Definition main_serve (a : App) : PM run unit := must (Listen (hs_Addr (app_server a))).

(** From the files, and what a SIGHUP does to the log level. *)
Definition main `{!Viper} : PM run App :=
  a <~ main_start (Load "config") ;; _ <~ main_serve a ;; retp a.
Definition sighup `{!Viper} (level : Level) : option error * option Level :=
  Reload (match Load "config" with inl cfg => inl (lgc_Level (tlc_Logs (Telemetry cfg))) | inr e => inr e end) (Some level).

(** *** main, after the signal; ClickHouse is closed by a deferred call *)
Definition main_stop (a : App) : PM run unit :=
  _ <~ may ShutdownServer ;;
  _ <~ when (app_binance a) (may CloseBinance) ;;
  _ <~ may StopHub ;;
  _ <~ may StopSubscriptions ;;
  _ <~ may StopAlerts ;;
  _ <~ may ShutdownTelemetry ;;
  _ <~ when (app_postgres a) (may ClosePostgres) ;;
  _ <~ when (bool_decide (app_cache a = RedisCache)) (may CloseRedis) ;;
  when (app_analytics a) (may CloseClickHouse).

(** ** The actions of a run *)

(** A computation that does the actions [l] when it completes, and none of
    [bad] when it does not. *)
Record emits {A} (bad : action -> Prop) (m : PM run A) (l : list action) : Prop := {
  em_some : forall w tr a w' tr', m (w, tr) = (Some a, (w', tr')) -> tr' = tr ++ l;
  em_none : forall w tr w' tr', m (w, tr) = (None, (w', tr')) ->
    exists l', tr' = tr ++ l' /\ Forall (fun a => ~ bad a) l' }.
Context (bad : action -> Prop).
Notation emit := (emits bad).

Lemma emits_ret {A} (a : A) : emit (retp a) [].
Proof. split; [intros w tr x w' tr' [= _ _ <-]; by rewrite app_nil_r|by intros w tr w' tr' [= ]]. Qed.
Lemma emits_exit {A} : emit (ret (A := option A) None) [].
Proof. split; [by intros w tr x w' tr' [= ]|intros w tr w' tr' [= _ <-]]. exists []. by rewrite app_nil_r. Qed.
Lemma emits_must a : ~ bad a -> emit (must a) [a].
Proof.
  intros Ha. split; intros w tr; unfold must, bind, act; cbn [fst snd]; destruct (perform a w) as [[e|] w1].
  - by intros x w' tr' [= ].
  - by intros x w' tr' [= _ _ <-].
  - intros w' tr' [= _ <-]. exists [a]. split; [done|by constructor].
  - by intros w' tr' [= ].
Qed.
Lemma emits_may a : emit (may a) [a].
Proof.
  split; intros w tr; unfold may, bind, act; cbn [fst snd]; destruct (perform a w) as [e w1].
  - by intros x w' tr' [= _ _ <-].
  - by intros w' tr' [= ].
Qed.
Lemma emits_bind {A B} (m : PM run A) (k : A -> PM run B) l l' :
  emit m l -> Forall (fun a => ~ bad a) l -> (forall a, emit (k a) l') -> emit (bindp m k) (l ++ l').
Proof.
  intros [Hm1 Hm2] Hl Hk. split; intros w tr; unfold bindp, bind; destruct (m (w, tr)) as [[a|] [w1 tr1]] eqn:E.
  - intros x w' tr' Hx. apply (em_some _ _ _ (Hk a)) in Hx as ->. rewrite (Hm1 _ _ _ _ _ E). by rewrite <- app_assoc.
  - by intros x w' tr' [= ].
  - intros w' tr' Hx. apply (em_none _ _ _ (Hk a)) in Hx as (l'' & -> & Hl''). rewrite (Hm1 _ _ _ _ _ E).
    exists (l ++ l''). rewrite <- app_assoc. split; [done|]. by apply Forall_app.
  - intros w' tr' [= _ <-]. by apply (Hm2 _ _ _ _ E).
Qed.
Lemma emits_when b m l : emit m l -> emit (when b m) (if b then l else []).
Proof. destruct b; [done|]. intros _. apply emits_ret. Qed.
Lemma emits_may_ret {A} a (x : A) : emit (_ <~ may a ;; retp x) [a].
Proof.
  split; intros w tr; unfold bindp, may, bind, act; cbn [fst snd]; destruct (perform a w) as [e w1].
  - by intros y w' tr' [= _ _ <-].
  - by intros w' tr' [= ].
Qed.
Lemma emits_migrations dsn : ~ bad (MigrateOpen dsn) -> ~ bad MigrateDriver -> ~ bad (MigrateNew "file://migrations") ->
  ~ bad MigrateUp -> emit (runMigrations dsn) [MigrateOpen dsn; MigrateDriver; MigrateNew "file://migrations"; MigrateUp].
Proof.
  intros H1 H2 H3 H4. unfold runMigrations.
  apply (emits_bind _ _ [_] [_; _; _]); [by apply emits_must|by repeat constructor|intros _].
  apply (emits_bind _ _ [_] [_; _]); [by apply emits_must|by repeat constructor|intros _].
  apply (emits_bind _ _ [_] [_]); [by apply emits_must|by repeat constructor|intros _].
  split; intros w tr; unfold bind, act; cbn [fst snd]; destruct (perform MigrateUp w) as [[e|] w1].
  - destruct (is_no_change e); [by intros x w' tr' [= _ _ <-]|by intros x w' tr' [= ]].
  - by intros x w' tr' [= _ _ <-].
  - destruct (is_no_change e); [by intros w' tr' [= ]|]. intros w' tr' [= _ <-]. exists [MigrateUp].
    split; [done|by constructor].
  - by intros w' tr' [= ].
Qed.
End main.

Section lifecycle.
Context `{!GoFmt}.

Definition start_actions (cfg : Config) : list action :=
  let pg := stc_Postgres (Storage cfg) in
  let rd := stc_Redis (Storage cfg) in
  let ch := stc_ClickHouse (Storage cfg) in
  [SetupTelemetry (main_telemetry cfg)] ++
  (if pgc_Enabled pg
   then [MigrateOpen (pgc_DSN pg); MigrateDriver; MigrateNew "file://migrations"; MigrateUp] ++ [OpenPostgres (pgc_DSN pg)]
   else []) ++
  (if rdc_Enabled rd then [OpenRedis (rdc_Addr rd) (rdc_Password rd) (rdc_DB rd)] else []) ++
  (if chc_Enabled ch then [OpenClickHouse ch] else []) ++
  [StartHub] ++
  (if rgc_Enabled (Registry cfg) then [FetchCatalog] ++ [StartRefresh (rgc_RefreshInterval (Registry cfg))] else []) ++
  (match main_binance cfg with Some url => [StartBinance url] | None => [] end) ++
  [StartSubscriptions (plc_MinInterval (Polling cfg))].
Definition stop_actions (a : App) : list action :=
  [ShutdownServer] ++ (if app_binance a then [CloseBinance] else []) ++ [StopHub] ++ [StopSubscriptions] ++
  [StopAlerts] ++ [ShutdownTelemetry] ++ (if app_postgres a then [ClosePostgres] else []) ++
  (if bool_decide (app_cache a = RedisCache) then [CloseRedis] else []) ++
  (if app_analytics a then [CloseClickHouse] else []).

(** Up to the connections, and the connections. *)
Definition stop_before (a : App) : list action :=
  [ShutdownServer] ++ (if app_binance a then [CloseBinance] else []) ++ [StopHub] ++ [StopSubscriptions] ++
  [StopAlerts] ++ [ShutdownTelemetry].
Definition stop_after (a : App) : list action :=
  (if app_postgres a then [ClosePostgres] else []) ++
  (if bool_decide (app_cache a = RedisCache) then [CloseRedis] else []) ++
  (if app_analytics a then [CloseClickHouse] else []).
Lemma stop_split a : stop_actions a = stop_before a ++ stop_after a.
Proof. unfold stop_actions, stop_before, stop_after. by rewrite <- !app_assoc. Qed.

Context {W : Type} `{!Process W}.
Definition serves (a : action) : Prop := exists addr, a = Listen addr.

Ltac emit_step := first
  [ apply emits_ret | apply emits_may_ret | apply emits_may
  | apply emits_must; by intros [? ?] | apply emits_when
  | apply emits_migrations; by intros [? ?]
  | apply emits_bind; [|repeat case_match; repeat constructor; first [by intros [? ?]|by intros []]|intros _] ].

Lemma main_with_emits cfg : emits serves (main_with cfg) (start_actions cfg).
Proof. unfold main_with, start_actions. repeat emit_step. destruct (main_binance cfg); emit_step. Qed.
Lemma main_stop_emits a : emits (fun _ => False) (main_stop a) (stop_actions a).
Proof. unfold main_stop, stop_actions. repeat emit_step. Qed.

Lemma main_serve_emits a : emits (fun _ => False) (main_serve a) [Listen (hs_Addr (app_server a))].
Proof. apply emits_must. tauto. Qed.

Lemma main_with_returns cfg s a s' : main_with cfg s = (Some a, s') -> a = main_app cfg.
Proof.
  assert (forall A B (m : PM (W * list action) A) (k : A -> PM (W * list action) B) (P : B -> Prop),
    (forall x s b s', k x s = (Some b, s') -> P b) -> forall s b s', bindp m k s = (Some b, s') -> P b) as Hb.
  { intros A B m k P Hk s0 b s1. unfold bindp, bind. destruct (m s0) as [[x|] s2]; [apply Hk|by intros [= ]]. }
  revert s a s'. unfold main_with. repeat (apply Hb; intros _). by intros s a s' [= <- _].
Qed.

Lemma main_stop_returns a s : exists s', main_stop a s = (Some tt, s').
Proof.
  assert (forall x s, exists s', may x s = (Some tt, s')) as Hmay.
  { intros x [w tr]. unfold may, act, bind. cbn [fst snd]. destruct (perform x w) as [e w1]. by eexists. }
  assert (forall b x s, exists s', when b (may x) s = (Some tt, s')) as Hwhen.
  { intros [] x s0; [apply Hmay|by exists s0]. }
  assert (forall (m : PM (W * list action) unit) (k : unit -> PM (W * list action) unit),
    (forall s, exists s', m s = (Some tt, s')) -> (forall s, exists s', k tt s = (Some tt, s')) ->
    forall s, exists s', bindp m k s = (Some tt, s')) as Hb.
  { intros m k Hm Hk s0. unfold bindp, bind. destruct (Hm s0) as [s1 ->]. apply Hk. }
  revert s. unfold main_stop. repeat (apply Hb; [auto|]). auto.
Qed.
End lifecycle.

Section properties.
Context `{!GoFmt} {W : Type} `{!Process W}.

(** What the process opens, and the action that releases it. *)
Inductive pairs : (action -> Prop) -> action -> Prop :=
  | pair_postgres : pairs (fun a => exists dsn, a = OpenPostgres dsn) ClosePostgres
  | pair_redis : pairs (fun a => exists addr pw db, a = OpenRedis addr pw db) CloseRedis
  | pair_clickhouse : pairs (fun a => exists c, a = OpenClickHouse c) CloseClickHouse
  | pair_binance : pairs (fun a => exists url, a = StartBinance url) CloseBinance.

Ltac list_member := repeat first [apply list_elem_of_here|apply list_elem_of_further].
Ltac not_member Hin :=
  repeat (apply elem_of_cons in Hin as [Hin|Hin]; [discriminate Hin|]); by apply not_elem_of_nil in Hin.
Lemma run_pairs cfg addr opens close : pairs opens close ->
  Exists opens ((start_actions cfg ++ [Listen addr]) ++ stop_actions (main_app cfg)) <->
  close ∈ (start_actions cfg ++ [Listen addr]) ++ stop_actions (main_app cfg).
Proof.
  unfold start_actions, stop_actions, main_app. cbn [app_binance app_postgres app_cache app_analytics]. unfold main_cache.
  intros Hp. rewrite Exists_exists.
  destruct (pgc_Enabled _), (rdc_Enabled _), (chc_Enabled _), (rgc_Enabled _), (main_binance cfg) as [url|];
    cbn; destruct Hp; (split;
    [ intros (x & Hin & Hx); repeat match type of Hx with ex _ => destruct Hx as [? Hx] end; subst x;
      first [solve [list_member]|not_member Hin]
    | intros Hin; first [solve [eexists; split; [|eauto]; list_member]|not_member Hin] ]).
Qed.

(** Nothing that stops a part of the process. *)
Definition closes (a : action) : Prop := exists opens, pairs opens a.
Lemma start_closes_nothing cfg : Forall (fun a => ~ closes a) (start_actions cfg).
Proof.
  unfold start_actions. repeat case_match; repeat constructor; intros [opens Hp]; inversion Hp.
Qed.

(** The calls that ask the writers, and the hub, to stop. *)
Definition stop_called (a : App) (tr : list action) : Prop :=
  ShutdownServer ∈ tr /\ (app_binance a = true -> CloseBinance ∈ tr) /\ StopHub ∈ tr /\
  StopSubscriptions ∈ tr /\ StopAlerts ∈ tr.

(** Once up. *)
Lemma lifecycle_up cfg (w : W) :
  match main_serve (main_app cfg) (w, [] ++ start_actions cfg) with
  | (None, (_, tr)) => Forall (fun a => ~ closes a) tr
  | (Some _, s) => exists w' pre post, main_stop (main_app cfg) s = (Some tt, (w', pre ++ post)) /\
      (forall opens close, pairs opens close -> (Exists opens (pre ++ post) <-> close ∈ pre ++ post)) /\
      stop_called (main_app cfg) pre /\
      Forall (fun a => a <> ClosePostgres /\ a <> CloseRedis /\ a <> CloseClickHouse) pre
  end.
Proof.
  rewrite app_nil_l. set (listen := Listen (hs_Addr (app_server (main_app cfg)))).
  unfold main_serve, must, bind, act. cbn [fst snd]. fold listen.
  destruct (perform listen w) as [[e|] w1]; cbn [fst snd].
  - apply Forall_app. split; [apply start_closes_nothing|]. constructor; [|done]. intros [? Hp]. inversion Hp.
  - unfold retp, ret. set (tr := start_actions cfg ++ [listen]).
    destruct (main_stop_returns (main_app cfg) (w1, tr)) as [[w2 tr2] Es].
    pose proof (em_some _ _ _ (main_stop_emits (main_app cfg)) _ _ _ _ _ Es) as ->.
    exists w2, (tr ++ stop_before (main_app cfg)), (stop_after (main_app cfg)).
    split; [by rewrite Es, stop_split, <- app_assoc|].
    split_and!; [|split_and!; [unfold stop_before; set_solver|intros Hb; unfold stop_before; rewrite Hb; set_solver|unfold stop_before; set_solver..]|].
    + intros opens close Hp. rewrite <- app_assoc, <- stop_split. by apply run_pairs.
    + unfold tr, start_actions, stop_before. repeat case_match; repeat constructor; done.
Qed.

(** C36. A process that does not come up never listened.  When the server fails
    the process ends with its connections open.  Otherwise it stops on a signal
    without exiting: it closes exactly the connections it opened, and the stores
    and the cache only after it has asked each part that writes to them to stop
    (the server, the Binance stream, the subscriptions, the alerts) and the hub.
    Those calls do not all wait: the shutdown of the server gives up after ten
    seconds, and nobody waits for the goroutine that drains the stream. *)
Theorem main_lifecycle loaded (w : W) :
  match main_start loaded (w, []) with
  | (None, (_, tr)) => forall addr, Listen addr ∉ tr
  | (Some a, s) =>
      match main_serve a s with
      | (None, (_, tr)) => Forall (fun a => ~ closes a) tr
      | (Some _, s) => exists w' pre post, main_stop a s = (Some tt, (w', pre ++ post)) /\
          (forall opens close, pairs opens close -> (Exists opens (pre ++ post) <-> close ∈ pre ++ post)) /\
          stop_called a pre /\
          Forall (fun a => a <> ClosePostgres /\ a <> CloseRedis /\ a <> CloseClickHouse) pre
      end
  end.
Proof.
  destruct loaded as [cfg0|e]; [|intros addr; apply not_elem_of_nil].
  simpl. destruct (Config_Validate cfg0) as [[e|] cfg] eqn:Ev; [intros addr; apply not_elem_of_nil|].
  destruct (main_with cfg (w, [])) as [[a|] [w1 tr]] eqn:E.
  - pose proof (em_some _ _ _ (main_with_emits cfg) _ _ _ _ _ E) as ->.
    pose proof (main_with_returns cfg _ _ _ E) as ->. apply lifecycle_up.
  - intros addr Hin. pose proof (em_none _ _ _ (main_with_emits cfg) _ _ _ _ E) as (l & -> & Hl).
    eapply Forall_forall in Hl; [|exact Hin]. apply Hl. by exists addr.
Qed.

(** With both databases enabled PostgreSQL is migrated and connected, and the
    prices go to ClickHouse. *)
Theorem postgres_unused cfg0 cfg (w w' : W) a tr : Config_Validate cfg0 = (None, cfg) ->
  pgc_Enabled (stc_Postgres (Storage cfg)) = true -> chc_Enabled (stc_ClickHouse (Storage cfg)) = true ->
  main_start (inl cfg0) (w, []) = (Some a, (w', tr)) ->
  app_store a = ClickHouseStore /\ OpenPostgres (pgc_DSN (stc_Postgres (Storage cfg))) ∈ tr.
Proof.
  intros Hv Hp Hc. unfold main_start. rewrite Hv. intros E.
  pose proof (em_some _ _ _ (main_with_emits cfg) _ _ _ _ _ E) as ->.
  pose proof (main_with_returns cfg _ _ _ E) as ->. split.
  - unfold main_app, main_store. cbn [app_store]. by rewrite Hc.
  - unfold start_actions. rewrite Hp. list_member.
Qed.
End properties.

(** ** Witness: everything enabled, in a world where everything succeeds *)
#[local] Instance willing : Process unit := { perform _ := ret None; is_no_change _ := false }.
Definition full_config : Config :=
  mkConfig (Server defaults) (Pricing defaults) (Polling defaults)
    (mkStorageConfig (mkPostgresConfig true "postgres://db/cpa" 10 2) (mkRedisConfig true "localhost:6379" "" 0)
       (mkClickHouseConfig true "localhost:9000" "cpa" "default" "" 1000 (5 * Second)))
    (Routing defaults)
    {["binance"%string := mkProviderConfig true "free" 1 0 "" "" "wss://stream.binance.com:9443/ws" (mkCBConfig 5 (30 * Second))]}
    (Registry defaults) (Telemetry defaults).

Lemma main_lifecycle_witness : exists w' pre post,
  main_stop (main_app full_config) (tt, start_actions full_config ++ [Listen "0.0.0.0:8080"]) =
    (Some tt, (w', pre ++ post)) /\ CloseBinance ∈ pre /\ CloseClickHouse ∈ pre ++ post.
Proof.
  pose proof (main_lifecycle (inl full_config) tt) as Hl.
  assert (main_start (inl full_config) (tt, []) = (Some (main_app full_config), (tt, start_actions full_config))) as E
    by (vm_compute; reflexivity).
  rewrite E in Hl. cbv beta iota in Hl.
  assert (main_serve (main_app full_config) (tt, start_actions full_config) =
    (Some tt, (tt, start_actions full_config ++ [Listen "0.0.0.0:8080"]))) as Es by (vm_compute; reflexivity).
  rewrite Es in Hl. cbv beta iota in Hl. destruct Hl as (w' & pre & post & Hs & Hp & Hc & _).
  exists w', pre, post. split; [exact Hs|]. split; [apply Hc; vm_compute; reflexivity|].
  apply (Hp _ _ pair_clickhouse). apply Exists_exists.
  assert (OpenClickHouse (stc_ClickHouse (Storage full_config)) ∈ pre ++ post) as Hin.
  { apply (f_equal (fun x => x.2.2)) in Hs. cbn [snd] in Hs. rewrite <- Hs. apply list_elem_of_In. vm_compute.
    repeat first [left; reflexivity|right]. }
  eexists. split; [exact Hin|]. by eexists.
Defined.
