(* ===== verification/Wiring.v ===== *)
(** * cmd/server: wiring.go and the service construction of main.go

    How a configuration becomes a router and a price service, and what of the
    configuration's checks the services' theorems then need. *)
From S2P Require Import Prelude GoLib GoStrings Decimal Model CircuitBreaker RateLimit.
From S2P Require Import ProviderState Strategies MultiRouter Registry Ports World Demo Validator.
From S2P Require Import GoJSON Consensus PriceService Poller Config.
From S2P Require Hub Alerts MemCache MemStore Exchange.
From S2P Require Import Adapters.
Open Scope Z_scope.

(** ** buildStrategy: a value of the interface [Strategy] *)
Inductive AnyStrategy :=
  | APriority (s : PriorityStrategy)
  | ARoundRobin (s : RoundRobinStrategy)
  | ASmart (s : SmartStrategy).

Section strategy.
Context {O : DecimalOps} {P : Type} `{!SortSlice}.

Definition with_strategy {S A} (wrap : S -> AnyStrategy)
    (m : M (S * (list (ProviderState P) * Clock)) A) (s : S) :
    list (ProviderState P) * Clock -> A * (AnyStrategy * (list (ProviderState P) * Clock)) :=
  fun w => let '(a, (s', w')) := m (s, w) in (a, (wrap s', w')).

#[export] Instance Any_ops : StrategyOps (P := P) AnyStrategy := {
  strat_Select l := fun '(s, w) =>
    match s with
    | APriority s => with_strategy APriority (strat_Select l) s w
    | ARoundRobin s => with_strategy ARoundRobin (strat_Select l) s w
    | ASmart s => with_strategy ASmart (strat_Select l) s w
    end;
  strat_allowPaid s :=
    match s with
    | APriority s => strat_allowPaid (P := P) s
    | ARoundRobin s => strat_allowPaid (P := P) s
    | ASmart s => strat_allowPaid (P := P) s
    end }.

Ltac any_case := match goal with
  | |- context [strat_Select ?l (?wrap ?s, ?w)] =>
      change (strat_Select l (wrap s, w)) with (with_strategy wrap (strat_Select l) s w);
      unfold with_strategy; destruct (strat_Select l (s, w)) as [a [s1 w1]] eqn:E
  end.

#[export] Instance Any_laws : StrategyLaws (P := P) AnyStrategy.
Proof.
  split.
  - intros l [[s|s|s] w]; pose proof (strat_frame (P := P) l (s, w)) as Hf;
      any_case; exact Hf.
  - intros l [[s|s|s] w] i s' Hnd Hwf; any_case; intros [= -> <-];
      exact (strat_sound l (s, w) i (s1, w1) Hnd Hwf E).
  - intros l [[s|s|s] w] r s'; any_case; intros [= -> <-];
      exact (strat_error l (s, w) r (s1, w1) E).
Qed.
End strategy.

Definition buildStrategy (rcfg : RoutingConfig) : AnyStrategy :=
  if bool_decide (rc_Strategy rcfg = "priority"%string) then APriority (NewPriorityStrategy (rc_AllowPaid rcfg))
  else if bool_decide (rc_Strategy rcfg = "roundrobin"%string)
  then ARoundRobin (NewRoundRobinStrategy (rc_AllowPaid rcfg))
  else ASmart (NewSmartStrategy (mkWeights (wc_RateRemaining (rc_Weights rcfg))
         (wc_Latency (rc_Weights rcfg)) (wc_Cost (rc_Weights rcfg))) (rc_AllowPaid rcfg)).

Section wiring.
Context {O : DecimalOps} `{!SortSlice} `{!MapRange} `{!GoFmt} `{!Unicode} `{!Alerts.NetParse}.
Context `{!GoJSON} `{!GoParse}.

(** ** buildProviderRegistrations *)
Definition registration (provider : Adapter) (pcfg : ProviderConfig) : ProviderRegistration (P := Adapter) :=
  let cb := pvc_CircuitBreaker pcfg in
  mkReg provider
    (if bool_decide (pvc_Tier pcfg = "paid"%string) then TierPaid else TierFree)
    (pvc_Priority pcfg) (pvc_RateLimit pcfg) Minute
    (if cbc_FailureThreshold cb <=? 0 then 5 else cbc_FailureThreshold cb)
    (if cbc_RecoveryTimeout cb <=? 0 then 60 * Second else cbc_RecoveryTimeout cb)
    dec_Zero.
Definition buildProviderRegistrations (cfg : Config) : list ProviderRegistration :=
  omap (fun '(name, pcfg) =>
    if pvc_Enabled pcfg
    then provider ← createProvider name pcfg; Some (registration provider pcfg) else None)
    (map_range (Providers cfg)).

(** ** The listener and the services of main.go *)
Definition multiListener_OnPriceUpdate (drop : bool) (price : Price)
    (s : Hub.Hub * Alerts.AlertService) : Hub.Hub * Alerts.AlertService :=
  (Hub.Hub_OnPriceUpdate drop price s.1, Alerts.OnPriceUpdate price s.2).

Definition main_validator (cfg : Config) : PriceValidator :=
  let v := pc_Validation (Pricing cfg) in
  NewPriceValidator (mkPVConfig (vc_Enabled v) (vc_MaxStaleness v) (vc_MaxDeviationPercent v)
    (vc_StablecoinDeviation v) (vc_MajorCoinDeviation v) (vc_AltcoinDeviation v)).
Definition main_consensus (cfg : Config) : ConsensusEngine :=
  let v := pc_Validation (Pricing cfg) in
  NewConsensusEngine (mkCConfig (bool_decide (vc_ResponseMode v = "consensus"%string))
    (vc_ConsensusMinProviders v) (vc_MaxDeviationPercent v) (vc_ConsensusTimeout v)).
(** The base URL the registry and the token provider share, and the chains. *)
Definition main_cgBaseURL (cfg : Config) : string :=
  match Providers cfg !! "coingecko"%string with
  | Some p => if bool_decide (pvc_BaseURL p = ""%string) then "https://api.coingecko.com" else pvc_BaseURL p
  | None => "https://api.coingecko.com"
  end.
Definition main_chains (cfg : Config) : gmap string bool :=
  fold_left (fun m c => <[c := true]> m) (rgc_Chains (Registry cfg)) ∅.
Definition main_tokenProviders (cfg : Config) : list TokenAdapter :=
  if rgc_Enabled (Registry cfg) then
    GeckoToken (main_cgBaseURL cfg) ::
    match Providers cfg !! "dexscreener"%string with
    | Some p => if bool_decide (pvc_BaseURL p = ""%string) then [] else [DexToken (pvc_BaseURL p)]
    | None => []
    end
  else [].
Definition main_deps (cfg : Config) : PriceServiceDeps (T := TokenAdapter) :=
  let v := pc_Validation (Pricing cfg) in
  mkDeps true true (pc_CacheTTL (Pricing cfg)) (pc_MaxRetries (Pricing cfg)) true
    (Some (main_validator cfg)) (Some (NewOutlierDetector (vc_MaxDeviationPercent v)))
    (Some (main_consensus cfg)) (vc_ResponseMode v) (rgc_Enabled (Registry cfg))
    (main_tokenProviders cfg).
Definition main_router (cfg : Config) (c : Clock) : MultiRouter (P := Adapter) (St := AnyStrategy) * Clock :=
  NewMultiRouter ad_name (buildStrategy (Routing cfg)) (buildProviderRegistrations cfg) c.

(** A turn of the loop over the prices of the Binance stream, whatever cache
    and store the configuration chose; their errors are ignored. *)
Definition main_stream_turn {W} `{!CacheOps W} `{!PriceStore W} (ttl : Duration) (drop : bool) (price : Price) :
    M (W * Hub.Hub) unit := fun '(w, h) =>
  let '(_, w) := cache_Set price ttl w in
  let '(_, w) := ps_Save price w in
  (tt, (w, Hub.Hub_OnPriceUpdate drop price h)).

Definition registered_ok (reg : ProviderRegistration (P := Adapter)) : Prop :=
  ad_name (reg_Provider reg) ∈ known_providers /\
  0 < reg_CBThreshold reg /\ 0 < reg_CBTimeout reg /\ reg_RateWindow reg = Minute.

Lemma registration_ok name pcfg a : createProvider name pcfg = Some a ->
  ad_name a = name /\ registered_ok (registration a pcfg).
Proof.
  unfold createProvider. destruct (adapter_of name) as [i|] eqn:Ei; [|done]. intros [= <-]. split; [done|].
  split; [by apply adapter_of_known; eexists|]. simpl. split_and!; [| |done]; case_match; to_prop; (lia || done).
Qed.
End wiring.

Section properties.
Context {O : DecimalOps} `{!SortSlice} `{!MapRange} `{!GoFmt} `{!Unicode} `{!GoJSON} `{!GoParse}.

(** The registrations are those of the enabled providers whose name is
    known, one per name, in whatever order the map of the configuration is
    visited; every one gets a positive breaker threshold and recovery time. *)
Theorem registrations_spec (cfg : Config) :
  Forall registered_ok (buildProviderRegistrations cfg) /\
  NoDup ((fun reg => ad_name (reg_Provider reg)) <$> buildProviderRegistrations cfg) /\
  (forall name, (exists reg, reg ∈ buildProviderRegistrations cfg /\ ad_name (reg_Provider reg) = name) <->
     exists pcfg, Providers cfg !! name = Some pcfg /\ pvc_Enabled pcfg = true /\
       name ∈ known_providers).
Proof.
  unfold buildProviderRegistrations.
  set (f := fun '(name, pcfg) => if pvc_Enabled pcfg
    then provider ← createProvider name pcfg; Some (registration provider pcfg) else None).
  assert (forall name pcfg reg, f (name, pcfg) = Some reg ->
    pvc_Enabled pcfg = true /\ ad_name (reg_Provider reg) = name /\ registered_ok reg) as Hf.
  { intros name pcfg reg. unfold f. destruct (pvc_Enabled pcfg); [|done].
    destruct (createProvider name pcfg) as [a|] eqn:E; [|done]. intros [= <-].
    apply registration_ok in E as [? ?]. done. }
  split_and!.
  - apply Forall_forall. intros reg ([name pcfg] & _ & Hr)%list_elem_of_omap. by apply Hf in Hr as (_ & _ & ?).
  - pose proof (NoDup_map_range_fst (Providers cfg)) as Hnd.
    induction (map_range (Providers cfg)) as [|[name pcfg] l IH]; [constructor|].
    cbn [fmap list_fmap fst] in Hnd. apply NoDup_cons in Hnd as [Hni Hnd]. cbn [omap list_omap].
    destruct (f (name, pcfg)) as [reg|] eqn:E; [|by apply IH]. apply Hf in E as (_ & Hname & _).
    cbn [fmap list_fmap]. apply NoDup_cons. split; [|by apply IH]. rewrite Hname.
    intros (reg' & Heq & ([name' pcfg'] & Hin & E')%list_elem_of_omap)%list_elem_of_fmap.
    apply Hf in E' as (_ & Hname' & _). apply Hni, list_elem_of_fmap. exists (name', pcfg').
    split; [simpl; congruence|done].
  - intros name. setoid_rewrite list_elem_of_omap. split.
    + intros (reg & ([name' pcfg] & Hin & Hr) & <-). exists pcfg.
      apply Hf in Hr as (He & <- & Hok & _). apply elem_of_map_range in Hin. done.
    + intros (pcfg & Hp & He & Hn). apply elem_of_map_range in Hp.
      apply adapter_of_known in Hn as [i Hi].
      destruct (createProvider name pcfg) as [a|] eqn:E; [|unfold createProvider in E; by rewrite Hi in E].
      exists (registration a pcfg). split; [exists (name, pcfg); split; [done|]; unfold f; by rewrite He, E|].
      by apply registration_ok in E as [? _].
Qed.

Context {L : DecimalLaws O} {W : Type} `{!ClockOps W} `{!Scheduler W}.
Context `{!Exchange.HTTPClient W} `{!AdapterStates W}.
Context `{PR : !ProviderRouter W Adapter} `{CO : !CacheOps W} `{PS : !PriceStore W}
  `{RG : !RegistryOps W} `{RL : !RouterLaws W Adapter}.

(** The thresholds of the file are numbers. *)
Definition finite_file (cfg : Config) : Prop :=
  let v := pc_Validation (Pricing cfg) in
  float_finite (vc_MaxDeviationPercent v) = true /\ float_finite (vc_StablecoinDeviation v) = true /\
  float_finite (vc_MajorCoinDeviation v) = true /\ float_finite (vc_AltcoinDeviation v) = true.

Lemma main_finite now cfg : finite_file cfg ->
  finite_service (NewPriceService now (main_deps cfg)).
Proof. intros (?&?&?&?). split; intros x; simpl; intros; simplify_eq/=; done. Qed.

(** A price that one of the adapters answered. *)
Definition from_adapter (coinID currency : string) (p : Price) : Prop :=
  exists name, name ∈ known_providers /\ Exchange.priced name coinID currency p.
Lemma answered_from_adapter coinID currency p :
  answered (P := Adapter) (W := W) coinID currency p -> from_adapter coinID currency p.
Proof. intros (a & w & w' & Hp). apply port_priced in Hp as [Hk Hp]. by exists (ad_name a). Qed.

(** The price service built from any configuration file with numeric
    thresholds, with the adapters that answer over HTTP behind it, serves every
    request with a price or an error, unless coincodex panics on a number that
    is not finite.  Outside of consensus
    mode a price is the cache's, the store's, or one that validates and that
    one of the forty adapters answered, under the coin and currency asked for
    and the adapter's name; a consensus price is made of such answers. *)
Theorem main_service_serves now cfg coinID currency (st : svc (W := W)) : finite_file cfg ->
  let s := NewPriceService now (main_deps cfg) in
  match GetPrice s coinID currency st with
  | (Some (Some p, None), _) =>
      (exists w w', cache_Get (W := W) coinID currency w = ((Some p, None), w')) \/
      (from_adapter coinID currency p /\ validated s p) \/
      (exists w e w', ps_GetLatest (W := W) coinID currency w = ((Some p, e), w')) \/
      (vc_ResponseMode (pc_Validation (Pricing cfg)) = "consensus"%string /\
       exists t cr, p = consensusPrice coinID currency t cr /\ cr_Prices cr <> [] /\
         median (cr_Prices cr) = Some (cr_MedianPrice cr) /\ Forall (from_adapter coinID currency) (cr_Prices cr))
  | (Some (None, Some _), _) => True
  | (Some _, _) => False
  | (None, _) => ~ Aggregators.parse_finite
  end.
Proof.
  intros Hf s. pose proof (GetPrice_runs now (main_deps cfg) coinID currency st (main_finite now cfg Hf)) as Hr.
  unfold runs_unless in Hr. fold s in Hr.
  destruct (GetPrice s coinID currency st) as [[[[p|] [e|]]|] st']; try done; try by destruct Hr as (_ & _ & Hr).
  2:{ destruct Hr as (a & w & w' & Hp). by apply port_panics in Hp as [_ ?]. }
  destruct Hr as (_ & _ & Hres).
  destruct Hres as [p w w' _ Hc|t cr Hmode Hall Hne Hmed _|p Ha Hv|p w e w' _ Hst]; eauto 10 using answered_from_adapter.
  do 3 right. split; [exact Hmode|]. exists t, cr. split_and!; [done..|].
  eapply Forall_impl; [exact Hall|]. intros q. apply answered_from_adapter.
Qed.
End properties.

(** ** The program's world

    The router, cache, store and registry of [World], the health of the
    adapters, and a server that answers requests. *)
Section live.
Context {O : DecimalOps} `{!SortSlice} `{!MapRange} `{!GoFmt} `{!Unicode} `{!GoJSON} `{!GoParse}.
Variable server : Exchange.request -> Time -> Exchange.http_result.
Notation base := (World.world Adapter AnyStrategy).
Record live := mkLive { lv_world : base; lv_health : gmap string (Exchange.prov unit) }.
Definition on_base {A} (m : M base A) : M live A := fun l =>
  let '(a, w) := m (lv_world l) in (a, mkLive w (lv_health l)).

#[export] Instance live_clock : ClockOps live := { w_Now := on_base w_Now }.
#[export] Instance live_sched : Scheduler live := { sch_pick n := on_base (sch_pick n) }.
#[export] Instance live_router : ProviderRouter live Adapter := {
  rt_Select coin := on_base (rt_Select coin);
  rt_ReportSuccess name latency := on_base (rt_ReportSuccess name latency);
  rt_ReportFailure name e := on_base (rt_ReportFailure name e) }.
#[export] Instance live_cache : CacheOps live := {
  cache_Get coin cur := on_base (cache_Get coin cur);
  cache_Set p ttl := on_base (cache_Set p ttl);
  cache_Delete coin cur := on_base (cache_Delete coin cur) }.
#[export] Instance live_store : PriceStore live := {
  ps_Save p := on_base (ps_Save p);
  ps_SaveBatch ps := on_base (ps_SaveBatch ps);
  ps_GetLatest coin cur := on_base (ps_GetLatest coin cur);
  ps_GetHistory coin cur from to := on_base (ps_GetHistory coin cur from to);
  ps_GetOHLC coin cur from to i := on_base (ps_GetOHLC coin cur from to i) }.
#[export] Instance live_registry : RegistryOps live := {
  rg_Resolve chain addr := on_base (rg_Resolve chain addr);
  rg_Add chain addr coin := on_base (rg_Add chain addr coin) }.
#[export] Instance live_http : Exchange.HTTPClient live := {
  Exchange.http_Do rq := t <- w_Now ;; ret (server rq t) }.
#[export] Instance live_states : AdapterStates live := {
  ad_get name l := default (Exchange.New tt) (lv_health l !! name);
  ad_set name h l := mkLive (lv_world l) (<[name := h]> (lv_health l)) }.

(** The statuses of the admin API, each adapter's own under the router's. *)
#[export] Instance live_statuses : ProviderStatusGetter live := {
  sg_ProviderStatuses l := on_base (sg_ProviderStatuses
    (ProviderStatusGetter := world_statuses (fun a => adapter_Status a (ad_get (ad_name a) l)))) l }.
#[export] Instance live_states_laws : AdapterStatesLaws live.
Proof.
  split; simpl; intros.
  - by rewrite lookup_insert_eq.
  - by rewrite lookup_insert_ne.
  - unfold bind, on_base. simpl. by destruct (w_tick (lv_world w)).
  - unfold on_base. by destruct (w_tick (lv_world w)).
Qed.
#[export] Instance live_router_laws : RouterLaws live Adapter.
Proof.
  split. intros coin [w h]. cbn [rt_Select live_router]. unfold on_base. cbn [lv_world].
  destruct (rt_Select_shape (W := base) (P := Adapter) coin w) as [[p Hp]|Hp];
    destruct (rt_Select coin w) as [r w'] eqn:E; rewrite ?E in Hp; simpl in *; subst; eauto.
Qed.
End live.

(** ** Prices by contract address, through the registry

    A token provider names its price by the address, and [GetPriceByAddress]
    registers the contract under that name. *)
Section addresses.
Context {O : DecimalOps} {L : DecimalLaws O} `{!SortSlice} `{!MapRange} `{!GoFmt} `{!Unicode} `{!GoJSON} `{!GoParse}.
Variable server : Exchange.request -> Time -> Exchange.http_result.
#[local] Instance this_http : Exchange.HTTPClient live := live_http server.
Definition live_registry_of (l : live) : TokenRegistry := w_registry (lv_world l).
(** Only the clock, the scheduler and the health of the adapters move. *)
Definition parts (l : live) := (w_router (lv_world l), w_cache (lv_world l), w_store (lv_world l), live_registry_of l).
Definition stays (l l' : live) : Prop := parts l' = parts l.
#[export] Instance stays_preorder : PreOrder stays.
Proof. split; [done|]. intros l1 l2 l3 Ha Hb. unfold stays in *. congruence. Qed.

Lemma now_stays : keeps stays w_Now.
Proof. intros [w h]. unfold stays, parts, live_registry_of. simpl. unfold on_base. simpl. by destruct (w_tick w) eqn:E; injection E as _ <-. Qed.
Lemma http_stays rq : keeps stays (Exchange.http_Do rq).
Proof. apply keeps_bind; [apply _|apply now_stays|intros t; apply keeps_ret, _]. Qed.
Ltac same := repeat first
  [ apply now_stays | apply http_stays | apply (keeps_ret stays)
  | apply (keeps_bind stays); [|intros ?] | case_match ].
Lemma token_stays (t : TokenAdapter) chain address currency : keeps stays (tp_GetPriceByAddress (W := live) t chain address currency).
Proof.
  destruct t; cbn [tp_GetPriceByAddress token_port token_GetPriceByAddress];
    unfold Providers.gecko_GetPriceByAddress, Providers.dex_GetPriceByAddress, Providers.token_fetch, retp, bindp, of_option; same.
Qed.
Lemma price_stays (a : Adapter) coin currency : keeps stays (pp_GetPrice (W := live) a coin currency).
Proof.
  intros l. cbn [pp_GetPrice adapter_port]. unfold run_adapter. destruct (adapter_of (ad_name a)) as [i|]; [|done].
  pose proof (keeps_impl stays http_stays now_stays i (ad_cfg a) coin currency (ad_enter (ad_name a) l)) as Hk.
  destruct (impl_GetPrice _ _ _ _ _) as [o s]. exact Hk.
Qed.

Notation registry_of st := (live_registry_of (PriceService.world st)).
(** What asking the token providers does to the registry. *)
Lemma ask_registers (s : PriceService) chain address currency : s_registry s = true ->
  forall (tps : list TokenAdapter) st r st', Resolve chain address (registry_of st) = None ->
  ask_token_providers s tps chain address currency st = (Some (Some r, None), st') ->
  Resolve chain address (registry_of st') = Some (ToLower address) /\
  exists p, r = mkAddressPrice (Some p) "direct" /\ CoinID p = ToLower address.
Proof.
  intros Hs. induction tps as [|t tps IH]; intros st r st' Hno; [done|]. cbn [ask_token_providers].
  destruct (tp_SupportsChain t chain); [|by apply IH]. unfold bindp, bind at 1, on_world at 1.
  destruct (token_runs t chain address currency (PriceService.world st)) as (a & w' & Ha & Hp).
  pose proof (token_stays t chain address currency (PriceService.world st)) as Hsame. rewrite Ha in Hsame |- *.
  assert (live_registry_of w' = live_registry_of (PriceService.world st)) as Hreg by (by injection Hsame).
  clear Hsame. rename Hreg into Hsame.
  destruct a as [p|e]; [|apply IH; simpl; by rewrite Hsame].
  unfold when_dep. rewrite Hs. unfold bind, on_world, ret. simpl.
  intros [= <- <-]. cbn. unfold live_registry_of in *. cbn. rewrite Hsame.
  specialize (Hp p eq_refl). split; [|by exists p]. unfold Resolve, Add in *. rewrite Hno.
  unfold put_contract. cbn. by rewrite lookup_insert_eq, Hp.
Qed.

(** C28. A contract the registry does not know is priced by a token provider once:
    its address is then registered as its coin, and every later lookup asks
    the price service for a coin of that name. *)
Theorem address_priced_once now cfg chain address currency st r st' : rgc_Enabled (Registry cfg) = true ->
  let s := NewPriceService now (main_deps cfg) in
  let coin := ToLower (ToLower address) in
  Resolve (ToLower chain) (ToLower address) (registry_of st) = None ->
  GetPriceByAddress s chain address currency st = (Some (Some r, None), st') ->
  (exists p, r = mkAddressPrice (Some p) "direct" /\ CoinID p = coin) /\
  forall currency', GetPriceByAddress s chain address currency' st' =
    (answer <~ GetPrice s coin currency' ;;
     match answer with (_, Some e) => retp (err e) | (price, None) => retp (ok (mkAddressPrice price "registry")) end) st'.
Proof.
  intros He s coin Hno. assert (s_registry s = true) as Hs by exact He.
  unfold GetPriceByAddress at 1. rewrite Hs. unfold bind at 1, on_world at 1. cbn [rg_Resolve live_registry].
  unfold on_base at 1. cbn [rg_Resolve world_registry].
  unfold live_registry_of in Hno. rewrite Hno. destruct st as [w n1 n2 ms ts cr]. cbn [PriceService.world] in *.
  intros E. apply ask_registers in E as [Hreg Hp]; [|done|exact Hno]. split; [exact Hp|]. intros currency'.
  unfold GetPriceByAddress. rewrite Hs. rewrite bind_unfold. unfold on_world. cbn [rg_Resolve live_registry].
  unfold on_base. cbn [rg_Resolve world_registry fst snd].
  unfold live_registry_of in Hreg. rewrite Hreg. by destruct st' as [[w' h'] n1' n2' ms' ts' cr'].
Qed.
End addresses.

(** ** Witness: the default file, with a server that knows one price *)
#[local] Existing Instance plain_GoJSON.
#[local] Instance demo_GoParse : GoParse := {
  time_ParseRFC3339 _ := None; time_ParseDuration _ := None; strconv_ParseFloat _ := None }.
Definition demo_server (rq : Exchange.request) (now : Time) : Exchange.http_result :=
  Exchange.HResponse 200 (Some (VObj [("data", VObj [("priceUsd", VStr "100")])]%string)).
Definition main_world (cfg : Config) : World.world Adapter AnyStrategy :=
  mkWorld (fst (main_router cfg demo_clock)) demo_clock MemCache.NewCache MemStore.NewStore New [].
#[local] Instance demo_live_http : Exchange.HTTPClient live := live_http demo_server.
Definition main_live : live := mkLive (main_world defaults) ∅.

Lemma main_service_serves_witness : exists r st',
  GetPrice (NewPriceService 0 (main_deps defaults)) "bitcoin" "usd"
    (mkSvc main_live 0 0 [] [] false) = (Some r, st').
Proof.
  assert (finite_file defaults) as Hf by (repeat split).
  pose proof (main_service_serves 0 defaults "bitcoin" "usd" (mkSvc main_live 0 0 [] [] false) Hf) as Hs.
  cbv zeta in Hs. destruct (GetPrice _ _ _ _) as [[r|] st'].
  - exists r, st'. reflexivity.
  - exfalso. apply Hs. intros x f Hx. discriminate Hx.
Defined.


(** ** Witness: a token asked for twice, with one provider that knows no such coin *)
Definition token_server (rq : Exchange.request) (now : Time) : Exchange.http_result :=
  if String.prefix "https://api.coingecko.com/api/v3/simple/token_price/" (Exchange.rq_url rq)
  then Exchange.HResponse 200 (Some (VObj [("0xab", VObj [("usd", VNum "7")])]%string))
  else Exchange.HResponse 404 None.
Definition token_cfg : Config := mkConfig (Server defaults) (Pricing defaults) (Polling defaults) (Storage defaults)
  (Routing defaults) {["coincap"%string := mkProviderConfig true "free" 1 60 "" "https://api.coincap.io" "" (mkCBConfig 5 Minute)]}
  (Registry defaults) (Telemetry defaults).
Section token_witness.
#[local] Instance token_http : Exchange.HTTPClient live := live_http token_server.
Definition token_start : svc := mkSvc (mkLive (main_world token_cfg) ∅) 0 0 [] [] false.
Definition token_asked : option (result AddressPriceResult) * svc :=
  GetPriceByAddress (NewPriceService 0 (main_deps token_cfg)) "ethereum" "0xAB" "usd" token_start.
Definition asked_via (o : option (result AddressPriceResult)) : option string :=
  match o with Some (Some r, None) => Some (ap_ResolvedVia r) | _ => None end.

Lemma address_priced_once_witness : asked_via (fst token_asked) = Some "direct"%string /\
  asked_via (fst (GetPriceByAddress (NewPriceService 0 (main_deps token_cfg)) "ethereum" "0xAB" "usd" (snd token_asked))) = None.
Proof.
  destruct token_asked as [[[[r|] [e|]]|] st'] eqn:E;
    try (apply (f_equal (fun x => asked_via x.1)) in E; vm_compute in E; discriminate E).
  destruct (address_priced_once token_server 0 token_cfg "ethereum" "0xAB" "usd" token_start r st' eq_refl eq_refl E)
    as [(p & -> & _) Hagain].
  split; [reflexivity|]. cbn [snd].
  refine (eq_trans (f_equal (fun x => asked_via x.1) (Hagain "usd"%string)) _).
  replace st' with (snd token_asked) by (by rewrite E). vm_compute. reflexivity.
Defined.
End token_witness.
