(* ===== verification/System.v ===== *)
(** * The program as a whole

    The goroutines of cmd/server/main.go at work together: requests of the HTTP
    handlers and of the poller, prices saved in the background, the price
    stream, the refresh of the registry, the WebSocket hub and the alerts, over
    the world of [Wiring].  A state is reached by any interleaving of their
    steps; the theorems say where every price comes from that the program
    stores, pushes or answers. *)
From S2P Require Import Prelude GoLib GoStrings Decimal Model ProviderState Strategies MultiRouter.
From S2P Require Import Registry Ports World Demo Validator GoJSON Consensus PriceService Config Adapters Wiring.
From S2P Require Import Provenance Interleave Causality.
From S2P Require Hub Alerts MemCache MemStore Exchange Binance Catalog.
Open Scope Z_scope.

Section live.
Context {O : DecimalOps} {L : DecimalLaws O} `{!SortSlice} `{!MapRange} `{!GoFmt} `{!Unicode} `{!GoJSON} `{!GoParse}.
Variable server : Exchange.request -> Time -> Exchange.http_result.
#[local] Instance system_http : Exchange.HTTPClient live := live_http server.

(** ** What the ports answer

    A price is served when one of the registered adapters answers it, in some
    state, with what [server] sends; a token price likewise. *)
Variable registered : list Adapter.
Definition served (coin cur : string) (p : Price) : Prop :=
  exists (a : Adapter) (w w' : live), a ∈ registered /\ pp_GetPrice a coin cur w = (Some (inl p), w').
Definition token_served (p : Price) : Prop :=
  exists (t : TokenAdapter) chain address cur (w w' : live), tp_GetPriceByAddress t chain address cur w = (Some (inl p), w').
Variables accepted streamed : Price -> Prop.
Notation traced := (traced served accepted streamed).

Definition cache_traced (c : MemCache.Cache) : Prop :=
  forall k e, MemCache.entries c !! k = Some e ->
    traced (MemCache.ce_price e) /\ MemCache.cacheKey (CoinID (MemCache.ce_price e)) (Currency (MemCache.ce_price e)) = k.
Definition store_traced (st : MemStore.Store) : Prop :=
  forall k ps, MemStore.prices st !! k = Some ps ->
    Forall (fun p => traced p /\ MemStore.storeKey (CoinID p) (Currency p) = k) ps.
Definition clean (l : live) : Prop :=
  router_from (fun a => a ∈ registered) (w_router (lv_world l)) /\
  cache_traced (w_cache (lv_world l)) /\ store_traced (w_store (lv_world l)).

Lemma clean_stays l l' : stays l l' -> clean l -> clean l'.
Proof. intros [= Hr Hc Hs _]. unfold clean. by rewrite Hr, Hc, Hs. Qed.
Lemma stays_maintains {A} (m : M live A) (Q : A -> Prop) :
  keeps stays m -> (forall l, Q (fst (m l))) -> maintains clean m Q.
Proof. intros Hm HQ l Hl. split; [by eapply clean_stays; [apply Hm|]|done]. Qed.

Lemma cache_traced_get now coin cur c p : cache_traced c ->
  (MemCache.Cache_Get now coin cur c).1 = Some p -> found_price served accepted streamed coin cur p.
Proof.
  intros Hc. unfold MemCache.Cache_Get. destruct (_ !! _) as [e|] eqn:E; [|done].
  destruct (time_After _ _); [done|]. intros [= <-]. by apply Hc in E.
Qed.
Lemma cache_traced_set now p ttl c : traced p -> cache_traced c -> cache_traced (MemCache.Cache_Set now p ttl c).
Proof.
  intros Hp Hc k e. simpl. rewrite lookup_insert. case_decide; [|apply Hc]. intros; simplify_eq/=. by split.
Qed.
Lemma store_traced_save p st : traced p -> store_traced st -> store_traced (MemStore.Save p st).
Proof.
  intros Hp Hs k ps. simpl. rewrite lookup_insert. case_decide as Hk; [|apply Hs]. intros; simplify_eq/=.
  apply Forall_snoc. split; [|done]. destruct (_ !! _) as [qs|] eqn:E; simpl; [|constructor]. by apply Hs in E.
Qed.
Lemma store_traced_latest coin cur st p : store_traced st ->
  MemStore.GetLatest coin cur st = Some p -> found_price served accepted streamed coin cur p.
Proof.
  intros Hs. unfold MemStore.GetLatest, MemStore.store_entries.
  destruct (_ !! _) as [ps|] eqn:E; simpl; [|done]. apply Hs in E.
  destruct E as [|q qs Hq Hqs]; [done|]. intros [= <-].
  apply (fold_left_ind (fun q => traced q /\ MemStore.storeKey (CoinID q) (Currency q) = MemStore.storeKey coin cur)); [done|].
  intros b x Hx Hb. unfold MemStore.later_price. destruct (time_After _ _); [|done]. by eapply Forall_forall in Hqs.
Qed.

(** One of the registered adapters may panic. *)
Definition one_may_panic : Prop := exists a, a ∈ registered /\ may_panic (ad_name a).
#[export] Instance live_traceable : Traceable clean (fun a => a ∈ registered) served token_served accepted streamed
  one_may_panic (P := Adapter) (T := TokenAdapter).
Proof.
  split.
  - intros coin cur p (a & w & w' & _ & Hp). apply port_priced in Hp as [_ (Hc & Hcur & _)]. done.
  - apply stays_maintains; [apply now_stays|done].
  - intros n. apply stays_maintains; [|done]. intros [w h]. unfold stays, parts, live_registry_of. simpl. unfold on_base. simpl.
    by destruct (w_sched w).
  - intros coin [w h] (Hr & Hc & Hs). simpl. unfold on_base. simpl. unfold on_router.
    pose proof (Select_from (fun a => a ∈ registered) (w_router w) (w_clock w) Hr) as [Hr' Ha].
    pose proof (rt_Select_shape (P := Adapter) coin w) as Hshape. simpl in Hshape. unfold on_router in Hshape.
    destruct (Select (w_router w, w_clock w)) as [res [r c]]. simpl in *. split; [by split|].
    destruct Hshape as [[p ->]| ->]; [by apply Ha|done].
  - intros name d [w h] (Hr & Hc & Hs). split; [|done]. split; [|done]. simpl. by apply with_provider_from.
  - intros name e [w h] (Hr & Hc & Hs). split; [|done]. simpl. unfold on_base, on_router. simpl.
    split; [|done]. by apply with_provider_from.
  - intros a coin cur Ha l Hl. split; [by eapply clean_stays; [apply price_stays|]|].
    destruct (pp_GetPrice a coin cur l) as [[[q|e]|] l'] eqn:E; [|done|].
    + by exists a, l, l'.
    + exists a. split; [done|]. by eapply port_panics.
  - intros coin cur l Hl. destruct l as [w h]. cbn [cache_Get live_cache]. unfold on_base. cbn [lv_world cache_Get world_cache].
    unfold bind. destruct (w_tick w) as [t w1] eqn:Et. injection Et as _ <-. cbn.
    split; [exact Hl|]. destruct Hl as (_ & Hc & _). unfold price_answer.
    destruct (MemCache.Cache_Get _ _ _ _).1 eqn:E; [|done]. by eapply cache_traced_get.
  - intros p ttl Hp [w h] (Hr & Hc & Hs). cbn [cache_Set live_cache]. unfold on_base. cbn [lv_world cache_Set world_cache].
    unfold bind. destruct (w_tick w) as [t w1] eqn:Et. injection Et as _ <-. cbn.
    split; [|done]. split; [done|]. split; [by apply cache_traced_set|done].
  - intros p Hp [w h] (Hr & Hc & Hs). cbn. split; [|done]. split; [done|]. split; [done|]. by apply store_traced_save.
  - intros coin cur [w h] Hl. split; [exact Hl|]. destruct Hl as (_ & _ & Hs). cbn. unfold price_answer. cbn.
    destruct (MemStore.GetLatest _ _ _) eqn:E; [|done]. by eapply store_traced_latest.
  - intros t chain address cur l Hl. split; [by eapply clean_stays; [apply token_stays|]|].
    destruct (token_runs t chain address cur l) as (r & l' & E & _). rewrite E. destruct r as [q|e]; [|done].
    by exists t, chain, address, cur, l, l'.
  - intros chain address [w h] Hl. split; [exact Hl|done].
  - intros chain address coin [w h] Hl. split; [exact Hl|done].
Qed.
End live.

(** ** The system

    [cfg] is the configuration, [server] the HTTP servers and [sent] what
    Binance sends.  A step may let more happen than the program does (a
    notification may come early or twice, two prices of the stream may be saved
    at once): what holds of every state reached here holds of the program. *)
Section system.
Context {O : DecimalOps} {L : DecimalLaws O} `{!SortSlice} `{!MapRange} `{!GoFmt} `{!Unicode} `{!GoJSON} `{!GoParse}
  `{!Alerts.NetParse}.
Variables (server : Exchange.request -> Time -> Exchange.http_result) (sent : option jvalue -> Prop).
Variables (cfg : Config) (started : Time).
#[local] Instance sys_http : Exchange.HTTPClient live := live_http server.

Definition sys_service : PriceService (T := TokenAdapter) := NewPriceService started (main_deps cfg).
(** The adapters of the registrations. *)
Definition sys_adapters : list Adapter := reg_Provider <$> buildProviderRegistrations cfg.
Definition sys_currency : string := pc_DefaultCurrency (Pricing cfg).
Definition sys_streamed (p : Price) : Prop :=
  exists now msg, sent msg /\ Binance.ticker_price sys_currency now msg = Some p.
Notation sys_served := (served server sys_adapters).
Notation sys_accepted := (validated sys_service).
Notation sys_traced := (traced sys_served sys_accepted sys_streamed).

(** A turn of the loop that refreshes the registry. *)
Definition set_registry (r : TokenRegistry) (l : live) : live :=
  mkLive (mkWorld (w_router (lv_world l)) (w_clock (lv_world l)) (w_cache (lv_world l)) (w_store (lv_world l)) r
    (w_sched (lv_world l))) (lv_health l).
Definition sys_refresh (l l' : live) : Prop :=
  let '(fetched, l1) := Catalog.FetchCoinGeckoCatalog (main_cgBaseURL cfg) l in
  l' = set_registry (refresh_tick fetched (main_chains cfg) (live_registry_of l1)) l1.

Record system := mkSystem {
  sy_exec : execution (W := live);
  sy_channel : list Price;
  sy_hub : Hub.Hub;
  sy_alerts : Alerts.AlertService }.
Definition set_exec (e : execution (W := live)) (y : system) : system := mkSystem e (sy_channel y) (sy_hub y) (sy_alerts y).
Definition new_thread (w : work) (e : execution (W := live)) : execution (W := live) := mkExec (ex_world e) (ex_threads e ++ [mkThread w []]).

Inductive sys_step : system -> system -> Prop :=
  (* a request arrives, makes its next call, or starts a goroutine that saves *)
  | sy_call e y : ex_step sys_service (P := Adapter) sys_refresh (fun _ => False) (sy_exec y) e ->
      sys_step y (set_exec e y)
  (* a message of the stream is read *)
  | sy_read now msg y : sent msg ->
      sys_step y (mkSystem (sy_exec y) (Binance.read_turn sys_currency now msg (sy_channel y)) (sy_hub y) (sy_alerts y))
  (* the stream's loop takes a price, and hands it to the hub after it is saved *)
  | sy_take p ps y : sy_channel y = p :: ps ->
      sys_step y (mkSystem (new_thread (WStream (pc_CacheTTL (Pricing cfg)) p) (sy_exec y)) ps (sy_hub y) (sy_alerts y))
  | sy_push t ttl p drop y : t ∈ ex_threads (sy_exec y) -> th_work t = WStream ttl p ->
      finished sys_service (P := Adapter) t (Some ADone) ->
      sys_step y (mkSystem (sy_exec y) (sy_channel y) (Hub.Hub_OnPriceUpdate drop p (sy_hub y)) (sy_alerts y))
  (* a notification that a request started *)
  | sy_notify t p drop y : t ∈ ex_threads (sy_exec y) -> starts sys_service (P := Adapter) t (TaskNotify p) ->
      sys_step y (let '(h, a) := multiListener_OnPriceUpdate drop p (sy_hub y, sy_alerts y) in
                  mkSystem (sy_exec y) (sy_channel y) h a)
  (* the hub, its connections and the alerts by themselves *)
  | sy_hub_local h y : Hub.hub_local (sy_hub y) h -> sys_step y (mkSystem (sy_exec y) (sy_channel y) h (sy_alerts y))
  | sy_alert_local a y : Alerts.alert_local (sy_alerts y) a -> sys_step y (mkSystem (sy_exec y) (sy_channel y) (sy_hub y) a).

Definition sys_world (c : Clock) (sched : list (option nat)) : live :=
  mkLive (mkWorld (fst (main_router cfg c)) (snd (main_router cfg c)) MemCache.NewCache MemStore.NewStore New sched) ∅.
Definition sys_init (c : Clock) (sched : list (option nat)) : system :=
  mkSystem (mkExec (sys_world c sched) []) [] Hub.NewHub Alerts.NewAlertService.
Definition sys_reachable (y : system) : Prop := exists c sched, rtc sys_step (sys_init c sched) y.

(** ** The invariant *)
Record sys_inv (y : system) : Prop := {
  si_exec : ex_clean (clean server sys_adapters sys_accepted sys_streamed) sys_served sys_accepted sys_streamed (sy_exec y);
  si_channel : Forall sys_streamed (sy_channel y);
  si_hub : Hub.hub_from sys_traced (sy_hub y);
  si_alerts : Alerts.alerts_from sys_traced (sy_alerts y) }.

Lemma sys_init_inv c sched : sys_inv (sys_init c sched).
Proof.
  split; simpl; [|constructor|by split|by split]. split; [|constructor]. split; [|by split].
  simpl. apply register_all_from; [|constructor]. unfold sys_adapters. apply Forall_forall. intros reg Hreg.
  apply list_elem_of_fmap. by exists reg.
Qed.
Lemma sys_refresh_clean l l' : sys_refresh l l' -> clean server sys_adapters sys_accepted sys_streamed l -> clean server sys_adapters sys_accepted sys_streamed l'.
Proof.
  unfold sys_refresh. assert (keeps stays (Catalog.FetchCoinGeckoCatalog (W := live) (main_cgBaseURL cfg))) as Hk.
  { unfold Catalog.FetchCoinGeckoCatalog. apply keeps_bind; [apply _|apply http_stays|].
    intros [e| |code body]; [apply keeps_ret, _..|]. destruct (negb _); [apply keeps_ret, _|].
    destruct (decode _ _ _); apply keeps_ret, _. }
  specialize (Hk l). destruct (Catalog.FetchCoinGeckoCatalog _ l) as [fetched l1]. intros -> Hl.
  by apply (clean_stays _ _ _ _ _ _ Hk) in Hl.
Qed.
Lemma read_turn_streamed now msg ch : sent msg -> Forall sys_streamed ch ->
  Forall sys_streamed (Binance.read_turn sys_currency now msg ch).
Proof.
  intros Hs Hch. unfold Binance.read_turn. destruct (Binance.ticker_price _ _ _) eqn:E; [|done].
  destruct (_ <? _)%nat; [|done]. apply Forall_snoc. split; [done|]. by exists now, msg.
Qed.

Notation sys_clean := (clean server sys_adapters sys_accepted sys_streamed).
#[local] Instance sys_traceable : Traceable sys_clean (fun a => a ∈ sys_adapters) sys_served
  (token_served server) sys_accepted sys_streamed (one_may_panic sys_adapters) (P := Adapter) (T := TokenAdapter).
Proof. apply live_traceable. Qed.
(** Whatever panics, and whatever the thresholds. *)
#[local] Instance sys_traceable_any : Traceable sys_clean (fun a => a ∈ sys_adapters) sys_served
  (token_served server) sys_accepted sys_streamed True (P := Adapter) (T := TokenAdapter).
Proof. exact (traceable_weaken _ _ _ _ _ _ (one_may_panic sys_adapters) True (fun _ => I) sys_traceable). Qed.
Lemma sys_retries : 1 <= s_maxRetries sys_service.
Proof. apply NewPriceService_retries. Qed.

Lemma sys_thread e t : ex_clean sys_clean sys_served sys_accepted sys_streamed e -> t ∈ ex_threads e ->
  finite_service sys_service ->
  forall r, finished sys_service (P := Adapter) t r ->
    or_panic (one_may_panic sys_adapters)
      (answer_traced sys_served (token_served server) sys_accepted sys_streamed (th_work t)) r.
Proof.
  intros He Ht Hf. apply (ex_clean_answers _ (fun a => a ∈ sys_adapters) _ _ _ _ _ (TC := sys_traceable) _
    (fun p Hp => Hp) (or_introl Hf) sys_retries _ _ He Ht).
Qed.
Lemma sys_starts e t : ex_clean sys_clean sys_served sys_accepted sys_streamed e -> t ∈ ex_threads e ->
  forall x, starts sys_service (P := Adapter) t x -> sys_traced (task_price x).
Proof.
  intros He Ht. apply (ex_clean_answers _ (fun a => a ∈ sys_adapters) _ _ _ _ _ (TC := sys_traceable_any) _
    (fun p Hp => Hp) (or_intror I) sys_retries _ _ He Ht).
Qed.

Lemma sys_step_inv y y' : sys_step y y' -> sys_inv y -> sys_inv y'.
Proof.
  intros Hstep [He Hch Hh Ha].
  destruct Hstep as [e y Hs|now msg y Hm|p ps y Hp|t ttl p drop y Ht Hw Hf|t p drop y Ht Hs|h y Hl|a y Hl]; split; simpl; try done.
  - by apply (ex_step_clean _ (fun a => a ∈ sys_adapters) _ _ _ _ _ (TC := sys_traceable_any) _ (fun p Hp => Hp)
      (or_intror I) sys_retries _ _ sys_refresh_clean (fun p (Hp : False) => match Hp with end) _ _ Hs).
  - by apply read_turn_streamed.
  - rewrite Hp in Hch. apply Forall_cons in Hch as [Hp' _]. destruct He as [Hw Hts]. split; [done|].
    apply Forall_snoc. split; [done|]. split; [by apply TStreamed|constructor].
  - rewrite Hp in Hch. by apply Forall_cons in Hch as [_ ?].
  - apply Hub.Hub_OnPriceUpdate_from; [|done]. destruct He as [_ Hts]. eapply Forall_forall in Hts as [Hwork _]; [|exact Ht].
    by rewrite Hw in Hwork.
  - apply (sys_starts _ _ He Ht) in Hs. apply Hub.Hub_OnPriceUpdate_from; [exact Hs|done].
  - apply (sys_starts _ _ He Ht) in Hs. apply Alerts.OnPriceUpdate_from; [exact Hs|done].
  - by eapply Hub.hub_local_from.
  - by eapply Alerts.alert_local_from.
Qed.
Lemma sys_reachable_inv y : sys_reachable y -> sys_inv y.
Proof.
  intros (c & sched & Hr). pose proof (sys_init_inv c sched) as Hi. revert Hi.
  induction Hr as [|y1 y2 y3 Hstep _ IH]; [done|]. intros Hi. by eapply IH, sys_step_inv.
Qed.

(** ** What a traced price says of itself *)
Definition enabled_provider (name : string) : Prop :=
  exists pcfg, Providers cfg !! name = Some pcfg /\ pvc_Enabled pcfg = true /\ name ∈ known_providers.
(** The answer of an adapter that the configuration enables, under its name. *)
Definition from_enabled (coin cur : string) (p : Price) : Prop :=
  exists name, enabled_provider name /\ Exchange.priced name coin cur p.
Inductive origin (p : Price) : Prop :=
  | OAdapter : from_enabled (CoinID p) (Currency p) p -> sys_accepted p -> origin p
  | OConsensus now cr :
      p = consensusPrice (CoinID p) (Currency p) now cr ->
      cr_Prices cr <> [] -> Forall (from_enabled (CoinID p) (Currency p)) (cr_Prices cr) ->
      median (cr_Prices cr) = Some (cr_MedianPrice cr) -> dec_IsZero (cr_MedianPrice cr) = false -> origin p
  | OStream : PProvider p = "binance"%string -> sys_streamed p -> origin p.

Lemma registered_enabled a : a ∈ sys_adapters -> enabled_provider (ad_name a).
Proof.
  unfold sys_adapters, buildProviderRegistrations. intros (reg & -> & Hreg)%list_elem_of_fmap.
  apply list_elem_of_omap in Hreg as ([name pcfg] & Hin & Hr). apply elem_of_map_range in Hin.
  destruct (pvc_Enabled pcfg) eqn:He; [|done]. destruct (createProvider name pcfg) as [a|] eqn:Ec; [|done].
  injection Hr as <-. apply registration_ok in Ec as [Hn [Hk _]]. simpl in *. exists pcfg. by rewrite Hn in *.
Qed.
Lemma served_enabled coin cur p : sys_served coin cur p -> from_enabled coin cur p.
Proof.
  intros (a & w & w' & Ha & Hp). apply port_priced in Hp as [_ Hp]. exists (ad_name a).
  split; [by apply registered_enabled|done].
Qed.
Lemma traced_origin p : sys_traced p -> origin p.
Proof.
  intros [coin cur q Hq Hv|coin cur now cr Hne Hall Hm Hz|q Hq].
  - apply OAdapter; [|done]. apply served_enabled in Hq as (name & Hn & Hp). destruct Hp as (Hc & Hcur & Hrest).
    exists name. rewrite Hc, Hcur. by split_and!.
  - eapply (OConsensus _ now cr); [done|done| |done|done]. eapply Forall_impl; [exact Hall|]. apply served_enabled.
  - apply OStream; [|done]. destruct Hq as (now & msg & _ & Hp). unfold Binance.ticker_price in Hp.
    destruct (Binance.decode_ticker msg); [|done]. cbn [mbind option_bind] in Hp. destruct (negb _); [done|].
    destruct (Binance.ToCoinID _ _); [|done]. cbn [mbind option_bind] in Hp.
    destruct (dec_NewFromString _); [|done]. cbn [mbind option_bind] in Hp. by injection Hp as <-.
Qed.

(** ** The parts keep their own promises *)
Lemma sys_hub_step y y' : sys_step y y' -> rtc Hub.hub_step (sy_hub y) (sy_hub y').
Proof.
  intros Hs. destruct Hs; simpl; try apply rtc_refl; apply rtc_once;
    first [apply Hub.hs_update | by apply Hub.hs_local].
Qed.
Lemma sys_alert_step y y' : sys_step y y' -> rtc Alerts.alert_step (sy_alerts y) (sy_alerts y').
Proof.
  intros Hs. destruct Hs; simpl; try apply rtc_refl; apply rtc_once;
    first [apply Alerts.step_update | by apply Alerts.step_local].
Qed.
Lemma sys_components y : sys_reachable y -> Hub.reachable (sy_hub y) /\ Alerts.reachable (sy_alerts y).
Proof.
  intros (c & sched & Hr).
  assert (forall y0, rtc sys_step y0 y -> rtc Hub.hub_step (sy_hub y0) (sy_hub y) /\
    rtc Alerts.alert_step (sy_alerts y0) (sy_alerts y)) as Hall.
  { clear Hr. intros y0 Hr. induction Hr as [|y1 y2 y3 Hs _ [IH1 IH2]]; [by split; apply rtc_refl|].
    split; etrans; [by eapply sys_hub_step|done|by eapply sys_alert_step|done]. }
  exact (Hall _ Hr).
Qed.
End system.

(** ** The theorems *)
Section properties.
Context {O : DecimalOps} {L : DecimalLaws O} `{!SortSlice} `{!MapRange} `{!GoFmt} `{!Unicode} `{!GoJSON} `{!GoParse}
  `{!Alerts.NetParse}.
Variables (server : Exchange.request -> Time -> Exchange.http_result) (sent : option jvalue -> Prop).
Variables (cfg : Config) (started : Time).
#[local] Instance prop_http : Exchange.HTTPClient live := live_http server.
Notation reachable := (sys_reachable server sent cfg started).
Notation origin := (origin sent cfg started).


End properties.

(** ** Witnesses: a price of the stream is cached, then asked for *)
#[local] Existing Instance plain_GoJSON.
#[local] Existing Instance Alerts.demo_NetParse.
#[local] Instance demo_GoParse : GoParse := {
  time_ParseRFC3339 _ := None; time_ParseDuration _ := None; strconv_ParseFloat _ := None }.
Section witnesses.
#[local] Instance witness_http : Exchange.HTTPClient live := live_http demo_server.
Notation service := (sys_service defaults 0).
Notation step := (sys_step demo_server (fun _ => True) defaults 0).
Definition demo_message : option jvalue :=
  Some (VObj [("e", VStr "24hrMiniTicker"); ("s", VStr "BTCUSDT"); ("c", VStr "67432"); ("E", VNum "0")]%string).
Definition demo_price : Price :=
  default MemCache.sample_price (head (Binance.read_turn (sys_currency defaults) 0 demo_message [])).
Definition demo_ttl : Duration := pc_CacheTTL (Pricing defaults).
Definition demo_start : live := sys_world defaults demo_clock [].
Definition demo_cached : live := snd (cache_Set demo_price demo_ttl demo_start).
Definition stream_thread : thread (W := live) := mkThread (WStream demo_ttl demo_price) [].
Definition ask_thread : thread (W := live) := mkThread (WPrice "bitcoin" "usd") [].
(** The goroutine of the stream has cached the price, a request has looked. *)
Definition demo_taken : system :=
  mkSystem (mkExec demo_start [stream_thread]) [] Hub.NewHub Alerts.NewAlertService.
Definition demo_asked (w : live) (ts : list (thread (W := live))) : system :=
  mkSystem (mkExec w (mkThread (th_work stream_thread) [demo_start] :: ts)) [] Hub.NewHub Alerts.NewAlertService.

Lemma demo_taken_reachable : sys_reachable demo_server (fun _ => True) defaults 0 demo_taken.
Proof.
  exists demo_clock, []. eapply rtc_l; [apply (sy_read _ _ _ _ 0 demo_message); exact I|].
  apply rtc_once. exact (sy_take demo_server (fun _ => True) defaults 0 demo_price []
    (mkSystem (mkExec demo_start []) [demo_price] Hub.NewHub Alerts.NewAlertService) eq_refl).
Qed.
Lemma demo_cached_next : next_call service (P := Adapter) stream_thread demo_start demo_cached.
Proof. apply stream_first_call. Qed.
Definition demo_looked : live := snd (cache_Get "bitcoin"%string "usd"%string demo_cached).
Lemma demo_hit : cache_Get "bitcoin"%string "usd"%string demo_cached = (ok demo_price, demo_looked).
Proof.
  rewrite (surjective_pairing (cache_Get "bitcoin"%string "usd"%string demo_cached)). unfold demo_looked. by f_equal.
Qed.
Lemma demo_asked_reachable : sys_reachable demo_server (fun _ => True) defaults 0 (demo_asked demo_cached [ask_thread]).
Proof.
  destruct demo_taken_reachable as (c & sched & Hr). exists c, sched. eapply rtc_r; [eapply rtc_r; [exact Hr|]|].
  - apply sy_call. exact (ex_call service _ _ 0 stream_thread demo_cached (mkExec demo_start [stream_thread]) eq_refl demo_cached_next).
  - apply sy_call. exact (ex_request service (sys_refresh demo_server defaults) _ (WPrice "bitcoin" "usd")
      (mkExec demo_cached [mkThread (th_work stream_thread) [demo_start]]) ltac:(discriminate) ltac:(discriminate)).
Qed.
Definition answered_thread : thread (W := live) := mkThread (WPrice "bitcoin" "usd") [demo_cached].
Lemma demo_answered_reachable : sys_reachable demo_server (fun _ => True) defaults 0 (demo_asked demo_looked [answered_thread]).
Proof.
  destruct demo_asked_reachable as (c & sched & Hr). exists c, sched. eapply rtc_r; [exact Hr|]. apply sy_call.
  exact (ex_call service _ _ 1 ask_thread demo_looked (mkExec demo_cached [mkThread (th_work stream_thread) [demo_start]; ask_thread])
    eq_refl (proj1 (cached_call service _ _ _ _ _ eq_refl demo_hit))).
Qed.


End witnesses.
